(* ===== verification/_CoqProject ===== *)
-Q . S2P
Prelude.v
GoStr.v
Hash.v
Sha256.v
Base58.v
Merkle.v
Modular.v
EC.v
Schnorr.v
MultiSig.v
Keys.v
BftSig.v
BftMessages.v
Bft.v
Wallet.v
ShardTx.v
Coins.v
Committee.v
Json.v
Params.v
LevelDB.v
Loan.v
HeightPool.v
BeaconPool.v
ShardPool.v
ShardToBeaconPool.v
CrossShardPool.v
BeaconState.v
BeaconVerify.v
TxStore.v
Payment.v
ShardChain.v
TxView.v
TxValidate.v
TxMeta.v
TxPool.v
BeaconProducer.v
BeaconInsert.v
Stability.v
Voting.v
StabilityProducer.v
BftBeacon.v
BeaconAgreement.v
