(* ===== verification/Prelude.v ===== *)
(** * A verification library for the constant (cash-prototype) node

    The node (src/, in Go) keeps a beacon chain and a number of shard chains.  Users pay with
    coins that are hidden in commitments, in transactions that a shard collects in its pool and
    puts into its blocks.  Shard blocks go to the beacon chain, which lists them, keeps the
    committees and the candidates, runs the board elections and the stability of the currency,
    and answers with instructions in its own blocks; shards send one another the outputs that
    their transactions pay across.  The committee of a chain agrees on each block in a round of
    a consensus protocol and signs it together.

    This library translates the parts that decide -- what is valid, what is stored, what is
    signed, what a block changes -- into executable definitions, and proves what they do.  Names
    are those of the source where Rocq allows it; each definition is mapped to its lines in
    PROJECT.json, which lists the parts of the source too, modelled or not.

    ** Conventions

    This file has what all others use.  Machine integers are Z with the wrap-around written out
    ([u64], [u32], [u8], [i64]); a panic, an error and a result are the three values of
    [outcome]; a function that changes state is of type [M S A], the state before to the state
    after and an [outcome], and keeps the state it had reached when it fails, as the source does.
    A pointer that may be nil is an [option] where the source tests or dereferences it; a Go map
    is a [gmap]; where the order in which Go visits a map can matter, the order is an argument,
    and theorems hold for all of them.  Random numbers and the clock are arguments.

    ** The files, from the bottom up

    - GoStr.v, Hash.v, Sha256.v, Base58.v, Merkle.v, Modular.v, Json.v: Go's strings and
      numbers as text; src/common (hash.go, hashfunc.go, common.go); SHA-256; src/common/base58;
      src/blockchain/merkle.go and hash_utils.go; arithmetic modulo a prime; encoding/json.
    - EC.v, Schnorr.v, MultiSig.v, Keys.v, Wallet.v, Coins.v, Payment.v: src/privacy (ec.go,
      pedersen.go, schnorr.go, elgamal.go, schnorrmultisig.go, key.go, coin.go,
      hybridencryption.go, aes.go), src/cashec, src/wallet, src/privacy/zeroknowledge.
    - LevelDB.v, TxStore.v, Loan.v: the store and its key schemes, src/database/lvdb, and loans.
    - HeightPool.v, BeaconPool.v, ShardPool.v, ShardToBeaconPool.v, CrossShardPool.v: the block
      pools of src/mempool; the first is the part that they share.
    - Params.v, Committee.v, BeaconState.v, BeaconVerify.v, BeaconProducer.v, BeaconInsert.v,
      BeaconAgreement.v: the beacon chain (src/blockchain: beaconbeststate.go, beaconblock.go,
      beaconprocess.go, beaconproducer.go, component): the state and its update by a block, the
      checks, the making and the insertion of a block; the last file is about them together.
    - Stability.v, Voting.v, StabilityProducer.v: the instructions of the stability of the
      currency and of the elections (stabilitybeaconprocess.go, stability.go, vote.go,
      constitution.go, governor.go, reserve.go, salary.go, src/metadata/fromshardins and
      frombeaconins).
    - ShardTx.v, ShardChain.v, TxView.v: what a shard block sends to other shards
      (shardutils.go), the state and checks of a shard chain (shardbeststate.go,
      shardprocess.go), what a shard block records (txviewpoint.go, blockchain.go).
    - TxValidate.v, TxMeta.v, TxPool.v: src/transaction, src/metadata, src/mempool/mempool.go.
    - BftSig.v, BftMessages.v, Bft.v, BftBeacon.v: src/consensus/constantbft and the messages of
      src/wire: signatures, messages, the round as a state machine over events, and the rounds of
      beacon nodes.

    The state of each part is a Record: [BestStateBeacon] and its groups (BeaconState.v), [Node]
    of a beacon node (BeaconInsert.v: best state, store and pools), [BestStateShard]
    (ShardChain.v), [TxViewPoint] and [Ledger] (TxView.v), [Pool] and [Node] (TxPool.v), [Round]
    (Bft.v), [Info] (Stability.v), the pools of blocks (one record a file).

    ** Interfaces

    What a component relies on is a class, which another file implements or which stands for
    code outside src/:
    - implemented here: [Sha256] (Sha256.v), [Signatures] (Keys.v, by the Schnorr signatures of
      Schnorr.v), [StabilityOps] of BeaconState.v (Stability.v), [ConstitutionOps] of
      BeaconInsert.v (Voting.v), [InstructionBuilder] of BeaconProducer.v (StabilityProducer.v),
      [BftChain] of Bft.v (BftBeacon.v), [OutputCoinOps] of ShardTx.v (Coins.v, Payment.v),
      [MetadataInfo], [MetadataFee] and [MetadataOps] of TxValidate.v (TxMeta.v, for the kinds of
      metadata modelled, with the other kinds a parameter), the record [CrossShardDb] of
      CrossShardPool.v (BeaconInsert.v), [BlockHeight], [BlockHash], [BlockShard] and
      [CrossShardBlk] of the pools, [BftMessage] of BftMessages.v;
    - outside src/: [Curve] (crypto/elliptic: a group on the points of a curve over a prime
      field), [Aes], [Hmac], [LevelDB] (goleveldb: a store whose writes may fail and otherwise do
      what they say), [Json] and the classes of JSON texts built on it ([ListsJson], [LoanJson],
      [BeaconJson], [ShardJson], [StabilityJson], [VotingJson]), [MetaEnv] (the JSON of the
      metadata and crypto/ecdsa);
    - parts of src/ that are not modelled: [RangeProofs] (the aggregated range proof),
      [VoteLookup] (what the chain finds of a transaction and of its metadata); and [TxHash] of
      Merkle.v (a transaction's hash as a total function; the one that may fail is in
      TxValidate.v).

    Theorems are proved over the classes.  Concrete inputs are evaluated on small instances: a
    curve of few points (SmallCurve of EC.v), a short hash (QuickHash of Sha256.v) where SHA-256
    itself is not the point, a store that is a map, codecs of countable types (Json.v).

    ** What is proved

    - The beacon chain: a block made in its turn is judged by every node by its own update and
      by nothing else (BeaconAgreement); the cross-shard links of an inserted block are followed
      by the shards; what is stored lacks them, and a failed insertion leaves the moved state
      (BeaconInsert); the swap made by a shard and the swap applied by the beacon agree, and the
      candidates are what the epoch says (BeaconState).
    - Consensus: a round ends; what it returns is a block that was made or verified, with the
      signatures of more than half of the committee; the combined signature validates; what
      rounds of several nodes agree on is refused at insertion (Bft, BftSig, BftBeacon).
    - Stability and votes: the bonds of a block are settled; a purchase of bonds halts the
      beacon, and staking the shards; dividends are never paid, boards and constitutions never
      change; votes add up (StabilityProducer, Stability, Voting).
    - Transactions: what a valid transaction is; what the signature covers; which coins can be
      spent again, and under what; the pool invariant; what a block records, commitments as a
      refinement of a list, token outputs as a state machine (TxValidate, TxMeta, TxPool, TxView,
      TxStore, Payment).
    - Cryptography: signing verifies, rounds of multi-signatures verify and can be forged, points
      are compressed and back, the proof of a serial number is complete, payments balance modulo
      2^64 (Schnorr, MultiSig, EC, Payment).
    - Pools and trees: the invariants of the block pools for every sequence of operations; the
      Merkle array is the tree; cross-shard data verifies at the receiver (BeaconPool,
      CrossShardPool, Merkle, ShardTx).
    Where the code does not do what it means to, the theorem says what it does, and PROJECT.json
    lists it as a finding.

    ** Loops and fuel

    Loops over lists are structural.  The others take a number of rounds that is enough:
    - [radix_digits] (Base58.v, EC.v): as many digits as the length of the input, doubled in base
      58, or the logarithm of the number; the round trips hold for every input;
    - [queue_run] (Merkle.v), [tx_root_loop] and [path_loop] (ShardTx.v): the length of the
      array, of which every round consumes a part; equality with the levels of the tree;
    - [words], [blocks], the primes of Sha256.v and [base64_encode] (GoStr.v): the length of the
      input, a round each taking at least one byte;
    - [IsPowerOfTwo_loop] (EC.v): the logarithm, the number being halved;
    - [follow] (BeaconInsert.v), a chain of links, is used by a theorem that holds for every fuel
      above the length of the chain;
    - [dividend_loop] (Stability.v): 257 rounds for a byte that runs through 256 values; that the
      loop of the source does not end is proved for every fuel;
    - [reduce_key] (Keys.v) and [Hash_loop] (EC.v) hash until a digest is in range or is a point,
      which nothing bounds: fuel is an argument, running out is [None], and the theorems ask for
      a digest in range within the fuel.

    ** What is not modelled

    - Goroutines and mutexes, except the two of the shard-to-beacon pool: an operation is one
      step.  In a round of consensus the messages, the timers and the changes of the node are
      events in any order.
    - The sending of messages, the synchronisation of blocks, the RPC server, the command line,
      files, logs, the wallet file, the bitcoin client: input and output around the operations.
    - The spare capacity of slices; the difference between a nil and an empty map where the
      source does not test it.
    - The insertion and the making of shard blocks as a whole, with the response transactions:
      they compose the parts of ShardChain.v, TxView.v and TxPool.v with the store.
    - The construction of transactions and of their proofs, the work of a wallet; the metadata of
      loans, crowd sales, CMBs, oracles and votes, of the shape of those of TxMeta.v.
    - The fee estimator (floating point), the oracle (its handlers are not called), code that is
      commented out, contracts in Solidity. *)

From Stdlib Require Export ZArith Lia.
From stdpp Require Export base tactics numbers list gmap strings sorting.

#[global] Open Scope Z_scope.

(** ** Machine integers *)

(** The wrap-around of Go's [uint64], of [byte], and the conversion to the signed
    64-bit [int]. *)
Definition u64 (z : Z) : Z := z mod 2 ^ 64.
Definition u32 (z : Z) : Z := z mod 2 ^ 32.
Definition u8 (z : Z) : Z := z mod 2 ^ 8.
Definition i64 (z : Z) : Z := (z + 2 ^ 63) mod 2 ^ 64 - 2 ^ 63.

Definition in_u64 (z : Z) : Prop := 0 <= z < 2 ^ 64.
Definition in_i64 (z : Z) : Prop := - 2 ^ 63 <= z < 2 ^ 63.
Definition in_u8 (z : Z) : Prop := 0 <= z < 2 ^ 8.

Lemma u64_id (z : Z) : in_u64 z -> u64 z = z.
Proof. intros. by apply Z.mod_small. Qed.

Lemma u64_range (z : Z) : in_u64 (u64 z).
Proof. by apply Z.mod_pos_bound. Qed.

Lemma u8_id (z : Z) : in_u8 z -> u8 z = z.
Proof. intros. by apply Z.mod_small. Qed.

Lemma u8_range (z : Z) : in_u8 (u8 z).
Proof. by apply Z.mod_pos_bound. Qed.

Lemma i64_id (z : Z) : in_i64 z -> i64 z = z.
Proof. intros [? ?]. unfold i64. rewrite Z.mod_small; lia. Qed.

Lemma i64_u64_sub (a b : Z) :
  0 <= a < 2 ^ 63 -> 0 <= b < 2 ^ 63 -> i64 (u64 (a - b)) = a - b.
Proof.
  intros Ha Hb. unfold i64, u64. rewrite Zplus_mod_idemp_l.
  rewrite Z.mod_small; lia.
Qed.

(** ** Outcomes and the state-and-error monad *)

(** A Go function that can fail returns a value or an [error]; an index out of
    range, a nil dereference or an explicit [panic] ends the call abruptly. *)
Inductive outcome (A : Type) : Type :=
  | Ok (a : A)
  | Err (e : string)
  | Panic.
Arguments Ok {_} _.
Arguments Err {_} _.
Arguments Panic {_}.

#[export] Instance outcome_eq_dec `{EqDecision A} : EqDecision (outcome A).
Proof. solve_decision. Defined.

#[export] Instance outcome_ret : MRet outcome := @Ok.
#[export] Instance outcome_bind : MBind outcome := fun A B f m =>
  match m with Ok a => f a | Err e => Err e | Panic => Panic end.
#[export] Instance outcome_fmap : FMap outcome := fun A B f m =>
  match m with Ok a => Ok (f a) | Err e => Err e | Panic => Panic end.

Definition is_ok {A} (o : outcome A) : bool :=
  match o with Ok _ => true | _ => false end.

(** A method on a pointer receiver: the receiver's fields it changed stay changed
    when it returns an error. *)
Definition M (S A : Type) : Type := S -> S * outcome A.

#[export] Instance M_ret {S} : MRet (M S) := fun A a s => (s, Ok a).
#[export] Instance M_bind {S} : MBind (M S) := fun A B f m s =>
  match m s with
  | (s', Ok a) => f a s'
  | (s', Err e) => (s', Err e)
  | (s', Panic) => (s', Panic)
  end.

Definition throw {S A} (e : string) : M S A := fun s => (s, Err e).
Definition gopanic {S A} : M S A := fun s => (s, Panic).
Definition get {S} : M S S := fun s => (s, Ok s).
Definition put {S} (s' : S) : M S unit := fun _ => (s', Ok tt).
Definition modify {S} (f : S -> S) : M S unit := fun s => (f s, Ok tt).
Definition lift {S A} (o : outcome A) : M S A := fun s => (s, o).

Lemma M_bind_ok {S A B} (m : M S A) (f : A -> M S B) s s' b :
  (m ≫= f) s = (s', Ok b) ->
  exists s1 a, m s = (s1, Ok a) /\ f a s1 = (s', Ok b).
Proof.
  unfold mbind, M_bind. destruct (m s) as [s1 [a| |]]; naive_solver.
Qed.

Lemma lift_ok {S A} (o : outcome A) (s s' : S) a : lift o s = (s', Ok a) -> s' = s /\ o = Ok a.
Proof. by intros [= <- ->]. Qed.

(** The loop [for _, x := range xs { body }] of a method: it stops at the first
    error. *)
Fixpoint mfor {S A} (body : A -> M S unit) (xs : list A) : M S unit :=
  match xs with
  | [] => mret tt
  | x :: xs' => body x ≫= fun _ => mfor body xs'
  end.

(** An invariant of the loop body is an invariant of the loop, whatever the
    outcome. *)
Lemma mfor_invariant {S A} (P : S -> Prop) (body : A -> M S unit) xs s :
  (forall x s, x ∈ xs -> P s -> P (fst (body x s))) ->
  P s -> P (fst (mfor body xs s)).
Proof.
  revert s. induction xs as [|x xs IH]; intros s Hbody Hs; [done|].
  assert (P (fst (body x s))) as H1 by (apply Hbody; [left|done]).
  cbn [mfor]. unfold mbind, M_bind.
  destruct (body x s) as [s1 [a| |]]; [|done..].
  apply IH; [|done]. intros. apply Hbody; [by right|done].
Qed.

(** A step keeps a property of the state, whatever its outcome. *)
Definition preserves {S A} (P : S -> Prop) (m : M S A) : Prop := forall s, P s -> P (fst (m s)).

Section Preserves.
Context {S : Type} (P : S -> Prop).

Lemma preserves_bind {A B} (m : M S A) (k : A -> M S B) :
  preserves P m -> (forall a, preserves P (k a)) -> preserves P (m ≫= k).
Proof.
  intros Hm Hk s Hs. specialize (Hm s Hs). unfold mbind, M_bind.
  destruct (m s) as [s1 [a| |]]; [by apply Hk|done..].
Qed.

Lemma preserves_mfor {A} (f : A -> M S unit) xs : (forall x, preserves P (f x)) -> preserves P (mfor f xs).
Proof. intros Hf s Hs. apply mfor_invariant; [|done]. intros x s' _. apply Hf. Qed.

(** A step that only looks. *)
Lemma preserves_read {A} (m : M S A) : (forall s, fst (m s) = s) -> preserves P m.
Proof. intros Hm s Hs. by rewrite Hm. Qed.

Lemma preserves_get {A} (k : S -> M S A) :
  (forall s, P s -> preserves P (k s)) -> preserves P (s ← get; k s).
Proof. intros Hk s Hs. by apply Hk. Qed.
End Preserves.

(** A property of the initial state that every step keeps holds in every reachable
    state. *)
Lemma rtc_invariant {A} (R : relation A) (P : A -> Prop) x y :
  P x -> (forall a b, P a -> R a b -> P b) -> rtc R x y -> P y.
Proof. intros Hx Hstep Hr. induction Hr; eauto. Qed.

(** ** Automation *)

Create HintDb go discriminated.

(** Splits on every test of the goal or of a hypothesis. *)
Ltac case_ifs :=
  repeat match goal with
  | |- context [if ?b then _ else _] => destruct b eqn:?
  | H : context [if ?b then _ else _] |- _ => destruct b eqn:?
  end.

(** Turns boolean comparisons in the hypotheses into propositions. *)
Ltac to_prop :=
  repeat match goal with
  | H : andb _ _ = true |- _ => apply andb_prop in H as [? ?]
  | H : orb _ _ = false |- _ => apply orb_false_elim in H as [? ?]
  | H : negb _ = true |- _ => apply negb_true_iff in H
  | H : negb _ = false |- _ => apply negb_false_iff in H
  | H : (_ =? _) = true |- _ => apply Z.eqb_eq in H
  | H : (_ =? _) = false |- _ => apply Z.eqb_neq in H
  | H : (_ <? _) = true |- _ => apply Z.ltb_lt in H
  | H : (_ <? _) = false |- _ => apply Z.ltb_ge in H
  | H : (_ <=? _) = true |- _ => apply Z.leb_le in H
  | H : (_ <=? _) = false |- _ => apply Z.leb_gt in H
  end.

(** Runs the monad's operations. *)
Ltac mrun := cbv beta iota delta [mbind M_bind mret M_ret get put modify lift throw gopanic].

(** Decides the comparisons of the goal that linear arithmetic settles. *)
Ltac cmp :=
  repeat match goal with
  | |- context [?x <=? ?y] =>
      first [ replace (x <=? y) with true by (symmetry; apply Z.leb_le; lia)
            | replace (x <=? y) with false by (symmetry; apply Z.leb_gt; lia) ]
  | |- context [?x <? ?y] =>
      first [ replace (x <? y) with true by (symmetry; apply Z.ltb_lt; lia)
            | replace (x <? y) with false by (symmetry; apply Z.ltb_ge; lia) ]
  | |- context [?x =? ?y] =>
      first [ replace (x =? y) with true by (symmetry; apply Z.eqb_eq; lia)
            | replace (x =? y) with false by (symmetry; apply Z.eqb_neq; lia) ]
  end.

(** Closed comparisons. *)
Ltac by_compute := cbv beta delta [in_u64 in_i64 in_u8]; repeat match goal with |- _ /\ _ => split end; vm_compute; congruence.

Ltac by_range := repeat (apply Forall_cons_2; [by_compute|]); apply Forall_nil_2.

Lemma Forall_sub {A} (P : A -> Prop) l k : l ⊆+ k -> Forall P k -> Forall P l.
Proof. rewrite !Forall_forall. intros Hsub Hk x Hx. eapply Hk, elem_of_submseteq; eauto. Qed.

(** ** Calls in a row *)

Lemma mapM_Ok {A B} (f : A -> outcome B) l k : mapM f l = Ok k <-> Forall2 (fun x y => f x = Ok y) l k.
Proof.
  revert k. induction l as [|x l IH]; intros k.
  - split; [intros [= <-]; constructor|by inversion 1].
  - change (mapM f (x :: l)) with (y ← f x; k ← mapM f l; mret (y :: k)). split.
    + destruct (f x) as [y|?|] eqn:E; [|done..]. cbn. destruct (mapM f l) as [k'|?|] eqn:El; [|done..].
      intros [= <-]. constructor; [done|]. by apply IH.
    + inversion 1 as [|? y ? k' E Hall]; subst. rewrite E. apply IH in Hall. cbn. by rewrite Hall.
Qed.

Lemma mapM_perm {A B} (f : A -> outcome B) l l' k' :
  l ≡ₚ l' -> mapM f l' = Ok k' -> exists k, mapM f l = Ok k /\ k ≡ₚ k'.
Proof.
  intros Hp Hk'. symmetry in Hp. apply mapM_Ok in Hk'. revert k' Hk'.
  induction Hp as [|x l' l Hp IH|x y l|l1 l2 l3 H1 IH1 H2 IH2]; intros k Hk.
  - exists k. split; [by apply mapM_Ok|done].
  - inversion Hk as [|? b ? k0 Hb Hk0]; subst. destruct (IH k0 Hk0) as (k1 & H1%mapM_Ok & Hp1).
    exists (b :: k1). split; [apply mapM_Ok; by constructor|by constructor].
  - inversion Hk as [|? b ? k0 Hb Hk0]; subst. inversion Hk0 as [|? b' ? k1 Hb' Hk1]; subst.
    exists (b' :: b :: k1). split; [apply mapM_Ok; by repeat constructor|constructor].
  - destruct (IH1 k Hk) as (k1 & H3%mapM_Ok & Hp1). destruct (IH2 k1 H3) as (k2 & H4 & Hp2).
    exists k2. split; [done|by etrans].
Qed.

(** ** Lists *)

Fixpoint drop_while {A} (f : A -> bool) (l : list A) : list A :=
  match l with
  | [] => []
  | x :: l' => if f x then drop_while f l' else l
  end.

Fixpoint take_while {A} (f : A -> bool) (l : list A) : list A :=
  match l with
  | [] => []
  | x :: l' => if f x then x :: take_while f l' else []
  end.

Lemma take_drop_while {A} (f : A -> bool) l :
  take_while f l ++ drop_while f l = l.
Proof. induction l as [|x l IH]; simpl; [done|]. destruct (f x); simpl; congruence. Qed.

Lemma drop_while_suffix {A} (f : A -> bool) l : drop_while f l `suffix_of` l.
Proof. exists (take_while f l). symmetry. apply take_drop_while. Qed.

Lemma drop_while_length {A} (f : A -> bool) l :
  (length (drop_while f l) <= length l)%nat.
Proof. induction l as [|x l IH]; simpl; [lia|]. destruct (f x); simpl; lia. Qed.

Lemma take_while_forall {A} (f : A -> bool) l : Forall (fun x => f x = true) (take_while f l).
Proof. induction l as [|x l IH]; simpl; [done|]. destruct (f x) eqn:?; by constructor. Qed.

Lemma drop_while_app {A} (f : A -> bool) l1 l2 :
  Forall (fun x => f x = true) l1 -> drop_while f (l1 ++ l2) = drop_while f l2.
Proof. induction 1 as [|x l Hx _ IH]; simpl; [done|]. by rewrite Hx. Qed.

Lemma take_while_app {A} (f : A -> bool) l1 l2 :
  Forall (fun x => f x = true) l1 -> take_while f (l1 ++ l2) = l1 ++ take_while f l2.
Proof. induction 1 as [|x l Hx _ IH]; simpl; [done|]. by rewrite Hx, IH. Qed.

Lemma drop_while_none {A} (f : A -> bool) l :
  Forall (fun x => f x = false) l -> drop_while f l = l.
Proof. destruct 1 as [|x l Hx _]; simpl; [done|]. by rewrite Hx. Qed.

Lemma take_while_none {A} (f : A -> bool) l :
  Forall (fun x => f x = false) l -> take_while f l = [].
Proof. destruct 1 as [|x l Hx _]; simpl; [done|]. by rewrite Hx. Qed.

Lemma Forall_drop_while {A} (P : A -> Prop) f l : Forall P l -> Forall P (drop_while f l).
Proof. rewrite <- (take_drop_while f l) at 1. by intros [_ ?]%Forall_app. Qed.

Lemma Forall_take_while {A} (P : A -> Prop) f l : Forall P l -> Forall P (take_while f l).
Proof. rewrite <- (take_drop_while f l) at 1. by intros [? _]%Forall_app. Qed.

Lemma drop_while_split {A} (f : A -> bool) l1 l2 :
  drop_while f (l1 ++ l2) =
    match drop_while f l1 with [] => drop_while f l2 | l1' => l1' ++ l2 end.
Proof. induction l1 as [|x l1 IH]; simpl; [done|]. by destruct (f x). Qed.

(** ** Loops over Go maps *)

(** [for k, v := range m { acc[k] = f(k, v, acc[k]) }]: an iteration reads and writes
    its own key only, so the (unspecified) iteration order does not matter. *)
Definition range_update {V W} (f : Z -> V -> option W -> W) (m : gmap Z V) (acc : gmap Z W) :
    gmap Z W :=
  map_fold (fun k v acc => <[k := f k v (acc !! k)]> acc) acc m.

Lemma range_update_lookup {V W} (f : Z -> V -> option W -> W) m acc k :
  range_update f m acc !! k =
    match m !! k with Some v => Some (f k v (acc !! k)) | None => acc !! k end.
Proof.
  unfold range_update. revert k.
  apply (map_fold_weak_ind (fun r m => forall k, r !! k =
    match m !! k with Some v => Some (f k v (acc !! k)) | None => acc !! k end)).
  - intros k. by rewrite lookup_empty.
  - intros i v m' r Hi IH k. destruct (decide (i = k)) as [<-|Hne].
    + rewrite !lookup_insert_eq, IH, Hi. done.
    + rewrite !lookup_insert_ne by done. apply IH.
Qed.

Lemma range_update_order {V W} (f : Z -> V -> option W -> W) m acc (kvs : list (Z * V)) :
  kvs ≡ₚ map_to_list m ->
  foldl (fun acc '(k, v) => <[k := f k v (acc !! k)]> acc) acc kvs = range_update f m acc.
Proof.
  intros Hp.
  assert (NoDup kvs.*1) as Hnd by (rewrite Hp; apply NoDup_fst_map_to_list).
  apply map_eq. intros k. rewrite range_update_lookup.
  replace (m !! k) with (list_to_map kvs (M := gmap Z V) !! k)
    by (rewrite (list_to_map_proper kvs (map_to_list m)) by done; by rewrite list_to_map_to_list).
  clear Hp m. revert acc. induction kvs as [|[k' v] kvs IH]; intros acc; simpl; [done|].
  apply NoDup_cons in Hnd as [Hk' Hnd]. rewrite IH by done.
  destruct (decide (k' = k)) as [<-|Hne].
  - rewrite !lookup_insert_eq. by rewrite (not_elem_of_list_to_map_1 _ _ Hk').
  - by rewrite !lookup_insert_ne.
Qed.

(** The zero value a Go map returns for an absent key. *)
Definition map_get (m : gmap Z Z) (k : Z) : Z := default 0 (m !! k).
Definition map_get_list {A} (m : gmap Z (list A)) (k : Z) : list A := default [] (m !! k).
