(* ===== verification/GoStr.v ===== *)
(** The parts of Go's [strings], [strconv], [encoding/hex], [encoding/binary] and
    [sort] packages that the node uses, with the laws its components rely on. *)

From Stdlib Require Import Ascii DecimalString DecimalZ DecimalN DecimalPos Decimal.
From S2P Require Import Prelude.

#[local] Open Scope char_scope.
#[local] Open Scope string_scope.
#[local] Open Scope Z_scope.

(** ** Strings and bytes *)

(** A Go string is a sequence of bytes; [[]byte(s)] copies them. *)
Definition bytes : Type := list Z.

Fixpoint bytes_of (s : string) : bytes :=
  match s with
  | EmptyString => []
  | String a s' => Z.of_N (Ascii.N_of_ascii a) :: bytes_of s'
  end.

Lemma bytes_of_app s1 s2 : bytes_of (s1 +:+ s2) = (bytes_of s1 ++ bytes_of s2)%list.
Proof. induction s1 as [|a s1 IH]; simpl; [done|]. by rewrite IH. Qed.

Lemma bytes_of_range s : Forall in_u8 (bytes_of s).
Proof.
  induction s as [|a s IH]; constructor; [|done].
  pose proof (Ascii.N_ascii_bounded a). unfold in_u8. lia.
Qed.

Lemma bytes_of_inj s1 s2 : bytes_of s1 = bytes_of s2 -> s1 = s2.
Proof.
  revert s2. induction s1 as [|a s1 IH]; intros [|b s2]; [done..|].
  simpl. intros [= Hab Hs]. apply N2Z.inj in Hab. f_equal; [|by apply IH].
  by rewrite <- (Ascii.ascii_N_embedding a), <- (Ascii.ascii_N_embedding b), Hab.
Qed.

(** ** [strings.Split] and [strings.Join] with the separator "," *)

Fixpoint Split (s : string) : list string :=
  match s with
  | EmptyString => [""]
  | String a s' =>
      if Ascii.eqb a ","%char then "" :: Split s'
      else match Split s' with
           | w :: ws => String a w :: ws
           | [] => [String a ""]
           end
  end.

Fixpoint Join (ws : list string) : string :=
  match ws with
  | [] => ""
  | [w] => w
  | w :: ws' => w +:+ "," +:+ Join ws'
  end.

Fixpoint no_comma (s : string) : bool :=
  match s with
  | EmptyString => true
  | String a s' => negb (Ascii.eqb a ","%char) && no_comma s'
  end.

Lemma split_nonempty s : Split s <> [].
Proof.
  destruct s as [|a s]; [done|]. simpl. destruct (Ascii.eqb a ","%char); [done|].
  by destruct (Split s).
Qed.

Lemma split_word w : no_comma w = true -> Split w = [w].
Proof.
  induction w as [|a w IH]; [done|]. simpl. destruct (Ascii.eqb a ","%char); [done|].
  simpl. intros Hw. by rewrite IH.
Qed.

Lemma split_cons w s : no_comma w = true -> Split (w +:+ "," +:+ s) = w :: Split s.
Proof.
  induction w as [|a w IH]; [done|]. simpl. destruct (Ascii.eqb a ","%char); [done|].
  simpl. intros Hw. by rewrite IH.
Qed.

(** Splitting undoes joining for a list of comma-free words that has an element; the
    empty list is the exception: it comes back as one empty word. *)
Lemma split_join ws :
  ws <> [] -> Forall (fun w => no_comma w = true) ws -> Split (Join ws) = ws.
Proof.
  intros Hne Hws. induction Hws as [|w ws Hw Hws IH]; [done|].
  destruct ws as [|w' ws]; [by apply split_word|].
  change (Split (w +:+ "," +:+ Join (w' :: ws)) = w :: w' :: ws).
  rewrite split_cons by done. by rewrite IH.
Qed.

Lemma join_split s : Join (Split s) = s.
Proof.
  induction s as [|a s IH]; [done|]. cbn [Split].
  pose proof (split_nonempty s). destruct (Split s) as [|w ws]; [done|].
  destruct (Ascii.eqb a ","%char) eqn:Ha.
  - apply Ascii.eqb_eq in Ha as ->. change (String ","%char (Join (w :: ws)) = String ","%char s). by rewrite IH.
  - rewrite <- IH. by destruct ws.
Qed.

Lemma split_no_comma s : Forall (fun w => no_comma w = true) (Split s).
Proof.
  induction s as [|a s IH]; [by repeat constructor|]. simpl.
  destruct (Ascii.eqb a ","%char) eqn:Ha; [by constructor|].
  destruct (Split s) as [|w ws]; simpl in *.
  - constructor; [|done]. simpl. by rewrite Ha.
  - apply Forall_cons in IH as [Hw Hws]. constructor; [|done]. simpl. by rewrite Ha.
Qed.

(** ** [strconv] *)

(** [strconv.Itoa] and [fmt.Sprintf("%v", i)] of an integer. *)
Definition Itoa (z : Z) : string := NilZero.string_of_int (Z.to_int z).

(** Decimal digits only, at least one. *)
Definition parse_digits (s : string) : option Z :=
  match NilZero.uint_of_string s with
  | Some d => Some (Z.of_uint d)
  | None => None
  end.

(** [strconv.Atoi] on a 64-bit platform. *)
Definition Atoi (s : string) : outcome Z :=
  let value := match s with
               | String "-"%char s' => Z.opp <$> parse_digits s'
               | String "+"%char s' => parse_digits s'
               | _ => parse_digits s
               end in
  match value with
  | None => Err "invalid syntax"
  | Some z => if bool_decide (- 2 ^ 63 <= z < 2 ^ 63) then Ok z else Err "value out of range"
  end.

(** [strconv.ParseUint(s, 10, 64)]. *)
Definition ParseUint (s : string) : outcome Z :=
  match parse_digits s with
  | None => Err "invalid syntax"
  | Some z => if z <? 2 ^ 64 then Ok z else Err "value out of range"
  end.

Lemma parse_digits_uint d : d <> Nil -> parse_digits (NilZero.string_of_uint d) = Some (Z.of_uint d).
Proof. intros Hd. unfold parse_digits. by rewrite NilZero.usu. Qed.

Lemma Itoa_unfold z :
  Itoa z = if z <? 0 then String "-"%char (NilZero.string_of_uint (Pos.to_uint (Z.to_pos (- z))))
           else NilZero.string_of_uint (N.to_uint (Z.to_N z)).
Proof. by destruct z. Qed.

Lemma string_of_uint_first d s c :
  NilZero.string_of_uint d = String c s -> c <> "-"%char /\ c <> "+"%char.
Proof. destruct d; simpl; intros [= <- _]; done. Qed.

Lemma parse_Itoa_nonneg z : 0 <= z -> parse_digits (Itoa z) = Some z.
Proof.
  intros Hz. rewrite Itoa_unfold. cmp. rewrite parse_digits_uint.
  - f_equal. unfold Z.of_uint. rewrite DecimalN.Unsigned.of_to. lia.
  - destruct z as [|p|p]; [done| |lia]. simpl. apply DecimalPos.Unsigned.to_uint_nonnil.
Qed.

Lemma Atoi_Itoa z : in_i64 z -> Atoi (Itoa z) = Ok z.
Proof.
  intros Hz. unfold Atoi. destruct (Z.neg_nonneg_cases z) as [Hn|Hn].
  - rewrite Itoa_unfold. cmp. rewrite parse_digits_uint by apply DecimalPos.Unsigned.to_uint_nonnil.
    simpl. unfold Z.of_uint. rewrite DecimalPos.Unsigned.of_to. simpl.
    rewrite bool_decide_true by (unfold in_i64 in Hz; lia). f_equal. lia.
  - pose proof (parse_Itoa_nonneg z Hn) as Hp. destruct (Itoa z) as [|c s] eqn:Hs.
    { done. }
    assert (c <> "-"%char /\ c <> "+"%char) as [H1 H2].
    { rewrite Itoa_unfold in Hs. destruct (z <? 0) eqn:?; to_prop; [lia|].
      by eapply string_of_uint_first. }
    assert (forall A (x y w : A), match c with "-"%char => x | "+"%char => y | _ => w end = w) as Hm.
    { intros. destruct c as [[] [] [] [] [] [] [] []]; done. }
    rewrite Hm, Hp. rewrite bool_decide_true by done. done.
Qed.

Lemma ParseUint_Itoa z : in_u64 z -> ParseUint (Itoa z) = Ok z.
Proof.
  intros [Hz Hz']. unfold ParseUint. rewrite parse_Itoa_nonneg by done. by cmp.
Qed.

Lemma Itoa_inj x y : Itoa x = Itoa y -> x = y.
Proof.
  intros H. rewrite <- (DecimalZ.of_to x), <- (DecimalZ.of_to y). f_equal.
  assert (forall z, Z.to_int z <> Pos Nil /\ Z.to_int z <> Neg Nil) as Hn.
  { intros [|p|p]; simpl; (split; [|]); try done;
      intros [= Hp]; by apply DecimalPos.Unsigned.to_uint_nonnil in Hp. }
  destruct (Hn x), (Hn y).
  apply (f_equal NilZero.int_of_string) in H. unfold Itoa in H.
  rewrite !NilZero.isi in H by done. congruence.
Qed.

(** ** [encoding/binary], little endian *)

Fixpoint le_bytes (n : nat) (z : Z) : bytes :=
  match n with
  | O => []
  | S n' => z mod 256 :: le_bytes n' (z / 256)
  end.

Fixpoint le_value (b : bytes) : Z :=
  match b with
  | [] => 0
  | x :: b' => x + 256 * le_value b'
  end.

Lemma le_bytes_length n z : length (le_bytes n z) = n.
Proof. revert z. induction n as [|n IH]; intros z; simpl; [done|]. by rewrite IH. Qed.

Lemma le_bytes_range n z : Forall in_u8 (le_bytes n z).
Proof.
  revert z. induction n as [|n IH]; intros z; simpl; constructor; [|done].
  unfold in_u8. apply Z.mod_pos_bound. lia.
Qed.

Lemma le_value_bytes n z : le_value (le_bytes n z) = z mod 256 ^ Z.of_nat n.
Proof.
  revert z. induction n as [|n IH]; intros z; simpl le_bytes; simpl le_value.
  - by rewrite Z.mod_1_r.
  - rewrite IH, Nat2Z.inj_succ, Z.pow_succ_r by lia.
    rewrite Z.rem_mul_r by lia. lia.
Qed.

Lemma le_bytes_value b : Forall in_u8 b -> le_bytes (length b) (le_value b) = b.
Proof.
  induction 1 as [|x b Hx _ IH]; [done|]. simpl. unfold in_u8 in Hx.
  rewrite (Z.mul_comm 256), Z.mod_add, Z.div_add by lia.
  rewrite Z.mod_small, Z.div_small by lia. by rewrite Z.add_0_l, IH.
Qed.

(** ** [encoding/hex] *)

Definition hex_digit (n : Z) : ascii :=
  Ascii.ascii_of_N (Z.to_N (if n <? 10 then 48 + n else 87 + n)).

Fixpoint hex_encode (b : bytes) : string :=
  match b with
  | [] => ""
  | x :: b' => String (hex_digit (x / 16)) (String (hex_digit (x mod 16)) (hex_encode b'))
  end.

(** [fromHexChar] accepts both cases. *)
Definition hex_value (a : ascii) : option Z :=
  let c := Z.of_N (Ascii.N_of_ascii a) in
  if (48 <=? c) && (c <=? 57) then Some (c - 48)
  else if (97 <=? c) && (c <=? 102) then Some (c - 87)
  else if (65 <=? c) && (c <=? 70) then Some (c - 55)
  else None.

(** An odd length or a character that is not a digit is an error. *)
Fixpoint hex_decode (s : string) : option bytes :=
  match s with
  | EmptyString => Some []
  | String a (String b s') =>
      match hex_value a, hex_value b, hex_decode s' with
      | Some x, Some y, Some l => Some (16 * x + y :: l)
      | _, _, _ => None
      end
  | String _ EmptyString => None
  end.

Lemma hex_value_digit n : 0 <= n < 16 -> hex_value (hex_digit n) = Some n.
Proof.
  intros Hn.
  assert (Forall (fun n => hex_value (hex_digit n) = Some n) (seqZ 0 16)) as H
    by (repeat (constructor; [reflexivity|]); constructor).
  rewrite Forall_forall in H. apply H, elem_of_seqZ. lia.
Qed.

Lemma hex_decode_encode b : Forall in_u8 b -> hex_decode (hex_encode b) = Some b.
Proof.
  induction 1 as [|x b Hx _ IH]; [done|]. cbn [hex_encode hex_decode]. unfold in_u8 in Hx.
  rewrite !hex_value_digit, IH.
  - by rewrite <- Z.div_mod by lia.
  - apply Z.mod_pos_bound. lia.
  - split; [apply Z.div_pos; lia|apply Z.div_lt_upper_bound; lia].
Qed.

Lemma hex_value_range a n : hex_value a = Some n -> 0 <= n < 16.
Proof. unfold hex_value. case_ifs; intros [= <-]; to_prop; lia. Qed.

Lemma hex_decode_range n s b :
  (String.length s <= n)%nat -> hex_decode s = Some b ->
  Forall in_u8 b /\ (2 * length b = String.length s)%nat.
Proof.
  revert s b. induction n as [|n IH]; intros [|x [|y s]] b Hn; simpl; try (by intros [= <-]);
    try (simpl in Hn; lia).
  destruct (hex_value x) eqn:Hx; [|done]. destruct (hex_value y) eqn:Hy; [|done].
  destruct (hex_decode s) as [l|] eqn:Hs; [|done]. intros [= <-].
  apply hex_value_range in Hx. apply hex_value_range in Hy.
  destruct (IH s l) as [Hl Hlen]; [simpl in Hn; lia|done|].
  split; [|simpl; lia]. constructor; [unfold in_u8; lia|done].
Qed.

Lemma hex_encode_length b : String.length (hex_encode b) = (2 * length b)%nat.
Proof. induction b as [|x b IH]; [done|]. cbn [hex_encode String.length length]. lia. Qed.

Lemma hex_encode_inj b1 b2 :
  Forall in_u8 b1 -> Forall in_u8 b2 -> hex_encode b1 = hex_encode b2 -> b1 = b2.
Proof.
  intros H1%hex_decode_encode H2%hex_decode_encode Heq. rewrite Heq in H1. congruence.
Qed.

(** ** [sort.Strings] and [sort.Ints] *)

Definition string_leb (s1 s2 : string) : bool :=
  match String.compare s1 s2 with Gt => false | _ => true end.

Definition sort_ints (l : list Z) : list Z := merge_sort Z.le l.

Lemma sort_ints_perm l : sort_ints l ≡ₚ l.
Proof. apply merge_sort_Permutation. Qed.

Lemma sort_ints_unique l1 l2 : l1 ≡ₚ l2 -> sort_ints l1 = sort_ints l2.
Proof.
  intros Hp. apply (Sorted_unique Z.le).
  - apply Sorted_merge_sort. intros ??. lia.
  - apply Sorted_merge_sort. intros ??. lia.
  - by rewrite !sort_ints_perm.
Qed.

(** ** [encoding/base64], standard alphabet with padding *)

Definition base64_digit (n : Z) : ascii :=
  Ascii.ascii_of_N (Z.to_N
    (if n <? 26 then 65 + n else if n <? 52 then 71 + n else if n <? 62 then n - 4
     else if n =? 62 then 43 else 47)).

Fixpoint base64_encode (fuel : nat) (b : bytes) : string :=
  match fuel, b with
  | S fuel', x :: y :: z :: rest =>
      String (base64_digit (x / 4)) (String (base64_digit (x mod 4 * 16 + y / 16))
        (String (base64_digit (y mod 16 * 4 + z / 64)) (String (base64_digit (z mod 64))
          (base64_encode fuel' rest))))
  | S _, [x; y] =>
      String (base64_digit (x / 4)) (String (base64_digit (x mod 4 * 16 + y / 16))
        (String (base64_digit (y mod 16 * 4)) "="))
  | S _, [x] => String (base64_digit (x / 4)) (String (base64_digit (x mod 4 * 16)) "==")
  | _, _ => ""
  end.

Definition dquote : ascii := Ascii.ascii_of_nat 34.

(** [json.Marshal] of a (non-nil) [[]byte]. *)
Definition json_bytes (b : bytes) : string :=
  String dquote (base64_encode (length b) b +:+ String dquote EmptyString).

Example base64_2_3 : base64_encode 2 [2; 3] = "AgM=".
Proof. reflexivity. Qed.

(** [strings] are written to a buffer one after the other. *)
Definition concat_bytes (strs : list string) : bytes := concat (map bytes_of strs).

(** ** Slices *)

#[local] Open Scope list_scope.
#[local] Open Scope Z_scope.

(** [data[i]], and [data[a:b]], which reads up to the capacity: [spare] is what the
    underlying array holds after the slice. *)
Definition byte_at (data : list Z) (i : nat) : outcome Z :=
  match data !! i with Some x => Ok x | None => Panic end.

Definition cut (data spare : bytes) (a b : nat) : outcome bytes :=
  if ((a <=? b) && (b <=? length (data ++ spare)))%nat then Ok (take (b - a) (drop a (data ++ spare))) else Panic.

Lemma byte_at_app (pre post : list Z) (x : Z) i : i = length pre -> byte_at (pre ++ x :: post) i = Ok x.
Proof. intros ->. unfold byte_at. by rewrite list_lookup_middle. Qed.

Lemma cut_app (pre b post spare : bytes) i j :
  i = length pre -> j = (length pre + length b)%nat -> cut (pre ++ b ++ post) spare i j = Ok b.
Proof.
  intros -> ->. unfold cut. rewrite !length_app.
  replace (_ && _) with true by (symmetry; apply andb_true_intro; split; apply Nat.leb_le; lia).
  rewrite <- !app_assoc, drop_app_length. replace (_ - _)%nat with (length b) by lia. by rewrite take_app_length.
Qed.
