(* ===== verification/Hash.v ===== *)
(** Hashes (src/common/hash.go, src/common/hashfunc.go) and the byte and list helpers
    of src/common/common.go.  The SHA-256 function is an interface here; [Sha256.v]
    implements it. *)

From S2P Require Import Prelude GoStr.

#[local] Open Scope string_scope.
#[local] Open Scope list_scope.
#[local] Open Scope Z_scope.

Definition HashSize : nat := 32.
Definition MaxHashStringSize : nat := 64.

(** [type Hash [32]byte]. *)
Definition Hash : Type := bytes.

Definition hash_ok (h : Hash) : Prop := length h = HashSize /\ Forall in_u8 h.

(** [sha256.Sum256]. *)
Class Sha256 : Type := {
  Sum256 : bytes -> Hash;
  Sum256_ok : forall b, hash_ok (Sum256 b)
}.

Module Hashes.

Definition zero_hash : Hash := replicate 32 0.

Lemma zero_hash_ok : hash_ok zero_hash.
Proof. split; [done|]. by apply Forall_replicate. Qed.

Section HashFunc.
Context `{!Sha256}.

Definition HashB (b : bytes) : bytes := Sum256 b.
Definition HashH (b : bytes) : Hash := Sum256 b.
Definition DoubleHashB (b : bytes) : bytes := Sum256 (Sum256 b).
Definition DoubleHashH (b : bytes) : Hash := Sum256 (Sum256 b).
End HashFunc.

(** [String] swaps the bytes end to end in its copy of the receiver. *)
Definition String (h : Hash) : string := hex_encode (rev h).

Definition MarshalText (h : Hash) : bytes := bytes_of (String h).

(** The receiver is a copy: the caller's hash does not change. *)
Definition UnmarshalText (h : Hash) (text : bytes) : Hash := h.

Definition SetBytes (newHash : bytes) : outcome Hash :=
  if (length newHash =? HashSize)%nat then Ok newHash else Err "invalid hash length".

Definition CloneBytes (h : Hash) : bytes := h.
Definition GetBytes (h : Hash) : bytes := h.

Definition NewHash (b : bytes) : outcome Hash := SetBytes b.

(** [IsEqual] on possibly nil pointers. *)
Definition IsEqual (h target : option Hash) : bool :=
  match h, target with
  | None, None => true
  | Some a, Some b => bool_decide (a = b)
  | _, _ => false
  end.

(** The bytes decoded are right-aligned in 32 zero bytes, which are then reversed. *)
Definition Decode (src : string) : outcome Hash :=
  if (MaxHashStringSize <? String.length src)%nat then Err "max hash string length is 64 bytes"
  else
    let srcBytes := if Nat.even (String.length src) then src else "0" +:+ src in
    match hex_decode srcBytes with
    | None => Err "encoding/hex: invalid byte"
    | Some b => Ok (rev (replicate (32 - length b) 0 ++ b))
    end.

Definition NewHashFromStr (s : string) : outcome Hash := Decode s.

Fixpoint ConvertArrayStringToArrayHash (strs : list string) : outcome (list Hash) :=
  match strs with
  | [] => Ok []
  | str :: rest =>
      hash ← NewHashFromStr str;
      hashes ← ConvertArrayStringToArrayHash rest;
      Ok (hash :: hashes)
  end.

Fixpoint Cmp (h target : Hash) : Z :=
  match h, target with
  | x :: h', y :: target' => if y <? x then 1 else if x <? y then -1 else Cmp h' target'
  | _, _ => 0
  end.

(** ** Tokens and assets *)

Definition token_id (b : Z) : Hash := b :: replicate 31 0.
Definition asset_id (b : Z) : Hash := replicate 8 99 ++ b :: replicate 23 0.

Definition BondTokenID : Hash := replicate 32 0.
Definition DCBTokenID : Hash := token_id 1.
Definition GOVTokenID : Hash := token_id 2.
Definition CMBTokenID : Hash := token_id 3.
Definition ConstantID : Hash := token_id 4.
Definition BTCAssetID : Hash := asset_id 1.
Definition ETHAssetID : Hash := asset_id 2.
Definition USDAssetID : Hash := asset_id 3.

Definition IsOffChainAsset (assetID : Hash) : bool := bool_decide (take 8 assetID = take 8 BTCAssetID).
Definition IsBondAsset (assetID : Hash) : bool := bool_decide (take 8 assetID = take 8 BondTokenID).
Definition IsConstantAsset (assetID : Hash) : bool := bool_decide (assetID = ConstantID).
Definition IsDCBTokenAsset (assetID : Hash) : bool := bool_decide (assetID = DCBTokenID).
Definition IsUSDAsset (assetID : Hash) : bool := bool_decide (assetID = USDAssetID).

(** ** Shards, indices, integers *)

Definition MAX_SHARD_NUMBER : Z := 4.
Definition EPOCH : Z := 10.
Definition RANDOM_TIME : Z := 5.
Definition OFFSET : Z := 1.

Definition GetShardIDFromLastByte (b : Z) : Z := b mod MAX_SHARD_NUMBER.

Fixpoint index_of {A} `{EqDecision A} (k : Z) (item : A) (list : list A) : Z :=
  match list with
  | [] => -1
  | v :: rest => if decide (item = v) then k else index_of (k + 1) item rest
  end.

Definition IndexOfStr (item : string) (list : list string) : Z := index_of 0 item list.
Definition IndexOfByte (item : Z) (arrays : bytes) : Z := index_of 0 item arrays.

Fixpoint CompareStringArray_loop (src dst : list string) : bool :=
  match src, dst with
  | [], _ => true
  | val :: src', d :: dst' => if decide (d = val) then CompareStringArray_loop src' dst' else false
  | _ :: _, [] => false
  end.

Definition CompareStringArray (src dst : list string) : bool :=
  if (length src =? length dst)%nat then CompareStringArray_loop src dst else false.

Definition Uint32ToBytes (value : Z) : bytes := le_bytes 4 value.
Definition Uint64ToBytes (value : Z) : bytes := le_bytes 8 value.
Definition Int64ToBytes (value : Z) : bytes := Uint64ToBytes (u64 value).
Definition Uint8ToBytes (value : Z) : bytes := [value].

(** [binary.LittleEndian.Uint64] panics on a slice shorter than 8 bytes. *)
Definition BytesToUint64 (b : bytes) : outcome Z :=
  if (length b <? 8)%nat then Panic else Ok (le_value (take 8 b)).
Definition BytesToUint32 (b : bytes) : outcome Z :=
  if (length b <? 4)%nat then Panic else Ok (le_value (take 4 b)).

Definition BoolToByte (value : bool) : Z := if value then 1 else 0.

(** The loop of [BytesPlusOne] from the last byte: [b] is the slice reversed. *)
Fixpoint plus_one_rev (b : bytes) : bytes :=
  match b with
  | [] => []
  | x :: rest => if x <? 255 then x + 1 :: rest else 0 :: plus_one_rev rest
  end.

Definition BytesPlusOne (b : bytes) : bytes := rev (plus_one_rev (rev b)).

(** Arbitrary-precision arithmetic on [int64(a)] and [int64(p)]; [Uint64] keeps the low
    64 bits of the absolute value. *)
Definition MilliEtherValue (a p : Z) : Z := u64 (Z.abs (Z.quot (i64 a * i64 p) 1000)).

Definition CentInMilliEther (a p : Z) : outcome Z :=
  if i64 p =? 0 then Panic else Ok (u64 (Z.abs (Z.quot (i64 a * 1000) (i64 p)))).

(** ** Lemmas *)

Lemma string_length h : String.length (String h) = (2 * length h)%nat.
Proof. unfold String. rewrite hex_encode_length, length_rev. done. Qed.

Lemma string_inj h1 h2 :
  Forall in_u8 h1 -> Forall in_u8 h2 -> String h1 = String h2 -> h1 = h2.
Proof.
  intros H1 H2 Heq. apply hex_encode_inj in Heq.
  - by rewrite <- (rev_involutive h1), Heq, rev_involutive.
  - by apply Forall_rev.
  - by apply Forall_rev.
Qed.

Lemma decode_string h : hash_ok h -> Decode (String h) = Ok h.
Proof.
  intros [Hlen Hr]. unfold Decode. rewrite string_length, Hlen. simpl.
  unfold String. rewrite hex_decode_encode by by apply Forall_rev.
  rewrite length_rev, Hlen. simpl. by rewrite rev_involutive.
Qed.

Lemma String_inj h h' : hash_ok h -> hash_ok h' -> String h = String h' -> h = h'.
Proof. intros H H' E. apply decode_string in H, H'. congruence. Qed.

Lemma index_of_spec {A} `{EqDecision A} (item : A) l k :
  (index_of k item l = -1 /\ ~ (item ∈ l)) \/
  (exists i, index_of k item l = k + Z.of_nat i /\ l !! i = Some item /\
     forall j, (j < i)%nat -> l !! j <> Some item).
Proof.
  revert k. induction l as [|v l IH]; intros k; simpl.
  - left. split; [done|]. apply not_elem_of_nil.
  - destruct (decide (item = v)) as [<-|Hne].
    + right. exists 0%nat. split_and!; [lia|done|lia].
    + destruct (IH (k + 1)) as [[-> Hn]|(i & -> & Hi & Hj)].
      * left. split; [done|]. rewrite elem_of_cons. by intros [?|?].
      * right. exists (S i). split_and!; [lia|done|].
        intros [|j] Hlt; simpl; [congruence|]. apply Hj. lia.
Qed.

Lemma IndexOfStr_range item l : -1 <= IndexOfStr item l < Z.of_nat (length l) \/ l = [].
Proof.
  unfold IndexOfStr. destruct (index_of_spec item l 0) as [[-> _]|(i & -> & Hi & _)].
  - destruct l; [by right|left; simpl; lia].
  - left. apply lookup_lt_Some in Hi. lia.
Qed.

Lemma IndexOfStr_In item l : (-1 <? IndexOfStr item l) = bool_decide (item ∈ l).
Proof.
  unfold IndexOfStr. destruct (index_of_spec item l 0) as [[-> Hn]|(i & -> & Hi & _)].
  - by rewrite bool_decide_false.
  - apply list_elem_of_lookup_2 in Hi. rewrite bool_decide_true by done. cmp. done.
Qed.

Lemma BytesToUint64_inv z : in_u64 z -> BytesToUint64 (Uint64ToBytes z) = Ok z.
Proof.
  intros Hz. unfold BytesToUint64, Uint64ToBytes. rewrite le_bytes_length. simpl Nat.ltb.
  cbv iota. rewrite take_ge by by rewrite le_bytes_length. rewrite le_value_bytes.
  by rewrite Z.mod_small.
Qed.

(** The big-endian value of a byte slice. *)
Definition be_value (b : bytes) : Z := le_value (rev b).

Lemma le_value_range b : Forall in_u8 b -> 0 <= le_value b < 256 ^ Z.of_nat (length b).
Proof.
  induction 1 as [|x b Hx _ IH]; [simpl; lia|]. unfold in_u8 in Hx.
  simpl length. rewrite Nat2Z.inj_succ, Z.pow_succ_r by lia. simpl. lia.
Qed.

Lemma plus_one_rev_spec b :
  Forall in_u8 b ->
  le_value (plus_one_rev b) = (le_value b + 1) mod 256 ^ Z.of_nat (length b).
Proof.
  induction 1 as [|x b Hx Hb IH]; [by rewrite Z.mod_1_r|].
  pose proof (le_value_range b Hb) as Hr. unfold in_u8 in Hx.
  simpl length. rewrite Nat2Z.inj_succ, Z.pow_succ_r by lia. simpl.
  destruct (x <? 255) eqn:Hlt; to_prop; simpl.
  - rewrite Z.mod_small by lia. lia.
  - rewrite IH. replace (x + 256 * le_value b + 1) with (256 * (le_value b + 1)) by lia.
    rewrite Z.mul_mod_distr_l by lia. lia.
Qed.

Lemma plus_one_rev_range b : Forall in_u8 b -> Forall in_u8 (plus_one_rev b).
Proof.
  induction 1 as [|x b Hx Hb IH]; simpl; [constructor|]. unfold in_u8 in *.
  destruct (x <? 255) eqn:?; to_prop; constructor; (done || lia).
Qed.

Lemma plus_one_rev_length b : length (plus_one_rev b) = length b.
Proof. induction b as [|x b IH]; [done|]. simpl. destruct (_ <? _); simpl; congruence. Qed.

Section HashFuncLemmas.
Context `{!Sha256}.

Lemma HashH_ok b : hash_ok (HashH b).
Proof. apply Sum256_ok. Qed.

Lemma DoubleHashH_ok b : hash_ok (DoubleHashH b).
Proof. apply Sum256_ok. Qed.
End HashFuncLemmas.

(** ** Properties *)

(** The textual form of a hash is unambiguous: [Decode] gives back the hash
    [String] printed, everything it accepts is a 32-byte hash, and from the (reversed)
    bytes of a string of full length it loses nothing: printing gives the string in
    lower case, here up to a second decoding. *)
Theorem hash_string_roundtrip (h : Hash) (s : string) :
  (hash_ok h -> Decode (String h) = Ok h) /\
  (forall h', Decode s = Ok h' -> hash_ok h' /\ Decode (String h') = Decode s).
Proof.
  split; [apply decode_string|]. unfold Decode at 1. intros h'.
  destruct (_ <? _)%nat eqn:Hlen; [done|]. apply Nat.ltb_ge in Hlen.
  destruct (hex_decode _) as [b|] eqn:Hb; [|done]. intros [= <-].
  assert (Forall in_u8 b /\ (length b <= 32)%nat) as [Hr Hl].
  { destruct (hex_decode_range _ _ _ (le_n _) Hb) as [Hr Hl]. split; [done|].
    unfold MaxHashStringSize in *.
    destruct (Nat.even (String.length s)) eqn:He in Hl; [lia|].
    change (String.length ("0" +:+ s)) with (S (String.length s)) in Hl.
    destruct (decide (String.length s = 64)%nat) as [Heq|]; [by rewrite Heq in He|lia]. }
  assert (hash_ok (rev (replicate (32 - length b) 0 ++ b))) as Hok.
  { split; [rewrite length_rev, length_app, length_replicate; unfold HashSize; lia|].
    apply Forall_rev, Forall_app. split; [by apply Forall_replicate|done]. }
  split; [done|]. rewrite decode_string by done. unfold Decode.
  apply Nat.ltb_ge in Hlen. by rewrite Hlen, Hb.
Qed.

(** [BytesPlusOne] is addition of one to a big-endian number of the slice's width:
    it keeps the length and wraps around to zero. *)
Theorem bytes_plus_one_spec (b : bytes) :
  Forall in_u8 b ->
  be_value (BytesPlusOne b) = (be_value b + 1) mod 256 ^ Z.of_nat (length b) /\
  length (BytesPlusOne b) = length b /\ Forall in_u8 (BytesPlusOne b).
Proof.
  intros Hb. apply Forall_rev in Hb. unfold be_value, BytesPlusOne.
  rewrite rev_involutive, plus_one_rev_spec, !length_rev, plus_one_rev_length, length_rev by done.
  split_and!; [done|done|]. by apply Forall_rev, plus_one_rev_range.
Qed.

Lemma hash_string_roundtrip_witness : Decode (String DCBTokenID) = Ok DCBTokenID.
Proof.
  refine (proj1 (hash_string_roundtrip DCBTokenID "") _).
  split; [done|]. repeat (constructor; [by_compute|]). constructor.
Defined.

Lemma bytes_plus_one_spec_witness : be_value (BytesPlusOne [1; 255]) = 512.
Proof.
  refine (proj1 (bytes_plus_one_spec [1; 255] _)). by_range.
Defined.
End Hashes.
