(* ===== verification/Sha256.v ===== *)
(** SHA-256, the function [crypto/sha256.Sum256] computes: the instance of the hash
    interface on which concrete inputs are evaluated. *)

From S2P Require Import Prelude GoStr Hash.

Module Sha256Impl.

Definition rotr (n x : Z) : Z := Z.lor (Z.shiftr x n) (u32 (Z.shiftl x (32 - n))).
Definition add32 (x y : Z) : Z := u32 (x + y).

(** The constants are the first 32 bits of the fractional parts of the square and cube
    roots of the first primes. *)
Definition prime (n : Z) : bool :=
  forallb (fun d => negb (n mod Z.of_nat d =? 0)) (seq 2 (Z.to_nat (Z.sqrt n) - 1)).

Fixpoint primes_from (fuel : nat) (count : nat) (n : Z) : list Z :=
  match fuel, count with
  | S fuel', S count' =>
      if prime n then n :: primes_from fuel' count' (n + 1) else primes_from fuel' count (n + 1)
  | _, _ => []
  end.

(** The integer cube root of a number below [2 ^ (3 * bits)], bit by bit. *)
Fixpoint cube_root (bits : nat) (acc n : Z) : Z :=
  match bits with
  | O => acc
  | S b =>
      let t := acc + 2 ^ Z.of_nat b in
      cube_root b (if t * t * t <=? n then t else acc) n
  end.

Definition initial : list Z :=
  Eval vm_compute in map (fun p => u32 (Z.sqrt (p * 2 ^ 64))) (primes_from 400 8 2).

Definition round_constants : list Z :=
  Eval vm_compute in map (fun p => u32 (cube_root 40 0 (p * 2 ^ 96))) (primes_from 400 64 2).

(** Big-endian bytes of a number, most significant first. *)
Definition be_bytes (n : nat) (z : Z) : bytes := rev (le_bytes n z).

(** The message, a one bit, zeros up to 56 bytes modulo 64, and the length in bits. *)
Definition pad (msg : bytes) : bytes :=
  let len := Z.of_nat (length msg) in
  msg ++ 128 :: replicate (Z.to_nat ((55 - len) mod 64)) 0 ++ be_bytes 8 (8 * len).

Fixpoint words (fuel : nat) (b : bytes) : list Z :=
  match fuel, b with
  | S fuel', b0 :: b1 :: b2 :: b3 :: rest =>
      (((b0 * 256 + b1) * 256 + b2) * 256 + b3) :: words fuel' rest
  | _, _ => []
  end.

(** The message schedule, latest word first. *)
Fixpoint schedule (n : nat) (w : list Z) : list Z :=
  match n with
  | O => w
  | S n' =>
      let w15 := nth 14 w 0 in
      let w2 := nth 1 w 0 in
      let s0 := Z.lxor (Z.lxor (rotr 7 w15) (rotr 18 w15)) (Z.shiftr w15 3) in
      let s1 := Z.lxor (Z.lxor (rotr 17 w2) (rotr 19 w2)) (Z.shiftr w2 10) in
      schedule n' (u32 (nth 15 w 0 + s0 + nth 6 w 0 + s1) :: w)
  end.

Definition sha_round (s : list Z) (kw : Z * Z) : list Z :=
  match s with
  | [a; b; c; d; e; f; g; h] =>
      let s1 := Z.lxor (Z.lxor (rotr 6 e) (rotr 11 e)) (rotr 25 e) in
      let ch := Z.lxor (Z.land e f) (Z.land (Z.lxor e 0xffffffff) g) in
      let t1 := u32 (h + s1 + ch + fst kw + snd kw) in
      let s0 := Z.lxor (Z.lxor (rotr 2 a) (rotr 13 a)) (rotr 22 a) in
      let maj := Z.lxor (Z.lxor (Z.land a b) (Z.land a c)) (Z.land b c) in
      let t2 := u32 (s0 + maj) in
      [u32 (t1 + t2); a; b; c; u32 (d + t1); e; f; g]
  | _ => s
  end.

Definition compress (state : list Z) (block : bytes) : list Z :=
  let w := rev (schedule 48 (rev (words 16 block))) in
  zip_with add32 state (foldl sha_round state (zip round_constants w)).

Fixpoint blocks (fuel : nat) (state : list Z) (b : bytes) : list Z :=
  match fuel, b with
  | S fuel', _ :: _ => blocks fuel' (compress state (take 64 b)) (drop 64 b)
  | _, _ => state
  end.

Definition digest (state : list Z) : bytes := concat (map (be_bytes 4) state).

(** The fuel is the number of bytes: more than the number of blocks. *)
Definition sha256 (msg : bytes) : bytes :=
  let b := pad msg in digest (blocks (length b) initial b).

Lemma sha_round_length s kw : length s = 8%nat -> length (sha_round s kw) = 8%nat.
Proof. intros H. by destruct s as [|? [|? [|? [|? [|? [|? [|? [|? [|]]]]]]]]]. Qed.

Lemma compress_length state block : length state = 8%nat -> length (compress state block) = 8%nat.
Proof.
  intros H. unfold compress. rewrite length_zip_with, H.
  set (l := zip _ _). clearbody l.
  assert (forall s, length s = 8%nat -> length (foldl sha_round s l) = 8%nat) as Hl.
  { induction l as [|kw l IH]; intros s Hs; simpl; [done|]. by apply IH, sha_round_length. }
  by rewrite Hl.
Qed.

Lemma blocks_length fuel state b : length state = 8%nat -> length (blocks fuel state b) = 8%nat.
Proof.
  revert state b. induction fuel as [|fuel IH]; intros state b H; [done|].
  simpl. destruct b; [done|]. by apply IH, compress_length.
Qed.

Lemma digest_ok state : length state = 8%nat -> hash_ok (digest state).
Proof.
  intros H. split.
  - unfold digest. unfold HashSize. replace 32%nat with (4 * length state)%nat by lia. clear H.
    induction state as [|x state IH]; [done|]. cbn [map concat]. rewrite length_app, IH.
    unfold be_bytes. rewrite length_rev, le_bytes_length. simpl length. lia.
  - clear H. unfold digest. induction state as [|x state IH]; [constructor|].
    cbn [map concat]. apply Forall_app. split; [|done]. apply Forall_rev, le_bytes_range.
Qed.

Lemma sha256_ok msg : hash_ok (sha256 msg).
Proof. apply digest_ok. by apply blocks_length. Qed.

#[export] Instance sha256_instance : Sha256 := {| Sum256 := sha256; Sum256_ok := sha256_ok |}.

(** The digest of "abc" in FIPS 180-4. *)
Example sha256_abc :
  hex_encode (sha256 (bytes_of "abc"))
  = "ba7816bf8f01cfea414140de5dae2223b00361a396177a9cb410ff61f20015ad"%string.
Proof. vm_compute. reflexivity. Qed.

(** A two-block message. *)
Example sha256_two_blocks :
  hex_encode (sha256 (bytes_of "abcdbcdecdefdefgefghfghighijhijkijkljklmklmnlmnomnopnopq"))
  = "248d6a61d20638b8e5c026930c3e6039a33ce45964ff2167f6ecedd419db06c1"%string.
Proof. vm_compute. reflexivity. Qed.
End Sha256Impl.

(** A quick digest, for concrete inputs of the larger models: what they show holds for every
    function whose digests have 32 bytes. *)
Module QuickHash.

Definition quick_digest (b : bytes) : bytes :=
  le_bytes 4 (foldl (fun acc x => (acc * 257 + x + 19) mod 65521) 1 b * 65479) ++ replicate 28 7.

Lemma quick_ok b : hash_ok (quick_digest b).
Proof.
  split; [unfold quick_digest; by rewrite length_app, le_bytes_length|]. apply Forall_app_2; [apply le_bytes_range|by apply Forall_replicate].
Qed.

#[export] Instance quick_hash : Sha256 := {| Sum256 := quick_digest; Sum256_ok := quick_ok |}.
End QuickHash.
