(* ===== verification/Base58.v ===== *)
(** Base58 and Base58Check (src/common/base58): the text form of public keys, addresses
    and signatures. *)

From Stdlib Require Import Ascii String.
From S2P Require Import Prelude GoStr Hash Sha256.

#[local] Open Scope string_scope.
#[local] Open Scope list_scope.
#[local] Open Scope Z_scope.

(** ** Numbers in a radix, least significant digit first *)

Section Radix.
Context (r : Z) (r_ge_2 : 2 <= r).

Fixpoint radix_digits (fuel : nat) (x : Z) : list Z :=
  match fuel with
  | O => []
  | S n => if 0 <? x then x mod r :: radix_digits n (x / r) else []
  end.

Fixpoint radix_value (l : list Z) : Z :=
  match l with
  | [] => 0
  | d :: l' => d + r * radix_value l'
  end.

Lemma radix_digits_value fuel x :
  0 <= x < r ^ Z.of_nat fuel -> radix_value (radix_digits fuel x) = x.
Proof.
  revert x. induction fuel as [|n IH]; intros x Hx; [simpl in *; lia|]. simpl.
  destruct (0 <? x) eqn:Hpos; to_prop; simpl; [|lia].
  rewrite Nat2Z.inj_succ, Z.pow_succ_r in Hx by lia. rewrite IH.
  - pose proof (Z.div_mod x r). lia.
  - split; [apply Z.div_pos; lia|apply Z.div_lt_upper_bound; lia].
Qed.

Lemma radix_digits_range fuel x : Forall (fun d => 0 <= d < r) (radix_digits fuel x).
Proof.
  revert x. induction fuel as [|n IH]; intros x; simpl; [constructor|].
  destruct (0 <? x); constructor; [apply Z.mod_pos_bound; lia|done].
Qed.

Lemma radix_value_range l :
  Forall (fun d => 0 <= d < r) l -> 0 <= radix_value l < r ^ Z.of_nat (length l).
Proof.
  induction 1 as [|d l Hd _ IH]; [simpl; lia|].
  simpl length. rewrite Nat2Z.inj_succ, Z.pow_succ_r by lia. simpl. nia.
Qed.

Lemma radix_value_zeros l n : radix_value (l ++ replicate n 0) = radix_value l.
Proof.
  induction l as [|d l IH]; simpl; [|by rewrite IH]. induction n as [|n IH]; simpl; [done|].
  rewrite IH. lia.
Qed.

Lemma radix_value_pos l :
  Forall (fun d => 0 <= d < r) l -> l <> [] -> List.last l 0 <> 0 -> 0 < radix_value l.
Proof.
  induction 1 as [|d l Hd Hl IH]; [done|]. intros _ Hlast. cbn [radix_value].
  destruct l as [|d' l]; [simpl in *; lia|].
  assert (0 < radix_value (d' :: l)) by (apply IH; done). nia.
Qed.

(** A number without a leading zero is found again from its value. *)
Lemma radix_value_digits fuel l :
  Forall (fun d => 0 <= d < r) l -> (length l <= fuel)%nat ->
  (l <> [] -> List.last l 0 <> 0) -> radix_digits fuel (radix_value l) = l.
Proof.
  intros Hl. revert fuel. induction Hl as [|d l Hd Hl IH]; intros fuel Hlen Hlast.
  - by destruct fuel.
  - destruct fuel as [|n]; [simpl in Hlen; lia|]. cbn [radix_digits].
    pose proof (radix_value_pos (d :: l) (Forall_cons_2 _ _ _ Hd Hl)) as Hpos.
    replace (0 <? radix_value (d :: l)) with true
      by (symmetry; apply Z.ltb_lt, Hpos; [done|by apply Hlast]).
    cbn [radix_value]. rewrite (Z.mul_comm r), Z.mod_add, Z.div_add by lia.
    rewrite Z.mod_small, Z.div_small by lia. f_equal. apply IH; [simpl in Hlen; lia|].
    intros Hne. destruct l; [done|]. by apply Hlast.
Qed.

(** The most significant digit found is not zero. *)
Lemma radix_digits_last fuel x :
  0 <= x < r ^ Z.of_nat fuel -> radix_digits fuel x <> [] -> List.last (radix_digits fuel x) 0 <> 0.
Proof.
  revert x. induction fuel as [|n IH]; intros x Hx Hne; [done|]. simpl in *.
  destruct (0 <? x) eqn:Hpos; to_prop; [|done].
  rewrite Nat2Z.inj_succ, Z.pow_succ_r in Hx by lia.
  assert (0 <= x / r < r ^ Z.of_nat n) as Hq
    by (split; [apply Z.div_pos; lia|apply Z.div_lt_upper_bound; lia]).
  pose proof (radix_digits_value n (x / r) Hq) as Hval.
  destruct (radix_digits n (x / r)) as [|d l] eqn:Hd.
  - simpl in *. pose proof (Z.div_mod x r). lia.
  - rewrite <- Hd. rewrite Hd. change (List.last (d :: l) 0 <> 0). rewrite <- Hd.
    apply IH; [done|]. by rewrite Hd.
Qed.
End Radix.

Lemma le_value_radix b : le_value b = radix_value 256 b.
Proof. induction b as [|x b IH]; [done|]. simpl. by rewrite IH. Qed.

Module Base58.
Import Hashes.

Definition alphabet : list ascii :=
  list_ascii_of_string "123456789ABCDEFGHJKLMNPQRSTUVWXYZabcdefghijkmnopqrstuvwxyz".

Definition alphabetIdx0 : ascii := Ascii.ascii_of_nat 49.

Definition alphabet_at (d : Z) : ascii := default alphabetIdx0 (alphabet !! Z.to_nat d).

(** The table gives the position in the alphabet, 255 for any other byte. *)
Definition b58 (a : ascii) : Z :=
  let i := index_of 0 a alphabet in if i =? -1 then 255 else i.

(** [big.Int.Bytes]: big-endian, without leading zeros. *)
Definition big_bytes (fuel : nat) (x : Z) : bytes := rev (radix_digits 256 fuel x).

Definition leading {A} (f : A -> bool) (l : list A) : nat := length (take_while f l).

Definition Encode (b : bytes) : list ascii :=
  let x := be_value b in
  let answer := map alphabet_at (radix_digits 58 (2 * length b) x)
                ++ replicate (leading (Z.eqb 0) b) alphabetIdx0 in
  rev answer.

Definition Decode (b : list ascii) : bytes :=
  if existsb (fun a => b58 a =? 255) b then []
  else
    let answer := radix_value 58 (rev (map b58 b)) in
    replicate (leading (Ascii.eqb alphabetIdx0) b) 0 ++ big_bytes (length b) answer.

Section Check.
Context {sha : Sha256}.

Definition ChecksumFirst4Bytes (input : bytes) : bytes := take 4 (DoubleHashB input).

Definition CheckEncode (input : bytes) (version : Z) : list ascii :=
  let b := version :: input in Encode (b ++ ChecksumFirst4Bytes b).

Definition CheckDecode (input : list ascii) : outcome (bytes * Z) :=
  let decoded := Decode input in
  let n := length decoded in
  if (n <? 5)%nat then Err "invalid format: version and/or checksum bytes missing"
  else
    let version := default 0 (head decoded) in
    if bool_decide (ChecksumFirst4Bytes (take (n - 4) decoded) = drop (n - 4) decoded)
    then Ok (drop 1 (take (n - 4) decoded), version)
    else Err "checksum error".
End Check.

Lemma b58_alphabet_at d : 0 <= d < 58 -> b58 (alphabet_at d) = d.
Proof.
  intros Hd.
  assert (Forall (fun d => b58 (alphabet_at d) = d) (seqZ 0 58)) as H
    by (repeat (constructor; [vm_compute; reflexivity|]); constructor).
  rewrite Forall_forall in H. apply H, elem_of_seqZ. lia.
Qed.

Lemma alphabet_at_zero d : 0 <= d < 58 -> Ascii.eqb alphabetIdx0 (alphabet_at d) = (d =? 0).
Proof.
  intros Hd.
  assert (Forall (fun d => Ascii.eqb alphabetIdx0 (alphabet_at d) = (d =? 0)) (seqZ 0 58)) as H
    by (repeat (constructor; [vm_compute; reflexivity|]); constructor).
  rewrite Forall_forall in H. apply H, elem_of_seqZ. lia.
Qed.

(** The digits of the encoded text, most significant first. *)
Lemma decode_digits ds z :
  Forall (fun d => 0 <= d < 58) ds -> (ds <> [] -> List.hd 0 ds <> 0) ->
  Decode (replicate z alphabetIdx0 ++ map alphabet_at ds)
  = replicate z 0 ++ big_bytes (z + length ds) (radix_value 58 (rev ds)).
Proof.
  intros Hds Hfirst. set (s := replicate z alphabetIdx0 ++ map alphabet_at ds).
  assert (map b58 s = replicate z 0 ++ ds) as Hb58.
  { unfold s. rewrite map_app, map_map. f_equal.
    - induction z as [|z IH]; [done|]. simpl. by f_equal.
    - clear -Hds. induction Hds as [|d ds Hd _ IH]; [done|]. simpl. by rewrite b58_alphabet_at, IH. }
  unfold Decode. destruct (existsb _ s) eqn:He.
  { exfalso. apply existsb_exists in He as (a & Ha & H255). to_prop.
    assert (255 ∈ replicate z 0 ++ ds) as Hin
      by (rewrite <- Hb58, <- H255; apply list_elem_of_In, in_map, Ha).
    apply elem_of_app in Hin as [Hin|Hin].
    - by apply elem_of_replicate in Hin as [? _].
    - rewrite Forall_forall in Hds. specialize (Hds _ Hin). lia. }
  rewrite Hb58. f_equal; [f_equal|f_equal].
  - unfold leading, s. clear -Hfirst Hds. induction z as [|z IH]; [|simpl; by rewrite IH]. cbn [replicate app].
    destruct ds as [|d ds]; [done|]. cbn [map take_while]. apply Forall_cons in Hds as [Hd _].
    rewrite alphabet_at_zero by done. destruct (d =? 0) eqn:?; [|done].
    to_prop. exfalso. by apply Hfirst.
  - unfold s. by rewrite length_app, length_replicate, length_map.
  - rewrite rev_app_distr.
    assert (rev (replicate z 0) = replicate z 0) as -> by (rewrite rev_alt; apply reverse_replicate).
    apply radix_value_zeros.
Qed.

Lemma leading_zeros b : b = replicate (leading (Z.eqb 0) b) 0 ++ drop_while (Z.eqb 0) b.
Proof.
  unfold leading. rewrite <- (take_drop_while (Z.eqb 0) b) at 1. f_equal.
  induction b as [|x b IH]; [done|]. cbn [take_while]. destruct (0 =? x) eqn:Hx; [|done].
  to_prop. subst x. simpl. by f_equal.
Qed.

Lemma hd_rev (l : list Z) : List.hd 0 (rev l) = List.last l 0.
Proof.
  induction l as [|x l _] using rev_ind; [done|]. by rewrite rev_app_distr, List.last_last.
Qed.

Lemma drop_zeros_first b : List.hd 1 (drop_while (Z.eqb 0) b) <> 0.
Proof.
  induction b as [|x b IH]; [done|]. cbn [drop_while]. destruct (0 =? x) eqn:?; [exact IH|]. to_prop.
  simpl. lia.
Qed.

(** Minimal big-endian bytes are determined by their value. *)
Lemma big_bytes_value fuel (l : bytes) :
  Forall in_u8 l -> List.hd 1 l <> 0 -> radix_value 256 (rev l) < 256 ^ Z.of_nat fuel ->
  big_bytes fuel (radix_value 256 (rev l)) = l.
Proof.
  intros Hl Hfirst Hx. set (x := radix_value 256 (rev l)) in *.
  assert (Forall (fun d => 0 <= d < 256) (rev l)) as Hr by by apply Forall_rev.
  assert (0 <= x < 256 ^ Z.of_nat fuel) as Hx'
    by (split; [apply (radix_value_range 256); [lia|done]|done]).
  unfold big_bytes. set (d := radix_digits 256 fuel x).
  set (n := (length d + length l)%nat).
  assert (d = radix_digits 256 n x) as Hd.
  { transitivity (radix_digits 256 n (radix_value 256 d)).
    - symmetry. apply radix_value_digits; [lia|by apply radix_digits_range|lia|].
      by apply radix_digits_last.
    - f_equal. by apply radix_digits_value. }
  rewrite Hd. unfold x. rewrite radix_value_digits; [apply rev_involutive|lia|done| |].
  - rewrite length_rev. lia.
  - intros Hne. rewrite <- hd_rev, rev_involutive. destruct l; [done|]. exact Hfirst.
Qed.

Lemma map_rev_alph ds : rev (map alphabet_at ds) = map alphabet_at (rev ds).
Proof. symmetry. apply map_rev. Qed.

Lemma decode_encode b : Forall in_u8 b -> Decode (Encode b) = b.
Proof.
  intros Hb. unfold Encode. set (x := be_value b). set (ds := radix_digits 58 _ x).
  set (z := leading (Z.eqb 0) b). set (l := drop_while (Z.eqb 0) b).
  assert (b = replicate z 0 ++ l) as Hsplit by apply leading_zeros.
  assert (Forall in_u8 l) as Hl by by apply Forall_drop_while.
  assert (x = radix_value 256 (rev l)) as Hx.
  { unfold x, be_value. rewrite Hsplit at 1. rewrite rev_app_distr, le_value_radix.
    assert (rev (replicate z 0) = replicate z 0) as -> by (rewrite rev_alt; apply reverse_replicate).
    apply radix_value_zeros. }
  assert (0 <= x < 58 ^ Z.of_nat (2 * length b)) as Hrange.
  { unfold x, be_value. rewrite <- (length_rev b).
    pose proof (le_value_range (rev b) (Forall_rev Hb)) as Hv. split; [lia|].
    eapply Z.lt_le_trans; [apply Hv|]. rewrite Nat2Z.inj_mul, Z.pow_mul_r by lia.
    apply Z.pow_le_mono_l. lia. }
  assert (radix_value 58 ds = x) as Hval by (apply radix_digits_value; [lia|done]).
  rewrite rev_app_distr, map_rev_alph.
  assert (rev (replicate z alphabetIdx0) = replicate z alphabetIdx0) as ->
    by (rewrite rev_alt; apply reverse_replicate).
  rewrite decode_digits.
  - rewrite rev_involutive, Hval, Hx, big_bytes_value; [done|done|by apply drop_zeros_first|].
    rewrite <- Hx, <- Hval. eapply Z.lt_le_trans.
    + apply (radix_value_range 58); [lia|]. by apply radix_digits_range.
    + rewrite length_rev. transitivity (256 ^ Z.of_nat (length ds)).
      * apply Z.pow_le_mono_l. lia.
      * apply Z.pow_le_mono_r; lia.
  - by apply Forall_rev, radix_digits_range.
  - intros Hne. rewrite hd_rev. apply radix_digits_last; [lia|done|].
    intros He. apply Hne. unfold ds. by rewrite He.
Qed.

Lemma check_roundtrip {sha : Sha256} (input : bytes) (version : Z) :
  Forall in_u8 input -> in_u8 version ->
  CheckDecode (CheckEncode input version) = Ok (input, version).
Proof.
  intros Hin Hv. unfold CheckEncode, CheckDecode. set (b := version :: input).
  assert (Forall in_u8 b) as Hb by by constructor.
  destruct (Sum256_ok (Sum256 b)) as [Hlen Hr].
  assert (length (ChecksumFirst4Bytes b) = 4%nat) as Hck.
  { unfold ChecksumFirst4Bytes, DoubleHashB. rewrite length_take, Hlen. done. }
  rewrite decode_encode.
  2: { apply Forall_app. split; [done|]. by apply Forall_take. }
  rewrite length_app, Hck. replace (length b + 4 - 4)%nat with (length b) by lia.
  destruct (_ <? 5)%nat eqn:H5; [apply Nat.ltb_lt in H5; simpl in H5; lia|].
  rewrite take_app_length, drop_app_length. by rewrite bool_decide_true.
Qed.

(** A change of the text is noticed unless the checksums agree: whatever decodes
    carries the checksum of its own version and payload. *)
Lemma check_decode_sound {sha : Sha256} (text : list ascii) (payload : bytes) (version : Z) :
  CheckDecode text = Ok (payload, version) ->
  Decode text = (version :: payload) ++ ChecksumFirst4Bytes (version :: payload).
Proof.
  unfold CheckDecode. destruct (_ <? 5)%nat eqn:H5; [done|]. apply Nat.ltb_ge in H5.
  case_bool_decide as Hc; [|done]. intros [= <- <-].
  destruct (Decode text) as [|v rest] eqn:Hd; [simpl in H5; lia|]. simpl in H5.
  set (n := (length (v :: rest) - 4)%nat) in *.
  assert (take n (v :: rest) = v :: drop 1 (take n (v :: rest))) as Htake.
  { destruct n as [|n'] eqn:Hn; [unfold n in Hn; simpl in Hn; lia|]. done. }
  simpl head. simpl default. rewrite <- Htake, Hc. symmetry. apply take_drop.
Qed.

(** [CheckDecode] recovers what [CheckEncode] wrote, version byte included, and accepts
    only texts that carry the checksum of their own version and payload. *)
Theorem base58check_roundtrip {sha : Sha256} (input : bytes) (version : Z) :
  Forall in_u8 input -> in_u8 version ->
  CheckDecode (CheckEncode input version) = Ok (input, version) /\
  forall text payload version', CheckDecode text = Ok (payload, version') ->
    Decode text = (version' :: payload) ++ ChecksumFirst4Bytes (version' :: payload).
Proof.
  intros Hin Hv. split; [by apply check_roundtrip|]. intros text payload v. apply check_decode_sound.
Qed.

Lemma base58check_roundtrip_witness :
  CheckDecode (sha := Sha256Impl.sha256_instance)
    (CheckEncode (sha := Sha256Impl.sha256_instance) [0; 7; 255] 0) = Ok ([0; 7; 255], 0).
Proof. apply base58check_roundtrip; [by_range|by_compute]. Defined.
End Base58.
