(* ===== verification/Merkle.v ===== *)
(** Merkle trees (src/blockchain/merkle.go) and the hashes of lists and maps that block
    headers carry (src/blockchain/hash_utils.go). *)

From S2P Require Import Prelude GoStr Hash Sha256.

#[local] Open Scope string_scope.
#[local] Open Scope list_scope.
#[local] Open Scope Z_scope.

(** The hash of a transaction ([metadata.Transaction.Hash]). *)
Class TxHash (T : Type) : Type := tx_hash : T -> Hash.
#[export] Hint Mode TxHash ! : typeclass_instances.

(** ** Trees in linear arrays

    Both tree builders of the code, this one and the cross-shard one, combine
    neighbours from the front of an array and write the results behind it: a queue. *)

Section Levels.
Context {A : Type} (f : A -> A -> A).

Fixpoint queue_run (fuel : nat) (q : list A) : list A :=
  match fuel, q with
  | S fuel', a :: b :: rest => a :: b :: queue_run fuel' (rest ++ [f a b])
  | _, _ => q
  end.

(** The reference: a level of the tree from the one below, all levels, the root. *)
Fixpoint parents (l : list A) : list A :=
  match l with
  | a :: b :: rest => f a b :: parents rest
  | _ => []
  end.

Fixpoint levels (k : nat) (l : list A) : list A :=
  match k with
  | O => l
  | S k' => l ++ levels k' (parents l)
  end.

Fixpoint tree_root (k : nat) (l : list A) : list A :=
  match k with
  | O => l
  | S k' => tree_root k' (parents l)
  end.

Lemma parents_length n l : length l = (2 * n)%nat -> length (parents l) = n.
Proof.
  revert l. induction n as [|n IH]; intros [|a [|b l]] H; simpl in *; try done; try lia.
  rewrite IH; lia.
Qed.

Lemma queue_run_level n l out fuel :
  length l = (2 * n)%nat ->
  queue_run (n + fuel) (l ++ out) = l ++ queue_run fuel (out ++ parents l).
Proof.
  revert l out. induction n as [|n IH]; intros [|a [|b l]] out H; simpl in H; try lia.
  - by rewrite app_nil_r.
  - cbn [Nat.add app queue_run]. rewrite <- app_assoc. rewrite IH by lia.
    by rewrite <- app_assoc.
Qed.

Lemma queue_run_levels k l :
  length l = (2 ^ k)%nat -> queue_run (2 ^ k - 1) l = levels k l.
Proof.
  revert l. induction k as [|k IH]; intros l H; [done|].
  rewrite Nat.pow_succ_r' in *. pose proof (Nat.pow_nonzero 2 k).
  replace (2 * 2 ^ k - 1)%nat with (2 ^ k + (2 ^ k - 1))%nat by lia.
  rewrite <- (app_nil_r l) at 1. rewrite queue_run_level by done.
  cbn [levels app]. by rewrite IH by by apply parents_length.
Qed.

Lemma queue_run_length fuel q :
  (fuel < length q)%nat -> length (queue_run fuel q) = (length q + fuel)%nat.
Proof.
  revert q. induction fuel as [|fuel IH]; intros q H; simpl; [lia|].
  destruct q as [|a [|b q]]; simpl in *; try lia. rewrite IH by (rewrite length_app; simpl; lia).
  rewrite length_app. simpl. lia.
Qed.

Lemma tree_root_length k l : length l = (2 ^ k)%nat -> length (tree_root k l) = 1%nat.
Proof.
  revert l. induction k as [|k IH]; intros l H; [done|].
  apply IH, parents_length. by rewrite <- Nat.pow_succ_r'.
Qed.

Lemma last_app_nonempty (x y : list A) d :
  y <> [] -> List.last (x ++ y) d = List.last y d.
Proof.
  intros Hy. induction x as [|a x IH]; [done|]. rewrite <- IH. simpl.
  destruct (x ++ y) eqn:He; [|done]. by apply app_eq_nil in He as [_ ?].
Qed.

Lemma levels_last k l d :
  length l = (2 ^ k)%nat -> List.last (levels k l) d = List.hd d (tree_root k l).
Proof.
  revert l. induction k as [|k IH]; intros l H.
  - by destruct l as [|a [|b l]].
  - assert (length (parents l) = (2 ^ k)%nat) as Hp
      by (apply parents_length; by rewrite <- Nat.pow_succ_r').
    cbn [levels tree_root]. rewrite <- IH by done.
    assert (levels k (parents l) <> []) as Hne.
    { intros He. assert (length (parents l) = 0%nat) as H0
        by (destruct k; simpl in He; [by rewrite He|by apply app_eq_nil in He as [-> _]]).
      pose proof (Nat.pow_nonzero 2 k). lia. }
    by apply last_app_nonempty.
Qed.

Lemma levels_length k l : length l = (2 ^ k)%nat -> length (levels k l) = (2 * 2 ^ k - 1)%nat.
Proof.
  intros H. rewrite <- queue_run_levels, queue_run_length by (pose proof (Nat.pow_nonzero 2 k); lia).
  lia.
Qed.
End Levels.

Module Merkle.
Section Merkle.
Context {sha : Sha256} {T : Type} `{!TxHash T}.
Import Hashes.

(** [n & (n - 1) == 0] holds for powers of two (and for 0); [math.Log2] truncated is the
    position of the highest bit. *)
Definition nextPowerOfTwo (n : Z) : Z :=
  if Z.land n (n - 1) =? 0 then n else Z.shiftl 1 (Z.log2 n + 1).

Definition hashMerkleBranches (left right : Hash) : Hash := DoubleHashH (left ++ right).

(** The value of a parent: nil without a left child, the left child with itself without
    a right one. *)
Definition merkle_node (left right : option Hash) : option Hash :=
  match left, right with
  | None, _ => None
  | Some l, None => Some (hashMerkleBranches l l)
  | Some l, Some r => Some (hashMerkleBranches l r)
  end.

(** The loop over [i = 0, 2, ...] with its running [offset]. *)
Fixpoint merkle_loop (iterations i offset : nat) (merkles : list (option Hash)) :
    list (option Hash) :=
  match iterations with
  | O => merkles
  | S n =>
      let parent := merkle_node (default None (merkles !! i)) (default None (merkles !! S i)) in
      merkle_loop n (i + 2) (offset + 1) (<[offset := parent]> merkles)
  end.

(** An array of [2 * nextPoT - 1] entries whose first ones are given, after the loop;
    [copy] stops at the end of the array. *)
Definition build_tree (nextPoT : nat) (leaves : list (option Hash)) : list (option Hash) :=
  let arraySize := (nextPoT * 2 - 1)%nat in
  let merkles := take arraySize leaves ++ replicate (arraySize - length leaves) None in
  merkle_loop (nextPoT - 1) 0 nextPoT merkles.

Definition BuildMerkleTreeStore (transactions : list T) : list (option Hash) :=
  match transactions with
  | [] => []
  | _ => build_tree (Z.to_nat (nextPowerOfTwo (Z.of_nat (length transactions))))
           (map (fun tx => Some (tx_hash tx)) transactions)
  end.

Definition BuildMerkleTreeOfHashs (shardsHash : list (option Hash)) : list (option Hash) :=
  build_tree (Z.to_nat (nextPowerOfTwo MAX_SHARD_NUMBER)) shardsHash.

(** Dereferencing a nil root panics. *)
Definition VerifyMerkleRootOfHashs (merkleTree : list (option Hash)) (merkleRoot : Hash) :
    outcome bool :=
  match List.last (BuildMerkleTreeOfHashs merkleTree) None with
  | None => Panic
  | Some tempRoot => Ok (bool_decide (tempRoot = merkleRoot))
  end.

Definition CalcMerkleRoot (txns : list T) : outcome Hash :=
  match txns with
  | [] => Ok zero_hash
  | _ => match List.last (BuildMerkleTreeStore txns) None with
         | None => Panic
         | Some root => Ok root
         end
  end.

(** ** Hashes of lists and maps *)

Definition GenerateZeroValueHash : outcome Hash := Ok zero_hash.

Definition GenerateHashFromStringArray (strs : list string) : outcome Hash :=
  match strs with
  | [] => GenerateZeroValueHash
  | _ => SetBytes (Sum256 (concat_bytes strs))
  end.

Definition GenerateHashFromHashArray (hashes : list Hash) : outcome Hash :=
  match hashes with
  | [] => GenerateZeroValueHash
  | _ => GenerateHashFromStringArray (map Hashes.String hashes)
  end.

(** The values of a map in ascending order of their (byte) keys. *)
Definition sorted_values {V} (m : gmap Z V) : list V :=
  omap (fun k => m !! k) (sort_ints (map_to_list m).*1).

Definition GenerateHashFromMapByteString (maps1 maps2 : gmap Z (list string)) : outcome Hash :=
  GenerateHashFromStringArray (concat (sorted_values maps1) ++ concat (sorted_values maps2)).

Record ShardState := mkShardState {
  Height : Z;
  StateHash : Hash;
  CrossShard : bytes
}.

Definition shard_state_string (shardState : ShardState) : string :=
  Itoa (i64 (Height shardState)) +:+ Hashes.String (StateHash shardState) +:+
  json_bytes (CrossShard shardState).

Definition GenerateHashFromShardState (allShardState : gmap Z (list ShardState)) : outcome Hash :=
  GenerateHashFromStringArray
    (map (fun states => foldl (fun res s => res +:+ shard_state_string s) "" states)
       (sorted_values allShardState)).

Definition same_hash (res : outcome Hash) (hash : Hash) : bool :=
  match res with Ok h => bool_decide (h = hash) | _ => false end.

Definition VerifyHashFromStringArray (strs : list string) (hash : Hash) : bool :=
  same_hash (GenerateHashFromStringArray strs) hash.

Definition VerifyHashFromHashArray (hashes : list Hash) (hash : Hash) : bool :=
  VerifyHashFromStringArray (map Hashes.String hashes) hash.

Definition VerifyHashFromMapByteString (maps1 maps2 : gmap Z (list string)) (hash : Hash) : bool :=
  same_hash (GenerateHashFromMapByteString maps1 maps2) hash.

Definition VerifyHashFromShardState (allShardState : gmap Z (list ShardState)) (hash : Hash) : bool :=
  same_hash (GenerateHashFromShardState allShardState) hash.

Definition VerifyRootHashFromStringArray (strs1 strs2 : list string) (hash : Hash) : outcome unit :=
  hashes1 ← ConvertArrayStringToArrayHash strs1;
  hashes2 ← ConvertArrayStringToArrayHash strs2;
  let merkleTree := BuildMerkleTreeOfHashs (map Some (hashes1 ++ hashes2)) in
  isOk ← VerifyMerkleRootOfHashs merkleTree hash;
  if isOk : bool then Ok tt else Err "Error verify merkle root".

(** ** What the builders compute *)

Lemma merkle_loop_queue iterations pre q tail :
  length tail = iterations -> (iterations < length q)%nat ->
  merkle_loop iterations (length pre) (length pre + length q) (pre ++ q ++ tail)
  = pre ++ queue_run merkle_node iterations q.
Proof.
  revert pre q tail. induction iterations as [|n IH]; intros pre q tail Htail Hq.
  - destruct tail; [|done]. by rewrite app_nil_r.
  - destruct q as [|a [|b q]]; simpl in Hq; try lia. destruct tail as [|t tail]; [done|].
    cbn [merkle_loop queue_run]. set (arr := pre ++ (a :: b :: q) ++ t :: tail).
    assert (arr !! length pre = Some a) as -> by (unfold arr; by rewrite lookup_app_r, Nat.sub_diag).
    assert (arr !! S (length pre) = Some b) as ->
      by (unfold arr; rewrite lookup_app_r, Nat.sub_succ_l, Nat.sub_diag by lia; done).
    simpl default.
    assert (<[(length pre + length (a :: b :: q))%nat := merkle_node a b]> arr
            = (pre ++ [a; b]) ++ (q ++ [merkle_node a b]) ++ tail) as ->.
    { unfold arr. rewrite insert_app_r. rewrite <- (Nat.add_0_r (length (a :: b :: q))), insert_app_r.
      simpl. rewrite <- !app_assoc. done. }
    replace (length pre + 2)%nat with (length (pre ++ [a; b])) by (rewrite length_app; done).
    replace (length pre + length (a :: b :: q) + 1)%nat
      with (length (pre ++ [a; b]) + length (q ++ [merkle_node a b]))%nat
      by (rewrite !length_app; simpl; lia).
    rewrite IH; [by rewrite <- app_assoc|by injection Htail|rewrite length_app; simpl; lia].
Qed.

(** The leaves of the tree: as many as the given power of two, missing ones nil. *)
Definition padded (k : nat) (leaves : list (option Hash)) : list (option Hash) :=
  take (2 ^ k) (leaves ++ replicate (2 ^ k) None).

Lemma padded_length k leaves : length (padded k leaves) = (2 ^ k)%nat.
Proof. unfold padded. rewrite length_take, length_app, length_replicate. lia. Qed.

Lemma build_tree_levels k leaves :
  build_tree (2 ^ k) leaves = levels merkle_node k (padded k leaves).
Proof.
  pose proof (Nat.pow_nonzero 2 k) as Hk. unfold build_tree.
  set (size := (2 ^ k * 2 - 1)%nat). set (arr := take size leaves ++ _).
  assert (length arr = size) as Hlen
    by (unfold arr; rewrite length_app, length_take, length_replicate; lia).
  assert (take (2 ^ k) arr = padded k leaves) as Hpad.
  { unfold arr, padded. rewrite !take_app, take_take, !length_take.
    replace (2 ^ k `min` size)%nat with (2 ^ k)%nat by (unfold size; lia). f_equal.
    rewrite !take_replicate. f_equal. lia. }
  rewrite <- queue_run_levels, <- Hpad by apply padded_length.
  rewrite <- (take_drop (2 ^ k) arr) at 1.
  assert (length (take (2 ^ k) arr) = 2 ^ k)%nat as Htk by (rewrite Hpad; apply padded_length).
  rewrite <- Htk at 2. apply (merkle_loop_queue _ []).
  - rewrite length_drop, Hlen. unfold size. lia.
  - lia.
Qed.

Lemma nextPowerOfTwo_spec n :
  0 < n -> exists k, nextPowerOfTwo n = 2 ^ Z.of_nat k /\ n <= 2 ^ Z.of_nat k < 2 * n.
Proof.
  intros Hn. pose proof (Z.log2_spec n Hn) as [H1 H2]. pose proof (Z.log2_nonneg n) as Hl.
  unfold nextPowerOfTwo. destruct (Z.land n (n - 1) =? 0) eqn:Hland; to_prop.
  - exists (Z.to_nat (Z.log2 n)). rewrite Z2Nat.id by done.
    assert (n = 2 ^ Z.log2 n); [|lia]. destruct (Z.eq_dec n (2 ^ Z.log2 n)) as [|Hne]; [done|].
    exfalso. assert (Z.testbit (Z.land n (n - 1)) (Z.log2 n) = true) as Hbit.
    { assert (Z.log2 (n - 1) = Z.log2 n) as Hlog.
      { apply Z.log2_unique; [done|]. lia. }
      rewrite Z.land_spec, Z.bit_log2 by done. rewrite <- Hlog at 1.
      rewrite Z.bit_log2; [done|]. pose proof (Z.pow_pos_nonneg 2 (Z.log2 n)). lia. }
    by rewrite Hland, Z.bits_0 in Hbit.
  - exists (Z.to_nat (Z.log2 n + 1)). rewrite Z2Nat.id, Z.shiftl_1_l by lia.
    rewrite Z.pow_succ_r in H2 by done. rewrite Z.pow_add_r, Z.pow_1_r by lia.
    assert (n <> 2 ^ Z.log2 n) as Hne; [|lia]. intros Heq. apply Hland.
    rewrite Heq at 2. rewrite Z.sub_1_r, <- Z.ones_equiv, Z.land_ones by done.
    rewrite Heq at 1. by apply Z.mod_same, Z.pow_nonzero.
Qed.

(** With the first leaf present, the leftmost node of every level is present. *)
Lemma tree_root_some k leaves :
  length leaves = (2 ^ k)%nat -> is_Some (List.hd None leaves) ->
  exists root, tree_root merkle_node k leaves = [Some root] /\
    ((exists h, k = 0%nat /\ leaves = [Some h]) \/ hash_ok root).
Proof.
  revert leaves. induction k as [|k IH]; intros leaves Hlen [x Hx].
  - destruct leaves as [|a [|b l]]; simpl in *; try done. subst a. exists x. eauto.
  - assert (length (parents merkle_node leaves) = (2 ^ k)%nat) as Hp
      by (apply parents_length; by rewrite <- Nat.pow_succ_r').
    pose proof (Nat.pow_nonzero 2 k). rewrite Nat.pow_succ_r' in Hlen.
    destruct leaves as [|a [|b l]]; simpl in Hlen; try lia. simpl in Hx. subst a.
    assert (exists y, merkle_node (Some x) b = Some y /\ hash_ok y) as (y & Hy & Hok).
    { destruct b; eexists; (split; [done|apply DoubleHashH_ok]). }
    cbn [tree_root]. destruct (IH _ Hp) as (root & Hroot & Hor).
    { cbn [parents]. rewrite Hy. done. }
    exists root. split; [done|]. right. destruct Hor as [(h & -> & Hh)|]; [|done].
    cbn [parents] in Hh. rewrite Hy in Hh. cbn [tree_root] in Hroot.
    cbn [parents] in Hroot. rewrite Hy in Hroot. simplify_eq. done.
Qed.

Lemma sorted_values_perm {V} (m : gmap Z V) : sorted_values m ≡ₚ (map_to_list m).*2.
Proof.
  unfold sorted_values. rewrite sort_ints_perm.
  assert (forall kvs, kvs ⊆ map_to_list m -> omap (fun k => m !! k) kvs.*1 = kvs.*2) as H.
  { induction kvs as [|[k v] kvs IH]; intros Hsub; [done|]. csimpl.
    assert (m !! k = Some v) as -> by (apply elem_of_map_to_list, Hsub; left).
    simpl. f_equal. apply IH. intros x Hx. apply Hsub. by right. }
  by rewrite H.
Qed.

Lemma GenerateHashFromStringArray_ok strs :
  exists h, GenerateHashFromStringArray strs = Ok h /\ hash_ok h /\
    h = (if strs is [] then zero_hash else Sum256 (concat_bytes strs)).
Proof.
  destruct strs as [|s strs]; [eauto using zero_hash_ok|].
  unfold GenerateHashFromStringArray, SetBytes. set (b := concat_bytes _). clearbody b.
  destruct (Sum256_ok b) as [Hlen Hr]. rewrite Hlen. simpl. exists (Sum256 b).
  by split_and!; [done|apply Sum256_ok|].
Qed.

(** ** Properties *)

(** C31. For any non-empty list of transactions [BuildMerkleTreeStore] fills its array,
    one loop over neighbouring cells, with all the levels of the smallest complete
    binary tree that has room for them (missing leaves nil, a node without right child
    hashed with itself), and [CalcMerkleRoot] returns that tree's root without
    dereferencing a nil entry. *)
Theorem merkle_tree_store_spec (txns : list T) :
  txns <> [] ->
  exists k, Z.of_nat (length txns) <= 2 ^ Z.of_nat k < 2 * Z.of_nat (length txns) /\
    let leaves := padded k (map (fun tx => Some (tx_hash tx)) txns) in
    BuildMerkleTreeStore txns = levels merkle_node k leaves /\
    exists root, CalcMerkleRoot txns = Ok root /\ tree_root merkle_node k leaves = [Some root].
Proof.
  intros Hne. destruct (nextPowerOfTwo_spec (Z.of_nat (length txns))) as (k & Hk & Hb).
  { destruct txns; [done|simpl; lia]. }
  exists k. split; [done|]. set (leaves := padded k _). cbv zeta.
  assert (BuildMerkleTreeStore txns = levels merkle_node k leaves) as Hbuild.
  { unfold leaves. rewrite <- build_tree_levels.
    replace (2 ^ k)%nat with (Z.to_nat (nextPowerOfTwo (Z.of_nat (length txns)))).
    - by destruct txns.
    - rewrite Hk. rewrite <- Nat2Z.inj_pow with (n := 2%nat). by rewrite Nat2Z.id. }
  split; [done|].
  destruct (tree_root_some k leaves) as (root & Hroot & _); [apply padded_length| |].
  { unfold leaves, padded. destruct txns as [|tx txns]; [done|].
    destruct (2 ^ k)%nat eqn:He; [by apply Nat.pow_nonzero in He|]. simpl. eauto. }
  exists root. split; [|done]. unfold CalcMerkleRoot. rewrite Hbuild.
  rewrite levels_last, Hroot by apply padded_length. by destruct txns.
Qed.

(** The tree over given hashes has exactly [MAX_SHARD_NUMBER] leaves: every hash after
    the fourth is ignored; rebuilding from the whole array (as [VerifyMerkleRootOfHashs]
    does) gives the same array. *)
Lemma merkle_of_hashs_spec (l : list (option Hash)) :
  BuildMerkleTreeOfHashs l = levels merkle_node 2 (padded 2 l) /\
  BuildMerkleTreeOfHashs l = BuildMerkleTreeOfHashs (take 4 l) /\
  BuildMerkleTreeOfHashs (BuildMerkleTreeOfHashs l) = BuildMerkleTreeOfHashs l.
Proof.
  assert (forall l, BuildMerkleTreeOfHashs l = levels merkle_node 2 (padded 2 l)) as H
    by (intros l'; apply (build_tree_levels 2)).
  split; [done|]. rewrite !H. split.
  - f_equal. destruct l as [|? [|? [|? [|? l]]]]; reflexivity.
  - f_equal. destruct l as [|? [|? [|? [|? l]]]]; reflexivity.
Qed.

(** Two lists of strings that both have an element get the same hash exactly when
    their concatenations agree or they exhibit a SHA-256 collision: the hash does not
    fix where one string ends and the next one starts (nor, in the validators root, where
    the committee ends and the pending validators start). *)
Theorem hash_string_array_spec (strs1 strs2 : list string) :
  strs1 <> [] -> strs2 <> [] ->
  GenerateHashFromStringArray strs1 = GenerateHashFromStringArray strs2 <->
  concat_bytes strs1 = concat_bytes strs2 \/
  (concat_bytes strs1 <> concat_bytes strs2 /\
   Sum256 (concat_bytes strs1) = Sum256 (concat_bytes strs2)).
Proof.
  intros H1 H2.
  destruct (GenerateHashFromStringArray_ok strs1) as (h1 & -> & _ & ->).
  destruct (GenerateHashFromStringArray_ok strs2) as (h2 & -> & _ & ->).
  destruct strs1; [done|]. destruct strs2; [done|]. split.
  - intros [= H]. destruct (decide (concat_bytes (s :: strs1) = concat_bytes (s0 :: strs2))); auto.
  - intros [->|[_ ->]]; done.
Qed.
End Merkle.

Section Witnesses.
#[local] Existing Instance Sha256Impl.sha256_instance.
#[local] Instance Z_tx : TxHash Z := Hashes.token_id.

Lemma merkle_tree_store_spec_witness : exists root, CalcMerkleRoot [1; 2; 3] = Ok root.
Proof.
  destruct (merkle_tree_store_spec [1; 2; 3]) as (k & _ & _ & root & H & _); [done|].
  exists root. exact H.
Defined.

Lemma hash_string_array_spec_witness :
  GenerateHashFromStringArray ["ab"; "c"] = GenerateHashFromStringArray ["a"; "bc"].
Proof. apply hash_string_array_spec; [done..|]. left. reflexivity. Defined.
End Witnesses.
End Merkle.
