(* ===== verification/Modular.v ===== *)
(** Arithmetic modulo a prime, as the curve of src/privacy uses it: modular powers
    ([big.Int.Exp] with a modulus) and the square roots modulo a prime that is 3 modulo 4. *)

From Stdlib Require Import ZArith Zdivisibility Lia.
From Stdlib Require Import Zmod.Zmod Zmod.ZstarBase Zmod.ZstarDef.
From S2P Require Import Prelude.

#[local] Open Scope Z_scope.

(** ** Powers *)

(** [new(big.Int).Exp(a, e, m)] for a positive modulus and a non-negative exponent, by
    repeated squaring. *)
Fixpoint pow_pos (a : Z) (e : positive) (m : Z) : Z :=
  match e with
  | xH => a mod m
  | xO e' => let h := pow_pos a e' m in h * h mod m
  | xI e' => let h := pow_pos a e' m in (h * h mod m) * a mod m
  end.

Definition powmod (a e m : Z) : Z :=
  match e with Zpos e' => pow_pos a e' m | _ => 1 mod m end.

Lemma pow_pos_spec a e m : m <> 0 -> pow_pos a e m = a ^ Zpos e mod m.
Proof.
  intros Hm. induction e as [e IH|e IH|]; cbn [pow_pos].
  - rewrite IH, <- Zmult_mod, Zmult_mod_idemp_l. f_equal.
    replace (Zpos e~1) with (Zpos e + Zpos e + 1) by lia. by rewrite !Z.pow_add_r, Z.pow_1_r by lia.
  - rewrite IH, <- Zmult_mod. f_equal. replace (Zpos e~0) with (Zpos e + Zpos e) by lia.
    by rewrite Z.pow_add_r by lia.
  - by rewrite Z.pow_1_r.
Qed.

Lemma powmod_spec a e m : m <> 0 -> 0 <= e -> powmod a e m = a ^ e mod m.
Proof. intros Hm He. destruct e as [|e|e]; [done|by apply pow_pos_spec|lia]. Qed.

(** ** Primes *)

Lemma prime_mul_zero p a b : Z.prime p -> (a * b) mod p = 0 -> a mod p = 0 \/ b mod p = 0.
Proof.
  intros Hp H. pose proof (Z.prime_ge_2 _ Hp).
  destruct (decide (a mod p = 0)) as [|Ha]; [by left|]. right.
  apply Z.mod_divide; [lia|]. apply Z.mod_divide in H; [|lia].
  apply (Z.gauss p a b); [done|]. apply Z.coprime_prime_l; [done|].
  intros Hd. by apply Ha, Z.mod_divide; [lia|].
Qed.

Lemma fermat_mod p a : Z.prime p -> a mod p <> 0 -> a ^ (p - 1) mod p = 1.
Proof.
  intros Hp Ha. pose proof (Z.prime_ge_2 _ Hp) as H2.
  assert (Z.coprime (a mod p) p) as Hc.
  { symmetry. apply Z.coprime_prime_small; [done|]. pose proof (Z.mod_pos_bound a p). lia. }
  pose proof (@Zstar.fermat p (Zstar.of_Zmod (Zmod.of_Z p a)) Hp) as Hf.
  apply (f_equal (fun x => Zmod.to_Z (Zstar.to_Zmod x))) in Hf.
  rewrite Zstar.to_Zmod_pow, Zstar.to_Zmod_of_Zmod in Hf by by rewrite Zmod.unsigned_of_Z.
  rewrite Zmod.unsigned_pow_nonneg_r, Zmod.unsigned_of_Z, Zstar.to_Zmod_1, Zmod.unsigned_1_pos in Hf by lia.
  rewrite Z.mod_pow_l in Hf. by replace (p - 1) with (Z.pred p) by lia.
Qed.

(** The root that [ComputeYCoord] takes. *)
Definition root (a p : Z) : Z := powmod a ((p + 1) / 4) p.

Lemma root_range a p : 0 < p -> 0 <= root a p < p.
Proof.
  intros Hp. unfold root, powmod. destruct ((p + 1) / 4) as [|e|e]; try by apply Z.mod_pos_bound.
  rewrite pow_pos_spec by lia. by apply Z.mod_pos_bound.
Qed.

(** It is a root of every square. *)
Lemma root_of_square p y a :
  Z.prime p -> p mod 4 = 3 -> a mod p = (y * y) mod p -> (root a p * root a p) mod p = a mod p.
Proof.
  intros Hp H4 Ha. pose proof (Z.prime_ge_2 _ Hp) as H2.
  set (k := (p + 1) / 4). assert (p = 4 * k - 1) as Hk.
  { unfold k. pose proof (Z.div_mod p 4). replace (p + 1) with ((p / 4 + 1) * 4) by lia.
    rewrite Z.div_mul by lia. lia. }
  unfold root. fold k. rewrite powmod_spec by lia.
  rewrite <- Zmult_mod, <- Z.pow_2_r, <- Z.pow_mul_r by lia.
  rewrite <- Z.mod_pow_l, Ha, Z.mod_pow_l, <- Z.pow_2_r, <- Z.pow_mul_r by lia.
  destruct (decide (y mod p = 0)) as [H0|H0].
  - rewrite <- (Z.mod_pow_l y 2), <- (Z.mod_pow_l y (2 * (k * 2))), H0. by rewrite !Z.pow_0_l by lia.
  - replace (2 * (k * 2)) with ((p - 1) + 2) by lia. rewrite Z.pow_add_r by lia.
    rewrite <- Zmult_mod_idemp_l, fermat_mod by done. by rewrite Z.mul_1_l.
Qed.

(** A prime leaves two roots. *)
Lemma two_roots p x y :
  Z.prime p -> 0 <= x < p -> 0 <= y < p -> (x * x) mod p = (y * y) mod p -> x = y \/ x = p - y.
Proof.
  intros Hp Hx Hy Heq.
  assert (((x - y) * (x + y)) mod p = 0) as H0.
  { replace ((x - y) * (x + y)) with (x * x - y * y) by lia. by rewrite Zminus_mod, Heq, Z.sub_diag. }
  apply prime_mul_zero in H0 as [H0|H0]; [| |done].
  - left. apply Z.mod_divide in H0 as [q Hq]; [|lia]. assert (q = 0) by nia. lia.
  - apply Z.mod_divide in H0 as [q Hq]; [|lia].
    assert (q = 0 \/ q = 1) as [-> | ->] by nia; [left; lia|right; lia].
Qed.
