(* ===== verification/EC.v ===== *)
(** Points of the curve and their compressed form (src/privacy/ec.go, the integer helpers of
    src/privacy/privacy_utils.go).  [crypto/elliptic] is an interface: a group on the points
    of a curve over a prime field. *)

From Stdlib Require Import Zdivisibility.
From S2P Require Import Prelude GoStr Hash Base58 Modular Sha256.

#[local] Open Scope list_scope.
#[local] Open Scope Z_scope.

Record EllipticPoint := mkPoint { X : Z; Y : Z }.

#[export] Instance point_eq_dec : EqDecision EllipticPoint.
Proof. solve_decision. Defined.

Create HintDb curve discriminated.

(** The point at infinity is (0, 0), by the convention of [crypto/elliptic]. *)
Definition infinity : EllipticPoint := mkPoint 0 0.

(** [elliptic.P256()]: its parameters, its operations, and the laws they obey on the points
    of the curve whose coordinates are reduced. *)
Class Curve : Type := {
  curve_P : Z;
  curve_N : Z;
  curve_B : Z;
  curve_G : EllipticPoint;
  IsOnCurve : Z -> Z -> bool;
  curve_Add : EllipticPoint -> EllipticPoint -> EllipticPoint;
  curve_Double : EllipticPoint -> EllipticPoint;
  curve_ScalarMult : EllipticPoint -> Z -> EllipticPoint;
  on_curve (p : EllipticPoint) :=
    0 <= X p < curve_P /\ 0 <= Y p < curve_P /\ IsOnCurve (X p) (Y p) = true;
  valid (p : EllipticPoint) := p = infinity \/ on_curve p;
  curve_prime : Z.prime curve_P;
  curve_mod4 : curve_P mod 4 = 3;
  curve_bits : curve_P < 2 ^ 256;
  curve_order : 1 < curve_N <= 2 ^ 256;
  curve_N_prime : Z.prime curve_N;
  curve_equation x y : 0 <= x < curve_P -> 0 <= y < curve_P ->
    IsOnCurve x y = bool_decide ((y * y) mod curve_P = (x * x * x - 3 * x + curve_B) mod curve_P);
  infinity_off : IsOnCurve 0 0 = false;
  base_on : on_curve curve_G;
  add_valid p q : valid p -> valid q -> valid (curve_Add p q);
  add_infinity p : valid p -> curve_Add infinity p = p;
  add_comm p q : valid p -> valid q -> curve_Add p q = curve_Add q p;
  add_assoc p q r : valid p -> valid q -> valid r ->
    curve_Add p (curve_Add q r) = curve_Add (curve_Add p q) r;
  add_inverse p : on_curve p -> curve_Add p (mkPoint (X p) ((curve_P - Y p) mod curve_P)) = infinity;
  double_add p : valid p -> curve_Double p = curve_Add p p;
  scalar_zero p : on_curve p -> curve_ScalarMult p 0 = infinity;
  scalar_succ p k : on_curve p -> 0 <= k -> curve_ScalarMult p (k + 1) = curve_Add p (curve_ScalarMult p k);
  scalar_order p : on_curve p -> curve_ScalarMult p curve_N = infinity;
  base_generates p : on_curve p -> exists k, 0 <= k < curve_N /\ p = curve_ScalarMult curve_G k
}.

Module EC.
Import Hashes Base58.

Definition BigIntSize : nat := 32.
Definition CompressedPointSize : nat := 33.
Definition PointCompressed : Z := 2.

(** ** Integers as bytes *)

(** [big.Int.Bytes]: big-endian, without leading zeros; [big.Int.SetBytes] reads them. *)
Definition Bytes (x : Z) : bytes := big_bytes (Z.to_nat (Z.log2 x + 1)) x.
Definition SetBytes (b : bytes) : Z := be_value b.

(** Leading zeros up to the size; a longer number stays as it is. *)
Definition AddPaddingBigInt (numInt : Z) (fixedSize : nat) : bytes :=
  replicate (fixedSize - length (Bytes numInt)) 0 ++ Bytes numInt.

Definition paddedAppend (size : nat) (dst src : bytes) : bytes :=
  (dst ++ replicate (size - length src) 0) ++ src.

Definition isOdd (a : Z) : bool := Z.testbit a 0.
Definition PAdd1Div4 (p : Z) : Z := (p + 1) / 4.

Fixpoint IsPowerOfTwo_loop (fuel : nat) (n : Z) : bool :=
  match fuel with
  | O => true
  | S fuel' => if 2 <? n then if n mod 2 =? 0 then IsPowerOfTwo_loop fuel' (n / 2) else false else true
  end.

(** Halving ends within [log2 n] steps. *)
Definition IsPowerOfTwo (n : Z) : bool :=
  if n <? 2 then false else IsPowerOfTwo_loop (Z.to_nat (Z.log2 n)) n.

(** [inum] is not negative where this is called. *)
Fixpoint ConvertIntToBinary (inum : Z) (n : nat) : bytes :=
  match n with O => [] | S n' => inum mod 2 :: ConvertIntToBinary (inum / 2) n' end.

Definition IntToByteArr (n : Z) : bytes :=
  if n =? 0 then [0; 0]
  else
    let a := Bytes (Z.abs n) in
    if (2 <? length a)%nat then []
    else match a with [x] => [0; x] | _ => a end.

Definition ByteArrToInt (b : bytes) : Z := if (length b =? 2)%nat then SetBytes b else 0.

(** ** Points *)

Section Points.
Context {curve : Curve}.

Definition IsEqual (p q : EllipticPoint) : bool := bool_decide (X p = X q) && bool_decide (Y p = Y q).

Definition Add (p q : EllipticPoint) : EllipticPoint := curve_Add p q.

(** [factor.Bytes()] is the absolute value. *)
Definition ScalarMult (p : EllipticPoint) (factor : Z) : EllipticPoint := curve_ScalarMult p (Z.abs factor).

Definition Inverse (p : EllipticPoint) : outcome EllipticPoint :=
  if IsOnCurve (X p) (Y p) then Ok (mkPoint (X p) ((curve_P - Y p) mod curve_P))
  else Err "The input point is not an elliptic point".

Definition Sub (p targetPoint : EllipticPoint) : outcome EllipticPoint :=
  invPoint ← Inverse targetPoint; Ok (Add p invPoint).

Definition IsSafe (p : EllipticPoint) : bool :=
  if IsOnCurve (X p) (Y p) then negb (IsEqual (curve_Double p) infinity) else false.

(** The right-hand side of the equation, and [Y] set to the root of it or of its opposite. *)
Definition xCube (x : Z) : Z := (powmod x 3 curve_P + curve_B - x * 3) mod curve_P.

Definition ComputeYCoord : M EllipticPoint unit :=
  point ← get;
  let y := powmod (xCube (X point)) (PAdd1Div4 curve_P) curve_P in
  _ ← put (mkPoint (X point) y);
  if (y * y) mod curve_P =? xCube (X point) then mret tt
  else throw "X is not an abscissa of a point on the elliptic curve".

(** [nil] for a point that is not on the curve. *)
Definition Compress (p : EllipticPoint) : bytes :=
  if IsOnCurve (X p) (Y p)
  then paddedAppend BigIntSize [if isOdd (Y p) then Z.lor PointCompressed 1 else PointCompressed] (Bytes (X p))
  else [].

Definition Decompress (compressPointBytes : bytes) : M EllipticPoint unit :=
  match compressPointBytes with
  | [] => gopanic
  | format :: _ =>
      if Z.land format 254 =? PointCompressed then
        if (length compressPointBytes <? 33)%nat then gopanic
        else
          point ← get;
          _ ← put (mkPoint (SetBytes (take 32 (drop 1 compressPointBytes))) (Y point));
          _ ← ComputeYCoord;
          point ← get;
          if Bool.eqb (Z.testbit format 0) (isOdd (Y point)) then mret tt
          else put (mkPoint (X point) (curve_P - Y point))
      else throw "invalid magic in compressed compressPoint bytes"
  end.

(** [new(EllipticPoint).Decompress(b)], the coordinates zero before the call. *)
Definition decompressed (b : bytes) : outcome EllipticPoint :=
  match Decompress b infinity with (p, Ok _) => Ok p | (_, Err e) => Err e | (_, Panic) => Panic end.

Section Derived.
Context {sha : Sha256}.

(** Hashing until the digest is the abscissa of a safe point; [None] is a loop that has
    not ended within the fuel. *)
Fixpoint Hash_loop (fuel : nat) (tmp : bytes) : option EllipticPoint :=
  match fuel with
  | O => None
  | S fuel' =>
      let tmp := HashB tmp in
      match ComputeYCoord (mkPoint (SetBytes tmp) 0) with
      | (res, Ok _) => if IsSafe res then Some res else Hash_loop fuel' tmp
      | _ => Hash_loop fuel' tmp
      end
  end.

Definition Hash_point (fuel : nat) (p : EllipticPoint) (index : Z) : option EllipticPoint :=
  Hash_loop fuel (AddPaddingBigInt (X p) BigIntSize ++ [u8 index]).
End Derived.
End Points.

(** ** Lemmas on bytes *)

Lemma digits_fuel r f g x :
  2 <= r -> 0 <= x < r ^ Z.of_nat f -> x < r ^ Z.of_nat g -> radix_digits r f x = radix_digits r g x.
Proof.
  intros Hr. revert g x. induction f as [|f IH]; intros [|g] x Hf Hg; [done| | |].
  - simpl in *. by replace (0 <? x) with false by (symmetry; apply Z.ltb_ge; lia).
  - simpl in *. by replace (0 <? x) with false by (symmetry; apply Z.ltb_ge; lia).
  - simpl. destruct (0 <? x) eqn:E; [|done]. f_equal. rewrite !Nat2Z.inj_succ, !Z.pow_succ_r in * by lia.
    apply IH; [split; [apply Z.div_pos; lia|apply Z.div_lt_upper_bound; lia]|].
    apply Z.div_lt_upper_bound; lia.
Qed.

Lemma digits_length r f x : (length (radix_digits r f x) <= f)%nat.
Proof. revert x. induction f as [|f IH]; intros x; simpl; [lia|]. destruct (0 <? x); simpl; [|lia]. specialize (IH (x / r)). lia. Qed.

Lemma log2_fuel x : 0 <= x -> x < 256 ^ Z.of_nat (Z.to_nat (Z.log2 x + 1)).
Proof.
  intros Hx. pose proof (Z.log2_nonneg x). rewrite Z2Nat.id by lia.
  destruct (decide (x = 0)) as [->|]; [done|].
  destruct (Z.log2_spec x) as [_ H2]; [lia|]. eapply Z.lt_le_trans; [exact H2|].
  rewrite <- Z.add_1_r. apply Z.pow_le_mono_l. lia.
Qed.

Lemma rev_zeros n : rev (replicate n 0) = replicate n 0.
Proof. induction n as [|n IH]; [done|]. rewrite replicate_S_end at 2. simpl. by rewrite IH. Qed.

(** A padded number is its big-endian bytes. *)
Lemma padding_bytes x n : 0 <= x < 256 ^ Z.of_nat n -> AddPaddingBigInt x n = rev (le_bytes n x).
Proof.
  intros Hx. unfold AddPaddingBigInt, Bytes, big_bytes. rewrite length_rev.
  pose proof (log2_fuel x ltac:(lia)) as Hf. rewrite (digits_fuel 256 _ n) by lia.
  set (d := radix_digits 256 n x).
  rewrite <- (rev_involutive (replicate _ 0)), <- rev_app_distr. f_equal.
  rewrite <- (le_bytes_value (d ++ rev (replicate (n - length d) 0))).
  - rewrite length_app, length_rev, length_replicate.
    pose proof (digits_length 256 n x). fold d in H. replace (length d + (n - length d))%nat with n by lia.
    f_equal. rewrite le_value_radix.
    rewrite rev_zeros, radix_value_zeros. unfold d. by rewrite radix_digits_value by lia.
  - apply Forall_app_2.
    + apply Forall_impl with (P := fun d => 0 <= d < 256); [apply radix_digits_range; lia|done].
    + apply Forall_rev, Forall_replicate. unfold in_u8. lia.
Qed.

Lemma padded_bytes_ok x n :
  0 <= x < 256 ^ Z.of_nat n ->
  length (AddPaddingBigInt x n) = n /\ Forall in_u8 (AddPaddingBigInt x n) /\
  SetBytes (AddPaddingBigInt x n) = x.
Proof.
  intros Hx. rewrite padding_bytes by done. split; [|split].
  - by rewrite length_rev, le_bytes_length.
  - apply Forall_rev, le_bytes_range.
  - unfold SetBytes, be_value. by rewrite rev_involutive, le_value_bytes, Z.mod_small.
Qed.

Lemma padded_append dst x n : paddedAppend n dst (Bytes x) = dst ++ AddPaddingBigInt x n.
Proof. unfold paddedAppend, AddPaddingBigInt. by rewrite app_assoc. Qed.
(** ** Lemmas on points *)

Section Facts.
Context {curve : Curve}.

Lemma P_pos : 2 < curve_P.
Proof. pose proof curve_mod4. pose proof (Z.prime_ge_2 _ curve_prime). destruct (decide (curve_P = 2)) as [E|]; [|lia]. rewrite E in H. done. Qed.

Lemma P_odd : Z.odd curve_P = true.
Proof.
  pose proof curve_mod4. pose proof (Z.div_mod curve_P 4).
  replace curve_P with (2 * (2 * (curve_P / 4) + 1) + 1) by lia. by rewrite Z.add_comm, Z.odd_add_mul_2.
Qed.

(** The right-hand side in the form of the equation. *)
Lemma xCube_eq x : xCube x = (x * x * x - 3 * x + curve_B) mod curve_P.
Proof.
  pose proof P_pos. unfold xCube. rewrite powmod_spec by lia.
  rewrite Zminus_mod, Zplus_mod, Zmod_mod, <- Zplus_mod, <- Zminus_mod. f_equal.
  replace 3 with (Z.succ (Z.succ 1)) at 1 by done. rewrite !Z.pow_succ_r, Z.pow_1_r by lia. lia.
Qed.

Lemma xCube_mod x : xCube (x mod curve_P) = xCube x.
Proof.
  pose proof P_pos. unfold xCube. rewrite !powmod_spec, Z.mod_pow_l by lia.
  rewrite Zminus_mod, (Zminus_mod (x ^ 3 mod curve_P + curve_B) (x * 3)). by rewrite Zmult_mod_idemp_l.
Qed.

(** The abscissa of a point gets one of the point's two ordinates. *)
Lemma compute_y p y0 :
  on_curve p -> exists y, ComputeYCoord (mkPoint (X p) y0) = (mkPoint (X p) y, Ok tt) /\
    (y = Y p \/ (y = curve_P - Y p /\ 0 < Y p)).
Proof.
  intros (Hx & Hy & Hon). pose proof P_pos. rewrite curve_equation, bool_decide_eq_true in Hon by done.
  rewrite <- xCube_eq in Hon. unfold ComputeYCoord. mrun. cbn [X Y].
  change (powmod (xCube (X p)) (PAdd1Div4 curve_P) curve_P) with (root (xCube (X p)) curve_P).
  assert (0 <= root (xCube (X p)) curve_P < curve_P) as Hr by (apply root_range; lia).
  assert (xCube (X p) mod curve_P = xCube (X p)) as Hm by (unfold xCube; by rewrite Zmod_mod).
  assert ((root (xCube (X p)) curve_P * root (xCube (X p)) curve_P) mod curve_P = xCube (X p)) as Hroot.
  { rewrite (root_of_square _ (Y p)); [done|apply curve_prime|apply curve_mod4|]. by rewrite Hm. }
  rewrite Hroot, Z.eqb_refl. eexists. split; [done|].
  destruct (two_roots curve_P (root (xCube (X p)) curve_P) (Y p)) as [E|E];
    [apply curve_prime|done|done|by rewrite Hroot|by left|].
  right. split; [done|]. lia.
Qed.

Lemma odd_opposite y : isOdd (curve_P - y) = negb (isOdd y).
Proof. unfold isOdd. rewrite !Z.bit0_odd, Z.odd_sub, P_odd. by destruct (Z.odd y). Qed.

Lemma format_bits (b : bool) :
  let f := if b then Z.lor PointCompressed 1 else PointCompressed in
  (Z.land f 254 =? PointCompressed) = true /\ Z.testbit f 0 = b /\ in_u8 f.
Proof. by destruct b. Qed.

(** A format byte and 32 bytes of an abscissa decompress to the point of that abscissa and
    parity, whatever multiple of the modulus was added to the abscissa. *)
Lemma decompress_bytes p q x :
  on_curve p -> 0 <= x < 2 ^ 256 -> x mod curve_P = X p ->
  Decompress ((if isOdd (Y p) then Z.lor PointCompressed 1 else PointCompressed) ::
    AddPaddingBigInt x BigIntSize) q = (mkPoint x (Y p), Ok tt).
Proof.
  intros Hp Hx Hmod. destruct (format_bits (isOdd (Y p))) as (Hf & Hbit & _).
  destruct (padded_bytes_ok x BigIntSize Hx) as (Hlen & _ & Hset).
  set (format := if isOdd (Y p) then _ else _) in *.
  unfold Decompress. rewrite Hf. cbn [length]. rewrite Hlen.
  change (S BigIntSize <? 33)%nat with false. cbv iota. cbn [drop].
  rewrite drop_0, take_ge by (rewrite Hlen; unfold BigIntSize; lia). mrun. rewrite Hset.
  assert (xCube x = xCube (X p)) as Hcube by (rewrite <- Hmod; symmetry; apply xCube_mod).
  destruct (compute_y p (Y q) Hp) as (y & Hc & Hy).
  assert (ComputeYCoord (mkPoint x (Y q)) = (mkPoint x y, Ok tt)) as ->.
  { revert Hc. unfold ComputeYCoord. mrun. cbn [X Y]. rewrite Hcube. case_ifs; [|done].
    by intros [= <-]. }
  cbn [X Y]. rewrite Hbit. destruct Hy as [-> | [-> Hpos]].
  - by rewrite Bool.eqb_reflx.
  - rewrite odd_opposite. destruct (isOdd (Y p)); cbn [negb Bool.eqb]; do 2 f_equal; lia.
Qed.

Lemma compress_on p : on_curve p ->
  Compress p = (if isOdd (Y p) then Z.lor PointCompressed 1 else PointCompressed) ::
    AddPaddingBigInt (X p) BigIntSize.
Proof. intros (_ & _ & Hon). unfold Compress. by rewrite Hon, padded_append. Qed.

Lemma abscissa_bits p : on_curve p -> 0 <= X p < 2 ^ 256.
Proof. intros (? & _). pose proof curve_bits. lia. Qed.

Lemma decompress_compress p : on_curve p -> decompressed (Compress p) = Ok p.
Proof.
  intros Hp. unfold decompressed. rewrite compress_on, decompress_bytes; try done.
  - by destruct p.
  - by apply abscissa_bits.
  - destruct Hp as (? & _). by apply Z.mod_small.
Qed.

Lemma compress_bytes p : on_curve p -> length (Compress p) = 33%nat /\ Forall in_u8 (Compress p).
Proof.
  intros Hp. rewrite compress_on by done.
  destruct (padded_bytes_ok (X p) BigIntSize (abscissa_bits p Hp)) as (Hlen & Hr & _).
  split; [cbn [length]; by rewrite Hlen|]. constructor; [apply format_bits|done].
Qed.

(** C33. A point of the curve is compressed to 33 bytes, from which it is restored; the
    compressed forms of two points differ. *)
Theorem compress_roundtrip (p : EllipticPoint) (Hp : on_curve p) :
  length (Compress p) = CompressedPointSize /\ Forall in_u8 (Compress p) /\
  decompressed (Compress p) = Ok p /\
  (forall p', on_curve p' -> Compress p' = Compress p -> p' = p).
Proof.
  destruct (compress_bytes p Hp) as [Hl Hr]. split; [done|]. split; [done|]. split; [by apply decompress_compress|].
  intros p' Hp' E. apply decompress_compress in Hp', Hp. rewrite E in Hp'. congruence.
Qed.

(** Decompression does not ask for a reduced abscissa: an abscissa below the modulus that
    has room for another modulus in 32 bytes has a second compressed form, which
    decompresses without error to a point that is not reduced. *)
Theorem decompress_unreduced (p : EllipticPoint) (Hp : on_curve p) (Hroom : X p + curve_P < 2 ^ 256) :
  exists b, b <> Compress p /\ length b = CompressedPointSize /\
    decompressed b = Ok (mkPoint (X p + curve_P) (Y p)).
Proof.
  pose proof P_pos. pose proof (abscissa_bits p Hp).
  assert (0 <= X p + curve_P < 2 ^ 256) as Hb by lia.
  destruct (padded_bytes_ok _ BigIntSize Hb) as (Hlen & _ & Hset).
  destruct (padded_bytes_ok (X p) BigIntSize ltac:(done)) as (_ & _ & Hset').
  exists ((if isOdd (Y p) then Z.lor PointCompressed 1 else PointCompressed) ::
    AddPaddingBigInt (X p + curve_P) BigIntSize). split; [|split].
  - rewrite compress_on by done. intros [= E]. rewrite E in Hset. lia.
  - cbn [length]. by rewrite Hlen.
  - unfold decompressed. rewrite (decompress_bytes p) by (try done; destruct Hp as (? & _);
      rewrite <- (Z.mul_1_l curve_P) at 1; rewrite Z.mod_add by lia; by apply Z.mod_small). done.
Qed.
End Facts.

(** ** Scalar multiplication *)

Section Scalars.
Context {curve : Curve}.
Implicit Types (p q : EllipticPoint) (a b k : Z).

Lemma on_valid p : on_curve p -> valid p.
Proof. by right. Qed.

Lemma infinity_valid : valid infinity.
Proof. by left. Qed.

Lemma Add_valid p q : valid p -> valid q -> valid (Add p q).
Proof. apply add_valid. Qed.

Lemma Add_comm p q : valid p -> valid q -> Add p q = Add q p.
Proof. apply add_comm. Qed.

Lemma Add_assoc p q r : valid p -> valid q -> valid r -> Add p (Add q r) = Add (Add p q) r.
Proof. apply add_assoc. Qed.

Lemma Add_infinity_l p : valid p -> Add infinity p = p.
Proof. apply add_infinity. Qed.

Lemma Add_infinity_r p : valid p -> Add p infinity = p.
Proof. intros Hp. rewrite Add_comm by (done || apply infinity_valid). by apply add_infinity. Qed.

(** Two sums with the middle terms exchanged. *)
Lemma Add_swap p q r s :
  valid p -> valid q -> valid r -> valid s -> Add (Add p q) (Add r s) = Add (Add p r) (Add q s).
Proof.
  intros Hp Hq Hr Hs. rewrite <- !Add_assoc by auto using Add_valid. f_equal.
  rewrite !Add_assoc by auto using Add_valid. f_equal. by apply Add_comm.
Qed.

Lemma ScalarMult_nonneg p k : 0 <= k -> ScalarMult p k = curve_ScalarMult p k.
Proof. intros Hk. unfold ScalarMult. by rewrite Z.abs_eq. Qed.

Lemma ScalarMult_0 p : on_curve p -> ScalarMult p 0 = infinity.
Proof. apply scalar_zero. Qed.

Lemma ScalarMult_succ p k : on_curve p -> 0 <= k -> ScalarMult p (Z.succ k) = Add p (ScalarMult p k).
Proof. intros Hp Hk. rewrite !ScalarMult_nonneg by lia. by apply scalar_succ. Qed.

Lemma ScalarMult_1 p : on_curve p -> ScalarMult p 1 = p.
Proof.
  intros Hp. replace 1 with (Z.succ 0) by done. rewrite ScalarMult_succ, ScalarMult_0 by done.
  by apply Add_infinity_r, on_valid.
Qed.

Lemma ScalarMult_valid p k : on_curve p -> 0 <= k -> valid (ScalarMult p k).
Proof.
  intros Hp Hk. revert k Hk. apply natlike_ind; [rewrite ScalarMult_0 by done; apply infinity_valid|].
  intros k Hk IH. rewrite ScalarMult_succ by done. by apply Add_valid; [apply on_valid|].
Qed.

Lemma ScalarMult_plus p a b :
  on_curve p -> 0 <= a -> 0 <= b -> ScalarMult p (a + b) = Add (ScalarMult p a) (ScalarMult p b).
Proof.
  intros Hp Ha Hb. revert a Ha. apply natlike_ind.
  - rewrite Z.add_0_l, ScalarMult_0, Add_infinity_l by (done || by apply ScalarMult_valid). done.
  - intros a Ha IH. rewrite Z.add_succ_l, !ScalarMult_succ, IH by (done || lia).
    apply Add_assoc; auto using on_valid, ScalarMult_valid.
Qed.

Lemma ScalarMult_times p a k :
  on_curve p -> on_curve (ScalarMult p a) -> 0 <= a -> 0 <= k ->
  ScalarMult (ScalarMult p a) k = ScalarMult p (a * k).
Proof.
  intros Hp Hap Ha Hk. revert k Hk. apply natlike_ind.
  - rewrite Z.mul_0_r. by rewrite !ScalarMult_0.
  - intros k Hk IH. rewrite ScalarMult_succ, IH, Z.mul_succ_r, Z.add_comm by done.
    symmetry. apply ScalarMult_plus; [done|lia|lia].
Qed.

Lemma ScalarMult_point p q k :
  on_curve p -> on_curve q -> on_curve (Add p q) -> 0 <= k ->
  ScalarMult (Add p q) k = Add (ScalarMult p k) (ScalarMult q k).
Proof.
  intros Hp Hq Hpq Hk. revert k Hk. apply natlike_ind.
  - rewrite !ScalarMult_0 by done. by rewrite Add_infinity_l by apply infinity_valid.
  - intros k Hk IH. rewrite !ScalarMult_succ, IH by done.
    apply Add_swap; auto using on_valid, ScalarMult_valid.
Qed.

Lemma ScalarMult_order p k : on_curve p -> 0 <= k -> ScalarMult p (curve_N * k) = infinity.
Proof.
  intros Hp Hk. pose proof curve_order. revert k Hk. apply natlike_ind.
  - rewrite Z.mul_0_r. by apply ScalarMult_0.
  - intros k Hk IH. rewrite Z.mul_succ_r, ScalarMult_plus, IH by (done || lia).
    rewrite Add_infinity_l by (apply ScalarMult_valid; [done|lia]).
    rewrite ScalarMult_nonneg by lia. by apply scalar_order.
Qed.

Lemma mod_N_range a : 0 <= a mod curve_N < curve_N.
Proof. pose proof curve_order. apply Z.mod_pos_bound. lia. Qed.

Lemma ScalarMult_mod p k : on_curve p -> 0 <= k -> ScalarMult p (k mod curve_N) = ScalarMult p k.
Proof.
  intros Hp Hk. pose proof curve_order. pose proof (mod_N_range k).
  rewrite (Z.div_mod k curve_N) at 2 by lia.
  assert (0 <= k / curve_N) by (apply Z.div_pos; lia).
  rewrite ScalarMult_plus, ScalarMult_order by (done || nia).
  rewrite Add_infinity_l by (apply ScalarMult_valid; [done|lia]). done.
Qed.

(** Scalars that are equal modulo the order multiply alike. *)
Lemma ScalarMult_cong p a b :
  on_curve p -> 0 <= a -> 0 <= b -> a mod curve_N = b mod curve_N -> ScalarMult p a = ScalarMult p b.
Proof. intros Hp Ha Hb E. rewrite <- (ScalarMult_mod p a), <- (ScalarMult_mod p b), E by done. done. Qed.

(** Every point has the order of the group, a prime: only multiples of it lead to infinity. *)
Lemma ScalarMult_on p k : on_curve p -> 0 <= k -> k mod curve_N <> 0 -> on_curve (ScalarMult p k).
Proof.
  intros Hp Hk Hmod. destruct (ScalarMult_valid p k Hp Hk) as [E|]; [|done]. exfalso.
  assert (forall m, 0 <= m -> ScalarMult p (k * m) = infinity) as Hall.
  { apply natlike_ind; [rewrite Z.mul_0_r; by apply ScalarMult_0|]. intros m Hm IH.
    rewrite Z.mul_succ_r, ScalarMult_plus, IH, E by (done || nia). apply Add_infinity_l, infinity_valid. }
  pose proof curve_order. pose proof (fermat_mod _ _ curve_N_prime Hmod) as Hf.
  assert (ScalarMult p 1 = infinity) as H1.
  { rewrite <- Hf, ScalarMult_mod by (done || by apply Z.pow_nonneg).
    replace (k ^ (curve_N - 1)) with (k * k ^ (curve_N - 2)); [by apply Hall, Z.pow_nonneg|].
    rewrite <- Z.pow_succ_r by lia. f_equal. lia. }
  rewrite ScalarMult_1 in H1 by done. subst p. destruct Hp as (_ & _ & Hon).
  pose proof infinity_off as Hoff. cbn in Hon. congruence.
Qed.
(** Every point is a multiple of the base point. *)
Lemma discrete_log p : valid p -> exists k, 0 <= k /\ p = ScalarMult curve_G k.
Proof.
  intros [-> | Hp].
  - exists 0. split; [done|]. symmetry. apply ScalarMult_0, base_on.
  - destruct (base_generates p Hp) as (k & Hk & ->). exists k. split; [lia|].
    by rewrite ScalarMult_nonneg by lia.
Qed.
End Scalars.
End EC.

#[export] Hint Resolve EC.on_valid EC.infinity_valid EC.Add_valid EC.ScalarMult_valid : curve.

(** ** A curve of eleven points *)

(** The curve y^2 = x^3 - 3x + 6 over the field of seven elements, with the chord and tangent
    formulas: a group of prime order, on which concrete inputs are evaluated. *)
Module SmallCurve.

Definition small_on (x y : Z) : bool := bool_decide ((y * y) mod 7 = (x * x * x - 3 * x + 6) mod 7).

Definition inv7 (x : Z) : Z := (x * x * x * x * x) mod 7.

Definition small_add (p q : EllipticPoint) : EllipticPoint :=
  if decide (p = infinity) then q
  else if decide (q = infinity) then p
  else if decide (X p = X q /\ (Y p + Y q) mod 7 = 0) then infinity
  else
    let slope := (if decide (X p = X q) then (3 * X p * X p - 3) * inv7 (2 * Y p)
                  else (Y q - Y p) * inv7 (X q - X p)) mod 7 in
    let x := (slope * slope - X p - X q) mod 7 in
    mkPoint x ((slope * (X p - x) - Y p) mod 7).

Definition small_mult (p : EllipticPoint) (k : Z) : EllipticPoint :=
  Nat.iter (Z.to_nat (k mod 11)) (small_add p) infinity.

Definition affine : list EllipticPoint :=
  [mkPoint 1 2; mkPoint 1 5; mkPoint 2 1; mkPoint 2 6; mkPoint 4 3;
   mkPoint 4 4; mkPoint 5 2; mkPoint 5 5; mkPoint 6 1; mkPoint 6 6].

Definition small_valid (p : EllipticPoint) : Prop :=
  p = infinity \/ (0 <= X p < 7 /\ 0 <= Y p < 7 /\ small_on (X p) (Y p) = true).

Lemma small_affine p : 0 <= X p < 7 /\ 0 <= Y p < 7 /\ small_on (X p) (Y p) = true -> p ∈ affine.
Proof.
  destruct p as [x y]. simpl. intros (Hx & Hy & Hon).
  assert (forallb (fun x => forallb (fun y => implb (small_on x y) (bool_decide (mkPoint x y ∈ affine)))
            (seqZ 0 7)) (seqZ 0 7) = true) as H by (vm_compute; reflexivity).
  rewrite forallb_forall in H. specialize (H x). rewrite forallb_forall in H.
  rewrite <- (bool_decide_eq_true (mkPoint x y ∈ affine)).
  assert (implb (small_on x y) (bool_decide (mkPoint x y ∈ affine)) = true) as Hi
    by (apply H; apply list_elem_of_In, elem_of_seqZ; lia).
  by rewrite Hon in Hi.
Qed.

Lemma small_points p : small_valid p -> p ∈ infinity :: affine.
Proof. intros [-> | H]; [left|right; by apply small_affine]. Qed.

(** A property decided on every point. *)
Lemma on_all (f : EllipticPoint -> bool) :
  forallb f (infinity :: affine) = true -> forall p, small_valid p -> f p = true.
Proof. rewrite forallb_forall. intros H p Hp. apply H. by apply list_elem_of_In, small_points. Qed.

Lemma on_affine (f : EllipticPoint -> bool) :
  forallb f affine = true ->
  forall p, 0 <= X p < 7 /\ 0 <= Y p < 7 /\ small_on (X p) (Y p) = true -> f p = true.
Proof. rewrite forallb_forall. intros H p Hp. apply H. by apply list_elem_of_In, small_affine. Qed.

Definition validb (p : EllipticPoint) : bool := bool_decide (p ∈ infinity :: affine).

Lemma validb_valid p : validb p = true -> small_valid p.
Proof.
  intros H. apply bool_decide_eq_true in H.
  assert (Forall small_valid (infinity :: affine)) as Hall.
  { unfold affine.
    repeat (apply Forall_cons_2; [first [by left | right; cbn [X Y]; repeat split; (lia || reflexivity)]|]).
    apply Forall_nil_2. }
  rewrite Forall_forall in Hall. by apply Hall.
Qed.

Lemma small_prime : Z.prime 7.
Proof.
  split; [lia|]. intros n Hn [q Hq].
  assert (n = 2 \/ n = 3 \/ n = 4 \/ n = 5 \/ n = 6) as Hcases by lia.
  destruct Hcases as [-> | [-> | [-> | [-> | ->]]]]; lia.
Qed.

Lemma eleven_prime : Z.prime 11.
Proof.
  split; [lia|]. intros n Hn [q Hq].
  assert (n = 2 \/ n = 3 \/ n = 4 \/ n = 5 \/ n = 6 \/ n = 7 \/ n = 8 \/ n = 9 \/ n = 10) as Hcases by lia.
  destruct Hcases as [-> | [-> | [-> | [-> | [-> | [-> | [-> | [-> | ->]]]]]]]]; lia.
Qed.

Lemma small_succ p k :
  0 <= X p < 7 /\ 0 <= Y p < 7 /\ small_on (X p) (Y p) = true -> 0 <= k ->
  small_mult p (k + 1) = small_add p (small_mult p k).
Proof.
  intros Hp Hk. unfold small_mult. pose proof (Z.mod_pos_bound k 11 ltac:(lia)) as Hr.
  rewrite <- Zplus_mod_idemp_l. destruct (decide (k mod 11 = 10)) as [E|E].
  - rewrite E. revert p Hp.
    assert (forall p, 0 <= X p < 7 /\ 0 <= Y p < 7 /\ small_on (X p) (Y p) = true ->
      bool_decide (Nat.iter (Z.to_nat ((10 + 1) mod 11)) (small_add p) infinity =
                   small_add p (Nat.iter (Z.to_nat 10) (small_add p) infinity)) = true) as H
      by (apply on_affine; vm_compute; reflexivity).
    intros p Hp. apply (bool_decide_eq_true_1 _), H, Hp.
  - rewrite (Z.mod_small (k mod 11 + 1)) by lia. rewrite Z2Nat.inj_add, Nat.add_comm by lia. done.
Qed.

Lemma small_generates p :
  0 <= X p < 7 /\ 0 <= Y p < 7 /\ small_on (X p) (Y p) = true ->
  exists k, 0 <= k < 11 /\ p = small_mult (mkPoint 1 2) k.
Proof.
  intros Hp.
  assert (existsb (fun k => bool_decide (p = small_mult (mkPoint 1 2) k)) (seqZ 0 11) = true) as H.
  { revert p Hp. apply on_affine. vm_compute. reflexivity. }
  apply existsb_exists in H as (k & Hk & E). exists k. split.
  - apply list_elem_of_In, elem_of_seqZ in Hk. lia.
  - by apply (bool_decide_eq_true_1 _) in E.
Qed.

#[export] Instance small_curve : Curve.
Proof.
  refine {| curve_P := 7; curve_N := 11; curve_B := 6; curve_G := mkPoint 1 2; IsOnCurve := small_on;
            curve_Add := small_add; curve_Double := fun p => small_add p p; curve_ScalarMult := small_mult |}.
  - exact small_prime.
  - done.
  - done.
  - lia.
  - exact eleven_prime.
  - done.
  - done.
  - done.
  - intros p q Hp Hq. apply validb_valid. revert q Hq. apply on_all. revert p Hp.
    apply (on_all (fun p => forallb (fun q => validb (small_add p q)) (infinity :: affine))).
    vm_compute. reflexivity.
  - done.
  - intros p q Hp Hq. apply (bool_decide_eq_true_1 _). revert q Hq. apply on_all. revert p Hp.
    apply (on_all (fun p => forallb (fun q => bool_decide (small_add p q = small_add q p)) (infinity :: affine))).
    vm_compute. reflexivity.
  - intros p q r Hp Hq Hr. apply (bool_decide_eq_true_1 _). revert r Hr. apply on_all. revert q Hq.
    apply (on_all (fun q => forallb (fun r => bool_decide (small_add p (small_add q r) =
      small_add (small_add p q) r)) (infinity :: affine))). revert p Hp.
    apply (on_all (fun p => forallb (fun q => forallb (fun r => bool_decide (small_add p (small_add q r) =
      small_add (small_add p q) r)) (infinity :: affine)) (infinity :: affine))).
    vm_compute. reflexivity.
  - intros p Hp. apply (bool_decide_eq_true_1 _). revert p Hp.
    apply (on_affine (fun p => bool_decide (small_add p (mkPoint (X p) ((7 - Y p) mod 7)) = infinity))).
    vm_compute. reflexivity.
  - done.
  - done.
  - exact small_succ.
  - intros p Hp. apply (bool_decide_eq_true_1 _). revert p Hp.
    apply (on_affine (fun p => bool_decide (small_mult p 11 = infinity))). vm_compute. reflexivity.
  - exact small_generates.
Defined.

Import EC.

Definition sample_point : EllipticPoint := mkPoint 5 2.

Lemma sample_on : on_curve sample_point.
Proof. repeat split; (cbn; lia) || reflexivity. Qed.

Lemma compress_roundtrip_witness :
  length (Compress sample_point) = CompressedPointSize /\ Forall in_u8 (Compress sample_point) /\
  decompressed (Compress sample_point) = Ok sample_point /\
  (forall p', on_curve p' -> Compress p' = Compress sample_point -> p' = sample_point).
Proof. apply compress_roundtrip, sample_on. Defined.

Lemma decompress_unreduced_witness :
  exists b, b <> Compress sample_point /\ length b = CompressedPointSize /\
    decompressed b = Ok (mkPoint (X sample_point + curve_P) (Y sample_point)).
Proof. apply decompress_unreduced; [apply sample_on|reflexivity]. Defined.

Example decompress_sample : decompressed (Compress sample_point) = Ok sample_point.
Proof. vm_compute. reflexivity. Qed.
End SmallCurve.
