(* ===== verification/Schnorr.v ===== *)
(** Commitments, signatures and encryption on the curve (src/privacy: pedersen.go,
    schnorr.go, elgamal.go).  Random scalars are arguments; the generators of the
    commitments are the parameter [PedCom.G]. *)

From S2P Require Import Prelude GoStr Hash Sha256 Base58 Modular EC.

#[local] Open Scope list_scope.
#[local] Open Scope Z_scope.

Module Schnorr.
Import Hashes EC.

(** Positions of the generators. *)
Definition SK : nat := 0.
Definition VALUE : nat := 1.
Definition SND : nat := 2.
Definition SHARDID : nat := 3.
Definition RAND : nat := 4.

Record SchnPubKey := mkPubKey { PK : EllipticPoint; pub_G : EllipticPoint; pub_H : EllipticPoint }.
Record SchnPrivKey := mkPrivKey { priv_SK : Z; priv_R : Z; PubKey : SchnPubKey }.

(** [Z2] is nil in a signature made without privacy. *)
Record SchnSignature := mkSignature { E : Z; Z1 : Z; Z2 : option Z }.

Record ElGamalCiphertext := mkCiphertext { C1 : EllipticPoint; C2 : EllipticPoint }.

Section Crypto.
Context {curve : Curve} {sha : Sha256}.

(** ** Commitments *)

(** The base point, and four points derived from it; [fuel] bounds each derivation. *)
Definition newPedersenParams (fuel : nat) : option (list EllipticPoint) :=
  hs ← mapM (Hash_point fuel curve_G) [1; 2; 3; 4]; Some (curve_G :: hs).

Context (PedCom_G : list EllipticPoint).

(** [nil] when the numbers of openings and of generators differ. *)
Definition CommitAll (openings : list Z) : option EllipticPoint :=
  if (length openings =? length PedCom_G)%nat
  then Some (foldl (fun c '(g, o) => Add c (ScalarMult g o)) infinity (zip PedCom_G openings))
  else None.

Definition CommitAtIndex (value rand : Z) (index : nat) : outcome EllipticPoint :=
  match PedCom_G !! RAND, PedCom_G !! index with
  | Some h, Some g => Ok (Add (ScalarMult h rand) (ScalarMult g value))
  | _, _ => Panic
  end.

(** ** Schnorr signatures *)

Definition SchnPrivKey_Set (sk r : Z) : outcome SchnPrivKey :=
  match PedCom_G !! SK, PedCom_G !! RAND with
  | Some g, Some h => Ok (mkPrivKey sk r (mkPubKey (Add (ScalarMult g sk) (ScalarMult h r)) g h))
  | _, _ => Panic
  end.

Definition SchnPubKey_Set (pk : EllipticPoint) : outcome SchnPubKey :=
  match PedCom_G !! SK, PedCom_G !! RAND with
  | Some g, Some h => Ok (mkPubKey pk g h)
  | _, _ => Panic
  end.

(** H(p || m). *)
Definition HashOf (p : EllipticPoint) (m : bytes) : Z :=
  SetBytes (HashB ((AddPaddingBigInt (X p) BigIntSize ++ AddPaddingBigInt (Y p) BigIntSize) ++ m)).

(** [s1] and [s2] are the random scalars, of which a key without privacy uses the first. *)
Definition Sign (priKey : SchnPrivKey) (s1 s2 : Z) (data : bytes) : outcome SchnSignature :=
  if (length data =? HashSize)%nat then
    if priv_R priKey =? 0 then
      let t := ScalarMult (pub_G (PubKey priKey)) s1 in
      let e := HashOf t data in
      Ok (mkSignature e ((s1 - priv_SK priKey * e) mod curve_N) None)
    else
      let t := Add (ScalarMult (pub_G (PubKey priKey)) s1) (ScalarMult (pub_H (PubKey priKey)) s2) in
      let e := HashOf t data in
      Ok (mkSignature e ((s1 - priv_SK priKey * e) mod curve_N)
            (Some ((s2 - priv_R priKey * e) mod curve_N)))
  else Err "Unexpected error"%string.

(** A nil [Z2] is dereferenced. *)
Definition Verify (pubKey : SchnPubKey) (signature : option SchnSignature) (data : bytes) : outcome bool :=
  match signature with
  | None => Ok false
  | Some sg =>
      match Z2 sg with
      | None => Panic
      | Some z2 =>
          let rv := Add (ScalarMult (pub_G pubKey) (Z1 sg)) (ScalarMult (pub_H pubKey) z2) in
          let rv := Add rv (ScalarMult (PK pubKey) (E sg)) in
          Ok (HashOf rv data =? E sg)
      end
  end.

Definition Signature_Bytes (sg : SchnSignature) : bytes :=
  (AddPaddingBigInt (E sg) BigIntSize ++ AddPaddingBigInt (Z1 sg) BigIntSize) ++
  match Z2 sg with Some z2 => AddPaddingBigInt z2 BigIntSize | None => [] end.

Definition Signature_SetBytes (b : bytes) : outcome SchnSignature :=
  if (length b <? 64)%nat then Panic
  else Ok (mkSignature (SetBytes (take 32 b)) (SetBytes (take 32 (drop 32 b))) (Some (SetBytes (drop 64 b)))).

(** ** ElGamal encryption *)

Definition GenPubKey (x : Z) : EllipticPoint := ScalarMult curve_G x.

Definition Encrypt (H : EllipticPoint) (randomness : Z) (plaintext : EllipticPoint) : ElGamalCiphertext :=
  mkCiphertext (ScalarMult curve_G randomness) (Add plaintext (ScalarMult H randomness)).

Definition Decrypt (x : Z) (ciphertext : ElGamalCiphertext) : outcome EllipticPoint :=
  Sub (C2 ciphertext) (ScalarMult (C1 ciphertext) x).

Definition Ciphertext_Bytes (ciphertext : ElGamalCiphertext) : bytes :=
  if IsEqual (C1 ciphertext) infinity then []
  else Compress (C1 ciphertext) ++ Compress (C2 ciphertext).

(** No bytes leave the (nil) points as they are. *)
Definition Ciphertext_SetBytes (b : bytes) : outcome (option ElGamalCiphertext) :=
  match b with
  | [] => Ok None
  | _ =>
      if (length b <? 33)%nat then Panic
      else
        c1 ← decompressed (take 33 b);
        c2 ← decompressed (drop 33 b);
        Ok (Some (mkCiphertext c1 c2))
  end.

Definition ElGamalEncrypt (pubKey : bytes) (randomness : Z) (data : EllipticPoint) : outcome bytes :=
  h ← decompressed pubKey; Ok (Ciphertext_Bytes (Encrypt h randomness data)).

(** The error of [SetBytes] is not looked at: the points it did not reach are nil. *)
Definition ElGamalDecrypt (privKey cipher : bytes) : outcome EllipticPoint :=
  match Ciphertext_SetBytes cipher with
  | Ok (Some c) => Decrypt (SetBytes privKey) c
  | _ => Panic
  end.
End Crypto.

(** ** Lemmas *)

Section Facts.
Context {curve : Curve} {sha : Sha256}.
Implicit Types (g h p : EllipticPoint).

Lemma HashOf_range p m : 0 <= HashOf p m < 2 ^ 256.
Proof.
  unfold HashOf. set (b := _ ++ m). destruct (Sum256_ok b) as [Hlen Hr]. unfold SetBytes, be_value, HashB.
  apply Forall_rev, le_value_range in Hr. rewrite length_rev, Hlen in Hr. exact Hr.
Qed.

Lemma mod_N_bits a : 0 <= a mod curve_N < 2 ^ 256.
Proof. pose proof curve_order. pose proof (mod_N_range a). lia. Qed.

(** A scalar times a commitment to [a] with randomness [b]. *)
Lemma commit_times g h a b k :
  on_curve g -> on_curve h -> 0 < a < curve_N -> 0 <= b < curve_N -> 0 <= k ->
  on_curve (Add (ScalarMult g a) (ScalarMult h b)) ->
  ScalarMult (Add (ScalarMult g a) (ScalarMult h b)) k = Add (ScalarMult g (a * k)) (ScalarMult h (b * k)).
Proof.
  intros Hg Hh Ha Hb Hk Hon.
  assert (on_curve (ScalarMult g a)) as Hga by (apply ScalarMult_on; [done|lia|rewrite Z.mod_small; lia]).
  destruct (decide (b = 0)) as [->|Hb0].
  - rewrite ScalarMult_0, Z.mul_0_l, ScalarMult_0, !Add_infinity_r by (done || auto with curve || (apply ScalarMult_valid; [done|nia])).
    apply ScalarMult_times; [done|done|lia|done].
  - assert (on_curve (ScalarMult h b)) as Hhb by (apply ScalarMult_on; [done|lia|rewrite Z.mod_small; lia]).
    rewrite ScalarMult_point, !ScalarMult_times by (done || lia). done.
Qed.

(** The commitment that the verifier rebuilds from the answers to a challenge. *)
Lemma schnorr_equation g h a b s1 s2 e :
  on_curve g -> on_curve h -> 0 < a < curve_N -> 0 <= b < curve_N -> 0 <= s1 -> 0 <= s2 -> 0 <= e ->
  on_curve (Add (ScalarMult g a) (ScalarMult h b)) ->
  Add (Add (ScalarMult g ((s1 - a * e) mod curve_N)) (ScalarMult h ((s2 - b * e) mod curve_N)))
      (ScalarMult (Add (ScalarMult g a) (ScalarMult h b)) e) =
  Add (ScalarMult g s1) (ScalarMult h s2).
Proof.
  intros Hg Hh Ha Hb Hs1 Hs2 He Hon. pose proof (mod_N_range (s1 - a * e)). pose proof (mod_N_range (s2 - b * e)).
  rewrite commit_times by done.
  rewrite Add_swap by (apply ScalarMult_valid; [done|nia]).
  rewrite <- !ScalarMult_plus by (done || nia).
  assert (forall x y, ((x - y) mod curve_N + y) mod curve_N = x mod curve_N) as Hc
    by (intros x y; rewrite Zplus_mod_idemp_l; f_equal; lia).
  f_equal; apply ScalarMult_cong; try done; nia.
Qed.

Lemma signature_bytes_back sg :
  0 <= E sg < 2 ^ 256 -> 0 <= Z1 sg < 2 ^ 256 -> (forall z, Z2 sg = Some z -> 0 <= z < 2 ^ 256) ->
  Signature_SetBytes (Signature_Bytes sg) = Ok (mkSignature (E sg) (Z1 sg) (Some (default 0 (Z2 sg)))).
Proof.
  intros HE H1 H2. unfold Signature_SetBytes, Signature_Bytes.
  destruct (padded_bytes_ok (E sg) BigIntSize HE) as (LE & _ & VE).
  destruct (padded_bytes_ok (Z1 sg) BigIntSize H1) as (L1 & _ & V1).
  change BigIntSize with 32%nat in *. rewrite !length_app, LE, L1.
  replace (_ <? 64)%nat with false by (symmetry; apply Nat.ltb_ge; lia).
  rewrite <- app_assoc, take_app_length', drop_app_length', take_app_length', VE, V1 by done.
  rewrite app_assoc, drop_app_length' by (rewrite length_app; lia).
  destruct (Z2 sg) as [z2|]; [|done]. by destruct (padded_bytes_ok z2 32 (H2 z2 eq_refl)) as (_ & _ & ->).
Qed.

Lemma signature_bytes_range sg :
  0 <= E sg < 2 ^ 256 -> 0 <= Z1 sg < 2 ^ 256 -> (forall z, Z2 sg = Some z -> 0 <= z < 2 ^ 256) ->
  Forall in_u8 (Signature_Bytes sg).
Proof.
  intros HE H1 H2. unfold Signature_Bytes. apply Forall_app_2; [apply Forall_app_2; by apply padded_bytes_ok|].
  destruct (Z2 sg) as [z2|]; [|constructor]. by apply padded_bytes_ok, H2.
Qed.

(** ** Signatures *)

Context (PedCom_G : list EllipticPoint) (g h : EllipticPoint).
Context (Hg : PedCom_G !! SK = Some g) (Hh : PedCom_G !! RAND = Some h) (Ong : on_curve g) (Onh : on_curve h).

(** Without privacy: the signature that went through its bytes is accepted, the one that did
    not has a nil answer. *)
Lemma sign_plain sk s1 s2 data :
  0 < sk < curve_N -> 0 <= s1 -> length data = HashSize ->
  exists key sg sg',
    SchnPrivKey_Set PedCom_G sk 0 = Ok key /\ PubKey key = mkPubKey (ScalarMult g sk) g h /\
    Sign key s1 s2 data = Ok sg /\ Signature_SetBytes (Signature_Bytes sg) = Ok sg' /\
    Forall in_u8 (Signature_Bytes sg) /\
    Verify (PubKey key) (Some sg') data = Ok true /\ Verify (PubKey key) (Some sg) data = Panic.
Proof.
  intros Hsk Hs1 Hdata. assert (on_curve (ScalarMult g sk)) as Hon by (apply ScalarMult_on; [done|lia|rewrite Z.mod_small; lia]).
  assert (Add (ScalarMult g sk) (ScalarMult h 0) = ScalarMult g sk) as Epk
    by (rewrite (ScalarMult_0 h) by done; apply Add_infinity_r; auto with curve).
  unfold SchnPrivKey_Set. rewrite Hg, Hh, Epk. eexists _, _, _. split; [done|]. split; [done|].
  unfold Sign. rewrite Hdata. cbn [priv_R PubKey pub_G pub_H priv_SK].
  change (HashSize =? HashSize)%nat with true. cbv iota. cbn [Z.eqb]. split; [done|].
  set (e := HashOf (ScalarMult g s1) data).
  pose proof (HashOf_range (ScalarMult g s1) data) as He. fold e in He.
  rewrite signature_bytes_back by (done || apply mod_N_bits). split; [done|].
  split; [apply signature_bytes_range; (done || apply mod_N_bits)|]. split; [|done].
  unfold Verify. cbn [Z2 PubKey pub_G pub_H PK E Z1 priv_SK priv_R]. fold e.
  pose proof (schnorr_equation g h sk 0 s1 0 e) as Heq. rewrite Zmod_0_l, Epk in Heq.
  change (default 0 None) with 0. rewrite Heq by (done || lia).
  rewrite (ScalarMult_0 h), Add_infinity_r by (done || by apply ScalarMult_valid).
  fold e. by rewrite Z.eqb_refl.
Qed.

(** With privacy. *)
Lemma sign_private sk r s1 s2 data :
  0 < sk < curve_N -> 0 < r < curve_N -> 0 <= s1 -> 0 <= s2 -> length data = HashSize ->
  on_curve (Add (ScalarMult g sk) (ScalarMult h r)) ->
  exists key sg,
    SchnPrivKey_Set PedCom_G sk r = Ok key /\
    PubKey key = mkPubKey (Add (ScalarMult g sk) (ScalarMult h r)) g h /\
    Sign key s1 s2 data = Ok sg /\ Signature_SetBytes (Signature_Bytes sg) = Ok sg /\
    Verify (PubKey key) (Some sg) data = Ok true.
Proof.
  intros Hsk Hr Hs1 Hs2 Hdata Hon. unfold SchnPrivKey_Set. rewrite Hg, Hh.
  eexists _, _. split; [done|]. split; [done|]. unfold Sign. rewrite Hdata.
  change (HashSize =? HashSize)%nat with true. cbv iota. cbn [priv_R PubKey pub_G pub_H priv_SK].
  replace (r =? 0) with false by (symmetry; apply Z.eqb_neq; lia). split; [done|].
  set (e := HashOf (Add (ScalarMult g s1) (ScalarMult h s2)) data).
  pose proof (HashOf_range (Add (ScalarMult g s1) (ScalarMult h s2)) data) as He. fold e in He.
  rewrite signature_bytes_back by (first [apply He | apply mod_N_bits | intros ? [= <-]; apply mod_N_bits]).
  split; [done|]. unfold Verify. cbn [Z2 pub_G pub_H PK E Z1].
  rewrite schnorr_equation by (done || lia). fold e. by rewrite Z.eqb_refl.
Qed.

(** C32. A signature that went through its bytes is accepted under the public key of the signer,
    with privacy and without; without privacy the signature that did not go through its bytes
    has a nil answer, on which verification panics. *)
Theorem schnorr_sign_verifies (sk r s1 s2 : Z) (data : bytes)
    (Hsk : 0 < sk < curve_N) (Hr : 0 <= r < curve_N) (Hs1 : 0 <= s1) (Hs2 : 0 <= s2)
    (Hpk : Add (ScalarMult g sk) (ScalarMult h r) <> infinity) (Hdata : length data = HashSize) :
  exists key sg sg',
    SchnPrivKey_Set PedCom_G sk r = Ok key /\
    SchnPubKey_Set PedCom_G (Add (ScalarMult g sk) (ScalarMult h r)) = Ok (PubKey key) /\
    Sign key s1 s2 data = Ok sg /\
    Signature_SetBytes (Signature_Bytes sg) = Ok sg' /\
    Verify (PubKey key) (Some sg') data = Ok true /\
    Verify (PubKey key) (Some sg) data = (if r =? 0 then Panic else Ok true).
Proof.
  unfold SchnPubKey_Set. rewrite Hg, Hh. destruct (r =? 0) eqn:Er.
  - apply Z.eqb_eq in Er. subst r.
    destruct (sign_plain sk s1 s2 data) as (key & sg & sg' & E1 & E2 & E3 & E4 & _ & E5 & E6); [done..|].
    exists key, sg, sg'. rewrite E2 in *. rewrite (ScalarMult_0 h), Add_infinity_r by (done || apply ScalarMult_valid; (done || lia)).
    done.
  - apply Z.eqb_neq in Er.
    destruct (sign_private sk r s1 s2 data) as (key & sg & E1 & E2 & E3 & E4 & E5); [done|lia|done..| |].
    { destruct (Add_valid (ScalarMult g sk) (ScalarMult h r)); [apply ScalarMult_valid; (done || lia)..|done|done]. }
    exists key, sg, sg. rewrite E2 in *. done.
Qed.
End Facts.

(** ** Commitments and encryption *)

Section Encryption.
Context {curve : Curve} {sha : Sha256}.
Implicit Types (p q m : EllipticPoint).

Lemma inverse_on q : on_curve q -> on_curve (mkPoint (X q) ((curve_P - Y q) mod curve_P)).
Proof.
  intros (Hx & Hy & Hon). pose proof P_pos.
  assert (0 <= (curve_P - Y q) mod curve_P < curve_P) by (apply Z.mod_pos_bound; lia).
  split; [done|]. split; [done|]. cbn [X Y].
  rewrite curve_equation in * by done. rewrite bool_decide_eq_true in *. rewrite <- Hon.
  rewrite Zmult_mod_idemp_l, Zmult_mod_idemp_r.
  replace ((curve_P - Y q) * (curve_P - Y q)) with (Y q * Y q + (curve_P - 2 * Y q) * curve_P) by lia.
  apply Z.mod_add. lia.
Qed.

Lemma Sub_cancel p q : valid p -> on_curve q -> Sub (Add p q) q = Ok p.
Proof.
  intros Hp Hq. pose proof Hq as (Hx & Hy & Hon). unfold Sub, Inverse. rewrite Hon. cbn. f_equal.
  rewrite <- Add_assoc by (done || right; (done || by apply inverse_on)).
  unfold Add at 2. rewrite add_inverse by done. by apply Add_infinity_r.
Qed.

(** The key that sender and receiver share. *)
Lemma shared_key x k :
  0 < x < curve_N -> 0 < k < curve_N ->
  on_curve (ScalarMult curve_G k) /\ on_curve (ScalarMult (ScalarMult curve_G k) x) /\
  ScalarMult (GenPubKey x) k = ScalarMult (ScalarMult curve_G k) x.
Proof.
  intros Hx Hk. pose proof base_on as HG.
  assert (forall a, 0 < a < curve_N -> on_curve (ScalarMult curve_G a)) as Hon
    by (intros a Ha; apply ScalarMult_on; [done|lia|rewrite Z.mod_small; lia]).
  split; [auto|]. split; [apply ScalarMult_on; [auto|lia|rewrite Z.mod_small; lia]|].
  unfold GenPubKey. rewrite !ScalarMult_times by (auto || lia). f_equal. lia.
Qed.

Lemma decrypt_encrypt x k m :
  0 < x < curve_N -> 0 < k < curve_N -> valid m -> Decrypt x (Encrypt (GenPubKey x) k m) = Ok m.
Proof.
  intros Hx Hk Hm. destruct (shared_key x k Hx Hk) as (H1 & H2 & HE).
  unfold Decrypt, Encrypt. cbn [C1 C2]. rewrite HE. by apply Sub_cancel.
Qed.

Lemma IsEqual_on p : on_curve p -> IsEqual p infinity = false.
Proof.
  intros (_ & _ & Hon). unfold IsEqual. apply andb_false_iff.
  destruct (decide (X p = 0)) as [HX|]; [|left; by apply bool_decide_eq_false].
  right. apply bool_decide_eq_false. intros HY. rewrite HX, HY in Hon. pose proof infinity_off. simpl in *. congruence.
Qed.

Lemma ciphertext_back c : on_curve (C1 c) -> on_curve (C2 c) ->
  Ciphertext_SetBytes (Ciphertext_Bytes c) = Ok (Some c) /\ length (Ciphertext_Bytes c) = 66%nat.
Proof.
  intros H1 H2. unfold Ciphertext_Bytes. rewrite IsEqual_on by done.
  destruct (compress_bytes _ H1) as [L1 _]. destruct (compress_bytes _ H2) as [L2 _].
  unfold Ciphertext_SetBytes. rewrite length_app, L1, L2. split; [|done].
  destruct (Compress (C1 c) ++ Compress (C2 c)) eqn:E0.
  { apply (f_equal length) in E0. rewrite length_app, L1 in E0. done. }
  rewrite <- E0. cbn [Nat.ltb Nat.leb Nat.add].
  rewrite take_app_length', drop_app_length' by done. rewrite !decompress_compress by done. by destruct c.
Qed.

(** What is encrypted to the public key of a scalar is decrypted with that scalar, from
    66 bytes of ciphertext; a plaintext that cancels the shared key has a ciphertext of 33
    bytes, on which decryption panics. *)
Theorem elgamal_roundtrip (x k : Z) (m : EllipticPoint) (key : bytes)
    (Hx : 0 < x < curve_N) (Hk : 0 < k < curve_N) (Hm : valid m) (Hkey : SetBytes key = x) :
  exists c,
    ElGamalEncrypt (Compress (GenPubKey x)) k m = Ok c /\
    if decide (C2 (Encrypt (GenPubKey x) k m) = infinity)
    then length c = 33%nat /\ ElGamalDecrypt key c = Panic
    else length c = 66%nat /\ ElGamalDecrypt key c = Ok m.
Proof.
  destruct (shared_key x k Hx Hk) as (H1 & H2 & HE).
  assert (on_curve (GenPubKey x)) as Hpub by (apply ScalarMult_on; [apply base_on|lia|rewrite Z.mod_small; lia]).
  unfold ElGamalEncrypt. rewrite decompress_compress by done. eexists. split; [done|]. unfold ElGamalDecrypt.
  case_decide as Hc.
  - unfold Ciphertext_Bytes. cbn [C1 Encrypt]. rewrite IsEqual_on by done. rewrite Hc.
    destruct (compress_bytes _ H1) as [L1 _].
    assert (Compress infinity = []) as -> by (unfold Compress; cbn [X Y infinity]; by rewrite infinity_off).
    rewrite app_nil_r. split; [done|]. unfold Ciphertext_SetBytes. rewrite L1.
    destruct (Compress (ScalarMult curve_G k)) eqn:E0; [done|]. rewrite <- E0 in L1 |- *. cbn [Nat.ltb Nat.leb].
    rewrite take_ge, drop_ge by lia. by rewrite decompress_compress.
  - assert (on_curve (C2 (Encrypt (GenPubKey x) k m))) as Hon2.
    { unfold Encrypt in *. cbn [C2] in *. rewrite HE in *.
      destruct (Add_valid m (ScalarMult (ScalarMult curve_G k) x)); [done|by right|done|done]. }
    destruct (ciphertext_back (Encrypt (GenPubKey x) k m)) as [-> ->]; [done|done|].
    split; [done|]. rewrite Hkey. by apply decrypt_encrypt.
Qed.

(** ** The homomorphism of commitments *)

Section Homomorphism.
Context (PedCom_G : list EllipticPoint) (Hgens : Forall on_curve PedCom_G).

Definition commit_step (c : EllipticPoint) (go : EllipticPoint * Z) : EllipticPoint :=
  Add c (ScalarMult go.1 go.2).

Lemma commit_sum gs xs ys c d :
  Forall on_curve gs -> Forall (fun x => 0 <= x) xs -> Forall (fun y => 0 <= y) ys ->
  length xs = length gs -> length ys = length gs -> valid c -> valid d ->
  foldl commit_step (Add c d) (zip gs (zip_with (fun x y => (x + y) mod curve_N) xs ys)) =
  Add (foldl commit_step c (zip gs xs)) (foldl commit_step d (zip gs ys)) /\
  valid (foldl commit_step c (zip gs xs)).
Proof.
  intros Hgs. revert xs ys c d.
  induction Hgs as [|g gs Hg Hgs IH]; intros [|x xs] [|y ys] c d Hxs Hys Hlx Hly Hc Hd; try discriminate; [done|].
  inversion Hxs as [|? ? Hx0 Hxs']; inversion Hys as [|? ? Hy0 Hys']; subst. cbn [zip_with foldl].
  unfold commit_step at 2 4 6 8. cbn [fst snd].
  rewrite ScalarMult_mod, ScalarMult_plus by (done || lia).
  rewrite Add_swap by auto with curve.
  apply IH; auto with curve.
Qed.

(** Commitments add up: the sum of two commitments is the commitment to the sums, modulo
    the order, of what they open to. *)
Theorem commit_homomorphic (xs ys : list Z) (cx cy : EllipticPoint)
    (Hxs : Forall (fun x => 0 <= x) xs) (Hys : Forall (fun y => 0 <= y) ys)
    (Hx : CommitAll PedCom_G xs = Some cx) (Hy : CommitAll PedCom_G ys = Some cy) :
  CommitAll PedCom_G (zip_with (fun x y => (x + y) mod curve_N) xs ys) = Some (Add cx cy).
Proof.
  unfold CommitAll in *.
  destruct (length xs =? length PedCom_G)%nat eqn:Ex; [|done]. apply Nat.eqb_eq in Ex. injection Hx as <-.
  destruct (length ys =? length PedCom_G)%nat eqn:Ey; [|done]. apply Nat.eqb_eq in Ey. injection Hy as <-.
  rewrite length_zip_with, Ex, Ey, Nat.min_id, Nat.eqb_refl. f_equal.
  assert (forall c l, foldl (fun c '(g, o) => Add c (ScalarMult g o)) c l = foldl commit_step c l) as Hstep
    by (intros c l; revert c; induction l as [|[? ?] l IH]; intros c; cbn [foldl]; [done|by rewrite IH]).
  rewrite !Hstep.
  destruct (commit_sum PedCom_G xs ys infinity infinity) as [<- _]; try done; [apply infinity_valid..|].
  by rewrite Add_infinity_l by apply infinity_valid.
Qed.
End Homomorphism.
End Encryption.

(** ** Concrete inputs *)

Section Samples.
Import Sha256Impl SmallCurve.

Definition sample_generators : list EllipticPoint :=
  [mkPoint 1 2; mkPoint 2 1; mkPoint 4 3; mkPoint 5 2; mkPoint 6 1].

Definition sample_data : bytes := replicate 32 7.

Lemma generators_on : Forall on_curve sample_generators.
Proof. unfold sample_generators. repeat constructor; (cbn; lia) || reflexivity. Qed.

Lemma schnorr_sign_verifies_witness :
  exists key sg sg',
    SchnPrivKey_Set sample_generators 3 4 = Ok key /\
    SchnPubKey_Set sample_generators (Add (ScalarMult (mkPoint 1 2) 3) (ScalarMult (mkPoint 6 1) 4)) = Ok (PubKey key) /\
    Sign key 5 2 sample_data = Ok sg /\
    Signature_SetBytes (Signature_Bytes sg) = Ok sg' /\
    Verify (PubKey key) (Some sg') sample_data = Ok true /\
    Verify (PubKey key) (Some sg) sample_data = (if 4 =? 0 then Panic else Ok true).
Proof.
  apply (schnorr_sign_verifies sample_generators (mkPoint 1 2) (mkPoint 6 1)).
  - reflexivity.
  - reflexivity.
  - repeat split; (cbn; lia) || reflexivity.
  - repeat split; (cbn; lia) || reflexivity.
  - cbn. lia.
  - cbn. lia.
  - lia.
  - lia.
  - vm_compute. discriminate.
  - reflexivity.
Defined.

Lemma elgamal_roundtrip_witness :
  exists c,
    ElGamalEncrypt (Compress (GenPubKey 3)) 4 (mkPoint 5 2) = Ok c /\
    if decide (C2 (Encrypt (GenPubKey 3) 4 (mkPoint 5 2)) = infinity)
    then length c = 33%nat /\ ElGamalDecrypt [3] c = Panic
    else length c = 66%nat /\ ElGamalDecrypt [3] c = Ok (mkPoint 5 2).
Proof.
  apply elgamal_roundtrip.
  - cbn. lia.
  - cbn. lia.
  - right. repeat split; (cbn; lia) || reflexivity.
  - reflexivity.
Defined.

Lemma commit_homomorphic_witness :
  CommitAll sample_generators [6; 7; 8; 9; 10] =
  Some (Add (mkPoint 6 1) (mkPoint 1 2)).
Proof.
  apply (commit_homomorphic sample_generators generators_on [1; 2; 3; 4; 5] [5; 5; 5; 5; 5]).
  - repeat constructor; lia.
  - repeat constructor; lia.
  - vm_compute. reflexivity.
  - vm_compute. reflexivity.
Defined.
End Samples.
End Schnorr.
