(* ===== verification/MultiSig.v ===== *)
(** Combinable Schnorr signatures (src/privacy/schnorrmultisig.go): every signer of a round
    publishes a point, signs under the sum of the points, and the signatures add up. *)

From S2P Require Import Prelude GoStr Hash Sha256 Base58 Modular EC Schnorr.

#[local] Open Scope list_scope.
#[local] Open Scope Z_scope.

Module MultiSig.
Import Hashes EC.

Record SchnMultiSig := mkMultiSig { R : EllipticPoint; S : Z }.

Section Crypto.
Context {curve : Curve} {sha : Sha256}.

(** ** Signatures as bytes *)

(** An error leaves [S], and where the bytes are short [R], nil. *)
Definition SetBytes_sig (sigByte : bytes) : outcome SchnMultiSig :=
  if (length sigByte <? CompressedPointSize + BigIntSize)%nat then Err "Invalid sig length"
  else
    r ← decompressed (take 33 sigByte);
    Ok (mkMultiSig r (SetBytes (take 32 (drop 33 sigByte)))).

Definition Bytes_sig (multiSig : SchnMultiSig) : outcome bytes :=
  if IsOnCurve (X (R multiSig)) (Y (R multiSig))
  then Ok (Compress (R multiSig) ++ AddPaddingBigInt (S multiSig) BigIntSize)
  else Panic.

(** ** Keys *)

(** [temp.Decompress(key)] without a look at its error: wrong magic leaves the coordinates
    nil, on which the next operation panics; an abscissa off the curve leaves the point that
    was computed. *)
Definition key_point (key : bytes) : outcome EllipticPoint :=
  match Decompress key infinity with
  | (p, Ok _) => Ok p
  | (p, Err e) => if String.eqb e "invalid magic in compressed compressPoint bytes" then Panic else Ok p
  | (_, Panic) => Panic
  end.

(** The weight of a key: a hash of its sum with the aggregated key. *)
Definition weight (aggKey p : EllipticPoint) : Z := SetBytes (DoubleHashB (Compress (Add aggKey p))).

Definition sum (ps : list EllipticPoint) : EllipticPoint := foldl Add infinity ps.

Definition generateCommonParams (listCommonPK listCombinePK : list bytes) (r : EllipticPoint) (data : bytes)
  : outcome (EllipticPoint * Z * EllipticPoint) :=
  common ← mapM key_point listCommonPK;
  let aggPubkey := sum common in
  let x := sum (map (fun p => ScalarMult p (weight aggPubkey p mod curve_N)) common) in
  let c := SetBytes ((Compress x ++ Compress r) ++ data) mod curve_N in
  if (length listCombinePK <? length listCommonPK)%nat then
    combine ← mapM key_point listCombinePK;
    Ok (aggPubkey, c, sum (map (fun p => ScalarMult p (weight aggPubkey p)) combine))
  else Ok (aggPubkey, c, x).

(** ** Signing, verifying, combining *)

Definition SignMultiSig (priKey pubKey data : bytes) (listPK : list bytes) (listR : list EllipticPoint) (r : Z)
  : outcome SchnMultiSig :=
  '(aggKey, c, _) ← generateCommonParams listPK listPK (sum listR) data;
  selfPK ← key_point pubKey;
  let aInt := weight aggKey selfPK mod curve_N in
  let sig := (((aInt * c) mod curve_N * SetBytes priKey) mod curve_N + r) mod curve_N in
  let res := mkMultiSig (ScalarMult curve_G r) sig in
  b ← Bytes_sig res;
  if (length b =? BigIntSize + CompressedPointSize)%nat then Ok res else Panic.

Definition VerifyMultiSig (multiSig : SchnMultiSig) (data : bytes) (listCommonPK listCombinePK : list bytes)
    (rCombine : EllipticPoint) : outcome bool :=
  b ← Bytes_sig multiSig;
  if (length b =? BigIntSize + CompressedPointSize)%nat then
    '(_, c, x) ← generateCommonParams listCommonPK listCombinePK rCombine data;
    Ok (IsEqual (ScalarMult curve_G (S multiSig)) (Add (ScalarMult x c) (R multiSig)))
  else Panic.

Definition GenerateRandom (r : Z) : EllipticPoint * Z := (ScalarMult curve_G r, r).

Definition CombineMultiSig (listSignatures : list SchnMultiSig) : SchnMultiSig :=
  foldl (fun res sig => mkMultiSig (Add (R res) (R sig)) ((S res + S sig) mod curve_N))
    (mkMultiSig infinity 0) listSignatures.
End Crypto.

(** ** Lemmas *)

Section Facts.
Context {curve : Curve} {sha : Sha256}.
Implicit Types (p q x : EllipticPoint) (ps qs xs : list EllipticPoint).

Lemma sum_from c ps : valid c -> Forall valid ps -> foldl Add c ps = Add c (sum ps) /\ valid (sum ps).
Proof.
  intros Hc Hps. revert c Hc. induction Hps as [|p ps Hp Hps IH]; intros c Hc.
  - split; [symmetry; by apply Add_infinity_r|apply infinity_valid].
  - unfold sum. cbn [foldl]. rewrite Add_infinity_l by done.
    destruct (IH (Add c p)) as [-> _]; [by apply Add_valid|]. destruct (IH p Hp) as [-> Hs].
    split; [symmetry; by apply Add_assoc|by apply Add_valid].
Qed.

Lemma sum_cons p ps : valid p -> Forall valid ps -> sum (p :: ps) = Add p (sum ps).
Proof. intros Hp Hps. unfold sum. cbn [foldl]. rewrite Add_infinity_l by done. by apply sum_from. Qed.

Lemma sum_valid ps : Forall valid ps -> valid (sum ps).
Proof. intros Hps. by destruct (sum_from infinity ps infinity_valid Hps). Qed.

Lemma sum_perm ps qs : ps ≡ₚ qs -> Forall valid ps -> sum ps = sum qs.
Proof.
  induction 1 as [|p ps qs Hperm IH|p q ps|ps qs rs H1 IH1 H2 IH2]; intros Hps; [done| | |].
  - inversion_clear Hps. rewrite !sum_cons by (done || by rewrite <- Hperm). by rewrite IH.
  - inversion_clear Hps as [|? ? Hq Hps']. inversion_clear Hps'. rewrite !sum_cons by auto.
    rewrite !Add_assoc by auto using sum_valid. f_equal. by apply Add_comm.
  - rewrite IH1 by done. apply IH2. by rewrite <- H1.
Qed.

Definition weighted (aggKey p : EllipticPoint) : EllipticPoint := ScalarMult p (weight aggKey p).

Definition challenge (aggKey : EllipticPoint) ps (r : EllipticPoint) (data : bytes) : Z :=
  SetBytes ((Compress (sum (map (weighted aggKey) ps)) ++ Compress r) ++ data) mod curve_N.

Lemma weight_nonneg agg p : 0 <= weight agg p.
Proof.
  unfold weight, DoubleHashB, SetBytes, be_value. set (b := Sum256 (Compress _)).
  destruct (Sum256_ok b) as [_ Hr]. apply Forall_rev, le_value_range in Hr. lia.
Qed.

(** On points of the curve it makes no difference that one of the sums reduces the weights. *)
Lemma generate_spec common combine ps qs r data :
  mapM key_point common = Ok ps -> mapM key_point combine = Ok qs -> Forall on_curve ps ->
  generateCommonParams common combine r data =
  Ok (sum ps, challenge (sum ps) ps r data,
      sum (map (weighted (sum ps)) (if (length combine <? length common)%nat then qs else ps))).
Proof.
  intros Hc Hq Hon. unfold generateCommonParams. rewrite Hc, Hq. cbn [mbind outcome_bind].
  assert (map (fun p => ScalarMult p (weight (sum ps) p mod curve_N)) ps = map (weighted (sum ps)) ps) as ->.
  { apply map_ext_in. intros p Hp%list_elem_of_In. rewrite Forall_forall in Hon.
    apply ScalarMult_mod; [by apply Hon|apply weight_nonneg]. }
  by destruct (_ <? _)%nat.
Qed.

Lemma bytes_sig_ok sig : on_curve (R sig) -> 0 <= S sig < 2 ^ 256 ->
  Bytes_sig sig = Ok (Compress (R sig) ++ AddPaddingBigInt (S sig) BigIntSize) /\
  length (Compress (R sig) ++ AddPaddingBigInt (S sig) BigIntSize) = 65%nat /\
  SetBytes_sig (Compress (R sig) ++ AddPaddingBigInt (S sig) BigIntSize) = Ok sig.
Proof.
  intros HR HS. unfold Bytes_sig. destruct HR as (HX & HY & Hon) eqn:E. rewrite Hon. clear E.
  destruct (compress_bytes (R sig)) as [LR _]; [done|]. destruct (padded_bytes_ok _ BigIntSize HS) as (LS & _ & VS).
  change BigIntSize with 32%nat in *. split; [done|]. rewrite length_app, LR, LS. split; [done|].
  unfold SetBytes_sig. rewrite length_app, LR, LS. change (33 + 32 <? CompressedPointSize + BigIntSize)%nat with false.
  cbv iota. rewrite take_app_length', drop_app_length', take_ge by (rewrite ?LS; done).
  rewrite decompress_compress by done. cbn. rewrite VS. by destruct sig.
Qed.

Lemma verify_spec sig data common combine r ps qs :
  on_curve (R sig) -> 0 <= S sig < 2 ^ 256 ->
  mapM key_point common = Ok ps -> mapM key_point combine = Ok qs -> Forall on_curve ps ->
  VerifyMultiSig sig data common combine r =
  Ok (IsEqual (ScalarMult curve_G (S sig))
        (Add (ScalarMult (sum (map (weighted (sum ps)) (if (length combine <? length common)%nat then qs else ps)))
                (challenge (sum ps) ps r data)) (R sig))).
Proof.
  intros HR HS Hc Hq Hon. unfold VerifyMultiSig. destruct (bytes_sig_ok sig HR HS) as (-> & Hl & _).
  cbn [mbind outcome_bind]. rewrite Hl. change (65 =? BigIntSize + CompressedPointSize)%nat with true. cbv iota.
  by rewrite (generate_spec common combine ps qs).
Qed.

Lemma IsEqual_spec p q : IsEqual p q = true <-> p = q.
Proof.
  unfold IsEqual. rewrite andb_true_iff, !bool_decide_eq_true. destruct p, q; cbn. split; [by intros [-> ->]|by intros [= -> ->]].
Qed.

Lemma key_point_compress p : on_curve p -> key_point (Compress p) = Ok p.
Proof.
  intros Hp. pose proof (decompress_compress p Hp) as H. unfold decompressed in H. unfold key_point.
  destruct (Decompress (Compress p) infinity) as [? [?|?|]]; congruence.
Qed.

(** ** Adding signatures up *)

Lemma on_is_valid ps : Forall on_curve ps -> Forall valid ps.
Proof. intros H. eapply Forall_impl; [exact H|]. auto with curve. Qed.

(** A multiple of a sum, by way of the discrete logarithm of the sum. *)
Lemma base_times k c : 0 <= k -> 0 <= c -> on_curve (ScalarMult curve_G k) ->
  ScalarMult (ScalarMult curve_G k) c = ScalarMult curve_G (k * c).
Proof. intros. apply ScalarMult_times; auto using base_on. Qed.

Lemma base_plus a b : 0 <= a -> 0 <= b ->
  ScalarMult curve_G (a + b) = Add (ScalarMult curve_G a) (ScalarMult curve_G b).
Proof. intros. apply ScalarMult_plus; auto using base_on. Qed.

Lemma base_valid a : 0 <= a -> valid (ScalarMult curve_G a).
Proof. intros. apply ScalarMult_valid; auto using base_on. Qed.

(** A signature answers a challenge [c] under a key [x]. *)
Definition answers (c : Z) (sig : SchnMultiSig) (x : EllipticPoint) : Prop :=
  valid (R sig) /\ 0 <= S sig /\ on_curve x /\ ScalarMult curve_G (S sig) = Add (ScalarMult x c) (R sig).

Definition add_sig (res sig : SchnMultiSig) : SchnMultiSig :=
  mkMultiSig (Add (R res) (R sig)) ((S res + S sig) mod curve_N).

Lemma answers_add c sigs xs acc k :
  0 <= c -> 0 <= k -> valid (R acc) -> 0 <= S acc ->
  ScalarMult curve_G (S acc) = Add (ScalarMult curve_G (k * c)) (R acc) ->
  Forall2 (answers c) sigs xs ->
  exists k', 0 <= k' /\ foldl Add (ScalarMult curve_G k) xs = ScalarMult curve_G k' /\
    valid (R (foldl add_sig acc sigs)) /\
    ScalarMult curve_G (S (foldl add_sig acc sigs)) =
      Add (ScalarMult curve_G (k' * c)) (R (foldl add_sig acc sigs)).
Proof.
  intros Hc Hk HR HS Heq Hall. revert acc k Hk HR HS Heq.
  induction Hall as [|sig x sigs xs (HRs & HSs & Hx & Hans) Hall IH]; intros acc k Hk HR HS Heq.
  - exists k. auto.
  - destruct (discrete_log x) as (kx & Hkx & Ex); [by right|]. subst x. cbn [foldl].
    rewrite <- base_plus by done. pose proof (mod_N_range (S acc + S sig)).
    apply IH; [lia|by apply Add_valid|cbn; lia|]. cbn [add_sig R S].
    rewrite ScalarMult_mod, base_plus, Heq, Hans, base_times by (auto using base_on || lia).
    rewrite Add_swap by (auto using base_valid || apply base_valid; nia). f_equal.
    rewrite <- base_plus by nia. f_equal. lia.
Qed.

Lemma combine_answers c sigs xs :
  0 <= c -> Forall2 (answers c) sigs xs -> on_curve (sum xs) ->
  ScalarMult curve_G (S (CombineMultiSig sigs)) = Add (ScalarMult (sum xs) c) (R (CombineMultiSig sigs)).
Proof.
  intros Hc Hall Hon.
  assert (ScalarMult curve_G 0 = infinity) as H0 by (apply ScalarMult_0, base_on).
  assert (ScalarMult curve_G 0 = Add (ScalarMult curve_G (0 * c)) infinity) as Hstart
    by (rewrite Z.mul_0_l, H0; symmetry; apply Add_infinity_l, infinity_valid).
  destruct (answers_add c sigs xs (mkMultiSig infinity 0) 0 Hc (Z.le_refl 0) infinity_valid (Z.le_refl 0) Hstart Hall)
    as (k & Hk & Esum & _ & Heq).
  rewrite H0 in Esum. fold (sum xs) in Esum. rewrite Esum in *. by rewrite base_times by done.
Qed.

Lemma combine_range sigs : 0 <= S (CombineMultiSig sigs) < 2 ^ 256.
Proof.
  unfold CombineMultiSig. pose proof curve_order.
  assert (forall acc, 0 <= S acc < 2 ^ 256 -> 0 <= S (foldl add_sig acc sigs) < 2 ^ 256) as H'.
  { induction sigs as [|sig sigs IH]; intros acc Hacc; [done|]. apply IH. apply Schnorr.mod_N_bits. }
  by apply H'.
Qed.

(** Signatures of different signers that answer the challenge of a round add up to one that
    is verified against the signers. *)
Lemma aggregate_verifies common combine signers ps qs sigs r data :
  mapM key_point common = Ok ps -> mapM key_point signers = Ok qs ->
  Forall on_curve ps -> Forall on_curve qs -> combine ≡ₚ signers ->
  (length signers < length common)%nat \/ ps ≡ₚ qs ->
  Forall2 (answers (challenge (sum ps) ps r data)) sigs (map (weighted (sum ps)) qs) ->
  on_curve (sum (map (weighted (sum ps)) qs)) -> on_curve (R (CombineMultiSig sigs)) ->
  VerifyMultiSig (CombineMultiSig sigs) data common combine r = Ok true.
Proof.
  intros Hc Hs Honp Honq Hperm Hlen Hans Hx HR.
  destruct (mapM_perm key_point combine signers qs) as (qs' & Hq' & Hpq); [done|done|].
  assert (Forall valid (map (weighted (sum ps)) qs)) as Hv.
  { apply Forall_map. eapply Forall_impl; [exact Honq|]. intros q Hq. apply ScalarMult_valid; [done|apply weight_nonneg]. }
  rewrite (verify_spec _ _ _ _ _ ps qs') by (done || apply combine_range). f_equal. apply IsEqual_spec.
  assert (sum (map (weighted (sum ps)) (if (length combine <? length common)%nat then qs' else ps)) =
          sum (map (weighted (sum ps)) qs)) as ->.
  { symmetry. apply sum_perm; [|done]. apply fmap_Permutation. destruct (Nat.ltb_spec (length combine) (length common)).
    - done.
    - destruct Hlen as [Hlen|Hlen]; [rewrite <- Hperm in Hlen; lia|by symmetry]. }
  apply combine_answers; [apply mod_N_range|done|done].
Qed.

Lemma combine_R sigs : R (CombineMultiSig sigs) = sum (map R sigs).
Proof.
  unfold CombineMultiSig, sum. change infinity with (R (mkMultiSig infinity 0)) at 2.
  generalize (mkMultiSig infinity 0). induction sigs as [|sig sigs IH]; intros acc; cbn [foldl map]; [done|].
  by rewrite IH.
Qed.

(** ** A round of honest signers *)

Definition signer_point (k : bytes) : EllipticPoint := ScalarMult curve_G (SetBytes k).
Definition signer_key (k : bytes) : bytes := Compress (signer_point k).

(** The private key and the random scalar of a signer. *)
Definition signer_ok (s : bytes * Z) : Prop := 0 < SetBytes s.1 < curve_N /\ 0 < s.2 < curve_N.

Lemma base_on_curve a : 0 < a < curve_N -> on_curve (ScalarMult curve_G a).
Proof. intros. apply ScalarMult_on; [apply base_on|lia|rewrite Z.mod_small; lia]. Qed.

Lemma sign_answers s data common ps listR :
  signer_ok s -> mapM key_point common = Ok ps -> Forall on_curve ps ->
  weight (sum ps) (signer_point s.1) mod curve_N <> 0 ->
  exists sig, SignMultiSig s.1 (signer_key s.1) data common listR s.2 = Ok sig /\
    answers (challenge (sum ps) ps (sum listR) data) sig (weighted (sum ps) (signer_point s.1)) /\
    R sig = ScalarMult curve_G s.2.
Proof.
  intros [Hsk Hr] Hc Hon Hw. set (c := challenge _ _ _ _). assert (0 <= c < curve_N) as Hcr by apply mod_N_range.
  pose proof (base_on_curve _ Hsk) as Hpk. pose proof (base_on_curve _ Hr) as HR.
  pose proof (weight_nonneg (sum ps) (signer_point s.1)) as Hwn. set (w := weight (sum ps) (signer_point s.1)) in *.
  unfold SignMultiSig. rewrite (generate_spec common common ps ps) by done. cbn [mbind outcome_bind].
  unfold signer_key. rewrite key_point_compress by done. cbn [mbind outcome_bind]. fold c w.
  set (sg := (_ + s.2) mod curve_N). assert (0 <= sg < curve_N) as Hsg by apply mod_N_range.
  destruct (bytes_sig_ok (mkMultiSig (ScalarMult curve_G s.2) sg)) as (-> & Hl & _); [done|apply Schnorr.mod_N_bits|].
  cbn [mbind outcome_bind]. rewrite Hl. eexists. split; [done|]. split; [|done].
  assert (on_curve (ScalarMult (signer_point s.1) w)) as Hx by by apply ScalarMult_on.
  split; [by right|]. split; [cbn; lia|]. split; [done|]. cbn [R S]. unfold weighted. fold w.
  assert (ScalarMult (signer_point s.1) w = ScalarMult curve_G (SetBytes s.1 * w)) as E by (apply base_times; (done || lia)).
  rewrite E in *. rewrite base_times by (done || nia).
  rewrite <- base_plus by nia. apply ScalarMult_cong; [apply base_on|lia|nia|].
  assert (((w mod curve_N * c) mod curve_N * SetBytes s.1) mod curve_N = (SetBytes s.1 * w * c) mod curve_N) as Ew.
  { rewrite Zmult_mod_idemp_l, <- Z.mul_assoc, Zmult_mod_idemp_l. f_equal. lia. }
  unfold sg. by rewrite Zmod_mod, Ew, Zplus_mod_idemp_l.
Qed.

Section Round.
Context (committee signers : list (bytes * Z)) (data : bytes).
Context (Hcommittee : Forall signer_ok committee) (Hsigners : signers ⊆+ committee).

Definition round_keys (l : list (bytes * Z)) : list bytes := map (fun s => signer_key s.1) l.
Definition round_R (l : list (bytes * Z)) : list EllipticPoint := map (fun s => ScalarMult curve_G s.2) l.
Definition round_points (l : list (bytes * Z)) : list EllipticPoint := map (fun s => signer_point s.1) l.

Lemma round_mapM l : Forall signer_ok l ->
  mapM key_point (round_keys l) = Ok (round_points l) /\ Forall on_curve (round_points l).
Proof.
  intros Hl. rewrite mapM_Ok. induction Hl as [|s l [Hs _] _ [IH1 IH2]]; [by repeat constructor|].
  pose proof (base_on_curve _ Hs). split; constructor; try done. by apply key_point_compress.
Qed.

(** C27. When every member of a committee publishes its random point, the signatures of any of
    them, taken in any order, combine into a signature that is verified against the committee
    and the signers, provided no weight is a multiple of the order and no sum is infinity. *)
Theorem multisig_round_verifies (combine : list bytes)
    (Hcombine : combine ≡ₚ round_keys signers)
    (Hweights : Forall (fun p => weight (sum (round_points committee)) p mod curve_N <> 0) (round_points committee))
    (Hx : sum (map (weighted (sum (round_points committee))) (round_points signers)) <> infinity)
    (HR : sum (round_R signers) <> infinity) :
  exists sigs,
    mapM (fun s => SignMultiSig s.1 (signer_key s.1) data (round_keys committee) (round_R committee) s.2) signers
      = Ok sigs /\
    VerifyMultiSig (CombineMultiSig sigs) data (round_keys committee) combine (sum (round_R committee)) = Ok true.
Proof.
  assert (Forall signer_ok signers) as Hok by by eapply Forall_sub.
  destruct (round_mapM committee Hcommittee) as [Hc Hon]. destruct (round_mapM signers Hok) as [Hs Hons].
  set (ps := round_points committee) in *. set (c := challenge (sum ps) ps (sum (round_R committee)) data).
  assert (Forall (fun s => weight (sum ps) (signer_point s.1) mod curve_N <> 0) signers) as Hw.
  { eapply Forall_sub; [done|]. rewrite Forall_forall. intros s Hs'.
    rewrite Forall_forall in Hweights. apply Hweights. by apply (list_elem_of_fmap_2 (fun s => signer_point s.1)). }
  assert (exists sigs,
    mapM (fun s => SignMultiSig s.1 (signer_key s.1) data (round_keys committee) (round_R committee) s.2) signers = Ok sigs /\
    Forall2 (answers c) sigs (map (weighted (sum ps)) (round_points signers)) /\ map R sigs = round_R signers)
    as (sigs & Hsigs & Hans & HRs).
  { setoid_rewrite mapM_Ok. clear Hsigners Hs Hons Hx HR Hcombine.
    induction signers as [|s l IH]; [exists []; by repeat constructor|].
    inversion_clear Hok as [|? ? Hs Hl]. inversion_clear Hw as [|? ? Hws Hwl]. destruct (IH Hl Hwl) as (sigs & H1 & H2 & H3).
    destruct (sign_answers s data (round_keys committee) ps (round_R committee)) as (sig & E & A & ER); try done.
    exists (sig :: sigs). split; [by constructor|]. split; [by constructor|]. cbn. by rewrite ER, H3. }
  exists sigs. split; [done|].
  assert (Forall valid (round_R signers)) as HvR.
  { apply Forall_map. eapply Forall_impl; [exact Hok|]. intros s [_ Hr]. apply base_valid. lia. }
  assert (Forall valid (map (weighted (sum ps)) (round_points signers))) as Hvx.
  { apply Forall_map. eapply Forall_impl; [exact Hons|]. intros p Hp. apply ScalarMult_valid; [done|apply weight_nonneg]. }
  apply (aggregate_verifies _ _ (round_keys signers) ps (round_points signers)); try done.
  - unfold round_keys. rewrite !length_map. destruct (decide (length committee <= length signers)%nat) as [Hle|]; [|left; lia].
    right. apply fmap_Permutation. symmetry. by apply submseteq_length_Permutation.
  - by destruct (sum_valid _ Hvx).
  - rewrite combine_R, HRs. by destruct (sum_valid _ HvR).
Qed.
End Round.

(** ** The challenge is not a hash *)

Lemma be_value_app a b : SetBytes (a ++ b) = SetBytes a * 256 ^ Z.of_nat (length b) + SetBytes b.
Proof.
  unfold SetBytes, be_value. rewrite rev_app_distr, <- (length_rev b). generalize (rev a), (rev b). clear.
  intros l k. induction k as [|x k IH]; [simpl; lia|]. cbn [app le_value length].
  rewrite IH, Nat2Z.inj_succ, Z.pow_succ_r by lia. lia.
Qed.

(** C28. The challenge is the number that key, point and message spell, modulo the order: for
    any scalar [s] and any challenge [c] there is a message of 32 bytes that is verified under
    the keys with a signature that is computed from public data. *)
Theorem multisig_forgery (common combine : list bytes) (ps qs : list EllipticPoint) (rc rf : EllipticPoint) (s c : Z)
    (Hcommon : mapM key_point common = Ok ps) (Hcombine : mapM key_point combine = Ok qs)
    (Hps : Forall on_curve ps) (Hs : 0 <= s < 2 ^ 256) (Hc : 0 <= c < curve_N)
    (Hrf : Sub (ScalarMult curve_G s)
             (ScalarMult (sum (map (weighted (sum ps)) (if (length combine <? length common)%nat then qs else ps))) c)
           = Ok rf)
    (Hxc : on_curve (ScalarMult (sum (map (weighted (sum ps)) (if (length combine <? length common)%nat then qs else ps))) c))
    (Hon : on_curve rf) :
  exists data, length data = HashSize /\ Forall in_u8 data /\
    VerifyMultiSig (mkMultiSig rf s) data common combine rc = Ok true.
Proof.
  set (x := sum _) in *. set (pre := Compress (sum (map (weighted (sum ps)) ps)) ++ Compress rc).
  pose proof curve_order as HN. set (d := (c - SetBytes pre * 2 ^ 256) mod curve_N).
  assert (0 <= d < 2 ^ 256) as Hd by apply Schnorr.mod_N_bits.
  destruct (padded_bytes_ok d BigIntSize Hd) as (Hl & Hr & Hv).
  exists (AddPaddingBigInt d BigIntSize). split; [done|]. split; [done|].
  rewrite (verify_spec _ _ _ _ _ ps qs) by done. fold x. cbn [R S]. f_equal. apply IsEqual_spec.
  assert (challenge (sum ps) ps rc (AddPaddingBigInt d BigIntSize) = c) as ->.
  { unfold challenge. fold pre. rewrite be_value_app, Hl, Hv. change (256 ^ Z.of_nat BigIntSize) with (2 ^ 256).
    unfold d. rewrite Zplus_mod_idemp_r. replace (_ + _) with c by lia. by apply Z.mod_small. }
  unfold Sub, Inverse in Hrf. destruct Hxc as (HX & HY & HI) eqn:E. rewrite HI in Hrf. injection Hrf as <-.
  assert (valid (ScalarMult curve_G s)) as HvG by (apply base_valid; lia).
  assert (valid (mkPoint (X (ScalarMult x c)) ((curve_P - Y (ScalarMult x c)) mod curve_P))) as Hvi
    by (right; by apply Schnorr.inverse_on).
  rewrite Add_comm, <- Add_assoc, (Add_comm _ (ScalarMult x c)) by (auto using Add_valid; by right).
  unfold Add at 2. rewrite add_inverse by done. symmetry. by apply Add_infinity_r.
Qed.
End Facts.

(** ** Concrete inputs *)

Section Samples.
Import Sha256Impl SmallCurve.

Definition sample_committee : list (bytes * Z) := [([2], 3); ([3], 5); ([4], 6)].
Definition sample_signers : list (bytes * Z) := [([4], 6); ([2], 3)].
Definition sample_message : bytes := replicate 32 9.

Lemma sample_keys_ok : Forall signer_ok sample_committee.
Proof. repeat constructor; cbn; lia. Qed.

Lemma sample_sublist : sample_signers ⊆+ sample_committee.
Proof. apply (bool_decide_eq_true_1 _). vm_compute. reflexivity. Qed.

(** Two of three members, in another order than that of the committee. *)
Lemma multisig_round_verifies_witness :
  exists sigs,
    mapM (fun s => SignMultiSig s.1 (signer_key s.1) sample_message (round_keys sample_committee)
            (round_R sample_committee) s.2) sample_signers = Ok sigs /\
    VerifyMultiSig (CombineMultiSig sigs) sample_message (round_keys sample_committee)
      (round_keys sample_signers) (sum (round_R sample_committee)) = Ok true.
Proof.
  apply multisig_round_verifies.
  - apply sample_keys_ok.
  - apply sample_sublist.
  - reflexivity.
  - apply (bool_decide_eq_true_1 _). vm_compute. reflexivity.
  - vm_compute. discriminate.
  - vm_compute. discriminate.
Defined.

(** The two signers did not sign this message. *)
Lemma multisig_forgery_witness :
  exists data, length data = HashSize /\ Forall in_u8 data /\
    VerifyMultiSig (mkMultiSig (mkPoint 5 2) 7) data (round_keys sample_committee)
      (round_keys sample_signers) infinity = Ok true.
Proof.
  apply (multisig_forgery _ _ (round_points sample_committee) (round_points sample_signers) _ _ _ 4).
  - vm_compute. reflexivity.
  - vm_compute. reflexivity.
  - apply round_mapM, sample_keys_ok.
  - lia.
  - cbn. lia.
  - vm_compute. reflexivity.
  - split; [|split]; [vm_compute; split; congruence..|vm_compute; reflexivity].
  - split; [|split]; [vm_compute; split; congruence..|vm_compute; reflexivity].
Defined.
End Samples.
End MultiSig.
