(* ===== verification/Keys.v ===== *)
(** Keys (src/privacy/key.go) and key sets (src/cashec/keysetprivacy.go): how a seed becomes
    a spending key, an address and a viewing key, and how a key set signs.  [Signatures] is
    what the block chain relies on; the Schnorr signatures of a key set implement it. *)

From Stdlib Require Import Ascii String.
From S2P Require Import Prelude GoStr Hash Sha256 Base58 Modular EC Schnorr.

#[local] Open Scope string_scope.
#[local] Open Scope list_scope.
#[local] Open Scope Z_scope.

(** Signing with a private key and verifying with a public one. *)
Class Signatures : Type := {
  sig_key : bytes -> Prop;
  sig_public : bytes -> bytes;
  sig_sign : bytes -> bytes -> outcome bytes;
  sig_verify : bytes -> bytes -> bytes -> outcome bool;
  sig_sound sk data sg : sig_key sk -> sig_sign sk data = Ok sg -> sig_verify (sig_public sk) data sg = Ok true;
  sig_public_bytes sk : Forall in_u8 (sig_public sk);
  sig_sign_bytes sk data sg : sig_key sk -> sig_sign sk data = Ok sg -> Forall in_u8 sg
}.

Module Keys.
Import Hashes EC.

(** ** Addresses *)

Record PaymentAddress := mkPaymentAddress { Pk : bytes; Tk : bytes }.
Record ViewingKey := mkViewingKey { view_Pk : bytes; Rk : bytes }.
Record PaymentInfo := mkPaymentInfo { info_PaymentAddress : PaymentAddress; info_Amount : Z }.

#[export] Instance address_eq_dec : EqDecision PaymentAddress.
Proof. solve_decision. Defined.

Definition PaymentAddress_Bytes (addr : PaymentAddress) : bytes := Pk addr ++ Tk addr.

Definition PaymentAddress_SetBytes (b : bytes) : outcome PaymentAddress :=
  if (length b <? 33)%nat then Panic else Ok (mkPaymentAddress (take 33 b) (drop 33 b)).

(** It parses a copy. *)
Definition NewPaymentAddressFromByte (b : bytes) : outcome PaymentAddress := PaymentAddress_SetBytes b.

Definition PaymentAddress_Size (addr : PaymentAddress) : nat := (length (Pk addr) + length (Tk addr))%nat.

Definition PaymentAddress_String (addr : PaymentAddress) : string := hex_encode (PaymentAddress_Bytes addr).

(** ** Base58 texts of byte strings *)

Definition base58_encode {sha : Sha256} (b : bytes) : string := string_of_list_ascii (Base58.CheckEncode b 0).

Definition base58_decode {sha : Sha256} (s : string) : outcome bytes :=
  r ← Base58.CheckDecode (list_ascii_of_string s); Ok (fst r).

Lemma base58_roundtrip {sha : Sha256} b : Forall in_u8 b -> base58_decode (base58_encode b) = Ok b.
Proof.
  intros Hb. unfold base58_decode, base58_encode. rewrite list_ascii_of_string_of_list_ascii.
  by rewrite Base58.check_roundtrip.
Qed.

Definition ValidateDataB58 {sha : Sha256} {sigs : Signatures} (pbkB58 sigB58 : string) (data : bytes) : outcome unit :=
  match base58_decode pbkB58 with
  | Ok decPubkey =>
      match base58_decode sigB58 with
      | Ok decSig =>
          match sig_verify decPubkey data decSig with
          | Ok true => Ok tt
          | Ok false => Err "invalid signature"
          | Err _ => Err "error when verify data"
          | Panic => Panic
          end
      | Err _ => Err "can't decode signature"
      | Panic => Panic
      end
  | Err _ => Err "can't decode public key"
  | Panic => Panic
  end.

(** What is signed with a key is validated under the key's public part. *)
Lemma validate_signed {sha : Sha256} {sigs : Signatures} sk data sg :
  sig_key sk -> sig_sign sk data = Ok sg ->
  ValidateDataB58 (base58_encode (sig_public sk)) (base58_encode sg) data = Ok tt.
Proof.
  intros Hk Hs. unfold ValidateDataB58. rewrite !base58_roundtrip by (apply sig_public_bytes || by eapply sig_sign_bytes).
  by rewrite (sig_sound _ _ _ Hk Hs).
Qed.

(** ** Generation *)

Section Generate.
Context {curve : Curve} {sha : Sha256}.

(** Hashing until the digest, as a number, is at most the order; [None] is a loop that has
    not ended within the fuel. *)
Fixpoint reduce_key (fuel : nat) (key : bytes) : option bytes :=
  match fuel with
  | O => None
  | S fuel' => if curve_N <? SetBytes key then reduce_key fuel' (HashB key) else Some key
  end.

Definition GenerateSpendingKey (fuel : nat) (seed : bytes) : option bytes := reduce_key fuel (HashB seed).
Definition GenerateReceivingKey (fuel : nat) (spendingKey : bytes) : option bytes := reduce_key fuel (HashB spendingKey).

(** [Curve.ScalarBaseMult]. *)
Definition GeneratePublicKey (spendingKey : bytes) : bytes := Compress (ScalarMult curve_G (SetBytes spendingKey)).
Definition GenerateTransmissionKey (receivingKey : bytes) : bytes := Compress (ScalarMult curve_G (SetBytes receivingKey)).

Definition GenerateViewingKey (fuel : nat) (spendingKey : bytes) : option ViewingKey :=
  rk ← GenerateReceivingKey fuel spendingKey; Some (mkViewingKey (GeneratePublicKey spendingKey) rk).

Definition GeneratePaymentAddress (fuel : nat) (spendingKey : bytes) : option PaymentAddress :=
  rk ← GenerateReceivingKey fuel spendingKey;
  Some (mkPaymentAddress (GeneratePublicKey spendingKey) (GenerateTransmissionKey rk)).

(** ** Key sets *)

Record KeySet := mkKeySet {
  PrivateKey : bytes;
  KeySet_Address : PaymentAddress;
  ReadonlyKey : ViewingKey
}.

(** [KeySet{}]. *)
Definition empty_keyset : KeySet := mkKeySet [] (mkPaymentAddress [] []) (mkViewingKey [] []).

Definition ImportFromPrivateKey (fuel : nat) (privateKey : bytes) : option KeySet :=
  addr ← GeneratePaymentAddress fuel privateKey;
  view ← GenerateViewingKey fuel privateKey;
  Some (mkKeySet privateKey addr view).

Definition GenerateKey (fuel : nat) (seed : bytes) : option KeySet :=
  key ← GenerateSpendingKey fuel seed; ImportFromPrivateKey fuel key.

(** [copy(dst, src)]. *)
Definition copy_into (dst src : bytes) : bytes := take (length dst) src ++ drop (length src) dst.

(** [errors.Wrap(nil, ...)] is nil: no case reports an error.  The key is copied into the
    slice that the key set has. *)
Definition ImportFromPrivateKeyByte (fuel : nat) (privateKey : option bytes) (ks : KeySet) : option KeySet :=
  match privateKey with
  | None => Some ks
  | Some key =>
      if (length key =? 32)%nat then ImportFromPrivateKey fuel (copy_into (PrivateKey ks) key) else Some ks
  end.

Definition GetViewingKey (ks : KeySet) : ViewingKey := ReadonlyKey ks.
Definition GetPublicKeyB58 (ks : KeySet) : string := base58_encode (Pk (KeySet_Address ks)).

Context (PedCom_G : list EllipticPoint).

(** [s1] is the random scalar.  A signature that was not made is dereferenced. *)
Definition KeySet_Sign (ks : KeySet) (s1 : Z) (data : bytes) : outcome bytes :=
  key ← Schnorr.SchnPrivKey_Set PedCom_G (SetBytes (PrivateKey ks)) 0;
  match Schnorr.Sign key s1 0 (HashB data) with
  | Ok sg => Ok (Schnorr.Signature_Bytes sg)
  | _ => Panic
  end.

Definition KeySet_Verify (ks : KeySet) (data signature : bytes) : outcome bool :=
  PK ← decompressed (Pk (KeySet_Address ks));
  pub ← Schnorr.SchnPubKey_Set PedCom_G PK;
  sg ← Schnorr.Signature_SetBytes signature;
  Schnorr.Verify pub (Some sg) (HashB data).

Definition SignDataB58 (ks : KeySet) (s1 : Z) (data : bytes) : outcome string :=
  sg ← KeySet_Sign ks s1 data; Ok (base58_encode sg).
End Generate.

(** ** Lemmas *)

Section Facts.
Context {curve : Curve} {sha : Sha256}.

Lemma reduce_key_ok fuel key k :
  hash_ok key -> reduce_key fuel key = Some k -> hash_ok k /\ SetBytes k <= curve_N.
Proof.
  revert key. induction fuel as [|fuel IH]; intros key Hkey; [done|]. cbn [reduce_key].
  destruct (curve_N <? SetBytes key) eqn:E.
  - apply IH, Sum256_ok.
  - intros [= <-]. split; [done|]. by apply Z.ltb_ge.
Qed.

(** The fuel is enough when one of the digests that it covers is in range. *)
Lemma reduce_key_enough n fuel key :
  (n < fuel)%nat -> SetBytes (Nat.iter n HashB key) <= curve_N -> is_Some (reduce_key fuel key).
Proof.
  revert fuel key. induction n as [|n IH]; intros [|fuel] key Hf Hn; try lia; cbn [reduce_key].
  - cbn in Hn. replace (curve_N <? SetBytes key) with false by (symmetry; by apply Z.ltb_ge). by eexists.
  - destruct (_ <? _); [|by eexists]. apply IH; [lia|]. by rewrite <- Nat.iter_succ_r.
Qed.

Lemma SetBytes_nonneg b : Forall in_u8 b -> 0 <= SetBytes b.
Proof. intros Hb. unfold SetBytes, be_value. apply Forall_rev, le_value_range in Hb. lia. Qed.

Lemma public_on key : 0 < SetBytes key < curve_N -> on_curve (ScalarMult curve_G (SetBytes key)).
Proof. intros Hk. apply ScalarMult_on; [apply base_on|lia|rewrite Z.mod_small; lia]. Qed.

Lemma Compress_infinity : Compress infinity = [].
Proof. unfold Compress. cbn [X Y infinity]. by rewrite infinity_off. Qed.

(** The loop of the key generation ends as soon as a digest is at most the order.  A
    spending key has 32 bytes; one that is neither zero nor the order has a public key of 33
    bytes, that of its own point.  The order itself passes the comparison, and like zero it
    has an empty public key. *)
Theorem spending_key_spec (fuel n : nat) (seed : bytes)
    (Hfuel : (n < fuel)%nat) (Hn : SetBytes (Nat.iter n HashB (HashB seed)) <= curve_N) :
  exists key, GenerateSpendingKey fuel seed = Some key /\ hash_ok key /\ 0 <= SetBytes key <= curve_N /\
    (0 < SetBytes key < curve_N ->
      length (GeneratePublicKey key) = CompressedPointSize /\
      decompressed (GeneratePublicKey key) = Ok (ScalarMult curve_G (SetBytes key))) /\
    (SetBytes key = 0 \/ SetBytes key = curve_N -> GeneratePublicKey key = []).
Proof.
  destruct (reduce_key_enough n fuel (HashB seed) Hfuel Hn) as [key Hkey]. exists key. split; [done|].
  destruct (reduce_key_ok fuel (HashB seed) key) as [Hok Hle]; [apply Sum256_ok|done|].
  pose proof (SetBytes_nonneg key (proj2 Hok)). split; [done|]. split; [done|]. unfold GeneratePublicKey. split.
  - intros Hr%public_on. split; [by apply compress_bytes|by apply decompress_compress].
  - intros Hends. rewrite <- Compress_infinity. f_equal. destruct Hends as [-> | ->].
    + apply ScalarMult_0, base_on.
    + rewrite <- (Z.mul_1_r curve_N). apply ScalarMult_order; [apply base_on|lia].
Qed.

Lemma compress_range p : Forall in_u8 (Compress p).
Proof.
  unfold Compress. destruct (IsOnCurve _ _); [|constructor]. rewrite padded_append.
  constructor; [by destruct (isOdd _)|]. unfold AddPaddingBigInt, Bytes, Base58.big_bytes.
  apply Forall_app_2; [by apply Forall_replicate|]. apply Forall_rev.
  eapply Forall_impl; [apply radix_digits_range; lia|done].
Qed.

(** ** Signatures of key sets *)

Section Schnorr.
Context (PedCom_G : list EllipticPoint) (h : EllipticPoint).
Context (Hg : PedCom_G !! Schnorr.SK = Some curve_G) (Hh : PedCom_G !! Schnorr.RAND = Some h) (Onh : on_curve h).

Lemma keyset_sign ks s1 data :
  0 < SetBytes (PrivateKey ks) < curve_N -> 0 <= s1 ->
  exists sg, KeySet_Sign PedCom_G ks s1 data = Ok sg /\ Forall in_u8 sg /\
    (Pk (KeySet_Address ks) = GeneratePublicKey (PrivateKey ks) -> KeySet_Verify PedCom_G ks data sg = Ok true).
Proof.
  intros Hk Hs1.
  destruct (Schnorr.sign_plain PedCom_G curve_G h Hg Hh base_on Onh (SetBytes (PrivateKey ks)) s1 0 (HashB data))
    as (key & sg & sg' & E1 & E2 & E3 & E4 & E5 & E6 & _); [done|done|apply Sum256_ok|].
  unfold KeySet_Sign. rewrite E1. cbn [mbind outcome_bind]. rewrite E3. eexists. split; [done|]. split; [done|].
  intros Hpk. unfold KeySet_Verify. rewrite Hpk. unfold GeneratePublicKey.
  rewrite decompress_compress by by apply public_on. cbn [mbind outcome_bind].
  unfold Schnorr.SchnPubKey_Set. rewrite Hg, Hh. cbn [mbind outcome_bind]. rewrite E4. cbn [mbind outcome_bind].
  by rewrite <- E2.
Qed.

Lemma import_public fuel key ks : ImportFromPrivateKey fuel key = Some ks ->
  PrivateKey ks = key /\ Pk (KeySet_Address ks) = GeneratePublicKey key.
Proof.
  unfold ImportFromPrivateKey, GeneratePaymentAddress, GenerateViewingKey.
  destruct (GenerateReceivingKey fuel key); [|done]. by intros [= <-].
Qed.

(** The texts that a generated key set produces, of its public key and of a signature,
    validate each other. *)
Theorem keyset_validates (fuel : nat) (seed data : bytes) (ks : KeySet) (s1 : Z)
    (Hgen : GenerateKey fuel seed = Some ks) (Hk : 0 < SetBytes (PrivateKey ks) < curve_N) (Hs1 : 0 <= s1) :
  exists text pub sg,
    SignDataB58 PedCom_G ks s1 data = Ok text /\
    base58_decode (GetPublicKeyB58 ks) = Ok pub /\ base58_decode text = Ok sg /\
    KeySet_Verify PedCom_G (mkKeySet [] (mkPaymentAddress pub []) (mkViewingKey [] [])) data sg = Ok true.
Proof.
  unfold GenerateKey in Hgen. destruct (GenerateSpendingKey fuel seed) as [key|]; [|done].
  apply import_public in Hgen as [Ekey Epk].
  destruct (keyset_sign ks s1 data Hk Hs1) as (sg & Es & Hr & Hv). unfold SignDataB58. rewrite Es.
  exists (base58_encode sg), (Pk (KeySet_Address ks)), sg. split; [done|]. unfold GetPublicKeyB58.
  rewrite !base58_roundtrip by (done || rewrite Epk; apply compress_range). split; [done|]. split; [done|].
  apply Hv. by rewrite Ekey.
Qed.

(** The key sets implement the interface; [rand] draws the random scalar of a signature. *)
Definition schnorr_signatures (rand : bytes -> bytes -> Z) (Hrand : forall sk data, 0 <= rand sk data) : Signatures.
Proof.
  refine {|
    sig_key := fun sk => 0 < SetBytes sk < curve_N;
    sig_public := GeneratePublicKey;
    sig_sign := fun sk data => KeySet_Sign PedCom_G (mkKeySet sk (mkPaymentAddress [] []) (mkViewingKey [] [])) (rand sk data) data;
    sig_verify := fun pk data sg => KeySet_Verify PedCom_G (mkKeySet [] (mkPaymentAddress pk []) (mkViewingKey [] [])) data sg
  |}.
  - intros sk data sg Hk Hs.
    destruct (keyset_sign (mkKeySet sk (mkPaymentAddress (GeneratePublicKey sk) []) (mkViewingKey [] [])) (rand sk data) data)
      as (sg' & Es & _ & Hv); [done..|].
    assert (sg' = sg) as -> by (unfold KeySet_Sign in *; cbn [PrivateKey] in *; congruence). by apply Hv.
  - intros sk. apply compress_range.
  - intros sk data sg Hk Hs.
    destruct (keyset_sign (mkKeySet sk (mkPaymentAddress [] []) (mkViewingKey [] [])) (rand sk data) data)
      as (sg' & Es & Hr & _); [done..|]. congruence.
Defined.
End Schnorr.

(** Importing a private key from bytes never fails and never imports: nothing, and a key
    of the wrong length, leave the key set as it is without an error, and a key of 32 bytes
    is copied into the empty slice of a new key set, which becomes the key set of no bytes
    whatever the key was. *)
Theorem import_ignores_key (fuel : nat) (privateKey : option bytes) :
  ImportFromPrivateKeyByte fuel privateKey empty_keyset =
  match privateKey with
  | Some key => if (length key =? 32)%nat then ImportFromPrivateKey fuel [] else Some empty_keyset
  | None => Some empty_keyset
  end.
Proof.
  destruct privateKey as [key|]; [|done]. cbn [ImportFromPrivateKeyByte].
  destruct (length key =? 32)%nat; [|done]. unfold copy_into. cbn [PrivateKey empty_keyset length take].
  by rewrite drop_nil.
Qed.
End Facts.

(** ** Concrete inputs *)

Section Samples.
Import SmallCurve.

(** A digest that stays below the order of the small curve. *)
#[local] Instance small_hash : Sha256.
Proof.
  refine {| Sum256 := fun b => replicate 31 0 ++ [(3 + foldr Z.add 0 b) mod 11] |}.
  intros b. split; [done|]. apply Forall_app_2; [by apply Forall_replicate|].
  apply Forall_cons_2; [|apply Forall_nil_2]. unfold in_u8.
  assert (0 <= (3 + foldr Z.add 0 b) mod 11 < 11) by (apply Z.mod_pos_bound; lia). lia.
Defined.

Definition sample_gens : list EllipticPoint :=
  [curve_G; mkPoint 2 1; mkPoint 4 3; mkPoint 5 2; mkPoint 6 1].

Definition sample_keys : KeySet :=
  Eval vm_compute in default empty_keyset (GenerateKey 3 [4; 2]).

Lemma spending_key_spec_witness :
  exists key, GenerateSpendingKey 3 [4; 2] = Some key /\ hash_ok key /\ 0 <= SetBytes key <= curve_N /\
    (0 < SetBytes key < curve_N ->
      length (GeneratePublicKey key) = CompressedPointSize /\
      decompressed (GeneratePublicKey key) = Ok (ScalarMult curve_G (SetBytes key))) /\
    (SetBytes key = 0 \/ SetBytes key = curve_N -> GeneratePublicKey key = []).
Proof. apply (spending_key_spec 3 0); [lia|vm_compute; discriminate]. Defined.

Lemma keyset_validates_witness :
  exists text pub sg,
    SignDataB58 sample_gens sample_keys 5 [1; 2] = Ok text /\
    base58_decode (GetPublicKeyB58 sample_keys) = Ok pub /\ base58_decode text = Ok sg /\
    KeySet_Verify sample_gens (mkKeySet [] (mkPaymentAddress pub []) (mkViewingKey [] [])) [1; 2] sg = Ok true.
Proof.
  apply (keyset_validates sample_gens (mkPoint 6 1)) with (fuel := 3%nat) (seed := [4; 2]).
  - reflexivity.
  - reflexivity.
  - split; [vm_compute; split; congruence|]. split; [vm_compute; split; congruence|vm_compute; reflexivity].
  - vm_compute. reflexivity.
  - vm_compute. split; reflexivity.
  - lia.
Defined.
End Samples.
End Keys.
