(* ===== verification/BftSig.v ===== *)
(** The signatures of a consensus round (src/consensus/constantbft/bftmultisig.go, utils.go)
    and their check in a block of a network of several nodes (src/blockchain/multisigs.go). *)

From Stdlib Require Import Ascii String.
From S2P Require Import Prelude GoStr Hash Sha256 Base58 Modular EC Schnorr MultiSig Keys.

#[local] Open Scope string_scope.
#[local] Open Scope list_scope.
#[local] Open Scope Z_scope.

Module BftSig.
Import Hashes EC MultiSig Keys.

Record bftCommittedSig := mkCommitted { cs_ValidatorsIdxR : list Z; Sig : string }.

Record Combine := mkCombine {
  CommitSig : string;
  combine_R : string;
  ValidatorsIdxR : list Z;
  ValidatorsIdxAggSig : list Z;
  SigningCommittee : list string
}.

(** The key set, of which the private key and the public key sign. *)
Record multiSigScheme := mkScheme {
  ms_PrivateKey : bytes;
  ms_PublicKey : bytes;
  dataToSig : Hash;
  Ri : bytes;
  r : bytes;
  combine : Combine
}.

Definition set_combine (c : Combine) (s : multiSigScheme) : multiSigScheme :=
  mkScheme (ms_PrivateKey s) (ms_PublicKey s) (dataToSig s) (Ri s) (r s) c.

Definition set_data (h : Hash) (s : multiSigScheme) : multiSigScheme :=
  mkScheme (ms_PrivateKey s) (ms_PublicKey s) h (Ri s) (r s) (combine s).

Section Crypto.
Context {curve : Curve} {sha : Sha256}.

(** ** Own signature *)

Definition Init (privateKey publicKey : bytes) (committee : list string) : multiSigScheme :=
  mkScheme privateKey publicKey zero_hash [] [] (mkCombine "" "" [] [] committee).

(** [rand] is the random scalar. *)
Definition Prepare (rand : Z) (s : multiSigScheme) : multiSigScheme :=
  let '(myRiECCPoint, myrBigInt) := GenerateRandom rand in
  mkScheme (ms_PrivateKey s) (ms_PublicKey s) (dataToSig s) (Compress myRiECCPoint)
    (AddPaddingBigInt myrBigInt BigIntSize) (combine s).

Definition decode58 (s : string) : outcome (bytes * Z) := Base58.CheckDecode (list_ascii_of_string s).

Definition add_index (i : Z) (s : multiSigScheme) : multiSigScheme :=
  let c := combine s in
  set_combine (mkCombine (CommitSig c) (combine_R c) (ValidatorsIdxR c ++ [i]) (ValidatorsIdxAggSig c)
                 (SigningCommittee c)) s.

(** The map is visited in the order of the list.  A key of another version ends the call
    without an error: [None]. *)
Fixpoint sign_loop (RiList : list (string * bytes)) (pks : list bytes) (rs : list EllipticPoint)
  : M multiSigScheme (option (list bytes * list EllipticPoint)) :=
  match RiList with
  | [] => mret (Some (pks, rs))
  | (szPubKey, bytesR) :: rest =>
      '(pubKeyTemp, byteVersion) ← lift (decode58 szPubKey);
      if negb (byteVersion =? 0) then mret None
      else
        p ← lift (decompressed bytesR);
        s ← get;
        _ ← modify (add_index (IndexOfStr szPubKey (SigningCommittee (combine s))));
        sign_loop rest (pks ++ [pubKeyTemp]) (rs ++ [p])
  end.

Definition SignData (RiList : list (string * bytes)) : M multiSigScheme unit :=
  res ← sign_loop RiList [] [];
  match res with
  | None => mret tt
  | Some (listPubkeyOfSigners, listROfSigners) =>
      s ← get;
      let c := combine s in
      _ ← put (set_combine (mkCombine (CommitSig c) (combine_R c) (sort_ints (ValidatorsIdxR c))
                              (ValidatorsIdxAggSig c) (SigningCommittee c)) s);
      commitSig ← lift (SignMultiSig (ms_PrivateKey s) (ms_PublicKey s) (dataToSig s) listPubkeyOfSigners
                          listROfSigners (SetBytes (r s)));
      b ← lift (Bytes_sig commitSig);
      modify (fun s => let c := combine s in
        set_combine (mkCombine (base58_encode b) (base58_encode (Compress (sum listROfSigners)))
                       (ValidatorsIdxR c) (ValidatorsIdxAggSig c) (SigningCommittee c)) s)
  end.

(** ** Signatures of others *)

(** [pubkeyList[idx]] of a Go [int]; a key that does not decode stays empty. *)
Definition pubkey_at (pubkeyList : list string) (idx : Z) : outcome bytes :=
  if idx <? 0 then Panic
  else match pubkeyList !! Z.to_nat idx with
       | None => Panic
       | Some s => match decode58 s with
                   | Ok (b, v) => Ok (if v =? 0 then b else [])
                   | Err _ => Ok []
                   | Panic => Panic
                   end
       end.

Definition GetPubKeysFromIdx (pubkeyList : list string) (idxs : list Z) : outcome (list bytes) :=
  mapM (pubkey_at pubkeyList) idxs.

(** [if (err != nil) || (byteVersion != 0) { return err }]: another version than 0 returns
    without an error. *)
Definition versioned {A} (s : string) (other : A) (f : bytes -> outcome A) : outcome A :=
  '(b, v) ← decode58 s; if v =? 0 then f b else Ok other.

(** The error of the third decoding is overwritten. *)
Definition VerifyCommitSig (validatorPk commitSig R : string) (validatorsIdx : list Z) (s : multiSigScheme) : outcome unit :=
  versioned R tt (fun Rbytesarr =>
    RCombined ← decompressed Rbytesarr;
    listPubkeyOfSigners ← GetPubKeysFromIdx (SigningCommittee (combine s)) validatorsIdx;
    versioned validatorPk tt (fun validatorPubkey =>
      let valSigbytesarr := match decode58 commitSig with Ok (b, _) => b | _ => [] end in
      valSig ← SetBytes_sig valSigbytesarr;
      ok ← VerifyMultiSig valSig (dataToSig s) listPubkeyOfSigners [validatorPubkey] RCombined;
      if (ok : bool) then Ok tt else Err "Validator's sig is invalid")).

(** ** The signature of the block *)

(** What the signatures are when all are read: a signature that was not set has a nil scalar. *)
Definition read_sig (b : bytes) : option SchnMultiSig :=
  match SetBytes_sig b with Ok sig => Some sig | _ => None end.

(** [None]: a version other than 0 ends the call without an error and without a signature. *)
Fixpoint combine_loop (commitSigs : list (string * bftCommittedSig)) (sigs : list (option SchnMultiSig)) (idxR : list Z)
  : M multiSigScheme (option (list (option SchnMultiSig) * list Z)) :=
  match commitSigs with
  | [] => mret (Some (sigs, idxR))
  | (pubkey, valSig) :: rest =>
      '(bytesSig, byteVersion) ← lift (decode58 (Sig valSig));
      if negb (byteVersion =? 0) then mret None
      else
        _ ← lift (match SetBytes_sig bytesSig with Panic => Panic | _ => Ok tt end);
        _ ← modify (fun s => let c := combine s in
              set_combine (mkCombine (CommitSig c) (combine_R c) (ValidatorsIdxR c)
                (ValidatorsIdxAggSig c ++ [IndexOfStr pubkey (SigningCommittee c)]) (SigningCommittee c)) s);
        combine_loop rest (sigs ++ [read_sig bytesSig]) (cs_ValidatorsIdxR valSig)
  end.

(** The indexes that stay are those of the last signature. *)
Definition CombineSigs (R : string) (commitSigs : list (string * bftCommittedSig)) : M multiSigScheme string :=
  res ← combine_loop commitSigs [] [];
  match res with
  | None => mret ""
  | Some (sigs, validatorsIdxR) =>
      _ ← modify (fun s => let c := combine s in
            set_combine (mkCombine (CommitSig c) R validatorsIdxR (sort_ints (ValidatorsIdxAggSig c))
              (SigningCommittee c)) s);
      match mapM id sigs with
      | None => gopanic
      | Some sigs => b ← lift (Bytes_sig (CombineMultiSig sigs)); mret (base58_encode b)
      end
  end.

(** ** Blocks *)

(** [committees[index]] decoded; the version is not looked at. *)
Definition committee_key (committees : list string) (index : Z) : outcome bytes :=
  if index <? 0 then Panic
  else match committees !! Z.to_nat index with
       | None => Panic
       | Some s => match decode58 s with
                   | Ok (b, _) => Ok b
                   | Err _ => Err "Error in convert Public key from string to byte"
                   | Panic => Panic
                   end
       end.

(** What follows the first statement of the function, [return nil]: its body in a network of
    several nodes.  The error of [SetBytes] is not looked at. *)
Definition ValidateAggSignature_multi (validatorIdx : list (list Z)) (committees : list string) (aggSig R : string)
    (blockHash : Hash) : outcome unit :=
  match validatorIdx !! 0%nat, validatorIdx !! 1%nat with
  | None, _ => Panic
  | Some idxR, idxAgg =>
      pubKeysR ← mapM (committee_key committees) idxR;
      match idxAgg with
      | None => Panic
      | Some idxAgg =>
          pubKeysAggSig ← mapM (committee_key committees) idxAgg;
          versioned R tt (fun Rbytesarr =>
            RCombined ← decompressed Rbytesarr;
            match decode58 aggSig with
            | Err _ => Err "Error in convert aggregated signature from string to byte"
            | Panic => Panic
            | Ok (tempAggSig, _) =>
                match SetBytes_sig tempAggSig with
                | Ok schnMultiSig =>
                    ok ← VerifyMultiSig schnMultiSig blockHash pubKeysR pubKeysAggSig RCombined;
                    if (ok : bool) then Ok tt else Err "Invalid Agg signature"
                | _ => Panic
                end
            end)
      end
  end.
End Crypto.

(** ** The state of the pools *)

(** The states are visited in the order of the lists. *)
Definition closest_step (m : gmap Z Z) (kv : Z * Z) : gmap Z Z :=
  match m !! fst kv with
  | None => <[fst kv := snd kv]> m
  | Some closestBlkHeight => if closestBlkHeight <? snd kv then <[fst kv := snd kv]> m else m
  end.

Definition GetClosestPoolState (poolStates : list (list (Z * Z))) : gmap Z Z :=
  foldl (foldl closest_step) ∅ poolStates.

(** ** Lemmas *)

Section Facts.
Context {curve : Curve} {sha : Sha256}.







(** ** Keys of a committee *)

Context (committee : list string) (points : list EllipticPoint).
Context (Hkeys : Forall2 (fun s p => decode58 s = Ok (Compress p, 0) /\ on_curve p) committee points).
Context (Hnodup : NoDup committee).




(** ** Combining the signatures of a round *)









End Facts.

(** A commit whose combined point is encoded with another version than 0 is accepted unread,
    whatever its signature is. *)
Lemma commit_accepts_foreign_version {curve : Curve} {sha : Sha256} (validatorPk commitSig R : string) (idx : list Z)
    (s : multiSigScheme) rb v :
  decode58 R = Ok (rb, v) -> v <> 0 -> VerifyCommitSig validatorPk commitSig R idx s = Ok tt.
Proof.
  intros HR Hv. unfold VerifyCommitSig, versioned. rewrite HR. cbn [mbind outcome_bind].
  by rewrite (proj2 (Z.eqb_neq v 0)).
Qed.

Section Outsider.
Context {curve : Curve} {sha : Sha256}.

Lemma combine_loop_indexes commits sigs0 idx0 s s' o :
  combine_loop commits sigs0 idx0 s = (s', Ok (Some o)) ->
  SigningCommittee (combine s') = SigningCommittee (combine s) /\
  ValidatorsIdxAggSig (combine s') =
    ValidatorsIdxAggSig (combine s) ++ map (fun c => IndexOfStr (fst c) (SigningCommittee (combine s))) commits.
Proof.
  revert sigs0 idx0 s. induction commits as [|[pk sg] commits IH]; intros sigs0 idx0 s; cbn [combine_loop]; mrun.
  - intros [= <- _]. by rewrite app_nil_r.
  - destruct (decode58 _) as [[b v]|e|]; [|done..]. destruct (negb _); [done|].
    destruct (match SetBytes_sig b with Panic => Panic | _ => Ok tt end); [|done..].
    intros H%IH. destruct H as [-> ->]. cbn. by rewrite <- app_assoc.
Qed.

(** One signature of an author outside the committee, which a round verifies and counts
    like the others, makes the combined signature one whose check ends in a panic at every
    node of a network of several nodes. *)
Theorem outsider_signature_panics (R : string) (commits : list (string * bftCommittedSig)) (s s' : multiSigScheme)
    (agg : string) (c : string * bftCommittedSig) (ks : list bytes) (data : Hash)
    (Hin : c ∈ commits) (Hout : fst c ∉ SigningCommittee (combine s)) (Hc : CombineSigs R commits s = (s', Ok agg))
    (Hagg : agg <> "") (HR : mapM (committee_key (SigningCommittee (combine s))) (ValidatorsIdxR (combine s')) = Ok ks) :
  ValidateAggSignature_multi [ValidatorsIdxR (combine s'); ValidatorsIdxAggSig (combine s')]
    (SigningCommittee (combine s)) agg (combine_R (combine s')) data = Panic.
Proof.
  unfold CombineSigs in Hc. cbv beta iota delta [mbind M_bind mret M_ret get put modify lift throw gopanic] in Hc. destruct (combine_loop commits [] [] s) as [s1 [[[sgs idxR]|]|e|]] eqn:E; [|congruence|done..].
  apply combine_loop_indexes in E as [_ Hidx].
  assert (exists n, ValidatorsIdxAggSig (combine s') = n /\ -1 ∈ n /\ StronglySorted Z.le n) as (n & -> & Hn & Hsort).
  { destruct (mapM id sgs); [|done]. destruct (Bytes_sig _); [|done..]. injection Hc as <- _.
    eexists. split; [reflexivity|]. cbn [set_combine combine ValidatorsIdxAggSig]. unfold sort_ints. split; [|apply StronglySorted_merge_sort; apply _].
    rewrite merge_sort_Permutation, Hidx. apply elem_of_app. right. apply list_elem_of_fmap. exists c. split; [|done].
    unfold IndexOfStr. destruct (index_of_spec (fst c) (SigningCommittee (combine s)) 0) as [[-> _]|(j & _ & Hj & _)]; [done|].
    exfalso. by eapply Hout, list_elem_of_lookup_2. }
  unfold ValidateAggSignature_multi. cbn [lookup list_lookup]. rewrite HR. cbn [mbind outcome_bind].
  destruct n as [|i n]; [by apply elem_of_nil in Hn|].
  assert (i <= -1) as Hi.
  { apply StronglySorted_inv in Hsort as [_ Hall]. apply elem_of_cons in Hn as [->|Hn]; [done|].
    by eapply (proj1 (List.Forall_forall _ _)) in Hall; [|by apply list_elem_of_In]. }
  cbn [mapM]. unfold committee_key. by replace (i <? 0) with true by (symmetry; apply Z.ltb_lt; lia).
Qed.
End Outsider.

Lemma foldl_concat {A B} (f : B -> A -> B) (ls : list (list A)) b : foldl (foldl f) b ls = foldl f b (concat ls).
Proof. revert b. induction ls as [|l ls IH]; intros b; cbn; [done|]. by rewrite IH, foldl_app. Qed.

(** The heights of a shard, and the largest of them. *)
Definition heights (sid : Z) (l : list (Z * Z)) : list Z := map snd (filter (fun kv => fst kv = sid) l).

Definition join_max (o : option Z) (h : Z) : option Z := Some (default h (Z.max h <$> o)).

Lemma closest_fold l m sid : foldl closest_step m l !! sid = foldl join_max (m !! sid) (heights sid l).
Proof.
  revert m. induction l as [|[k h] l IH]; intros m; [done|]. cbn [foldl]. rewrite IH. unfold heights.
  rewrite filter_cons. cbn [fst]. case_decide as Hk.
  - subst k. cbn [map snd foldl]. f_equal. unfold closest_step, join_max. cbn [fst snd].
    destruct (m !! sid) as [c|] eqn:Hc; cbn; [|by rewrite lookup_insert_eq].
    destruct (c <? h) eqn:Hlt; [apply Z.ltb_lt in Hlt|apply Z.ltb_ge in Hlt];
      rewrite ?lookup_insert_eq, ?Hc; f_equal; lia.
  - f_equal. unfold closest_step. cbn [fst snd].
    destruct (m !! k); [case_match|]; by rewrite ?lookup_insert_ne.
Qed.

Lemma join_max_comm h h' o : join_max (join_max o h) h' = join_max (join_max o h') h.
Proof. destruct o; unfold join_max; cbn; f_equal; lia. Qed.

Lemma join_max_perm l l' : l ≡ₚ l' -> forall o, foldl join_max o l = foldl join_max o l'.
Proof.
  induction 1 as [|x l l' _ IH|x y l|l1 l2 l3 _ IH1 _ IH2]; intros o; cbn; [done|apply IH| |by rewrite IH1].
  by rewrite join_max_comm.
Qed.

Lemma join_max_spec l o : foldl join_max o l =
  match l with [] => o | h :: t => Some (foldl Z.max (default h (Z.max h <$> o)) t) end.
Proof.
  destruct l as [|h l]; [done|]. cbn [foldl]. unfold join_max at 2. generalize (default h (Z.max h <$> o)). clear.
  induction l as [|x l IH]; intros c; cbn; [done|]. rewrite <- IH. f_equal. unfold join_max. cbn. f_equal. lia.
Qed.

(** The state that the proposer builds on has for each shard the largest height that a
    member of the committee reported, whatever the order in which the states are visited; a
    shard that nobody reported is absent. *)
Theorem closest_pool_state_spec (states : list (list (Z * Z))) (sid : Z) :
  GetClosestPoolState states !! sid =
    match heights sid (concat states) with [] => None | h :: t => Some (foldl Z.max h t) end /\
  forall visited, concat visited ≡ₚ concat states -> GetClosestPoolState visited = GetClosestPoolState states.
Proof.
  unfold GetClosestPoolState. split; [rewrite foldl_concat, closest_fold, join_max_spec, lookup_empty; by destruct (heights _ _)|].
  intros visited Hperm. rewrite !foldl_concat. apply map_eq. intros i. rewrite !closest_fold. apply join_max_perm.
  apply Permutation_map. by rewrite Hperm.
Qed.

(** ** Concrete inputs *)

Section Samples.
Import QuickHash SmallCurve.

(** The members are those of the sample of MultiSig.v, under the texts of their keys. *)
Definition sample_texts : list string := map (fun k => base58_encode k) (round_keys sample_committee).

Definition sample_scheme (m : bytes * Z) : multiSigScheme :=
  set_data (replicate 32 9) (Prepare m.2 (Init m.1 (signer_key m.1) sample_texts)).

(** All the points are collected, and two of the members commit. *)
Definition sample_Ri : list (string * bytes) :=
  zip sample_texts (map (fun m => Ri (sample_scheme m)) sample_committee).

Definition sample_commit (m : bytes * Z) : string * bftCommittedSig * string :=
  let s := fst (SignData sample_Ri (sample_scheme m)) in
  (base58_encode (signer_key m.1), mkCommitted (ValidatorsIdxR (combine s)) (CommitSig (combine s)), combine_R (combine s)).

Definition sample_round := Eval vm_compute in map sample_commit sample_signers.

Definition sample_R : string := Eval vm_compute in default "" (snd <$> head sample_round).







(** The private key 5 is of no member. *)
Definition outsider_round := Eval vm_compute in [sample_commit ([2], 3); sample_commit ([5], 7)].

Definition outsider_combined : multiSigScheme * outcome string :=
  Eval vm_compute in CombineSigs sample_R (map fst outsider_round) (sample_scheme ([2], 3)).

Lemma outsider_signature_panics_witness :
  VerifyCommitSig (base58_encode (signer_key [5])) (Sig (sample_commit ([5], 7)).1.2) sample_R [0; 1; 2] (sample_scheme ([2], 3)) = Ok tt /\
  ValidateAggSignature_multi [ValidatorsIdxR (combine outsider_combined.1); ValidatorsIdxAggSig (combine outsider_combined.1)]
    sample_texts (match outsider_combined.2 with Ok agg => agg | _ => "" end) (combine_R (combine outsider_combined.1)) sample_message = Panic.
Proof.
  split; [vm_compute; reflexivity|].
  apply (outsider_signature_panics sample_R (map fst outsider_round) (sample_scheme ([2], 3)) _ _
           (default (EmptyString, mkCommitted [] "") (map fst outsider_round !! 1%nat)) (round_keys sample_committee)).
  - right. left.
  - apply (bool_decide_eq_true_1 _). vm_compute. reflexivity.
  - vm_compute. reflexivity.
  - discriminate.
  - vm_compute. reflexivity.
Defined.
End Samples.
End BftSig.
