(* ===== verification/BftMessages.v ===== *)
(** The messages of a consensus round (src/wire/messagebft*.go): what their content signature
    covers, how they are signed and how a node checks them before they reach the round. *)

From Stdlib Require Import Ascii String.
From S2P Require Import Prelude GoStr Hash Sha256 EC Schnorr Keys.

#[local] Open Scope string_scope.
#[local] Open Scope list_scope.
#[local] Open Scope Z_scope.

Module BftMessages.
Import Hashes Keys.

Record MessageBFTReq := mkReq {
  req_BestStateHash : Hash; req_ProposerOffset : Z; req_Pubkey : string; req_ContentSig : string; req_Timestamp : Z }.

Record MessageBFTReady := mkReady {
  ready_PoolState : gmap Z Z; ready_BestStateHash : Hash; ready_ProposerOffset : Z; ready_Pubkey : string;
  ready_ContentSig : string; ready_Timestamp : Z }.

Record MessageBFTPropose := mkPropose {
  propose_Layer : string; propose_ShardID : Z; propose_Block : bytes; propose_ContentSig : string;
  propose_Pubkey : string; propose_Timestamp : Z }.

Record MessageBFTPrepare := mkPrepare {
  prepare_BlkHash : Hash; prepare_Ri : bytes; prepare_Pubkey : string; prepare_ContentSig : string; prepare_Timestamp : Z }.

Record MessageBFTCommit := mkCommit {
  commit_CommitSig : string; commit_R : string; commit_ValidatorsIdx : list Z; commit_Pubkey : string;
  commit_ContentSig : string; commit_Timestamp : Z }.

(** ** The texts of [fmt.Sprint] *)

Fixpoint spaced (ws : list string) : string :=
  match ws with
  | [] => ""
  | [w] => w
  | w :: ws => w +:+ " " +:+ spaced ws
  end.

Definition Sprint_ints (l : list Z) : string := "[" +:+ spaced (map Itoa l) +:+ "]".

(** A map is printed in the order in which it is visited. *)
Definition Sprint_map (visited : list (Z * Z)) : string :=
  "map[" +:+ spaced (map (fun kv => Itoa (fst kv) +:+ ":" +:+ Itoa (snd kv)) visited) +:+ "]".

(** ** What is signed *)

(** A message with the key and the signature that it carries.  What is signed leaves out the
    signature. *)
Class BftMessage (T : Type) : Type := {
  msg_Pubkey : T -> string;
  msg_ContentSig : T -> string;
  msg_data : T -> bytes;
  set_ContentSig : string -> T -> T;
  msg_data_set s m : msg_data (set_ContentSig s m) = msg_data m;
  msg_Pubkey_set s m : msg_Pubkey (set_ContentSig s m) = msg_Pubkey m;
  msg_ContentSig_set s m : msg_ContentSig (set_ContentSig s m) = s
}.

Definition req_data (m : MessageBFTReq) : bytes :=
  req_BestStateHash m ++ bytes_of (Itoa (req_ProposerOffset m)) ++ bytes_of (req_Pubkey m) ++
  bytes_of (Itoa (req_Timestamp m)).

(** [visited] is the pool state in the order in which the map is printed. *)
Definition ready_data (visited : list (Z * Z)) (m : MessageBFTReady) : bytes :=
  bytes_of (Sprint_map visited) ++ ready_BestStateHash m ++ bytes_of (Itoa (ready_ProposerOffset m)) ++
  bytes_of (ready_Pubkey m) ++ bytes_of (Itoa (ready_Timestamp m)).

Definition propose_data (m : MessageBFTPropose) : bytes :=
  bytes_of (propose_Layer m) ++ [propose_ShardID m] ++ propose_Block m ++ bytes_of (propose_Pubkey m) ++
  bytes_of (Itoa (propose_Timestamp m)).

Definition prepare_data (m : MessageBFTPrepare) : bytes :=
  prepare_BlkHash m ++ bytes_of (prepare_Pubkey m) ++ prepare_Ri m ++ bytes_of (Itoa (prepare_Timestamp m)).

Definition commit_data (m : MessageBFTCommit) : bytes :=
  bytes_of (commit_CommitSig m) ++ bytes_of (commit_R m) ++ bytes_of (commit_Pubkey m) ++
  bytes_of (Sprint_ints (commit_ValidatorsIdx m)) ++ bytes_of (Itoa (commit_Timestamp m)).

#[export] Instance req_message : BftMessage MessageBFTReq.
Proof.
  refine {| msg_Pubkey := req_Pubkey; msg_ContentSig := req_ContentSig; msg_data := req_data;
    set_ContentSig := fun s m => mkReq (req_BestStateHash m) (req_ProposerOffset m) (req_Pubkey m) s (req_Timestamp m) |};
  reflexivity.
Defined.

#[export] Instance propose_message : BftMessage MessageBFTPropose.
Proof.
  refine {| msg_Pubkey := propose_Pubkey; msg_ContentSig := propose_ContentSig; msg_data := propose_data;
    set_ContentSig := fun s m => mkPropose (propose_Layer m) (propose_ShardID m) (propose_Block m) s (propose_Pubkey m)
                                  (propose_Timestamp m) |};
  reflexivity.
Defined.

#[export] Instance prepare_message : BftMessage MessageBFTPrepare.
Proof.
  refine {| msg_Pubkey := prepare_Pubkey; msg_ContentSig := prepare_ContentSig; msg_data := prepare_data;
    set_ContentSig := fun s m => mkPrepare (prepare_BlkHash m) (prepare_Ri m) (prepare_Pubkey m) s (prepare_Timestamp m) |};
  reflexivity.
Defined.

#[export] Instance commit_message : BftMessage MessageBFTCommit.
Proof.
  refine {| msg_Pubkey := commit_Pubkey; msg_ContentSig := commit_ContentSig; msg_data := commit_data;
    set_ContentSig := fun s m => mkCommit (commit_CommitSig m) (commit_R m) (commit_ValidatorsIdx m) (commit_Pubkey m) s
                                  (commit_Timestamp m) |};
  reflexivity.
Defined.

(** The instance for one order of the printed map: sender and receiver have each their own. *)
Definition ready_message (visit : gmap Z Z -> list (Z * Z)) : BftMessage MessageBFTReady.
Proof.
  refine {| msg_Pubkey := ready_Pubkey; msg_ContentSig := ready_ContentSig;
    msg_data := fun m => ready_data (visit (ready_PoolState m)) m;
    set_ContentSig := fun s m => mkReady (ready_PoolState m) (ready_BestStateHash m) (ready_ProposerOffset m)
                                  (ready_Pubkey m) s (ready_Timestamp m) |};
  reflexivity.
Defined.

(** ** Signing and checking *)

Section Signed.
Context {sha : Sha256} {sigs : Signatures}.

(** On an error the content signature is the empty text. *)
Definition SignMsg {T} `{BftMessage T} (sk : bytes) (m : T) : T * outcome unit :=
  match sig_sign sk (msg_data m) with
  | Ok sg => (set_ContentSig (base58_encode sg) m, Ok tt)
  | Err e => (set_ContentSig "" m, Err e)
  | Panic => (m, Panic)
  end.

Definition VerifyMsgSanity {T} `{BftMessage T} (m : T) : outcome unit :=
  ValidateDataB58 (msg_Pubkey m) (msg_ContentSig m) (msg_data m).

(** [now] is the clock of [MakeEmptyMessage]. *)
Definition MakeMsgBFTReq (bestStateHash : Hash) (proposerOffset : Z) (sk : bytes) (pk : string) (now : Z)
  : MessageBFTReq * outcome unit := SignMsg sk (mkReq bestStateHash proposerOffset pk "" now).

Definition MakeMsgBFTReady (visit : gmap Z Z -> list (Z * Z)) (bestStateHash : Hash) (proposerOffset : Z)
    (poolState : gmap Z Z) (sk : bytes) (pk : string) (now : Z) : MessageBFTReady * outcome unit :=
  SignMsg (H := ready_message visit) sk (mkReady poolState bestStateHash proposerOffset pk "" now).

Definition MakeMsgBFTPropose (block : bytes) (layer : string) (shardID : Z) (sk : bytes) (pk : string) (now : Z)
  : MessageBFTPropose * outcome unit := SignMsg sk (mkPropose layer shardID block "" pk now).

Definition MakeMsgBFTPrepare (Ri : bytes) (sk : bytes) (pk : string) (blkHash : Hash) (now : Z)
  : MessageBFTPrepare * outcome unit := SignMsg sk (mkPrepare blkHash Ri pk "" now).

Definition MakeMsgBFTCommit (commitSig R : string) (validatorsIdx : list Z) (sk : bytes) (pk : string) (now : Z)
  : MessageBFTCommit * outcome unit := SignMsg sk (mkCommit commitSig R validatorsIdx pk "" now).
End Signed.

(** ** Theorems *)

Section Facts.
Context {sha : Sha256} {sigs : Signatures}.

(** A message that a node signs with its key passes the check of every node that receives
    it under the key that the message names. *)
Theorem signed_message_sane {T} `{BftMessage T} (sk : bytes) (m : T) (sg : bytes)
    (Hkey : sig_key sk) (Hpk : msg_Pubkey m = base58_encode (sig_public sk)) (Hsign : sig_sign sk (msg_data m) = Ok sg) :
  exists m', SignMsg sk m = (m', Ok tt) /\ msg_Pubkey m' = msg_Pubkey m /\ msg_data m' = msg_data m /\
    VerifyMsgSanity m' = Ok tt.
Proof.
  unfold SignMsg. rewrite Hsign. eexists. split; [done|]. rewrite msg_Pubkey_set, msg_data_set. split; [done|]. split; [done|].
  unfold VerifyMsgSanity. rewrite msg_Pubkey_set, msg_data_set, msg_ContentSig_set, Hpk. by apply validate_signed.
Qed.

(** The content signature of a commit does not cover the boundary between the signature
    and the combined point: whoever relays a sane commit may move characters from one to the
    other, and the commit stays sane under the key of its author. *)
Theorem commit_boundary_unsigned (m : MessageBFTCommit) (sig1 moved r : string)
    (Hsig : commit_CommitSig m = sig1 +:+ moved) (HR : commit_R m = r) (Hmoved : moved <> "") :
  let m' := mkCommit sig1 (moved +:+ r) (commit_ValidatorsIdx m) (commit_Pubkey m) (commit_ContentSig m)
              (commit_Timestamp m) in
  m' <> m /\ VerifyMsgSanity m' = VerifyMsgSanity m.
Proof.
  cbn zeta. split.
  - intros E. apply (f_equal commit_CommitSig) in E. cbn in E. rewrite Hsig in E. apply Hmoved.
    apply (f_equal (fun s => length (bytes_of s))) in E. rewrite bytes_of_app, length_app in E.
    destruct moved; [done|cbn in E; lia].
  - unfold VerifyMsgSanity. cbn [msg_Pubkey msg_ContentSig msg_data commit_message]. unfold commit_data.
    cbn [commit_CommitSig commit_R commit_ValidatorsIdx commit_Pubkey commit_ContentSig commit_Timestamp].
    rewrite Hsig, HR, !bytes_of_app, <- !app_assoc. done.
Qed.

(** The order in which a map is printed is signed too: the same message has other data for a
    receiver that prints its two heights in the other order. *)
Lemma ready_data_order (m : MessageBFTReady) :
  ready_data [(0, 1); (1, 1)] m <> ready_data [(1, 1); (0, 1)] m.
Proof. unfold ready_data. intros E%(f_equal (fun b => nth 4 b 0)). vm_compute in E. discriminate. Qed.
End Facts.

(** ** Concrete inputs *)

Section Samples.
Import QuickHash SmallCurve EC.

Definition sample_gens : list EllipticPoint := [curve_G; mkPoint 2 1; mkPoint 4 3; mkPoint 5 2; mkPoint 6 1].

Lemma sample_h_on : on_curve (mkPoint 6 1).
Proof. repeat split; vm_compute; congruence. Qed.

#[local] Instance sample_signatures : Signatures :=
  schnorr_signatures sample_gens (mkPoint 6 1) eq_refl eq_refl sample_h_on (fun _ _ => 5) (fun _ _ => ltac:(lia)).

Definition sample_commit : MessageBFTCommit :=
  mkCommit "12jUdAGF" "14tVMTu4" [0; 2] (base58_encode (sig_public [3])) "" 1545000000.

Lemma signed_message_sane_witness :
  exists m', SignMsg [3] sample_commit = (m', Ok tt) /\ msg_Pubkey m' = msg_Pubkey sample_commit /\ msg_data m' = msg_data sample_commit /\ VerifyMsgSanity m' = Ok tt.
Proof.
  eapply (signed_message_sane [3] sample_commit).
  - cbn. lia.
  - reflexivity.
  - vm_compute. reflexivity.
Defined.

Lemma commit_boundary_unsigned_witness :
  let m' := mkCommit "12jUdA" "GF14tVMTu4" [0; 2] (commit_Pubkey sample_commit) "" 1545000000 in
  m' <> sample_commit /\ VerifyMsgSanity m' = VerifyMsgSanity sample_commit.
Proof. apply (commit_boundary_unsigned sample_commit "12jUdA" "GF" "14tVMTu4"); [reflexivity|reflexivity|discriminate]. Defined.
End Samples.
End BftMessages.
