(* ===== verification/Bft.v ===== *)
(** A round of the consensus protocol (src/consensus/constantbft/bft.go): the four phases, the
    messages and the timers that move a node through them, and the block it agrees on. *)

From Stdlib Require Import Ascii String.
From S2P Require Import Prelude GoStr Hash Sha256 EC MultiSig Keys BftSig BftMessages.

#[local] Open Scope string_scope.
#[local] Open Scope list_scope.
#[local] Open Scope Z_scope.

(** What a round asks of the node: [W] is its state and [B] the blocks of the layer.  The
    orders are those in which maps are visited.  The hash of a best state without a block is
    a panic: [None]. *)
Class BftChain (W B : Type) : Type := {
  best_hash : W -> option Hash;
  pool_heights : W -> gmap Z Z;
  proposer_key : W -> string -> Z -> bool;
  new_block : W -> Z -> option (gmap Z Z) -> outcome B;
  verify_pre_sign : B -> M W unit;
  marshal_block : B -> bytes;
  unmarshal_block : bytes -> B;
  header_hash : B -> Hash;
  with_signature : string -> list (list Z) -> string -> B -> B;
  clock : W -> Z;
  visit_heights : W -> gmap Z Z -> list (Z * Z);
  visit_keys : W -> list string -> list string;
  header_hash_signature R idx agg b : header_hash (with_signature R idx agg b) = header_hash b;
  visit_keys_perm w l : visit_keys w l ≡ₚ l
}.

Module Bft.
Import Hashes EC MultiSig Keys BftSig BftMessages.

Inductive Phase := PBFT_LISTEN | PBFT_PROPOSE | PBFT_PREPARE | PBFT_COMMIT.

Inductive Message :=
  | MsgReq (m : MessageBFTReq)
  | MsgReady (m : MessageBFTReady)
  | MsgPropose (m : MessageBFTPropose)
  | MsgPrepare (m : MessageBFTPrepare)
  | MsgCommit (m : MessageBFTCommit).

(** The functions that wait for their time: the end of the phase, the request for ready
    messages and the two delayed messages. *)
Inductive Timer := TimerPhase | TimerRequest | TimerPrepare | TimerCommit.

#[export] Instance timer_eq_dec : EqDecision Timer.
Proof. solve_decision. Defined.

Record RoundData := mkRoundData {
  BestStateHash : Hash;
  ProposerOffset : Z;
  IsProposer : bool;
  Layer : string;
  ShardID : Z;
  Committee : list string
}.

(** What a node holds while it runs a round, and the result once it returned. *)
Record Round (W B : Type) := mkRound {
  node : W;
  phase : Phase;
  pendingBlock : option B;
  ClosestPoolState : option (gmap Z Z);
  scheme : multiSigScheme;
  cQuit : bool;
  cTimeout : bool;
  timers : list Timer;
  readyMsgs : gmap string MessageBFTReady;
  collectedRiList : gmap string bytes;
  Sigs : gmap string (gmap string bftCommittedSig);
  sent : list Message;
  result : option (outcome B)
}.
Arguments mkRound {_ _}.
Arguments node {_ _}.
Arguments phase {_ _}.
Arguments pendingBlock {_ _}.
Arguments ClosestPoolState {_ _}.
Arguments scheme {_ _}.
Arguments cQuit {_ _}.
Arguments cTimeout {_ _}.
Arguments timers {_ _}.
Arguments readyMsgs {_ _}.
Arguments collectedRiList {_ _}.
Arguments Sigs {_ _}.
Arguments sent {_ _}.
Arguments result {_ _}.

Inductive Event (W : Type) :=
  | EvMsg (m : Message)
  | EvTimeout
  | EvFire (t : Timer)
  | EvNode (w : W)
  | EvQuit.
Arguments EvMsg {_}.
Arguments EvTimeout {_}.
Arguments EvFire {_}.
Arguments EvNode {_}.
Arguments EvQuit {_}.

Section Protocol.
Context {curve : Curve} {sha : Sha256} {sigs : Signatures} {W B : Type} {chain : BftChain W B}.
Abbreviation Round := (Round W B).

(** [single_node] is whether the lines of the source between "single-node start" and
    "single-node end" are in force, as they are in the source. *)
Context (single_node : bool) (rd : RoundData).

(** ** Changes of the state *)

Definition set_node (w : W) (r : Round) : Round :=
  mkRound w (phase r) (pendingBlock r) (ClosestPoolState r) (scheme r) (cQuit r) (cTimeout r) (timers r)
    (readyMsgs r) (collectedRiList r) (Sigs r) (sent r) (result r).
Definition set_phase (p : Phase) (r : Round) : Round :=
  mkRound (node r) p (pendingBlock r) (ClosestPoolState r) (scheme r) (cQuit r) (cTimeout r) (timers r)
    (readyMsgs r) (collectedRiList r) (Sigs r) (sent r) (result r).
Definition set_pending (b : B) (r : Round) : Round :=
  mkRound (node r) (phase r) (Some b) (ClosestPoolState r) (set_data (header_hash b) (scheme r)) (cQuit r) (cTimeout r)
    (timers r) (readyMsgs r) (collectedRiList r) (Sigs r) (sent r) (result r).
Definition set_closest (c : gmap Z Z) (r : Round) : Round :=
  mkRound (node r) (phase r) (pendingBlock r) (Some c) (scheme r) (cQuit r) (cTimeout r) (timers r)
    (readyMsgs r) (collectedRiList r) (Sigs r) (sent r) (result r).
Definition set_scheme (s : multiSigScheme) (r : Round) : Round :=
  mkRound (node r) (phase r) (pendingBlock r) (ClosestPoolState r) s (cQuit r) (cTimeout r) (timers r)
    (readyMsgs r) (collectedRiList r) (Sigs r) (sent r) (result r).
Definition set_quit (r : Round) : Round :=
  mkRound (node r) (phase r) (pendingBlock r) (ClosestPoolState r) (scheme r) true (cTimeout r) (timers r)
    (readyMsgs r) (collectedRiList r) (Sigs r) (sent r) (result r).
Definition set_timeout (c : bool) (r : Round) : Round :=
  mkRound (node r) (phase r) (pendingBlock r) (ClosestPoolState r) (scheme r) (cQuit r) c (timers r)
    (readyMsgs r) (collectedRiList r) (Sigs r) (sent r) (result r).
Definition set_timers (ts : list Timer) (r : Round) : Round :=
  mkRound (node r) (phase r) (pendingBlock r) (ClosestPoolState r) (scheme r) (cQuit r) (cTimeout r) ts
    (readyMsgs r) (collectedRiList r) (Sigs r) (sent r) (result r).
Definition set_ready (m : gmap string MessageBFTReady) (r : Round) : Round :=
  mkRound (node r) (phase r) (pendingBlock r) (ClosestPoolState r) (scheme r) (cQuit r) (cTimeout r) (timers r)
    m (collectedRiList r) (Sigs r) (sent r) (result r).
Definition set_Ri (m : gmap string bytes) (r : Round) : Round :=
  mkRound (node r) (phase r) (pendingBlock r) (ClosestPoolState r) (scheme r) (cQuit r) (cTimeout r) (timers r)
    (readyMsgs r) m (Sigs r) (sent r) (result r).
Definition set_Sigs (m : gmap string (gmap string bftCommittedSig)) (r : Round) : Round :=
  mkRound (node r) (phase r) (pendingBlock r) (ClosestPoolState r) (scheme r) (cQuit r) (cTimeout r) (timers r)
    (readyMsgs r) (collectedRiList r) m (sent r) (result r).
Definition forwardMsg (m : Message) (r : Round) : Round :=
  mkRound (node r) (phase r) (pendingBlock r) (ClosestPoolState r) (scheme r) (cQuit r) (cTimeout r) (timers r)
    (readyMsgs r) (collectedRiList r) (Sigs r) (sent r ++ [m]) (result r).
Definition set_result (o : outcome B) (r : Round) : Round :=
  mkRound (node r) (phase r) (pendingBlock r) (ClosestPoolState r) (scheme r) (cQuit r) (cTimeout r) (timers r)
    (readyMsgs r) (collectedRiList r) (Sigs r) (sent r) (Some o).

Definition AfterFunc (t : Timer) (r : Round) : Round := set_timers (timers r ++ [t]) r.
Definition Stop (t : Timer) (r : Round) : Round := set_timers (filter (fun t' => t' <> t) (timers r)) r.
Definition closeTimeoutCh (r : Round) : Round := set_timeout true r.

(** A call on the node, which changes it whatever it returns. *)
Definition on_node {A} (m : M W A) : M Round A := fun r =>
  let '(w, o) := m (node r) in (set_node w r, o).
Definition on_scheme {A} (m : M multiSigScheme A) : M Round A := fun r =>
  let '(s, o) := m (scheme r) in (set_scheme s r, o).

(** The entries of a map in the order in which it is visited. *)
Definition visited {A} (w : W) (m : gmap string A) : list (string * A) :=
  omap (fun k => pair k <$> m !! k) (visit_keys w (map fst (map_to_list m))).

(** ** Messages *)

Definition own_key (r : Round) : string := base58_encode (ms_PublicKey (scheme r)).

(** The message is sent whether its signature failed or not. *)
Definition push_always {T} (wrap : T -> Message) (m : T * outcome unit) : M Round unit :=
  match snd m with Panic => gopanic | _ => modify (forwardMsg (wrap (fst m))) end.
Definition push_signed {T} (wrap : T -> Message) (m : T * outcome unit) : M Round unit :=
  match snd m with Panic => gopanic | Err _ => mret tt | Ok _ => modify (forwardMsg (wrap (fst m))) end.

Definition send_ready (heights : gmap Z Z) (r : Round) : M Round unit :=
  match best_hash (node r) with
  | None => gopanic
  | Some hash =>
      push_always MsgReady (MakeMsgBFTReady (visit_heights (node r)) hash (ProposerOffset rd) heights
        (ms_PrivateKey (scheme r)) (own_key r) (clock (node r)))
  end.

Definition CreateBlockMsg : M Round MessageBFTPropose :=
  r ← get;
  newBlock ← lift (new_block (node r) (ProposerOffset rd) (ClosestPoolState r));
  let '(msg, err) := MakeMsgBFTPropose (marshal_block newBlock) (Layer rd) (ShardID rd) (ms_PrivateKey (scheme r))
                       (own_key r) (clock (node r)) in
  _ ← lift err;
  _ ← modify (set_pending newBlock);
  mret msg.

(** ** Beginning of a phase *)

(** [Some] is a block that the round returns. *)
Definition enter_propose : M Round (option B) :=
  if single_node then
    _ ← CreateBlockMsg;
    r ← get;
    mret (pendingBlock r)
  else
    _ ← modify (fun r => set_ready ∅ (AfterFunc TimerRequest (AfterFunc TimerPhase r)));
    mret None.

Definition enter_listen : M Round (option B) :=
  r ← get;
  _ ← send_ready (pool_heights (node r)) r;
  _ ← modify (AfterFunc TimerPhase);
  mret None.

Definition enter_prepare : M Round (option B) :=
  _ ← modify (fun r => set_Ri {[own_key r := Ri (scheme r)]} (AfterFunc TimerPrepare (AfterFunc TimerPhase r)));
  mret None.

Definition enter_commit : M Round (option B) :=
  _ ← modify (fun r =>
        let c := combine (scheme r) in
        set_Sigs {[combine_R c := {[own_key r := mkCommitted (ValidatorsIdxR c) (CommitSig c)]}]}
          (AfterFunc TimerCommit (AfterFunc TimerPhase r)));
  mret None.

Definition enter : M Round (option B) :=
  _ ← modify (set_timeout false);
  r ← get;
  if cQuit r then throw "Consensus quit"
  else match phase r with
  | PBFT_PROPOSE => enter_propose
  | PBFT_LISTEN => enter_listen
  | PBFT_PREPARE => enter_prepare
  | PBFT_COMMIT => enter_commit
  end.

Definition next_phase (p : Phase) : M Round (option B) :=
  _ ← modify (set_phase p);
  enter.

(** ** A message in each phase *)

Definition committee_size : Z := Z.of_nat (length (Committee rd)).
Definition in_committee (pk : string) : bool := negb (IndexOfStr pk (Committee rd) =? -1).
Definition enough_ready (m : gmap string MessageBFTReady) : bool :=
  (2 * committee_size) `quot` 3 - 1 <=? Z.of_nat (size m).

Definition on_ready (m : MessageBFTReady) : M Round (option B) :=
  if bool_decide (ready_BestStateHash m = BestStateHash rd) && (ready_ProposerOffset m =? ProposerOffset rd) &&
     in_committee (ready_Pubkey m) then
    _ ← modify (fun r => set_ready (<[ready_Pubkey m := m]> (readyMsgs r)) r);
    r ← get;
    _ ← (if enough_ready (readyMsgs r) then modify (fun r => closeTimeoutCh (Stop TimerRequest (Stop TimerPhase r)))
         else mret tt);
    mret None
  else mret None.

(** The error of the decoding is not looked at; a block that does not verify leaves the
    round where it is. *)
Definition on_propose (m : MessageBFTPropose) : M Round (option B) :=
  let pendingBlk := unmarshal_block (propose_Block m) in
  ok ← (fun r => match on_node (verify_pre_sign pendingBlk) r with
                 | (r', Ok _) => (r', Ok true)
                 | (r', Err _) => (r', Ok false)
                 | (r', Panic) => (r', Panic)
                 end);
  if (ok : bool) then
    _ ← modify (fun r => Stop TimerPhase (forwardMsg (MsgPropose m) (set_pending pendingBlk r)));
    next_phase PBFT_PREPARE
  else mret None.

Definition is_beacon : bool := String.eqb (Layer rd) "beacon".

(** A member of a shard answers without the state of its pool. *)
Definition on_request (m : MessageBFTReq) : M Round (option B) :=
  r ← get;
  _ ← (if bool_decide (req_BestStateHash m = BestStateHash rd) && (req_ProposerOffset m =? ProposerOffset rd) &&
          in_committee (req_Pubkey m) && proposer_key (node r) (req_Pubkey m) (ProposerOffset rd)
       then send_ready (if is_beacon then pool_heights (node r) else ∅) r
       else mret tt);
  mret None.

Definition on_prepare (m : MessageBFTPrepare) : M Round (option B) :=
  r ← get;
  if in_committee (prepare_Pubkey m) && bool_decide (dataToSig (scheme r) = prepare_BlkHash m) then
    match collectedRiList r !! prepare_Pubkey m with
    | Some _ => mret None
    | None =>
        let list := <[prepare_Pubkey m := prepare_Ri m]> (collectedRiList r) in
        _ ← modify (fun r => forwardMsg (MsgPrepare m) (set_Ri list r));
        _ ← (if Z.of_nat (size list) =? committee_size then modify (fun r => closeTimeoutCh (Stop TimerPhase r))
             else mret tt);
        mret None
    end
  else mret None.

(** Whether the author is a member is not looked at. *)
Definition on_commit (m : MessageBFTCommit) : M Round (option B) :=
  r ← get;
  let newSig := mkCommitted (commit_ValidatorsIdx m) (commit_CommitSig m) in
  match VerifyCommitSig (commit_Pubkey m) (Sig newSig) (commit_R m) (cs_ValidatorsIdxR newSig) (scheme r) with
  | Panic => gopanic
  | Err _ => mret None
  | Ok _ =>
      let of_R := default ∅ (Sigs r !! commit_R m) in
      match of_R !! commit_Pubkey m with
      | Some _ => _ ← modify (set_Sigs (<[commit_R m := of_R]> (Sigs r))); mret None
      | None =>
          let of_R := <[commit_Pubkey m := newSig]> of_R in
          _ ← modify (fun r => forwardMsg (MsgCommit m) (set_Sigs (<[commit_R m := of_R]> (Sigs r)) r));
          _ ← (if (2 * committee_size) `quot` 3 <=? Z.of_nat (size of_R)
               then modify (fun r => closeTimeoutCh (Stop TimerPhase r)) else mret tt);
          mret None
      end
  end.

Definition on_msg (m : Message) : M Round (option B) := fun r =>
  match phase r, m with
  | PBFT_PROPOSE, MsgReady m => on_ready m r
  | PBFT_LISTEN, MsgPropose m => on_propose m r
  | PBFT_LISTEN, MsgReq m => on_request m r
  | PBFT_PREPARE, MsgPrepare m => on_prepare m r
  | PBFT_COMMIT, MsgCommit m => on_commit m r
  | _, _ => (r, Ok None)
  end.

(** ** The end of each phase *)

Definition propose_block : M Round (option B) :=
  r ← get;
  if enough_ready (readyMsgs r) then
    let states := map (fun m => visit_heights (node r) (ready_PoolState (snd m))) (visited (node r) (readyMsgs r)) ++
                  [visit_heights (node r) (pool_heights (node r))] in
    _ ← modify (set_closest (GetClosestPoolState states));
    msg ← CreateBlockMsg;
    _ ← modify (forwardMsg (MsgPropose msg));
    next_phase PBFT_PREPARE
  else throw "Didn't received enough ready msg".

Definition sign_block : M Round (option B) :=
  r ← get;
  if Z.of_nat (size (collectedRiList r)) <? Z.shiftr committee_size 1 then throw "Didn't receive enough Ri to continue"
  else
    _ ← on_scheme (SignData (visited (node r) (collectedRiList r)));
    next_phase PBFT_COMMIT.

Definition enough_sigs {A} (m : gmap string A) : bool := Z.shiftr committee_size 1 <? Z.of_nat (size m).

(** The combined points are visited in the order of the list. *)
Definition longest_step (sigs : gmap string (gmap string bftCommittedSig)) (szRCombined szR : string) : string :=
  if enough_sigs (default ∅ (sigs !! szR)) then
    if (String.length szRCombined =? 1)%nat then szR
    else if (size (default ∅ (sigs !! szRCombined)) <? size (default ∅ (sigs !! szR)))%nat then szR else szRCombined
  else szRCombined.

Definition agree : M Round (option B) :=
  r ← get;
  let szRCombined := foldl (longest_step (Sigs r)) "1" (map fst (visited (node r) (Sigs r))) in
  if (String.length szRCombined =? 1)%nat then throw "Not enough sigs to combine"
  else
    AggregatedSig ← on_scheme (CombineSigs szRCombined (visited (node r) (default ∅ (Sigs r !! szRCombined))));
    r ← get;
    let c := combine (scheme r) in
    match pendingBlock r with
    | None => gopanic
    | Some b => mret (Some (with_signature (combine_R c) [ValidatorsIdxR c; ValidatorsIdxAggSig c] AggregatedSig b))
    end.

Definition on_timeout : M Round (option B) := fun r =>
  match phase r with
  | PBFT_PROPOSE => propose_block r
  | PBFT_LISTEN => (r, Err "Listen phase timeout")
  | PBFT_PREPARE => sign_block r
  | PBFT_COMMIT => agree r
  end.

(** ** Timers *)

Definition request_ready (r : Round) : M Round unit :=
  match best_hash (node r) with
  | None => gopanic
  | Some hash =>
      push_always MsgReq (MakeMsgBFTReq hash (ProposerOffset rd) (ms_PrivateKey (scheme r)) (own_key r) (clock (node r)))
  end.

Definition send_prepare (r : Round) : M Round unit :=
  let s := scheme r in
  push_signed MsgPrepare (MakeMsgBFTPrepare (Ri s) (ms_PrivateKey s) (own_key r) (dataToSig s) (clock (node r))).

Definition send_commit (r : Round) : M Round unit :=
  let s := scheme r in
  let c := combine s in
  push_signed MsgCommit (MakeMsgBFTCommit (CommitSig c) (combine_R c) (ValidatorsIdxR c) (ms_PrivateKey s) (own_key r)
    (clock (node r))).

Definition fire (t : Timer) : M Round (option B) :=
  r ← get;
  _ ← (match t with
       | TimerPhase => modify closeTimeoutCh
       | TimerRequest => request_ready r
       | TimerPrepare => send_prepare r
       | TimerCommit => send_commit r
       end);
  mret None.

(** ** Runs *)

(** What a piece of the function returns ends the round; a panic ends the node. *)
Definition settle (m : M Round (option B)) (r : Round) : Round :=
  match m r with
  | (r', Ok None) => r'
  | (r', Ok (Some b)) => set_result (Ok b) r'
  | (r', Err e) => set_result (Err e) r'
  | (r', Panic) => set_result Panic r'
  end.

Fixpoint drop_timer (t : Timer) (ts : list Timer) : list Timer :=
  match ts with
  | [] => []
  | t' :: ts => if decide (t' = t) then ts else t' :: drop_timer t ts
  end.

(** A message or the closed channel is read while the round runs; a timer that waits may go
    off, after the round too; the rest of the node may change at any time. *)
Definition step (r : Round) (ev : Event W) : Round :=
  match ev with
  | EvNode w => set_node w r
  | EvQuit => set_quit r
  | EvFire t => if decide (t ∈ timers r) then settle (fire t) (set_timers (drop_timer t (timers r)) r) else r
  | EvMsg m => match result r with Some _ => r | None => settle (on_msg m) r end
  | EvTimeout => match result r with
                 | Some _ => r
                 | None => if cTimeout r then settle on_timeout r else r
                 end
  end.

Definition run (evs : list (Event W)) (r : Round) : Round := foldl step r evs.

(** [rand] is the random scalar of the round. *)
Definition Start (w : W) (privateKey publicKey : bytes) (rand : Z) : Round :=
  settle enter (mkRound w (if IsProposer rd then PBFT_PROPOSE else PBFT_LISTEN) None None
    (Prepare rand (Init privateKey publicKey (Committee rd))) false false [] ∅ ∅ ∅ [] None).
End Protocol.

(** ** Termination *)

Section Termination.
Context {curve : Curve} {sha : Sha256} {sigs : Signatures} {W B : Type} {chain : BftChain W B}.
Abbreviation Round := (Round W B).
Context (single_node : bool) (rd : RoundData).
Implicit Types r : Round.

(** The phases that are left. *)
Definition rank r : nat :=
  match result r with
  | Some _ => 0
  | None => match phase r with PBFT_PROPOSE | PBFT_LISTEN => 3 | PBFT_PREPARE => 2 | PBFT_COMMIT => 1 end
  end.

(** While a round runs, its timer waits or the channel is closed. *)
Definition armed r : Prop := result r = None -> TimerPhase ∈ timers r \/ cTimeout r = true.

(** What a piece of the function does to a round that runs: it goes on in the same phase
    without opening the channel again, or it goes on in a later phase, or it ends. *)
Definition goes_on r (x : Round * outcome (option B)) : Prop :=
  let '(r', o) := x in
  match o with
  | Ok None => result r' = None /\ armed r' /\
               (phase r' = phase r /\ (cTimeout r = true -> cTimeout r' = true) \/ (rank r' < rank r)%nat)
  | _ => True
  end.

(** It goes on in a later phase, or it ends. *)
Definition advances r (x : Round * outcome (option B)) : Prop :=
  let '(r', o) := x in
  match o with Ok None => result r' = None /\ armed r' /\ (rank r' < rank r)%nat | _ => True end.

Lemma advances_goes_on r x : advances r x -> goes_on r x.
Proof. destruct x as [r' [[b|]|e|]]; [done| |done..]. intros (H1 & H2 & H3). split; [done|]. split; [done|]. by right. Qed.

Lemma armed_timer r : TimerPhase ∈ timers r -> armed r.
Proof. by left. Qed.

Ltac waits := apply armed_timer; cbn; rewrite !elem_of_app, !list_elem_of_singleton; tauto.

Lemma settle_goes_on m r : result r = None -> goes_on r (m r) ->
  armed (settle m r) /\ ((rank (settle m r) < rank r)%nat \/
    rank (settle m r) = rank r /\ (cTimeout r = true -> cTimeout (settle m r) = true)).
Proof.
  intros Hr. unfold settle. destruct (m r) as [r' [[b|]|e|]] eqn:E; cbn [goes_on].
  2: { intros (H1 & H2 & H3). split; [done|]. destruct H3 as [[H3 H4]|H3]; [right|by left].
       split; [unfold rank; by rewrite H1, Hr, H3|done]. }
  all: intros _; (split; [by intros ?|left; unfold rank; cbn; rewrite Hr; destruct (phase r); lia]).
Qed.

Lemma settle_advances m r : result r = None -> advances r (m r) -> (rank (settle m r) < rank r)%nat.
Proof.
  intros Hr. unfold settle. destruct (m r) as [r' [[b|]|e|]] eqn:E; cbn [advances]; [|by intros (_ & _ & H)|..];
    intros _; unfold rank; cbn; rewrite Hr; destruct (phase r); lia.
Qed.

Lemma create_ok r r' msg : CreateBlockMsg rd r = (r', Ok msg) ->
  exists b, new_block (node r) (ProposerOffset rd) (ClosestPoolState r) = Ok b /\ r' = set_pending b r.
Proof.
  unfold CreateBlockMsg. mrun. destruct (new_block _ _ _) as [b|e|]; [|done..].
  destruct (MakeMsgBFTPropose _ _ _ _ _ _) as [m [[]|e|]]; intros [= <- <-]. by exists b.
Qed.

Lemma send_ready_cases heights r r0 : (exists m, send_ready rd heights r r0 = (forwardMsg m r0, Ok tt)) \/
  send_ready rd heights r r0 = (r0, Panic).
Proof.
  unfold send_ready, push_always. destruct (best_hash _) as [h|]; [|by right].
  destruct (MakeMsgBFTReady _ _ _ _ _ _ _) as [m [[]|e|]]; cbn; eauto.
Qed.

Lemma enter_runs r : result r = None ->
  match enter single_node rd r with
  | (r', Ok None) => result r' = None /\ armed r' /\ phase r' = phase r
  | _ => True
  end.
Proof.
  intros Hr. unfold enter, enter_propose, enter_listen, enter_prepare, enter_commit. mrun. destruct (cQuit _); [done|]. cbn [set_timeout phase].
  destruct (phase r) eqn:Hp; mrun.
  - edestruct send_ready_cases as [[m ->]| ->]; [|done]. split; [done|]. split; [waits|done].
  - destruct single_node; mrun.
    + destruct (CreateBlockMsg _ _) as [? [?|?|]] eqn:E; [|done..]. by apply create_ok in E as (b & _ & ->).
    + split; [done|]. split; [waits|done].
  - split; [done|]. split; [waits|done].
  - split; [done|]. split; [waits|done].
Qed.

Lemma enter_advances r0 r : result r = None -> (rank r < rank r0)%nat -> advances r0 (enter single_node rd r).
Proof.
  intros Hr Hrank. pose proof (enter_runs r Hr) as H. destruct (enter _ _ r) as [r' [[b|]|e|]]; [done| |done..].
  destruct H as (H1 & H2 & H3). split; [done|]. split; [done|]. unfold rank in Hrank |- *. rewrite Hr in Hrank. by rewrite H1, H3.
Qed.

Lemma rank_le r : (rank r <= 3)%nat.
Proof. unfold rank. destruct (result r); [lia|]. destruct (phase r); lia. Qed.

Lemma next_phase_advances p r0 r : result r = None -> (rank (set_phase p r) < rank r0)%nat ->
  advances r0 (next_phase single_node rd p r).
Proof. intros. by apply enter_advances. Qed.

(** The changes of a phase that goes on. *)
Lemma stays r r' : result r' = None -> phase r' = phase r -> armed r' -> (cTimeout r = true -> cTimeout r' = true) ->
  goes_on r (r', Ok None).
Proof. intros. split; [done|]. split; [done|]. by left. Qed.

Lemma closed_armed r : cTimeout r = true -> armed r.
Proof. by right. Qed.

Hint Resolve stays closed_armed : core.

Lemma on_msg_goes_on m r : result r = None -> armed r -> goes_on r (on_msg single_node rd m r).
Proof.
  intros Hr Ha. unfold on_msg. destruct (phase r) eqn:Hp, m as [m|m|m|m|m]; try by apply stays.
  - unfold on_request. mrun. destruct (_ && _); [|by apply stays].
    edestruct send_ready_cases as [[? ->]| ->]; [by apply stays|done].
  - unfold on_propose, on_node. mrun. destruct (verify_pre_sign _ _) as [w [[]|e|]]; [|by apply stays|done].
    apply advances_goes_on, next_phase_advances; [done|]. unfold rank. cbn. rewrite Hr, Hp. lia.
  - unfold on_ready. destruct (_ && _); mrun; [|by apply stays].
    destruct (enough_ready _ _); by apply stays; auto.
  - unfold on_prepare. mrun. destruct (_ && _); [|by apply stays]. destruct (_ !! _); [by apply stays|].
    destruct (_ =? _); by apply stays; auto.
  - unfold on_commit. mrun. destruct (VerifyCommitSig _ _ _ _ _) as [[]|e|]; [|by apply stays|done].
    destruct (_ !! commit_Pubkey m); [by apply stays|]. destruct (_ <=? _); by apply stays; auto.
Qed.

Lemma on_timeout_advances r : result r = None -> advances r (on_timeout single_node rd r).
Proof.
  intros Hr. unfold on_timeout. destruct (phase r) eqn:Hp; [done|..].
  - unfold propose_block. mrun. destruct (enough_ready _ _); [|done].
    destruct (CreateBlockMsg _ _) as [r' [msg|e|]] eqn:E; [|done..]. apply create_ok in E as (b & _ & ->).
    apply next_phase_advances; [done|]. unfold rank. cbn. rewrite Hr, Hp. lia.
  - unfold sign_block, on_scheme. mrun. destruct (_ <? _); [done|].
    destruct (SignData _ _) as [s [[]|e|]]; [|done..].
    apply next_phase_advances; [done|]. unfold rank. cbn. rewrite Hr, Hp. lia.
  - unfold agree, on_scheme. mrun. destruct (_ =? _)%nat; [done|].
    destruct (CombineSigs _ _ _) as [s [agg|e|]]; [|done..]. cbn [set_scheme pendingBlock]. by destruct (pendingBlock r).
Qed.

Lemma fire_keeps t r : exists r' o, fire rd t r = (r', o) /\ result r' = result r /\ phase r' = phase r /\ scheme r' = scheme r /\
  pendingBlock r' = pendingBlock r /\ Sigs r' = Sigs r /\ readyMsgs r' = readyMsgs r /\ collectedRiList r' = collectedRiList r /\ timers r' = timers r /\
  (cTimeout r = true \/ t = TimerPhase -> cTimeout r' = true) /\ (o = Ok None \/ o = Panic).
Proof.
  unfold fire, request_ready, send_prepare, send_commit. mrun. destruct t; unfold push_always, push_signed;
    [|destruct (best_hash _); [destruct (MakeMsgBFTReq _ _ _ _ _) as [? [[]|?|]]|]|destruct (MakeMsgBFTPrepare _ _ _ _ _) as [? [[]|?|]]
     |destruct (MakeMsgBFTCommit _ _ _ _ _ _) as [? [[]|?|]]];
    cbn [snd]; mrun; eexists _, _; (split; [reflexivity|]); do 8 (split; [done|]); (split; [by intros [|]|]); auto.
Qed.

Lemma drop_timer_other t ts : t <> TimerPhase -> TimerPhase ∈ ts -> TimerPhase ∈ drop_timer t ts.
Proof.
  intros Ht. induction ts as [|t' ts IH]; [done|]. cbn [drop_timer]. intros [E|Hin]%elem_of_cons; destruct (decide _) as [Et|].
  - congruence.
  - rewrite E. left.
  - done.
  - right. auto.
Qed.

(** The channel is closed in the phase [k], or the round is further on. *)
Definition past (k : nat) r : Prop := (rank r < k)%nat \/ rank r = k /\ cTimeout r = true.

Lemma step_rank ev r : armed r -> armed (step single_node rd r ev) /\ (rank (step single_node rd r ev) <= rank r)%nat /\
  ((rank (step single_node rd r ev) < rank r)%nat \/ (cTimeout r = true -> cTimeout (step single_node rd r ev) = true)).
Proof.
  intros Ha. destruct ev as [m| |t|w|]; cbn [step].
  - destruct (result r) eqn:Hr; [(split; [done|]; split; [lia|by right])|].
    destruct (settle_goes_on (on_msg single_node rd m) r Hr (on_msg_goes_on m r Hr Ha)) as [H1 [H2|[H2 H3]]];
      (split; [done|]; split; [lia|]; first [by left|by right]).
  - destruct (result r) eqn:Hr; [(split; [done|]; split; [lia|by right])|]. destruct (cTimeout r); [|(split; [done|]; split; [lia|by right])].
    pose proof (on_timeout_advances r Hr) as Hadv. split; [|split; [|left]].
    + by apply settle_goes_on, advances_goes_on.
    + pose proof (settle_advances _ r Hr Hadv). lia.
    + by apply settle_advances.
  - destruct (decide _) as [Ht|]; [|(split; [done|]; split; [lia|by right])]. set (r1 := set_timers _ r).
    destruct (fire_keeps t r1) as (r' & o & E & H1 & H2 & _ & _ & _ & _ & _ & H3 & H4 & H5). unfold settle. rewrite E.
    assert (rank r' = rank r) as Hrank by (unfold rank; by rewrite H1, H2).
    destruct H5 as [-> | ->]; [|split; [by intros ?|]; split; [cbn; lia|right; auto]].
    split; [|split; [lia|right; auto]]. intros Hr'. rewrite H1 in Hr'. destruct (Ha Hr') as [Hin|Hc]; [|auto].
    destruct (decide (t = TimerPhase)) as [->|]; [auto|left]. rewrite H3. by apply drop_timer_other.
  - split; [done|]. split; [done|]. by right.
  - split; [done|]. split; [done|]. by right.
Qed.

Lemma step_past k ev r : armed r -> past k r -> past k (step single_node rd r ev).
Proof.
  intros Ha Hp. destruct (step_rank ev r Ha) as (_ & H1 & H2). unfold past in *.
  destruct (decide (rank (step single_node rd r ev) < k)%nat); [by left|right].
  destruct Hp as [|[Hk Hc]]; [lia|]. destruct H2 as [|H2]; [lia|]. split; [lia|auto].
Qed.

Lemma step_fire r k : armed r -> (rank r <= k)%nat -> (0 < k)%nat -> past k (step single_node rd r (EvFire TimerPhase)).
Proof.
  intros Ha Hk Hpos. destruct (step_rank (EvFire TimerPhase) r Ha) as (_ & H1 & _).
  destruct (decide (rank (step single_node rd r (EvFire TimerPhase)) < k)%nat); [by left|right]. split; [lia|].
  destruct (result r) eqn:Hr.
  { exfalso. apply n. unfold rank in H1 |- *. rewrite Hr in H1. lia. }
  cbn [step] in *. destruct (decide _) as [Ht|Ht].
  - destruct (fire_keeps TimerPhase (set_timers (drop_timer TimerPhase (timers r)) r)) as (r' & o & E & _ & _ & _ & _ & _ & _ & _ & _ & H4 & H5).
    unfold settle. rewrite E. destruct H5 as [-> | ->]; [auto|cbn; auto].
  - by destruct (Ha Hr).
Qed.

Lemma step_timeout r k : armed r -> past k r -> (0 < k)%nat -> (rank (step single_node rd r EvTimeout) < k)%nat.
Proof.
  intros Ha Hp Hk. destruct (step_rank EvTimeout r Ha) as (_ & H1 & _). destruct Hp as [|[Hr Hc]]; [lia|].
  cbn [step] in *. destruct (result r) eqn:E; [unfold rank in Hr; rewrite E in Hr; lia|]. rewrite Hc, <- Hr.
  by apply settle_advances, on_timeout_advances.
Qed.

(** The timer of a phase goes off and the closed channel is read. *)
Definition phase_ends : list (Event W) := [EvFire TimerPhase; EvTimeout].

Lemma run_ends evs k r : armed r ->
  ((rank r <= k)%nat -> sublist (concat (replicate k phase_ends)) evs -> result (run single_node rd evs r) <> None) /\
  (past (1 + k)%nat r -> sublist (EvTimeout :: concat (replicate k phase_ends)) evs -> result (run single_node rd evs r) <> None).
Proof.
  revert k r. induction evs as [|ev evs IH]; intros k r Ha.
  - split; intros Hr Hs; apply sublist_nil_r in Hs; [|done]. destruct k; [|done]. cbn. unfold rank in Hr.
    destruct (result r); [done|]. destruct (phase r); lia.
  - destruct (step_rank ev r Ha) as (Ha' & H1 & _). cbn [run foldl]. fold (run single_node rd evs (step single_node rd r ev)).
    split; intros Hr Hs.
    + apply sublist_cons_r in Hs as [Hs|(l & E & Hs)]; [apply (proj1 (IH k _ Ha')); [lia|done]|].
      destruct k; [done|]. cbn in E. injection E as <- <-.
      apply (proj2 (IH k _ Ha')); [apply step_fire; [done|lia|lia]|done].
    + apply sublist_cons_r in Hs as [Hs|(l & E & Hs)]; [apply (proj2 (IH k _ Ha')); [by apply step_past|done]|].
      injection E as <- <-.
      apply (proj1 (IH k _ Ha')); [apply PeanoNat.lt_n_Sm_le, step_timeout; [done|done|lia]|done].
Qed.

(** C13. A round ends: however messages, other timers and the rest of the node are
    interleaved, once the timer of a phase went off and the closed channel was read three
    times the function has returned. *)
Theorem bft_round_ends (w : W) (privateKey publicKey : bytes) (rand : Z) (evs : list (Event W))
    (Hfair : sublist (phase_ends ++ phase_ends ++ phase_ends) evs) :
  result (run single_node rd evs (Start single_node rd w privateKey publicKey rand)) <> None.
Proof.
  set (r := Start _ _ _ _ _ _). refine (proj1 (run_ends evs 3 r _) _ _); [|apply rank_le|exact Hfair].
  unfold r, Start, settle. set (r0 := mkRound _ _ _ _ _ _ _ _ _ _ _ _ _). pose proof (enter_runs r0 eq_refl) as H.
  destruct (enter _ _ r0) as [r' [[b|]|e|]]; [done| |done..]. by destruct H as (_ & H & _).
Qed.
End Termination.

(** ** Agreement *)

Section Agreement.
Context {curve : Curve} {sha : Sha256} {sigs : Signatures} {W B : Type} {chain : BftChain W B}.
Abbreviation Round := (Round W B).
Context (single_node : bool) (rd : RoundData) (privateKey publicKey : bytes).
Implicit Types r : Round.

(** A block that the node made, or that it verified before signing. *)
Definition made (b : B) : Prop := exists w closest, new_block w (ProposerOffset rd) closest = Ok b.
Definition good (b : B) : Prop := made b \/ exists w w', verify_pre_sign b w = (w', Ok tt).

(** The scheme signs the hash of the pending block, for the committee and with the keys of
    the round. *)
Definition signs (b : B) (s : multiSigScheme) : Prop := dataToSig s = header_hash b.
Definition scheme_of (s : multiSigScheme) : Prop :=
  SigningCommittee (combine s) = Committee rd /\ ms_PrivateKey s = privateKey /\ ms_PublicKey s = publicKey.

(** The signature verifies, under the combined point and the author's key, against the data
    that the scheme signs. *)
Definition verified (s : multiSigScheme) (R pk : string) (sg : bftCommittedSig) : Prop :=
  exists point rc signers key sig,
    decode58 R = Ok (point, 0) /\ decompressed point = Ok rc /\
    GetPubKeysFromIdx (SigningCommittee (combine s)) (cs_ValidatorsIdxR sg) = Ok signers /\
    decode58 pk = Ok (key, 0) /\ SetBytes_sig (match decode58 (Sig sg) with Ok (b, _) => b | _ => [] end) = Ok sig /\
    VerifyMultiSig sig (dataToSig s) signers [key] rc = Ok true.

(** The string decodes with a version that is not the one of keys and points. *)
Definition foreign_version (x : string) : Prop := exists b v, decode58 x = Ok (b, v) /\ v <> 0.

(** A signature that is stored for a combined point is the node's own, or it verifies, or
    nothing was verified since the point or the author's key carries another version. *)
Definition checked (s : multiSigScheme) (R pk : string) (sg : bftCommittedSig) : Prop :=
  (R = combine_R (combine s) /\ pk = base58_encode publicKey /\
   sg = mkCommitted (ValidatorsIdxR (combine s)) (CommitSig (combine s))) \/
  verified s R pk sg \/ foreign_version R \/ foreign_version pk.

Lemma VerifyCommitSig_checked (s : multiSigScheme) (R pk : string) (sg : bftCommittedSig) :
  VerifyCommitSig pk (Sig sg) R (cs_ValidatorsIdxR sg) s = Ok tt ->
  verified s R pk sg \/ foreign_version R \/ foreign_version pk.
Proof.
  unfold VerifyCommitSig, versioned. destruct (decode58 R) as [[point v]| |] eqn:ER; [|done..]. cbn [mbind outcome_bind].
  destruct (Z.eqb_spec v 0) as [->|Hv]; [|right; left; by exists point, v].
  destruct (decompressed point) as [rc| |] eqn:Ec; [|done..]. cbn [mbind outcome_bind].
  destruct (GetPubKeysFromIdx _ _) as [signers| |] eqn:Es; [|done..]. cbn [mbind outcome_bind].
  destruct (decode58 pk) as [[key v]| |] eqn:Ek; [|done..]. cbn [mbind outcome_bind].
  destruct (Z.eqb_spec v 0) as [->|Hv]; [|right; right; by exists key, v].
  destruct (SetBytes_sig _) as [sig| |] eqn:Eg; [|done..]. cbn [mbind outcome_bind].
  destruct (VerifyMultiSig _ _ _ _ _) as [[]| |] eqn:Em; [|done..]. intros _. left. by exists point, rc, signers, key, sig.
Qed.

Definition all_checked (s : multiSigScheme) (m : gmap string (gmap string bftCommittedSig)) : Prop :=
  forall R of_R pk sg, m !! R = Some of_R -> of_R !! pk = Some sg -> checked s R pk sg.

(** The authors that were collected are members of the committee. *)
Definition members {A} (m : gmap string A) : Prop :=
  forall pk x, m !! pk = Some x -> pk ∈ Committee rd \/ pk = base58_encode publicKey.

Definition running r : Prop :=
  scheme_of (scheme r) /\
  match phase r with
  | PBFT_PROPOSE => members (readyMsgs r)
  | PBFT_LISTEN => True
  | PBFT_PREPARE => members (collectedRiList r) /\ exists b, pendingBlock r = Some b /\ good b /\ signs b (scheme r)
  | PBFT_COMMIT => all_checked (scheme r) (Sigs r) /\ exists b, pendingBlock r = Some b /\ good b /\ signs b (scheme r)
  end.

(** The block carries the combination of more than half of the committee's number of
    signatures, each of them [checked], for the hash of the block. *)
Definition agreed (b : B) : Prop :=
  exists b0 (s s' : multiSigScheme) R (of_R : gmap string bftCommittedSig) commits agg,
    good b0 /\ signs b0 s /\ scheme_of s /\ enough_sigs rd of_R = true /\
    (forall pk sg, of_R !! pk = Some sg -> checked s R pk sg) /\
    commits ≡ₚ map_to_list of_R /\ CombineSigs R commits s = (s', Ok agg) /\
    b = with_signature (combine_R (combine s')) [ValidatorsIdxR (combine s'); ValidatorsIdxAggSig (combine s')] agg b0.

Definition returned (b : B) : Prop := (single_node = true /\ IsProposer rd = true /\ made b) \/ agreed b.

Definition round_ok r : Prop :=
  match result r with
  | None => running r
  | Some (Ok b) => returned b
  | Some _ => True
  end.

(** What a piece of the function does to a round that runs. *)
Definition keeps (x : Round * outcome (option B)) : Prop :=
  let '(r', o) := x in
  match o with
  | Ok None => result r' = None /\ running r'
  | Ok (Some b) => returned b
  | _ => True
  end.

Lemma settle_keeps m r : keeps (m r) -> round_ok (settle m r).
Proof.
  unfold settle, round_ok. destruct (m r) as [r' [[b|]|e|]]; cbn [keeps]; [done| |done..]. intros [-> H]. exact H.
Qed.

Lemma visited_perm {A} (w : W) (m : gmap string A) : visited w m ≡ₚ map_to_list m.
Proof.
  unfold visited. rewrite visit_keys_perm.
  assert (forall l : list (string * A), (forall kv, kv ∈ l -> m !! fst kv = Some (snd kv)) ->
    omap (fun k => pair k <$> m !! k) (map fst l) = l) as H.
  { induction l as [|[k x] l IH]; intros Hl; [done|]. cbn. pose proof (Hl (k, x)) as E. cbn in E. rewrite E by left. cbn. f_equal. apply IH.
    intros kv Hkv. apply Hl. by right. }
  rewrite H; [done|]. intros [k x] Hkv. by apply elem_of_map_to_list in Hkv.
Qed.

Lemma in_committee_spec pk : in_committee rd pk = true -> pk ∈ Committee rd.
Proof.
  unfold in_committee, IndexOfStr. destruct (index_of_spec pk (Committee rd) 0) as [[-> _]|(j & -> & Hj & _)]; [done|].
  intros _. by eapply list_elem_of_lookup_2.
Qed.

Lemma members_insert {A} (m : gmap string A) pk x : members m -> pk ∈ Committee rd -> members (<[pk := x]> m).
Proof. intros Hm Hpk pk' x' [[<- <-]|[_ H]]%lookup_insert_Some; [by left|by eapply Hm]. Qed.

(** ** What the signing keeps of the scheme *)

Definition same_scheme (s s' : multiSigScheme) : Prop :=
  dataToSig s' = dataToSig s /\ SigningCommittee (combine s') = SigningCommittee (combine s) /\
  ms_PrivateKey s' = ms_PrivateKey s /\ ms_PublicKey s' = ms_PublicKey s.

Lemma same_scheme_of s s' : same_scheme s s' -> scheme_of s -> scheme_of s'.
Proof. intros (_ & H1 & H2 & H3) (E1 & E2 & E3). by split; [congruence|split; congruence]. Qed.

Lemma same_signs b s s' : same_scheme s s' -> signs b s -> signs b s'.
Proof. intros (H & _). unfold signs. congruence. Qed.

Lemma sign_loop_same l pks rs s : same_scheme s (fst (sign_loop l pks rs s)).
Proof.
  revert pks rs s. induction l as [|[k x] l IH]; intros pks rs s; [done|]. cbn [sign_loop]. mrun.
  destruct (decode58 k) as [[b v]|e|]; [|done..]. destruct (negb _); [done|].
  destruct (decompressed x) as [p|e|]; [|done..].
  destruct (IH (pks ++ [b]) (rs ++ [p]) (add_index (IndexOfStr k (SigningCommittee (combine s))) s)) as (H1 & H2 & H3 & H4).
  by split.
Qed.

Lemma SignData_same l s s' o : SignData l s = (s', o) -> same_scheme s s'.
Proof.
  unfold SignData. mrun. pose proof (sign_loop_same l [] [] s) as H.
  destruct (sign_loop l [] [] s) as [s1 [[[pks rs]|]|e|]]; cbn [fst] in H; [|by intros [= <- _]..].
  destruct (SignMultiSig _ _ _ _ _ _) as [sg|e|]; [|by intros [= <- _]..].
  destruct (Bytes_sig sg) as [b|e|]; by intros [= <- _].
Qed.

(** ** The invariant *)

Lemma create_keeps r r' msg : CreateBlockMsg rd r = (r', Ok msg) ->
  exists b, made b /\ r' = set_pending b r.
Proof. intros (b & Hb & ->)%create_ok. exists b. split; [by exists (node r), (ClosestPoolState r)|done]. Qed.

Lemma enter_keeps r : result r = None -> scheme_of (scheme r) ->
  (phase r = PBFT_PROPOSE -> IsProposer rd = true) ->
  (phase r = PBFT_PREPARE \/ phase r = PBFT_COMMIT ->
     exists b, pendingBlock r = Some b /\ good b /\ signs b (scheme r)) ->
  keeps (enter single_node rd r).
Proof.
  intros Hr Hs Hprop Hpend. unfold enter, enter_propose, enter_listen, enter_prepare, enter_commit. mrun. destruct (cQuit _); [done|]. cbn [set_timeout phase].
  destruct (phase r) eqn:Hp; mrun.
  - edestruct send_ready_cases as [[m ->]| ->]; [|done]. split; [done|]. unfold running. cbn. by rewrite Hp.
  - destruct single_node eqn:Hsingle; mrun.
    + destruct (CreateBlockMsg _ _) as [r' [msg|e|]] eqn:E; [|done..]. apply create_keeps in E as (b & Hb & ->).
      cbn. left. split; [done|]. split; [auto|done].
    + split; [done|]. unfold running. cbn. rewrite Hp. split; [done|]. by intros pk x H%lookup_empty_Some.
  - split; [done|]. unfold running. cbn. rewrite Hp. split; [done|]. split; [|auto].
    intros pk x [<- _]%lookup_singleton_Some. right. unfold own_key. by destruct Hs as (_ & _ & ->).
  - split; [done|]. unfold running. cbn. rewrite Hp. split; [done|]. split; [|auto].
    intros R of_R pk sg [<- <-]%lookup_singleton_Some [<- <-]%lookup_singleton_Some. left.
    unfold own_key. by destruct Hs as (_ & _ & ->).
Qed.

Lemma on_msg_keeps m r : result r = None -> running r -> keeps (on_msg single_node rd m r).
Proof.
  intros Hr [Hs Hrun]. unfold on_msg. destruct (phase r) eqn:Hp, m as [m|m|m|m|m];
    try (split; [done|]; unfold running; by rewrite Hp).
  - unfold on_request. mrun. assert (running r) as Hok by (unfold running; by rewrite Hp).
    destruct (_ && _); [|done]. edestruct send_ready_cases as [[? ->]| ->]; [|done].
    split; [done|]. unfold running. cbn. by rewrite Hp.
  - unfold on_propose, on_node. mrun. destruct (verify_pre_sign _ _) as [w [[]|e|]] eqn:E; [| |done].
    + apply enter_keeps; [done|exact Hs|done|]. intros _. eexists. split; [reflexivity|]. split; [|done].
      right. by eexists _, _.
    + split; [done|]. unfold running. cbn. by rewrite Hp.
  - unfold on_ready. destruct (_ && _) eqn:Ec; mrun; [|split; [done|]; unfold running; by rewrite Hp].
    apply andb_prop in Ec as [_ Ec%in_committee_spec].
    destruct (enough_ready _ _); (split; [done|]; unfold running; cbn; rewrite Hp; split; [done|]; by apply members_insert).
  - unfold on_prepare. mrun. assert (running r) as Hok by (unfold running; by rewrite Hp).
    destruct (_ && _) eqn:Ec; [|done]. apply andb_prop in Ec as [Ec%in_committee_spec _]. destruct Hrun as [Hm Hpend].
    destruct (_ !! _); [done|].
    destruct (_ =? _); (split; [done|]; unfold running; cbn; rewrite Hp; split; [done|]; split; [by apply members_insert|done]).
  - unfold on_commit. mrun. assert (running r) as Hok by (unfold running; by rewrite Hp). destruct Hrun as [Hc Hpend].
    destruct (VerifyCommitSig _ _ _ _ _) as [[]|e|] eqn:Ev; [|done..].
    assert (forall of_R, (forall pk sg, of_R !! pk = Some sg -> checked (scheme r) (commit_R m) pk sg) ->
      all_checked (scheme r) (<[commit_R m := of_R]> (Sigs r))) as Hins.
    { intros of_R Hof R of_R' pk sg [[<- <-]|[_ H]]%lookup_insert_Some Hpk; [by apply Hof|by eapply Hc]. }
    assert (forall pk sg, default ∅ (Sigs r !! commit_R m) !! pk = Some sg -> checked (scheme r) (commit_R m) pk sg) as Hold.
    { intros pk sg. destruct (Sigs r !! commit_R m) as [of_R|] eqn:E; cbn; [by apply Hc|by intros H%lookup_empty_Some]. }
    destruct (_ !! commit_Pubkey m).
    + split; [done|]. unfold running. cbn. rewrite Hp. split; [done|]. split; [by apply Hins|done].
    + assert (all_checked (scheme r) (<[commit_R m := <[commit_Pubkey m := mkCommitted (commit_ValidatorsIdx m) (commit_CommitSig m)]>
        (default ∅ (Sigs r !! commit_R m))]> (Sigs r))) as Hall.
      { apply Hins. intros pk sg [[<- <-]|[_ H]]%lookup_insert_Some; [|by apply Hold]. right. by apply VerifyCommitSig_checked. }
      destruct (_ <=? _); (split; [done|]; unfold running; cbn; rewrite Hp; done).
Qed.

(** The point chosen is none, or one with enough signatures. *)
Lemma longest_enough sg l acc : (String.length acc = 1%nat \/ enough_sigs rd (default ∅ (sg !! acc)) = true) ->
  let R := foldl (longest_step rd sg) acc l in String.length R = 1%nat \/ enough_sigs rd (default ∅ (sg !! R)) = true.
Proof.
  cbn zeta. revert acc. induction l as [|R l IH]; intros acc Hacc; [done|]. cbn [foldl]. apply IH.
  unfold longest_step. destruct (enough_sigs rd (default ∅ (sg !! R))) eqn:E; [|done].
  destruct (_ =? _)%nat; [by right|]. destruct (_ <? _)%nat; [by right|done].
Qed.

Lemma on_timeout_keeps r : result r = None -> running r -> keeps (on_timeout single_node rd r).
Proof.
  intros Hr [Hs Hrun]. unfold on_timeout. destruct (phase r) eqn:Hp; [done|..].
  - unfold propose_block. mrun. destruct (enough_ready _ _); [|done].
    destruct (CreateBlockMsg _ _) as [r' [msg|e|]] eqn:E; [|done..]. apply create_keeps in E as (b & Hb & ->).
    apply enter_keeps; [done|exact Hs|done|]. intros _. exists b. split; [done|]. split; [by left|done].
  - unfold sign_block, on_scheme. mrun. destruct (_ <? _); [done|].
    destruct (SignData _ _) as [s [[]|e|]] eqn:E; [|done..]. apply SignData_same in E.
    destruct Hrun as (_ & b & H1 & H2 & H3).
    apply enter_keeps; [done|by eapply same_scheme_of|done|]. intros _. exists b. split; [done|]. split; [done|].
    by eapply same_signs.
  - unfold agree, on_scheme. mrun. set (R := foldl _ _ _). destruct (_ =? _)%nat eqn:El; [done|]. apply Nat.eqb_neq in El.
    destruct (CombineSigs _ _ _) as [s' [agg|e|]] eqn:E; [|done..]. cbn [set_scheme pendingBlock].
    destruct Hrun as (Hc & b & H1 & H2 & H3). rewrite H1. right.
    exists b, (scheme r), s', R, (default ∅ (Sigs r !! R)). eexists _, agg.
    split; [done|]. split; [done|]. split; [done|]. split.
    { destruct (longest_enough (Sigs r) (map fst (visited (node r) (Sigs r))) "1") as [H|H]; [by left|done|done]. }
    split.
    { intros pk sg. destruct (Sigs r !! R) as [of_R|] eqn:ER; cbn; [by apply Hc|by intros H%lookup_empty_Some]. }
    split; [apply visited_perm|]. split; [exact E|done].
Qed.

Lemma step_round_ok ev r : round_ok r -> round_ok (step single_node rd r ev).
Proof.
  intros Hok. destruct ev as [m| |t|w|]; cbn [step].
  - destruct (result r) eqn:Hr; [done|]. apply settle_keeps, on_msg_keeps; [done|]. unfold round_ok in Hok. by rewrite Hr in Hok.
  - destruct (result r) eqn:Hr; [done|]. destruct (cTimeout r); [|done]. apply settle_keeps, on_timeout_keeps; [done|].
    unfold round_ok in Hok. by rewrite Hr in Hok.
  - destruct (decide _) as [Ht|]; [|done]. set (r1 := set_timers _ r).
    destruct (fire_keeps rd t r1) as (r' & o & E & H1 & H2 & H3 & H4 & H5 & H6 & H7 & _ & _ & Ho). unfold settle. rewrite E.
    destruct Ho as [-> | ->]; [|done]. unfold round_ok, running. rewrite H1, H2, H3, H4, H5, H6, H7. exact Hok.
  - exact Hok.
  - exact Hok.
Qed.

Lemma round_returned (w : W) (rand : Z) (evs : list (Event W)) (b : B) :
  result (run single_node rd evs (Start single_node rd w privateKey publicKey rand)) = Some (Ok b) -> returned b.
Proof.
  intros Hres. assert (forall r, round_ok r -> round_ok (run single_node rd evs r)) as Hrun.
  { clear. induction evs as [|ev evs IH]; intros r Hr; [done|]. by apply IH, step_round_ok. }
  enough (round_ok (Start single_node rd w privateKey publicKey rand)) as H0.
  { apply Hrun in H0. unfold round_ok in H0. by rewrite Hres in H0. }
  apply settle_keeps, enter_keeps; [done|done|cbn; by destruct (IsProposer rd)|].
  cbn. destruct (IsProposer rd); by intros [|].
Qed.

(** C12. What a round returns, whatever it received and in whatever order: with the lines of a
    single node in force and as the proposer, the block that the node made; otherwise the
    block that was made or verified before signing, with the combination of more than half
    of the committee's number of signatures, each of which is the node's own, or verifies
    against the hash of the block, or was taken without a verification since the combined
    point or the key of its author decodes with another version than 0. *)
Theorem bft_returns_agreed (w : W) (rand : Z) (evs : list (Event W)) (b : B)
    (Hres : result (run single_node rd evs (Start single_node rd w privateKey publicKey rand)) = Some (Ok b)) :
  (single_node = true /\ IsProposer rd = true /\ made b) \/ agreed b.
Proof. exact (round_returned w rand evs b Hres). Qed.
End Agreement.

(** ** Concrete inputs *)

Section Samples.
Import QuickHash SmallCurve.
#[local] Existing Instance BftMessages.sample_signatures.

(** Blocks are their hash and their signature; the node's state is its clock. *)
Record SampleBlock := mkSampleBlock { sample_hash : Hash; sample_sig : option (string * list (list Z) * string) }.

#[local] Instance sample_chain : BftChain Z SampleBlock.
Proof.
  refine {| best_hash := fun _ => Some zero_hash; pool_heights := fun _ => ∅; proposer_key := fun _ _ _ => true;
    new_block := fun _ _ _ => Ok (mkSampleBlock sample_message None);
    verify_pre_sign := fun b => lift (if (length (sample_hash b) =? 32)%nat then Ok tt else Err "no hash");
    marshal_block := sample_hash; unmarshal_block := fun b => mkSampleBlock b None; header_hash := sample_hash;
    with_signature := fun R idx agg b => mkSampleBlock (sample_hash b) (Some (R, idx, agg));
    clock := fun w => w; visit_heights := fun _ => map_to_list; visit_keys := fun _ l => l |}; reflexivity.
Defined.

Definition sample_data (proposer : bool) : RoundData := mkRoundData zero_hash 0 proposer "beacon" 0 sample_texts.

(** Another member prepares, and commits as in the sample of BftSig.v. *)
Definition prepare_of (m : bytes * Z) : Message :=
  MsgPrepare (mkPrepare sample_message (Ri (sample_scheme m)) (base58_encode (signer_key m.1)) "" 0).

Definition commit_of (c : string * bftCommittedSig * string) : Message :=
  MsgCommit (mkCommit (Sig c.1.2) c.2 (cs_ValidatorsIdxR c.1.2) c.1.1 "" 0).

(** A validator receives the block, the points of the two others and one signature. *)
Definition sample_events : list (Event Z) :=
  [EvMsg (MsgPropose (mkPropose "beacon" 0 sample_message "" "" 0)); EvFire TimerPrepare] ++
  map EvMsg (map prepare_of (tail sample_committee)) ++ [EvTimeout] ++
  map EvMsg (map commit_of (take 1 sample_round)) ++ [EvTimeout].

Definition sample_end : Round Z SampleBlock :=
  Eval vm_compute in run false (sample_data false) sample_events (Start false (sample_data false) 0 [2] (signer_key [2]) 3).

Definition sample_result : SampleBlock :=
  Eval vm_compute in match result sample_end with Some (Ok b) => b | _ => mkSampleBlock [] None end.

Lemma bft_round_ends_witness :
  result (run false (sample_data true) (phase_ends ++ sample_events ++ phase_ends ++ phase_ends)
    (Start false (sample_data true) 0 [2] (signer_key [2]) 3)) <> None.
Proof. apply (bft_round_ends false (sample_data true)). apply sublist_app; [done|]. by apply sublist_inserts_l. Defined.

Lemma bft_returns_agreed_witness :
  (false = true /\ IsProposer (sample_data false) = true /\ made (sample_data false) sample_result) \/
  agreed (sample_data false) [2] (signer_key [2]) sample_result.
Proof.
  apply (bft_returns_agreed false (sample_data false) [2] (signer_key [2]) 0 3 sample_events). vm_compute. reflexivity.
Defined.

(** The block of the sample validates in a network of several nodes. *)
Lemma sample_result_validates :
  match sample_sig sample_result with
  | Some (R, idx, agg) => ValidateAggSignature_multi idx sample_texts agg R (sample_hash sample_result) = Ok tt
  | None => False
  end.
Proof. vm_compute. reflexivity. Qed.

(** A proposer that is ready with one of the two others proposes its block. *)
Lemma sample_proposer :
  let r := run false (sample_data true)
             [EvFire TimerRequest; EvMsg (MsgReady (mkReady {[1 := 5]} zero_hash 0 (base58_encode (signer_key [3])) "" 0)); EvTimeout]
             (Start false (sample_data true) 0 [2] (signer_key [2]) 3) in
  phase r = PBFT_PREPARE /\ pendingBlock r = Some (mkSampleBlock sample_message None) /\
  ClosestPoolState r = Some {[1 := 5]} /\ length (sent r) = 2%nat.
Proof. vm_compute. repeat split. Qed.
End Samples.
End Bft.
