(* ===== verification/Wallet.v ===== *)
(** The hierarchical wallet (src/wallet/hdwallet.go, utils.go): master and child keys, and
    the serialized forms of a key set.  HMAC-SHA512 is an interface. *)

From Stdlib Require Import Ascii String.
From S2P Require Import Prelude GoStr Hash Sha256 Base58 Modular EC Schnorr Keys.

#[local] Open Scope string_scope.
#[local] Open Scope list_scope.
#[local] Open Scope Z_scope.

(** [hmac.New(sha512.New, key)] and the sum of what is written to it. *)
Class Hmac : Type := {
  hmac_sha512 : bytes -> bytes -> bytes;
  hmac_length key data : length (hmac_sha512 key data) = 64%nat;
  hmac_range key data : Forall in_u8 (hmac_sha512 key data)
}.

Module Wallet.
Import Hashes EC Keys.

Definition PriKeyType : Z := 0.
Definition PaymentAddressType : Z := 1.
Definition ReadonlyKeyType : Z := 2.

Record KeyWallet := mkKeyWallet {
  Depth : Z;
  ChildNumber : bytes;
  ChainCode : bytes;
  Wallet_KeySet : KeySet
}.

(** [&KeyWallet{}]. *)
Definition empty_wallet : KeyWallet := mkKeyWallet 0 [] [] empty_keyset.

(** Big-endian. *)
Definition uint32Bytes (i : Z) : bytes := rev (le_bytes 4 i).

(** ** Key derivation *)

Section Derive.
Context {curve : Curve} {sha : Sha256} {hmac : Hmac}.

Definition NewMasterKey (fuel : nat) (seed : bytes) : option KeyWallet :=
  let intermediary := hmac_sha512 (bytes_of "Constant Seed") seed in
  keySet ← GenerateKey fuel (take 32 intermediary);
  Some (mkKeyWallet 0 [0; 0; 0; 0] (drop 32 intermediary) keySet).

Definition getIntermediary (key : KeyWallet) (childIdx : Z) : bytes :=
  hmac_sha512 (ChainCode key) (uint32Bytes childIdx).

Definition NewChildKey (fuel : nat) (key : KeyWallet) (childIdx : Z) : option KeyWallet :=
  let intermediary := getIntermediary key childIdx in
  newKeyset ← GenerateKey fuel (take 32 intermediary);
  Some (mkKeyWallet (u8 (Depth key + 1)) (uint32Bytes childIdx) (drop 32 intermediary) newKeyset).
End Derive.

(** ** Serialized keys *)

Section Serial.
Context {sha : Sha256}.

Definition addChecksumToBytes (data : bytes) : bytes := data ++ Base58.ChecksumFirst4Bytes data.

(** A length byte and the bytes. *)
Definition field (b : bytes) : bytes := u8 (Z.of_nat (length b)) :: b.

Definition serialized_fields (key : KeyWallet) (keyType : Z) : bytes :=
  let ks := Wallet_KeySet key in
  if keyType =? PriKeyType then (Depth key :: ChildNumber key) ++ ChainCode key ++ field (PrivateKey ks)
  else if keyType =? PaymentAddressType then field (Pk (KeySet_Address ks)) ++ field (Tk (KeySet_Address ks))
  else if keyType =? ReadonlyKeyType then field (view_Pk (ReadonlyKey ks)) ++ field (Rk (ReadonlyKey ks))
  else [].

Definition Serialize (key : KeyWallet) (keyType : Z) : bytes :=
  addChecksumToBytes (keyType :: serialized_fields key keyType).

Definition Base58CheckSerialize (key : KeyWallet) (keyType : Z) : string := base58_encode (Serialize key keyType).

(** Two fields, each behind its length byte. *)
Definition two_fields (data spare : bytes) : outcome (bytes * bytes) :=
  n ← byte_at data 1;
  let n := Z.to_nat n in
  m ← byte_at data (n + 2);
  let m := Z.to_nat m in
  b1 ← cut data spare 2 (2 + n);
  b2 ← cut data spare (3 + n) (3 + n + m);
  Ok (b1, b2).

Definition parse_fields (data spare : bytes) (keyType : Z) : outcome KeyWallet :=
  if keyType =? PriKeyType then
    depth ← byte_at data 1;
    childNumber ← cut data spare 2 6;
    chainCode ← cut data spare 6 38;
    keyLength ← byte_at data 38;
    privateKey ← cut data spare 39 (39 + Z.to_nat keyLength);
    Ok (mkKeyWallet depth childNumber chainCode (mkKeySet privateKey (mkPaymentAddress [] []) (mkViewingKey [] [])))
  else if keyType =? PaymentAddressType then
    '(pk, tk) ← two_fields data spare;
    Ok (mkKeyWallet 0 [] [] (mkKeySet [] (mkPaymentAddress pk tk) (mkViewingKey [] [])))
  else if keyType =? ReadonlyKeyType then
    '(pk, rk) ← two_fields data spare;
    Ok (mkKeyWallet 0 [] [] (mkKeySet [] (mkPaymentAddress [] []) (mkViewingKey pk rk)))
  else Ok empty_wallet.

(** The checksum is looked at when the fields have been read. *)
Definition Deserialize (data spare : bytes) : outcome KeyWallet :=
  keyType ← byte_at data 0;
  key ← parse_fields data spare keyType;
  if (length data <? 4)%nat then Panic
  else
    let n := (length data - 4)%nat in
    if bool_decide (Base58.ChecksumFirst4Bytes (take n data) = drop n data) then Ok key
    else Err "Checksum does not match".

Definition Base58CheckDeserialize (data : string) (spare : bytes) : outcome KeyWallet :=
  b ← base58_decode data; Deserialize b spare.
End Serial.

(** ** Round trips *)

Section Facts.
Context {sha : Sha256}.

(** What a serialized key keeps of a key. *)
Definition kept (key : KeyWallet) (keyType : Z) : KeyWallet :=
  let ks := Wallet_KeySet key in
  if keyType =? PriKeyType then
    mkKeyWallet (Depth key) (ChildNumber key) (ChainCode key)
      (mkKeySet (PrivateKey ks) (mkPaymentAddress [] []) (mkViewingKey [] []))
  else if keyType =? PaymentAddressType then
    mkKeyWallet 0 [] [] (mkKeySet [] (KeySet_Address ks) (mkViewingKey [] []))
  else if keyType =? ReadonlyKeyType then
    mkKeyWallet 0 [] [] (mkKeySet [] (mkPaymentAddress [] []) (ReadonlyKey ks))
  else empty_wallet.

Definition short (b : bytes) : Prop := Forall in_u8 b /\ (length b < 256)%nat.

Record wallet_ok (key : KeyWallet) : Prop := {
  ok_depth : in_u8 (Depth key);
  ok_child : length (ChildNumber key) = 4%nat /\ Forall in_u8 (ChildNumber key);
  ok_chain : length (ChainCode key) = 32%nat /\ Forall in_u8 (ChainCode key);
  ok_private : short (PrivateKey (Wallet_KeySet key));
  ok_pk : short (Pk (KeySet_Address (Wallet_KeySet key)));
  ok_tk : short (Tk (KeySet_Address (Wallet_KeySet key)));
  ok_view : short (view_Pk (ReadonlyKey (Wallet_KeySet key)));
  ok_rk : short (Rk (ReadonlyKey (Wallet_KeySet key)))
}.

Lemma short_length b : short b -> u8 (Z.of_nat (length b)) = Z.of_nat (length b).
Proof. intros [_ Hl]. apply u8_id. unfold in_u8. lia. Qed.

Lemma two_fields_back (t : Z) (b1 b2 tail spare : bytes) :
  short b1 -> short b2 -> two_fields ((t :: field b1 ++ field b2) ++ tail) spare = Ok (b1, b2).
Proof.
  intros H1%short_length H2%short_length. unfold two_fields, field. rewrite H1, H2. cbn [app].
  change (byte_at (t :: Z.of_nat (length b1) :: _) 1) with (Ok (Z.of_nat (length b1))). cbn [mbind outcome_bind].
  rewrite Nat2Z.id, <- app_assoc. cbn [app]. set (n1 := Z.of_nat (length b1)). set (n2 := Z.of_nat (length b2)).
  change (t :: n1 :: b1 ++ n2 :: b2 ++ tail) with ((t :: n1 :: b1) ++ n2 :: b2 ++ tail).
  rewrite byte_at_app by (cbn; lia). cbn [mbind outcome_bind]. replace (Z.to_nat n2) with (length b2) by (unfold n2; lia).
  change ((t :: n1 :: b1) ++ n2 :: b2 ++ tail) with ([t; n1] ++ b1 ++ n2 :: b2 ++ tail).
  rewrite (cut_app [t; n1] b1 _ _ 2) by (cbn; lia). cbn [mbind outcome_bind].
  change ([t; n1] ++ b1 ++ n2 :: b2 ++ tail) with ((t :: n1 :: b1) ++ [n2] ++ b2 ++ tail). rewrite app_assoc.
  by rewrite cut_app by (rewrite length_app; cbn; lia).
Qed.

Lemma parse_back key keyType tail spare :
  wallet_ok key -> parse_fields ((keyType :: serialized_fields key keyType) ++ tail) spare keyType = Ok (kept key keyType).
Proof.
  intros [Hd [Hc Hcr] [Hcc Hccr] Hp Hpk Htk Hv Hr]. unfold parse_fields, serialized_fields, kept.
  destruct (keyType =? PriKeyType); [|destruct (keyType =? PaymentAddressType); [|destruct (keyType =? ReadonlyKeyType); [|done]]].
  - unfold field. rewrite (short_length _ Hp). set (pk := PrivateKey _). set (cc := ChainCode key) in *. set (cn := ChildNumber key) in *.
    cbn [app]. rewrite <- !app_assoc. cbn [app].
    change (byte_at (keyType :: Depth key :: _) 1) with (Ok (Depth key)). cbn [mbind outcome_bind].
    set (n := Z.of_nat (length pk)). set (rest := n :: pk ++ tail).
    change (keyType :: Depth key :: cn ++ cc ++ rest) with ([keyType; Depth key] ++ cn ++ cc ++ rest).
    rewrite (cut_app [keyType; Depth key] cn _ _ 2 6) by (cbn; lia). cbn [mbind outcome_bind].
    change ([keyType; Depth key] ++ cn ++ cc ++ rest) with ((keyType :: Depth key :: cn) ++ cc ++ rest).
    rewrite (cut_app _ cc _ _ 6 38) by (cbn; lia). cbn [mbind outcome_bind]. rewrite app_assoc. unfold rest.
    rewrite byte_at_app by (rewrite length_app; cbn; lia). cbn [mbind outcome_bind].
    replace (Z.to_nat n) with (length pk) by (unfold n; lia).
    change (n :: pk ++ tail) with ([n] ++ pk ++ tail). rewrite (app_assoc _ [n]).
    by rewrite cut_app by (rewrite !length_app; cbn; lia).
  - rewrite two_fields_back by done. cbn. by destruct (KeySet_Address _).
  - rewrite two_fields_back by done. cbn. by destruct (ReadonlyKey _).
Qed.

Lemma checksum_length b : length (Base58.ChecksumFirst4Bytes b) = 4%nat.
Proof. unfold Base58.ChecksumFirst4Bytes, DoubleHashB. rewrite length_take, (proj1 (Sum256_ok _)). done. Qed.

Lemma serialize_range key keyType : wallet_ok key -> in_u8 keyType -> Forall in_u8 (Serialize key keyType).
Proof.
  intros [Hd [Hc Hcr] [Hcc Hccr] [Hp _] [Hpk _] [Htk _] [Hv _] [Hr _]] Ht. unfold Serialize, addChecksumToBytes.
  assert (forall b, Forall in_u8 b -> Forall in_u8 (field b)) as Hf by (intros b Hb; constructor; [apply u8_range|done]).
  apply Forall_app_2; [constructor; [done|]|apply Forall_take, Sum256_ok].
  unfold serialized_fields. destruct (_ =? PriKeyType); [|destruct (_ =? PaymentAddressType); [|destruct (_ =? ReadonlyKeyType); [|done]]];
    repeat apply Forall_app_2; auto.
Qed.

(** What is read back from the text of a key is the part of the key that its type names,
    whatever follows the bytes in memory; and no bytes are read without the checksum of what
    precedes their last four. *)
Theorem wallet_roundtrip (key : KeyWallet) (keyType : Z) (spare : bytes)
    (Hkey : wallet_ok key) (Htype : in_u8 keyType) :
  Base58CheckDeserialize (Base58CheckSerialize key keyType) spare = Ok (kept key keyType) /\
  forall data key', Deserialize data spare = Ok key' ->
    (4 <= length data)%nat /\ data = addChecksumToBytes (take (length data - 4) data).
Proof.
  split.
  - unfold Base58CheckDeserialize, Base58CheckSerialize. rewrite base58_roundtrip by by apply serialize_range.
    cbn [mbind outcome_bind]. unfold Deserialize, Serialize, addChecksumToBytes.
    set (body := keyType :: serialized_fields key keyType).
    change (byte_at (body ++ _) 0) with (Ok keyType). cbn [mbind outcome_bind].
    pose proof (parse_back key keyType (Base58.ChecksumFirst4Bytes body) spare Hkey) as Hp. fold body in Hp. rewrite Hp. cbn [mbind outcome_bind]. rewrite length_app, checksum_length.
    replace (_ <? 4)%nat with false by (symmetry; apply Nat.ltb_ge; lia). rewrite Nat.add_sub.
    by rewrite take_app_length, drop_app_length, bool_decide_true.
  - intros data key'. unfold Deserialize. destruct (byte_at data 0) as [t| |]; [|done..]. cbn [mbind outcome_bind].
    destruct (parse_fields data spare t); [|done..]. cbn [mbind outcome_bind].
    destruct (length data <? 4)%nat eqn:El; [done|]. apply Nat.ltb_ge in El. split; [done|]. revert H.
    case_bool_decide as E; [|done]. intros _. unfold addChecksumToBytes. rewrite E. by rewrite take_drop.
Qed.
End Facts.

(** ** Derived wallets *)

Section Derived.
Context {curve : Curve} {sha : Sha256} {hmac : Hmac}.

Lemma compress_short p : valid p -> short (Compress p).
Proof.
  intros [-> | Hp]; [rewrite Compress_infinity; split; [constructor|cbn; lia]|].
  destruct (compress_bytes p Hp) as [Hl Hr]. split; [done|lia].
Qed.

Lemma public_short key : Forall in_u8 key -> short (GeneratePublicKey key).
Proof. intros Hk. apply compress_short, ScalarMult_valid; [apply base_on|by apply SetBytes_nonneg]. Qed.

Lemma generated_ok fuel seed ks :
  GenerateKey fuel seed = Some ks ->
  short (PrivateKey ks) /\ short (Pk (KeySet_Address ks)) /\ short (Tk (KeySet_Address ks)) /\
  short (view_Pk (ReadonlyKey ks)) /\ short (Rk (ReadonlyKey ks)).
Proof.
  unfold GenerateKey. destruct (GenerateSpendingKey fuel seed) as [key|] eqn:Ek; [|done].
  apply reduce_key_ok in Ek as [[Hl Hr] _]; [|apply Sum256_ok]. cbn [mbind option_bind].
  unfold ImportFromPrivateKey, GeneratePaymentAddress, GenerateViewingKey.
  destruct (GenerateReceivingKey fuel key) as [rk|] eqn:Er; [|done].
  apply reduce_key_ok in Er as [[Hrl Hrr] _]; [|apply Sum256_ok]. intros [= <-]. cbn.
  assert (forall b, length b = HashSize -> Forall in_u8 b -> short b) as Hshort
    by (intros b E Hb; split; [done|rewrite E; unfold HashSize; lia]).
  split; [auto|]. split; [by apply public_short|]. split; [by apply public_short|]. split; [by apply public_short|auto].
Qed.

(** The wallets that come from a seed. *)
Inductive derived : KeyWallet -> Prop :=
  | derived_master fuel seed w : NewMasterKey fuel seed = Some w -> derived w
  | derived_child fuel w i w' : derived w -> NewChildKey fuel w i = Some w' -> derived w'.

Lemma keyset_wallet_ok fuel seed depth child chain ks :
  GenerateKey fuel seed = Some ks -> in_u8 depth -> length child = 4%nat -> Forall in_u8 child ->
  length chain = 32%nat -> Forall in_u8 chain -> wallet_ok (mkKeyWallet depth child chain ks).
Proof. intros (H1 & H2 & H3 & H4 & H5)%generated_ok ? ? ? ? ?. by constructor. Qed.

(** Every wallet that is derived from a seed, through any number of children, has the
    lengths that its serialized form relies on. *)
Theorem derived_wallet_ok (w : KeyWallet) (Hw : derived w) : wallet_ok w.
Proof.
  assert (forall k d, length (drop 32 (hmac_sha512 k d)) = 32%nat /\ Forall in_u8 (drop 32 (hmac_sha512 k d))) as Hd
    by (intros k d; split; [by rewrite length_drop, hmac_length|apply Forall_drop, hmac_range]).
  destruct Hw as [fuel seed w Hw|fuel w i w' _ Hw].
  - unfold NewMasterKey in Hw. destruct (GenerateKey fuel _) as [ks|] eqn:E; [|done]. injection Hw as <-.
    apply (keyset_wallet_ok _ _ _ _ _ _ E); try apply Hd; by repeat constructor.
  - unfold NewChildKey in Hw. destruct (GenerateKey fuel _) as [ks|] eqn:E; [|done]. injection Hw as <-.
    apply (keyset_wallet_ok _ _ _ _ _ _ E); try apply Hd; unfold uint32Bytes.
    + apply u8_range.
    + by rewrite length_rev, le_bytes_length.
    + apply Forall_rev, le_bytes_range.
Qed.

(** A child is derived from the chain code alone: not from the key of its parent. *)
Lemma child_ignores_keys fuel key ks i :
  NewChildKey fuel (mkKeyWallet (Depth key) (ChildNumber key) (ChainCode key) ks) i = NewChildKey fuel key i.
Proof. done. Qed.
End Derived.

(** ** Concrete inputs *)

Section Samples.
Import SmallCurve.

#[local] Existing Instance small_hash.

Definition sample_wallet : KeyWallet :=
  mkKeyWallet 3 [0; 0; 0; 7] (replicate 32 5) sample_keys.

Lemma sample_wallet_ok : wallet_ok sample_wallet.
Proof.
  split; repeat split;
    lazymatch goal with
    | |- Forall _ ?l => let l' := eval vm_compute in l in change l with l'; by_range
    | _ => vm_compute; first [reflexivity | congruence | lia]
    end.
Qed.

Lemma wallet_roundtrip_witness :
  Base58CheckDeserialize (Base58CheckSerialize sample_wallet PaymentAddressType) [0; 0] =
    Ok (kept sample_wallet PaymentAddressType) /\
  forall data key', Deserialize data [0; 0] = Ok key' ->
    (4 <= length data)%nat /\ data = addChecksumToBytes (take (length data - 4) data).
Proof. apply wallet_roundtrip; [apply sample_wallet_ok|by_compute]. Defined.

(** A code that repeats the length of its input. *)
#[local] Instance toy_hmac : Hmac.
Proof.
  refine {| hmac_sha512 := fun key data => replicate 64 (u8 (Z.of_nat (length (key ++ data)))) |}.
  - intros. apply length_replicate.
  - intros. apply Forall_replicate, u8_range.
Defined.

Lemma derived_wallet_ok_witness :
  exists w w', NewMasterKey 3 [1; 2] = Some w /\ NewChildKey 3 w 9 = Some w' /\ wallet_ok w'.
Proof.
  eexists _, _. split; [vm_compute; reflexivity|]. split; [vm_compute; reflexivity|].
  apply derived_wallet_ok. eapply derived_child; [eapply (derived_master 3 [1; 2]); vm_compute; reflexivity|].
  instantiate (2 := 3%nat). instantiate (1 := 9). vm_compute. reflexivity.
Defined.
End Samples.
End Wallet.
