(* ===== verification/ShardTx.v ===== *)
(** What a shard block sends to other shards (src/blockchain/shardutils.go,
    src/blockchain/shardblock.go, src/transaction/txcustomtokendata.go): the grouping of
    output coins and token outputs by receiving shard, the Merkle root over the groups,
    the Merkle path of one group, and the block made for one receiver. *)

From Stdlib Require Import Ascii String.
From S2P Require Import Prelude GoStr Hash Sha256 Base58 Merkle Keys.

#[local] Open Scope string_scope.
#[local] Open Scope list_scope.
#[local] Open Scope Z_scope.

(** An output coin, as far as shards look into it: the last byte of the receiver's
    public key, and its serialization; with the type of the input coins, that of the rest of
    a payment proof, and that of the fields of a transaction that are not looked at here. *)
Class OutputCoinOps (C : Type) : Type := {
  GetPubKeyLastByte : C -> Z;
  coin_bytes : C -> bytes;
  InCoin : Type;
  ProofRest : Type;
  TxRest : Type
}.
#[export] Hint Mode OutputCoinOps ! : typeclass_instances.

Module ShardTx.
Import Hashes Merkle Keys.

(** ** Transactions *)

Record TxTokenVin := mkVin {
  TxCustomTokenID : Hash;
  VoutIndex : Z;
  Signature : string;
  VinAddress : PaymentAddress
}.

Record TxTokenVout := mkVout {
  Value : Z;
  VoutAddress : PaymentAddress
}.

(** [Vouts] is [None] for a nil slice. *)
Record TxTokenData := mkTokenData {
  PropertyID : Hash;
  PropertyName : string;
  PropertySymbol : string;
  TokenType : Z;
  Mintable : bool;
  Amount : Z;
  Vins : list TxTokenVin;
  Vouts : option (list TxTokenVout)
}.

Definition TxNormalType : string := "n".
Definition TxSalaryType : string := "s".
Definition TxCustomTokenType : string := "t".
Definition TxCustomTokenPrivacyType : string := "tp".
Definition CustomTokenCrossShard : Z := 2.

Section TokenHash.
Context {sha : Sha256}.

Definition Vin_String (vin : TxTokenVin) : string :=
  Hashes.String (TxCustomTokenID vin) +:+ Itoa (VoutIndex vin) +:+ Signature vin +:+
  base58_encode (Pk (VinAddress vin)).

Definition Vout_String (vout : TxTokenVout) : string :=
  Itoa (Value vout) +:+ base58_encode (Pk (VoutAddress vout)).

Definition TokenData_String (d : TxTokenData) : string :=
  let record := PropertyName d +:+ PropertySymbol d +:+ Itoa (Amount d) in
  let record := foldl (fun r vin => r +:+ Vin_String vin) record (Vins d) in
  foldl (fun r vout => r +:+ Vout_String vout) record (default [] (Vouts d)).

Definition TokenData_Hash (d : TxTokenData) : outcome Hash :=
  match Vouts d with
  | None => Err "Vout is empty"
  | Some _ => Ok (HashH (bytes_of (TokenData_String d)))
  end.
End TokenHash.

Definition cloneTxTokenDataForCrossShard (d : TxTokenData) : TxTokenData :=
  mkTokenData (PropertyID d) (PropertyName d) (PropertySymbol d) CustomTokenCrossShard
    (Mintable d) (Amount d) [] (Some []).

Section ShardTx.
Context {C : Type} `{!OutputCoinOps C} {sha : Sha256}.

(** [transaction.Tx] with its proof, which may be nil. *)
Record PaymentProof := mkProof { proof_InputCoins : list (@InCoin C _); proof_OutputCoins : list C; proof_rest : @ProofRest C _ }.
Record Tx := mkTx { Type_ : string; Proof : option PaymentProof; tx_rest : @TxRest C _ }.

(** The data of a privacy token: a transaction of its own. *)
Record TxTokenPrivacyData := mkTokenPrivacy {
  TxNormal : Tx;
  privacy_PropertyID : Hash;
  privacy_PropertyName : string;
  privacy_PropertySymbol : string;
  privacy_Type : Z;
  privacy_Mintable : bool;
  privacy_Amount : Z
}.

(** The dynamic type behind the interface. *)
Inductive Transaction : Type :=
  | NormalTx (t : Tx)
  | CustomTokenTx (t : Tx) (data : TxTokenData)
  | CustomTokenPrivacyTx (t : Tx) (data : TxTokenPrivacyData).

Definition base_tx (tx : Transaction) : Tx :=
  match tx with NormalTx t => t | CustomTokenTx t _ => t | CustomTokenPrivacyTx t _ => t end.

Definition GetType (tx : Transaction) : string := Type_ (base_tx tx).
Definition GetProof (tx : Transaction) : option PaymentProof := Proof (base_tx tx).

(** The output coins of a proof that is not nil. *)
Definition outputs (t : Tx) : option (list C) := proof_OutputCoins <$> Proof t.
Definition tx_outputs (tx : Transaction) : option (list C) := outputs (base_tx tx).

(** The type assertions [tx.( *transaction.TxCustomToken)] and its privacy variant. *)
Definition as_custom_token (tx : Transaction) : outcome TxTokenData :=
  match tx with CustomTokenTx _ data => Ok data | _ => Panic end.
Definition as_custom_token_privacy (tx : Transaction) : outcome TxTokenPrivacyData :=
  match tx with CustomTokenPrivacyTx _ data => Ok data | _ => Panic end.

(** ** The tree over the groups, and the path of one group *)

(** [HashH(append(a.GetBytes(), b.GetBytes()...))]. *)
Definition hash_pair (a b : Hash) : Hash := HashH (a ++ b).

(** The loop of [CreateShardTxRoot]: [merkleData[cursor]] and its neighbour are hashed
    to the end of the list. *)
Fixpoint tx_root_loop (fuel cursor : nat) (merkleData : list Hash) : outcome (list Hash) :=
  match fuel with
  | O => Panic
  | S n =>
      match merkleData !! cursor, merkleData !! S cursor with
      | Some v1, Some v2 =>
          let merkleData := merkleData ++ [hash_pair v1 v2] in
          let cursor := (cursor + 2)%nat in
          if (length merkleData - 1 <=? cursor)%nat then Ok merkleData
          else tx_root_loop n cursor merkleData
      | _, _ => Panic
      end
  end.

Definition merkle_data (crossShardDataHash : list Hash) : outcome (list Hash) :=
  tx_root_loop (length crossShardDataHash) 0 crossShardDataHash.

(** The loop of [GetMerklePathCrossShard]; [n] is the number of groups. *)
Fixpoint path_loop (fuel cursor lastCursor i time n : nat) (merkleData path : list Hash) :
    outcome (list Hash) :=
  match fuel with
  | O => Panic
  | S fuel' =>
      if (length merkleData - 2 <=? cursor)%nat then Ok path
      else
        match merkleData !! (if Nat.even i then cursor + i + 1 else cursor + i - 1)%nat with
        | None => Panic
        | Some sibling =>
            let path := path ++ [sibling] in
            let i := (i / 2)%nat in
            if (time =? 0)%nat then path_loop fuel' (cursor + n) lastCursor i 1 n merkleData path
            else path_loop fuel' (cursor + (cursor - lastCursor) / 2)%nat cursor i (time + 1) n
                   merkleData path
        end
  end.

Definition merkle_path (merkleData : list Hash) (n sid : nat) : outcome (list Hash) :=
  path_loop (length merkleData) 0 0 sid 0 n merkleData [].

Fixpoint fold_path (i : nat) (finalHash : Hash) (merklePath : list Hash) : Hash :=
  match merklePath with
  | [] => finalHash
  | hashPath :: rest =>
      fold_path (i / 2) (if Nat.even i then hash_pair finalHash hashPath
                         else hash_pair hashPath finalHash) rest
  end.

Definition VerifyMerkleTree (finalHash : Hash) (merklePath : list Hash) (merkleRoot : Hash)
    (receiverShardID : Z) : bool :=
  bool_decide (Hashes.String (fold_path (Z.to_nat receiverShardID) finalHash merklePath)
               = Hashes.String merkleRoot).

(** ** Grouping by receiving shard *)

Definition shards : list nat := seq 0 (Z.to_nat MAX_SHARD_NUMBER).

(** One slice and one token map per shard. *)
Record Groups := mkGroups {
  outCoinEachShard : list (list C);
  txTokenDataEachShard : list (gmap Hash TxTokenData)
}.

Definition noGroups : Groups :=
  mkGroups (replicate (Z.to_nat MAX_SHARD_NUMBER) []) (replicate (Z.to_nat MAX_SHARD_NUMBER) ∅).

Definition shard_of_coin (c : C) : nat := Z.to_nat (GetShardIDFromLastByte (GetPubKeyLastByte c)).

(** The last byte of the receiver's key; an empty key panics. *)
Definition vout_last_byte (vout : TxTokenVout) : outcome Z :=
  match last (Pk (VoutAddress vout)) with
  | None => Panic
  | Some b => Ok b
  end.

Definition add_coins (coins : list C) (g : Groups) : Groups :=
  mkGroups (foldl (fun each c => alter (fun l => l ++ [c]) (shard_of_coin c) each)
              (outCoinEachShard g) coins)
    (txTokenDataEachShard g).

(** The entry of the token in a shard's map, created on its first output, gets one more
    output. *)
Definition add_vout (d : TxTokenData) (vout : TxTokenVout) (m : gmap Hash TxTokenData) :
    gmap Hash TxTokenData :=
  let entry := default (cloneTxTokenDataForCrossShard d) (m !! PropertyID d) in
  <[PropertyID d := mkTokenData (PropertyID entry) (PropertyName entry) (PropertySymbol entry)
      (TokenType entry) (Mintable entry) (Amount entry) (Vins entry)
      (Some (default [] (Vouts entry) ++ [vout]))]> m.

Fixpoint add_vouts (d : TxTokenData) (vouts : list TxTokenVout) (g : Groups) : outcome Groups :=
  match vouts with
  | [] => Ok g
  | vout :: rest =>
      lastByte ← vout_last_byte vout;
      add_vouts d rest
        (mkGroups (outCoinEachShard g)
           (alter (add_vout d vout) (Z.to_nat (GetShardIDFromLastByte lastByte))
              (txTokenDataEachShard g)))
  end.

Definition group_tx (tx : Transaction) (g : Groups) : outcome Groups :=
  let typ := GetType tx in
  if bool_decide (typ = TxNormalType \/ typ = TxSalaryType) then
    Ok (match tx_outputs tx with None => g | Some coins => add_coins coins g end)
  else if bool_decide (typ = TxCustomTokenType) then
    data ← as_custom_token tx;
    let g := match tx_outputs tx with None => g | Some coins => add_coins coins g end in
    add_vouts data (default [] (Vouts data)) g
  else Ok g.

Fixpoint group_txs (txList : list Transaction) (g : Groups) : outcome Groups :=
  match txList with
  | [] => Ok g
  | tx :: rest => g' ← group_tx tx g; group_txs rest g'
  end.

Definition calHashOutCoinCrossShard (outCoins : list C) : Hash :=
  match outCoins with
  | [] => HashH (bytes_of "")
  | _ => HashH (concat (map coin_bytes outCoins))
  end.

(** [sort.SliceStable] on the textual form of the token's identifier. *)
Fixpoint insert_token (d : TxTokenData) (l : list TxTokenData) : list TxTokenData :=
  match l with
  | [] => [d]
  | d' :: rest =>
      match String.compare (Hashes.String (PropertyID d)) (Hashes.String (PropertyID d')) with
      | Lt => d :: l
      | _ => d' :: insert_token d rest
      end
  end.

Definition sort_tokens (l : list TxTokenData) : list TxTokenData :=
  foldl (fun acc d => insert_token d acc) [] l.

(** A token without outputs list makes the call dereference a nil hash. *)
Fixpoint token_hash_bytes (l : list TxTokenData) : outcome bytes :=
  match l with
  | [] => Ok []
  | d :: rest =>
      match TokenData_Hash d with
      | Ok h => b ← token_hash_bytes rest; Ok (h ++ b)
      | _ => Panic
      end
  end.

Definition calHashTxTokenDataHashList (l : list TxTokenData) : outcome Hash :=
  b ← token_hash_bytes l; Ok (HashH b).

(** The iteration order of the Go map is any; here the one of [map_to_list]. *)
Definition calHashTxTokenDataHashFromMap (m : gmap Hash TxTokenData) : outcome Hash :=
  if bool_decide (m = ∅) then Ok (HashH (bytes_of ""))
  else calHashTxTokenDataHashList (sort_tokens (map_to_list m).*2).

Definition group_hash (outCoins : list C) (tokens : gmap Hash TxTokenData) : outcome Hash :=
  tokenHash ← calHashTxTokenDataHashFromMap tokens;
  Ok (hash_pair (calHashOutCoinCrossShard outCoins) tokenHash).

Fixpoint group_hashes (outCoins : list (list C)) (tokens : list (gmap Hash TxTokenData)) :
    outcome (list Hash) :=
  match outCoins, tokens with
  | coins :: outCoins', tok :: tokens' =>
      h ← group_hash coins tok; hs ← group_hashes outCoins' tokens'; Ok (h :: hs)
  | _, _ => Ok []
  end.

Definition getCrossShardDataHash (txList : list Transaction) : outcome (list Hash) :=
  g ← group_txs txList noGroups;
  group_hashes (outCoinEachShard g) (txTokenDataEachShard g).

Definition CreateShardTxRoot (txList : list Transaction) : outcome (list Hash * list Hash) :=
  crossShardDataHash ← getCrossShardDataHash txList;
  merkleData ← merkle_data crossShardDataHash;
  Ok (crossShardDataHash, merkleData).

Definition GetMerklePathCrossShard (txList : list Transaction) (shardID : Z) :
    outcome (list Hash * Hash) :=
  '(crossShardDataHash, merkleData) ← CreateShardTxRoot txList;
  merklePathShard ← merkle_path merkleData (length crossShardDataHash) (Z.to_nat shardID);
  match last merkleData with
  | None => Panic
  | Some merkleShardRoot => Ok (merklePathShard, merkleShardRoot)
  end.

(** ** The block for one receiver *)

Definition getOutCoinCrossShard (txList : list Transaction) (shardID : Z) : list C :=
  concat (map (fun tx => filter (fun c => GetPubKeyLastByte c = shardID)
                           (default [] (tx_outputs tx))) txList).

Fixpoint collect_vouts (d : TxTokenData) (shardID : Z) (vouts : list TxTokenVout)
    (m : gmap Hash TxTokenData) : outcome (gmap Hash TxTokenData) :=
  match vouts with
  | [] => Ok m
  | vout :: rest =>
      lastByte ← vout_last_byte vout;
      collect_vouts d shardID rest
        (if GetShardIDFromLastByte lastByte =? shardID then add_vout d vout m else m)
  end.

Fixpoint collect_tokens (txList : list Transaction) (shardID : Z) (m : gmap Hash TxTokenData) :
    outcome (gmap Hash TxTokenData) :=
  match txList with
  | [] => Ok m
  | tx :: rest =>
      if bool_decide (GetType tx = TxCustomTokenType) then
        data ← as_custom_token tx;
        m' ← collect_vouts data shardID (default [] (Vouts data)) m;
        collect_tokens rest shardID m'
      else collect_tokens rest shardID m
  end.

Definition getTxTokenDataCrossShard (txList : list Transaction) (shardID : Z) :
    outcome (list TxTokenData) :=
  m ← collect_tokens txList shardID ∅;
  Ok (sort_tokens (map_to_list m).*2).

Record CrossShardBlock := mkCrossShardBlock {
  ShardTxRoot : Hash;             (* of the header, which is copied *)
  ToShardID : Z;
  MerklePathShard : list Hash;
  CrossOutputCoin : list C;
  CrossTxTokenData : list TxTokenData
}.

Definition CreateCrossShardBlock (transactions : list Transaction) (shardTxRoot : Hash)
    (shardID : Z) : outcome CrossShardBlock :=
  let crossOutputCoin := getOutCoinCrossShard transactions shardID in
  crossTxTokenData ← getTxTokenDataCrossShard transactions shardID;
  match crossOutputCoin, crossTxTokenData with
  | [], [] => Err "Oops"
  | _, _ =>
      '(merklePathShard, merkleShardRoot) ← GetMerklePathCrossShard transactions shardID;
      if bool_decide (merkleShardRoot = shardTxRoot) then
        Ok (mkCrossShardBlock shardTxRoot shardID merklePathShard crossOutputCoin crossTxTokenData)
      else Err "MerkleRootShard mismatch"
  end.

(** The blocks for all the other shards; those that fail are left out. *)
Fixpoint create_all_loop (transactions : list Transaction) (shardTxRoot : Hash) (from : Z)
    (ids : list Z) : outcome (gmap Z CrossShardBlock) :=
  match ids with
  | [] => Ok ∅
  | i :: rest =>
      if i =? from then create_all_loop transactions shardTxRoot from rest
      else
        match CreateCrossShardBlock transactions shardTxRoot i with
        | Ok crossShard =>
            all ← create_all_loop transactions shardTxRoot from rest; Ok (<[i := crossShard]> all)
        | Err _ => create_all_loop transactions shardTxRoot from rest
        | Panic => Panic
        end
  end.

Definition CreateAllCrossShardBlock (transactions : list Transaction) (shardTxRoot : Hash)
    (from : Z) (activeShards : nat) : outcome (gmap Z CrossShardBlock) :=
  if (activeShards =? 1)%nat then Ok ∅
  else create_all_loop transactions shardTxRoot from (seqZ 0 (Z.of_nat activeShards)).

Definition VerifyCrossShardBlockUTXO (block : CrossShardBlock) (merklePathShard : list Hash) :
    outcome bool :=
  txTokenDataHash ← calHashTxTokenDataHashList (CrossTxTokenData block);
  let finalHash := hash_pair (calHashOutCoinCrossShard (CrossOutputCoin block)) txTokenDataHash in
  Ok (VerifyMerkleTree finalHash merklePathShard (ShardTxRoot block) (ToShardID block)).

(** The shards flagged in the header of the block.  For a custom-token transaction only
    the token outputs are looked at. *)
Definition mark_coins (coins : list C) (byteMap : list bool) : list bool :=
  foldl (fun m c => <[Z.to_nat (GetShardIDFromLastByte
                        (GetShardIDFromLastByte (GetPubKeyLastByte c))) := true]> m) byteMap coins.

Fixpoint mark_vouts (vouts : list TxTokenVout) (byteMap : list bool) : outcome (list bool) :=
  match vouts with
  | [] => Ok byteMap
  | vout :: rest =>
      lastByte ← vout_last_byte vout;
      mark_vouts rest
        (<[Z.to_nat (GetShardIDFromLastByte (GetShardIDFromLastByte lastByte)) := true]> byteMap)
  end.

Definition mark_tx (tx : Transaction) (byteMap : list bool) : outcome (list bool) :=
  let typ := GetType tx in
  if bool_decide (typ = TxNormalType \/ typ = TxSalaryType) then
    Ok (mark_coins (default [] (tx_outputs tx)) byteMap)
  else if bool_decide (typ = TxCustomTokenType) then
    data ← as_custom_token tx; mark_vouts (default [] (Vouts data)) byteMap
  else if bool_decide (typ = TxCustomTokenPrivacyType) then
    data ← as_custom_token_privacy tx; Ok (mark_coins (default [] (outputs (TxNormal data))) byteMap)
  else Ok byteMap.

Fixpoint mark_txs (txList : list Transaction) (byteMap : list bool) : outcome (list bool) :=
  match txList with
  | [] => Ok byteMap
  | tx :: rest => m ← mark_tx tx byteMap; mark_txs rest m
  end.

(** The loop over the byte map, skipping the sender. *)
Definition flag_bytes (byteMap : list bool) (from : Z) : bytes :=
  omap (fun '(k, flag) => if (flag : bool) && negb (k =? from) then Some k else None)
    (zip (seqZ 0 MAX_SHARD_NUMBER) byteMap).

Definition CreateCrossShardByteArray (txList : list Transaction) (fromShardID : Z) :
    outcome bytes :=
  byteMap ← mark_txs txList (replicate (Z.to_nat MAX_SHARD_NUMBER) false);
  Ok (flag_bytes byteMap fromShardID).

(** ** Cross-shard coins received *)

Record CrossOutputCoinRec := mkCrossOutputCoin {
  CoinBlockHeight : Z;
  CoinBlockHash : Hash;
  OutputCoins : list C
}.

Definition CrossOutputCoin_Hash (c : CrossOutputCoinRec) : Hash :=
  DoubleHashH (CoinBlockHash c ++ concat (map coin_bytes (OutputCoins c))).

Definition CreateMerkleCrossOutputCoin (crossOutputCoins : gmap Z (list CrossOutputCoinRec)) :
    option Hash :=
  if bool_decide (crossOutputCoins = ∅) then Some zero_hash
  else
    let hashes := map (fun value => Some (CrossOutputCoin_Hash value))
                    (concat (sorted_values crossOutputCoins)) in
    List.last (BuildMerkleTreeOfHashs hashes) None.

Definition VerifyMerkleCrossOutputCoin (crossOutputCoins : gmap Z (list CrossOutputCoinRec))
    (rootHash : Hash) : bool :=
  IsEqual (Some rootHash) (CreateMerkleCrossOutputCoin crossOutputCoins).

(** ** The tree and its paths *)

Lemma tx_root_loop_queue fuel pre q :
  (2 <= length q)%nat -> (length q <= S fuel)%nat ->
  tx_root_loop fuel (length pre) (pre ++ q) = Ok (pre ++ queue_run hash_pair (length q - 1) q).
Proof.
  revert pre q. induction fuel as [|n IH]; intros pre q H2 Hf; [lia|].
  destruct q as [|a [|b q]]; simpl in H2; try lia. cbn [tx_root_loop].
  rewrite lookup_app_r, Nat.sub_diag by lia. rewrite lookup_app_r, Nat.sub_succ_l, Nat.sub_diag by lia.
  simpl lookup. cbv iota beta.
  assert ((pre ++ a :: b :: q) ++ [hash_pair a b]
          = (pre ++ [a; b]) ++ (q ++ [hash_pair a b])) as -> by by rewrite <- !app_assoc.
  replace (length pre + 2)%nat with (length (pre ++ [a; b])) by (rewrite length_app; done).
  replace (length (a :: b :: q) - 1)%nat with (S (length q)) by (simpl; lia).
  cbn [queue_run]. destruct q as [|c q].
  - simpl app. rewrite !length_app. simpl length.
    destruct (_ <=? _)%nat eqn:Hb; [|apply Nat.leb_gt in Hb; lia].
    simpl. by rewrite <- app_assoc.
  - destruct (_ <=? _)%nat eqn:Hb; [apply Nat.leb_le in Hb; rewrite !length_app in Hb; simpl in Hb; lia|].
    rewrite IH; [|rewrite length_app; simpl; lia|rewrite length_app; simpl in *; lia].
    rewrite <- app_assoc.
    replace (length ((c :: q) ++ [hash_pair a b]) - 1)%nat with (length (c :: q))
      by (rewrite length_app; simpl; lia).
    done.
Qed.

Lemma merkle_data_levels k leaves :
  length leaves = (2 ^ S k)%nat -> merkle_data leaves = Ok (levels hash_pair (S k) leaves).
Proof.
  intros Hlen. unfold merkle_data.
  pose proof (Nat.pow_nonzero 2 k). rewrite Nat.pow_succ_r' in Hlen.
  pose proof (tx_root_loop_queue (length leaves) [] leaves) as Hq. simpl in Hq. rewrite Hq by lia.
  rewrite <- Nat.pow_succ_r' in Hlen. by rewrite Hlen, queue_run_levels.
Qed.

(** The siblings on the way from leaf [i] to the root. *)
Fixpoint siblings (k i : nat) (l : list Hash) : list Hash :=
  match k with
  | O => []
  | S k' => nth (if Nat.even i then i + 1 else i - 1)%nat l [] ::
            siblings k' (i / 2) (parents hash_pair l)
  end.

Lemma path_loop_siblings k fuel pre l i lastCursor time n path :
  length l = (2 ^ k)%nat -> (i < 2 ^ k)%nat -> (k < fuel)%nat ->
  (time = 0%nat /\ n = 2 ^ k /\ lastCursor = length pre \/
   time <> 0%nat /\ length pre = lastCursor + 2 * 2 ^ k)%nat ->
  path_loop fuel (length pre) lastCursor i time n (pre ++ levels hash_pair k l) path
  = Ok (path ++ siblings k i l).
Proof.
  revert fuel pre l i lastCursor time path.
  induction k as [|k IH]; intros fuel pre l i lastCursor time path Hlen Hi Hf Ht;
    (destruct fuel as [|fuel]; [lia|]); cbn [path_loop];
    rewrite length_app, levels_length by done.
  - destruct (_ <=? _)%nat eqn:Hb; [by rewrite app_nil_r|apply Nat.leb_gt in Hb; simpl in Hb; lia].
  - pose proof (Nat.pow_nonzero 2 k). rewrite Nat.pow_succ_r' in *.
    destruct (_ <=? _)%nat eqn:Hb; [apply Nat.leb_le in Hb; lia|].
    set (j := (if Nat.even i then i + 1 else i - 1)%nat).
    assert (j < length l)%nat as Hj.
    { unfold j. destruct (Nat.even i) eqn:He; [|lia].
      apply Nat.even_spec in He as [x ->]. lia. }
    assert ((if Nat.even i then length pre + i + 1 else length pre + i - 1)%nat
            = (length pre + j)%nat) as ->.
    { unfold j. destruct (Nat.even i) eqn:He; [lia|].
      destruct i; [done|lia]. }
    rewrite lookup_app_r, Nat.add_comm, Nat.add_sub by lia.
    cbn [levels siblings]. fold j. rewrite lookup_app_l by done.
    assert (l !! j = Some (nth j l [])) as -> by (destruct (nth_lookup_or_length l j []) as [?|?]; [done|lia]).
    assert (length (parents hash_pair l) = (2 ^ k)%nat) as Hp by by apply parents_length.
    assert (i / 2 < 2 ^ k)%nat as Hi' by (apply Nat.Div0.div_lt_upper_bound; lia).
    rewrite app_assoc.
    assert (forall p : list Hash, Ok ((p ++ [nth j l []]) ++ siblings k (i / 2) (parents hash_pair l))
            = Ok (p ++ nth j l [] :: siblings k (i / 2) (parents hash_pair l))) as Happ
      by (intros; by rewrite <- app_assoc).
    rewrite <- Happ. destruct Ht as [(-> & -> & ->)|[Ht Hpre]].
    + simpl Nat.eqb. cbv iota. replace (length pre + 2 * 2 ^ k)%nat with (length (pre ++ l))
        by (rewrite length_app; lia).
      apply IH; [done|done|lia|]. right. rewrite length_app. lia.
    + destruct (time =? 0)%nat eqn:Ht0; [by apply Nat.eqb_eq in Ht0|].
      replace (length pre + (length pre - lastCursor) / 2)%nat with (length (pre ++ l)).
      2: { rewrite length_app, Hlen, Hpre. f_equal.
           replace (lastCursor + 2 * (2 * 2 ^ k) - lastCursor)%nat with (2 * 2 ^ k * 2)%nat by lia.
           by rewrite Nat.div_mul. }
      apply IH; [done|done|lia|]. right. rewrite length_app. lia.
Qed.

Lemma last_List_last (l : list Hash) d : l <> [] -> last l = Some (List.last l d).
Proof.
  induction l as [|x l _] using rev_ind; [done|]. intros _. by rewrite last_snoc, List.last_last.
Qed.

Lemma pow2_lt_levels k : (S k < 2 * 2 ^ S k - 1)%nat.
Proof. induction k as [|k IH]; [simpl; lia|]. rewrite Nat.pow_succ_r'. lia. Qed.

Lemma merkle_path_siblings k leaves sid :
  length leaves = (2 ^ S k)%nat -> (sid < 2 ^ S k)%nat ->
  merkle_path (levels hash_pair (S k) leaves) (length leaves) sid = Ok (siblings (S k) sid leaves).
Proof.
  intros Hlen Hsid. unfold merkle_path.
  pose proof (path_loop_siblings (S k) (length (levels hash_pair (S k) leaves)) [] leaves sid 0 0
    (length leaves) [] Hlen Hsid) as H. simpl app in H. apply H.
  - rewrite levels_length by done. apply pow2_lt_levels.
  - by left.
Qed.

Lemma parents_nth i (l : list Hash) n :
  length l = (2 * n)%nat -> (i < n)%nat ->
  nth i (parents hash_pair l) [] = hash_pair (nth (2 * i) l []) (nth (2 * i + 1) l []).
Proof.
  revert i l. induction n as [|n IH]; intros i [|a [|b l]] Hl Hi; simpl in Hl; try lia.
  destruct i as [|i]; [done|]. cbn [parents]. rewrite (Nat.add_comm _ 1), Nat.mul_succ_r.
  replace (2 * i + 2)%nat with (S (S (2 * i))) by lia. simpl plus. simpl nth at 1.
  rewrite IH by lia. by replace (2 * i + 1)%nat with (S (2 * i)) by lia.
Qed.

Lemma fold_path_root k i l :
  length l = (2 ^ k)%nat -> (i < 2 ^ k)%nat ->
  tree_root hash_pair k l = [fold_path i (nth i l []) (siblings k i l)].
Proof.
  revert i l. induction k as [|k IH]; intros i l Hlen Hi.
  - destruct l as [|a [|]]; try done. destruct i; [done|simpl in Hi; lia].
  - rewrite Nat.pow_succ_r' in *. cbn [tree_root siblings fold_path].
    assert (length (parents hash_pair l) = (2 ^ k)%nat) as Hp by by apply parents_length.
    assert (i / 2 < 2 ^ k)%nat as Hi' by (apply Nat.Div0.div_lt_upper_bound; lia).
    rewrite (IH (i / 2)%nat) by done. do 2 f_equal.
    rewrite (parents_nth _ _ (2 ^ k)) by done.
    pose proof (Nat.div_mod_eq i 2) as Hdm. destruct (Nat.even i) eqn:He.
    + apply Nat.even_spec in He as [x ->]. rewrite (Nat.mul_comm 2 x), Nat.div_mul by done.
      by rewrite (Nat.mul_comm x 2).
    + apply negb_true_iff in He. rewrite Nat.negb_even in He. apply Nat.odd_spec in He as [x ->].
      replace ((2 * x + 1) / 2)%nat with x.
      * by replace (2 * x + 1 - 1)%nat with (2 * x)%nat by lia.
      * rewrite Nat.add_comm, (Nat.mul_comm 2), Nat.div_add by done. done.
Qed.

(** The inputs that are hashed on the way from a leaf to the root, in order. *)
Definition level_input (i : nat) (h x : Hash) : bytes := if Nat.even i then h ++ x else x ++ h.
Fixpoint path_inputs (i : nat) (h : Hash) (path : list Hash) : list bytes :=
  match path with
  | [] => []
  | x :: rest => level_input i h x :: path_inputs (i / 2) (HashH (level_input i h x)) rest
  end.

(** Two different inputs with the same digest, at the same place of the two lists: what two
    given computations have hashed. *)
Definition collision (l l' : list bytes) : Prop :=
  exists k b b', l !! k = Some b /\ l' !! k = Some b' /\ b <> b' /\ Sum256 b = Sum256 b'.

Lemma collision_here b b' l l' : b <> b' -> Sum256 b = Sum256 b' -> collision (b :: l) (b' :: l').
Proof. intros Hb Hs. by exists 0%nat, b, b'. Qed.
Lemma collision_later b b' l l' : collision l l' -> collision (b :: l) (b' :: l').
Proof. intros (k & x & x' & H). by exists (S k), x, x'. Qed.

Lemma hash_pair_level i h x : (if Nat.even i then hash_pair h x else hash_pair x h) = HashH (level_input i h x).
Proof. unfold level_input. by destruct (Nat.even i). Qed.

Lemma level_input_inj i h x h' x' :
  length h = length h' -> length x = length x' -> level_input i h x = level_input i h' x' -> h = h' /\ x = x'.
Proof.
  intros Hh Hx. unfold level_input. destruct (Nat.even i); intros Heq.
  - by apply app_inj_1 in Heq.
  - apply app_inj_1 in Heq as [-> ->]; done.
Qed.

Lemma fold_path_ok i h path :
  hash_ok h -> hash_ok (fold_path i h path).
Proof.
  revert i h. induction path as [|x path IH]; intros i h Hh; [done|]. simpl.
  apply IH. destruct (Nat.even i); apply HashH_ok.
Qed.

Lemma fold_path_binding i h h' path path' :
  hash_ok h -> hash_ok h' -> Forall hash_ok path -> Forall hash_ok path' ->
  length path = length path' ->
  fold_path i h path = fold_path i h' path' ->
  (h = h' /\ path = path') \/ collision (path_inputs i h path) (path_inputs i h' path').
Proof.
  intros Hh Hh' Hp. revert i h h' path' Hh Hh'.
  induction Hp as [|x path Hx Hp IH]; intros i h h' path' Hh Hh' Hp' Hlen Heq;
    destruct path' as [|x' path']; simplify_eq/=; [by left|].
  apply Forall_cons in Hp' as [Hx' Hp']. rewrite !hash_pair_level in Heq.
  apply IH in Heq as [[Heq ->]|Hc]; [|by right; apply collision_later|apply HashH_ok..|done|done].
  destruct (decide (level_input i h x = level_input i h' x')) as [Hl|Hl]; [|by right; apply collision_here].
  left. apply level_input_inj in Hl as [-> ->]; [done|..].
  - by rewrite (proj1 Hh), (proj1 Hh').
  - by rewrite (proj1 Hx), (proj1 Hx').
Qed.

Lemma VerifyMerkleTree_true h path root sid :
  hash_ok h -> hash_ok root ->
  VerifyMerkleTree h path root sid = true <-> fold_path (Z.to_nat sid) h path = root.
Proof.
  intros Hh Hroot. unfold VerifyMerkleTree. rewrite bool_decide_eq_true. split; [|by intros ->].
  apply string_inj; [by apply fold_path_ok|by apply Hroot].
Qed.

(** For any number of groups that is a power of two (at least two), the root loop and
    the path loop of the code end without an index error, and the path of every shard
    leads from its group's hash to the root: [VerifyMerkleTree] accepts it. *)
Theorem cross_shard_path_verifies (k sid : nat) (leaves : list Hash) :
  length leaves = (2 ^ S k)%nat -> (sid < 2 ^ S k)%nat ->
  exists md path root,
    merkle_data leaves = Ok md /\ merkle_path md (length leaves) sid = Ok path /\
    last md = Some root /\ length path = S k /\
    VerifyMerkleTree (nth sid leaves []) path root (Z.of_nat sid) = true.
Proof.
  intros Hlen Hsid. exists (levels hash_pair (S k) leaves), (siblings (S k) sid leaves).
  exists (fold_path sid (nth sid leaves []) (siblings (S k) sid leaves)).
  split; [by apply merkle_data_levels|]. split; [by apply merkle_path_siblings|]. split.
  - pose proof (levels_last hash_pair (S k) leaves [] Hlen) as Hl.
    rewrite (fold_path_root _ sid) in Hl by done. cbn [List.hd] in Hl. rewrite <- Hl.
    apply last_List_last. intros He.
    apply (f_equal length) in He. rewrite levels_length in He by done.
    pose proof (pow2_lt_levels k). simpl length in He. lia.
  - split.
    + clear. generalize (S k) as k'. intros k'. revert sid leaves.
      induction k' as [|k' IH]; intros sid leaves; simpl; [done|]. by rewrite IH.
    + unfold VerifyMerkleTree. rewrite Nat2Z.id. by apply bool_decide_eq_true.
Qed.

(** A root binds the groups: two different hashes accepted for the same root, shard
    and path length exhibit a SHA-256 collision between the inputs of the two checks. *)
Theorem cross_shard_path_binding (h h' root : Hash) (path path' : list Hash) (sid : Z) :
  hash_ok h -> hash_ok h' -> hash_ok root -> Forall hash_ok path -> Forall hash_ok path' ->
  length path = length path' ->
  VerifyMerkleTree h path root sid = true -> VerifyMerkleTree h' path' root sid = true ->
  (h = h' /\ path = path') \/ collision (path_inputs (Z.to_nat sid) h path) (path_inputs (Z.to_nat sid) h' path').
Proof.
  intros Hh Hh' Hroot Hp Hp' Hlen H1%VerifyMerkleTree_true H2%VerifyMerkleTree_true; [|done..].
  eapply fold_path_binding; [done..|]. by rewrite H1.
Qed.

(** ** The groups *)

(** The coins of a transaction that are grouped. *)
Definition tx_coins (tx : Transaction) : list C :=
  if bool_decide (GetType tx = TxNormalType \/ GetType tx = TxSalaryType) ||
     bool_decide (GetType tx = TxCustomTokenType)
  then default [] (tx_outputs tx) else [].

(** What the root commits to for shard [s]. *)
Definition coins_for (txList : list Transaction) (s : Z) : list C :=
  filter (fun c => GetShardIDFromLastByte (GetPubKeyLastByte c) = s) (concat (map tx_coins txList)).

Lemma shard_mod_range b : 0 <= GetShardIDFromLastByte b < 4.
Proof. apply Z.mod_pos_bound. done. Qed.

Lemma add_coins_lookup coins g s l :
  outCoinEachShard g !! s = Some l ->
  outCoinEachShard (add_coins coins g) !! s
  = Some (l ++ filter (fun c => GetShardIDFromLastByte (GetPubKeyLastByte c) = Z.of_nat s) coins).
Proof.
  unfold add_coins. simpl. generalize (outCoinEachShard g) as each. intros each. revert each l.
  induction coins as [|c coins IH]; intros each l Hl; simpl; [by rewrite app_nil_r|].
  pose proof (shard_mod_range (GetPubKeyLastByte c)).
  destruct (decide (GetShardIDFromLastByte (GetPubKeyLastByte c) = Z.of_nat s)) as [Heq|Hne].
  - rewrite filter_cons_True by done. rewrite (IH _ (l ++ [c])); [by rewrite <- app_assoc|].
    unfold shard_of_coin. rewrite Heq, Nat2Z.id. by rewrite list_lookup_alter_eq, Hl.
  - rewrite filter_cons_False by done. apply IH. rewrite list_lookup_alter_ne; [done|].
    unfold shard_of_coin. lia.
Qed.

Lemma add_vouts_spec d vouts g g' s m :
  add_vouts d vouts g = Ok g' -> txTokenDataEachShard g !! s = Some m ->
  outCoinEachShard g' = outCoinEachShard g /\
  exists m', collect_vouts d (Z.of_nat s) vouts m = Ok m' /\
    txTokenDataEachShard g' !! s = Some m'.
Proof.
  revert g m. induction vouts as [|vout vouts IH]; intros g m; simpl; [naive_solver|].
  destruct (vout_last_byte vout) as [b| |]; simpl; [|done..]. intros Hadd Hm.
  pose proof (shard_mod_range b).
  destruct (GetShardIDFromLastByte b =? Z.of_nat s) eqn:Hb; to_prop.
  - eapply IH in Hadd; [exact Hadd|]. simpl.
    replace (Z.to_nat _) with s by lia. by rewrite list_lookup_alter_eq, Hm.
  - eapply IH in Hadd; [exact Hadd|]. simpl. by rewrite list_lookup_alter_ne by lia.
Qed.

Lemma group_tx_spec tx g g' s l m :
  group_tx tx g = Ok g' ->
  outCoinEachShard g !! s = Some l -> txTokenDataEachShard g !! s = Some m ->
  outCoinEachShard g' !! s = Some (l ++ coins_for [tx] (Z.of_nat s)) /\
  exists m', collect_tokens [tx] (Z.of_nat s) m = Ok m' /\ txTokenDataEachShard g' !! s = Some m'.
Proof.
  unfold group_tx, coins_for, tx_coins. simpl. rewrite app_nil_r. intros Hg Hl Hm.
  destruct (bool_decide (GetType tx = TxNormalType \/ _)) eqn:Hn; simpl.
  - simplify_eq. rewrite bool_decide_false.
    2: { intros Ht. apply bool_decide_eq_true in Hn. rewrite Ht in Hn. by destruct Hn. }
    split; [|exists m; split; [done|by destruct (tx_outputs tx)]].
    destruct (tx_outputs tx) as [coins|]; simpl; [by apply add_coins_lookup|by rewrite app_nil_r].
  - destruct (bool_decide (GetType tx = TxCustomTokenType)); simpl; simplify_eq.
    + destruct (as_custom_token tx) as [d| |]; simpl in *; [|done..].
      eapply add_vouts_spec in Hg as (Hc & m' & Hcol & Hm').
      2: { by destruct (tx_outputs tx). }
      rewrite Hc, Hcol. split; [|by exists m'].
      destruct (tx_outputs tx) as [coins|]; simpl; [by apply add_coins_lookup|by rewrite app_nil_r].
    + rewrite app_nil_r. eauto.
Qed.

Lemma coins_for_cons tx txs s : coins_for (tx :: txs) s = coins_for [tx] s ++ coins_for txs s.
Proof. unfold coins_for. simpl. by rewrite app_nil_r, filter_app. Qed.

Lemma collect_tokens_cons tx txs s m m' m'' :
  collect_tokens [tx] s m = Ok m' -> collect_tokens txs s m' = Ok m'' ->
  collect_tokens (tx :: txs) s m = Ok m''.
Proof.
  simpl. destruct (bool_decide _); [|naive_solver].
  destruct (as_custom_token tx); simpl; [|done..]. destruct (collect_vouts _ _ _ _); naive_solver.
Qed.

Lemma group_txs_spec txs g g' s l m :
  group_txs txs g = Ok g' ->
  outCoinEachShard g !! s = Some l -> txTokenDataEachShard g !! s = Some m ->
  outCoinEachShard g' !! s = Some (l ++ coins_for txs (Z.of_nat s)) /\
  exists m', collect_tokens txs (Z.of_nat s) m = Ok m' /\ txTokenDataEachShard g' !! s = Some m'.
Proof.
  revert g l m. induction txs as [|tx txs IH]; intros g l m; cbn [group_txs].
  - intros [= <-] Hl Hm. unfold coins_for. simpl. rewrite app_nil_r. eauto.
  - destruct (group_tx tx g) as [g1| |] eqn:Hg1; simpl; [|done..]. intros Hg Hl Hm.
    destruct (group_tx_spec _ _ _ _ _ _ Hg1 Hl Hm) as (Hl1 & m1 & Hcol1 & Hm1).
    destruct (IH _ _ _ Hg Hl1 Hm1) as (Hl' & m' & Hcol' & Hm').
    rewrite coins_for_cons, app_assoc. split; [done|]. exists m'. split; [|done].
    by eapply collect_tokens_cons.
Qed.

Lemma group_hashes_lookup cs ts hs s c t :
  group_hashes cs ts = Ok hs -> cs !! s = Some c -> ts !! s = Some t ->
  exists h, group_hash c t = Ok h /\ hs !! s = Some h.
Proof.
  revert ts hs s. induction cs as [|c' cs IH]; intros [|t' ts] hs s; try done.
  cbn [group_hashes]. destruct (group_hash c' t') as [h| |] eqn:Hh; simpl; [|done..].
  destruct (group_hashes cs ts) as [hs'| |] eqn:Hhs; simpl; [|done..]. intros [= <-].
  destruct s as [|s]; simpl; [naive_solver|]. by eapply IH.
Qed.

Lemma group_hashes_length cs ts hs :
  group_hashes cs ts = Ok hs -> length cs = length ts ->
  length hs = length cs /\ Forall hash_ok hs.
Proof.
  revert ts hs. induction cs as [|c cs IH]; intros [|t ts] hs; try done; simpl.
  - intros [= <-] _. split; [done|constructor].
  - unfold group_hash at 1. destruct (calHashTxTokenDataHashFromMap t); simpl; [|done..].
    destruct (group_hashes cs ts) as [hs'| |] eqn:Hhs; simpl; [|done..]. intros [= <-] [= Hlen].
    destruct (IH _ _ Hhs Hlen) as [Heq ?]. split; [simpl; lia|]. constructor; [apply HashH_ok|done].
Qed.

Lemma group_txs_length txs g g' :
  group_txs txs g = Ok g' ->
  length (outCoinEachShard g') = length (outCoinEachShard g) /\
  length (txTokenDataEachShard g') = length (txTokenDataEachShard g).
Proof.
  assert (forall coins g, length (outCoinEachShard (add_coins coins g)) = length (outCoinEachShard g)) as Hc.
  { intros coins g0. unfold add_coins. simpl. generalize (outCoinEachShard g0).
    induction coins as [|c coins IH]; intros each; simpl; [done|]. by rewrite IH, length_alter. }
  assert (forall d vouts g g', add_vouts d vouts g = Ok g' ->
    length (outCoinEachShard g') = length (outCoinEachShard g) /\
    length (txTokenDataEachShard g') = length (txTokenDataEachShard g)) as Hv.
  { intros d vouts. induction vouts as [|v vouts IH]; intros g0 g1; simpl; [by intros [= <-]|].
    destruct (vout_last_byte v); simpl; [|done..]. intros [-> ->]%IH. simpl. by rewrite length_alter. }
  revert g. induction txs as [|tx txs IH]; intros g; simpl; [by intros [= <-]|].
  destruct (group_tx tx g) as [g1| |] eqn:Hg1; simpl; [|done..]. intros [-> ->]%IH.
  revert Hg1. unfold group_tx. destruct (bool_decide _); [intros [= <-]; by destruct (tx_outputs tx)|].
  destruct (bool_decide _); [|by intros [= <-]].
  destruct (as_custom_token tx); simpl; [|done..]. intros [-> ->]%Hv. by destruct (tx_outputs tx).
Qed.

Lemma hash_from_map_list m :
  calHashTxTokenDataHashFromMap m = calHashTxTokenDataHashList (sort_tokens (map_to_list m).*2).
Proof.
  unfold calHashTxTokenDataHashFromMap. case_bool_decide as Hm; [|done].
  subst m. by rewrite map_to_list_empty.
Qed.

(** The hash of the group of shard [s] in a root that could be computed. *)
Lemma data_hash_lookup txs hs s :
  getCrossShardDataHash txs = Ok hs -> 0 <= s < 4 ->
  length hs = 4%nat /\ Forall hash_ok hs /\
  exists m th, collect_tokens txs s ∅ = Ok m /\ calHashTxTokenDataHashFromMap m = Ok th /\
    hs !! Z.to_nat s = Some (hash_pair (calHashOutCoinCrossShard (coins_for txs s)) th).
Proof.
  unfold getCrossShardDataHash. destruct (group_txs txs noGroups) as [g| |] eqn:Hg; simpl; [|done..].
  intros Hhs Hs. destruct (group_txs_length _ _ _ Hg) as [Hlc Hlt].
  destruct (group_hashes_length _ _ _ Hhs) as [Hlen Hok]; [by rewrite Hlc, Hlt|].
  split; [by rewrite Hlen, Hlc|]. split; [done|].
  destruct (group_txs_spec _ _ _ (Z.to_nat s) [] ∅ Hg) as (Hc & m & Hm & Ht).
  - apply lookup_replicate. split; [done|]. change (Z.to_nat MAX_SHARD_NUMBER) with 4%nat. lia.
  - apply lookup_replicate. split; [done|]. change (Z.to_nat MAX_SHARD_NUMBER) with 4%nat. lia.
  - rewrite Z2Nat.id in * by lia. destruct (group_hashes_lookup _ _ _ _ _ _ Hhs Hc Ht) as (h & Hh & Hlook).
    unfold group_hash in Hh. destruct (calHashTxTokenDataHashFromMap m) as [th| |] eqn:Hth; try done.
    simpl in Hh. exists m, th. injection Hh as <-. done.
Qed.

(** The path the code computes for shard [s], and where it leads. *)
Lemma merkle_path_spec txs s path root :
  GetMerklePathCrossShard txs s = Ok (path, root) -> 0 <= s < 4 ->
  exists hs m th, getCrossShardDataHash txs = Ok hs /\ Forall hash_ok hs /\
    collect_tokens txs s ∅ = Ok m /\ calHashTxTokenDataHashFromMap m = Ok th /\
    fold_path (Z.to_nat s) (hash_pair (calHashOutCoinCrossShard (coins_for txs s)) th) path = root /\
    Forall hash_ok path.
Proof.
  unfold GetMerklePathCrossShard, CreateShardTxRoot. intros H Hs.
  destruct (getCrossShardDataHash txs) as [hs| |] eqn:Hhs; simpl in H; [|done..].
  destruct (data_hash_lookup _ _ _ Hhs Hs) as (Hlen & Hok & m & th & Hm & Hth & Hlook).
  assert (merkle_path (levels hash_pair 2 hs) (length hs) (Z.to_nat s)
          = Ok (siblings 2 (Z.to_nat s) hs)) as Hpath
    by (apply (merkle_path_siblings 1); [done|simpl; lia]).
  rewrite (merkle_data_levels 1) in H by done. set (L := levels hash_pair 2 hs) in *.
  set (P := siblings 2 (Z.to_nat s) hs) in *.
  cbn beta iota delta [mbind outcome_bind] in H. rewrite Hpath in H.
  cbn beta iota delta [mbind outcome_bind] in H.
  exists hs, m, th. do 4 (split; [done|]).
  assert (Hl : last L = Some (fold_path (Z.to_nat s)
    (nth (Z.to_nat s) hs []) P)).
  { unfold L. rewrite (last_List_last _ []).
    - rewrite levels_last by done. rewrite (fold_path_root 2 (Z.to_nat s)) by (done || (simpl; lia)).
      done.
    - intros He. apply (f_equal length) in He. by rewrite levels_length in He. }
  rewrite Hl in H. assert (path = P) as -> by congruence.
  assert (root = fold_path (Z.to_nat s) (nth (Z.to_nat s) hs []) P) as -> by congruence. clear H Hl.
  split; [f_equal; symmetry; by apply nth_lookup_Some|]. unfold P.
  destruct hs as [|h0 [|h1 [|h2 [|h3 [|]]]]]; try done.
  repeat match goal with H : Forall _ (_ :: _) |- _ => apply Forall_cons in H as [? H] end.
  assert (Z.to_nat s = 0 \/ Z.to_nat s = 1 \/ Z.to_nat s = 2 \/ Z.to_nat s = 3)%nat as Hcase by lia.
  destruct Hcase as [-> | [-> | [-> | ->]]]; simpl;
    (repeat (apply Forall_cons_2; [first [done|apply HashH_ok]|])); apply Forall_nil_2.
Qed.

Lemma calHashOutCoin_ok coins : hash_ok (calHashOutCoinCrossShard coins).
Proof. destruct coins; apply HashH_ok. Qed.

(** The inputs hashed from the hashes of coins and tokens of a group to the root. *)
Definition group_inputs (s : Z) (coins : list C) (tokens : Hash) (path : list Hash) : list bytes :=
  (calHashOutCoinCrossShard coins ++ tokens) :: path_inputs (Z.to_nat s) (hash_pair (calHashOutCoinCrossShard coins) tokens) path.

(** C30. The block [CreateCrossShardBlock] makes for a shard is accepted by the receiver
    whenever the coins it selects (last key byte equal to the shard) are the coins the
    root was built from (last key byte equal to it modulo the number of shards); the
    token outputs always agree.  A block with other coins is accepted only if the coins have
    one hash, or if two inputs collide among those hashed on the way to the root: the receiver rejects the blocks of honest senders whose coins go to
    keys with a larger last byte. *)
Theorem cross_shard_block_verifies (txs : list Transaction) (root : Hash) (s : Z)
    (blk : CrossShardBlock) :
  0 <= s < 4 -> CreateCrossShardBlock txs root s = Ok blk ->
  exists accepted, VerifyCrossShardBlockUTXO blk (MerklePathShard blk) = Ok accepted /\
    (getOutCoinCrossShard txs s = coins_for txs s -> accepted = true) /\
    (accepted = true ->
       calHashOutCoinCrossShard (getOutCoinCrossShard txs s)
       = calHashOutCoinCrossShard (coins_for txs s) \/
       exists tokens, calHashTxTokenDataHashList (CrossTxTokenData blk) = Ok tokens /\
         collision (group_inputs s (getOutCoinCrossShard txs s) tokens (MerklePathShard blk))
           (group_inputs s (coins_for txs s) tokens (MerklePathShard blk))).
Proof.
  intros Hs. unfold CreateCrossShardBlock, getTxTokenDataCrossShard.
  destruct (collect_tokens txs s ∅) as [m| |] eqn:Hm; simpl; [|done..]. intros H.
  assert (exists path, GetMerklePathCrossShard txs s = Ok (path, root) /\
    blk = mkCrossShardBlock root s path (getOutCoinCrossShard txs s) (sort_tokens (map_to_list m).*2))
    as (path & Hpath & ->).
  { destruct (GetMerklePathCrossShard txs s) as [[path root']| |]; simpl in H;
      [|by destruct (getOutCoinCrossShard txs s), (sort_tokens _)..].
    case_bool_decide as Hr; [subst root'|by destruct (getOutCoinCrossShard txs s), (sort_tokens _)].
    exists path. split; [done|]. by destruct (getOutCoinCrossShard txs s), (sort_tokens _); simplify_eq. }
  destruct (merkle_path_spec _ _ _ _ Hpath Hs) as (hs & m' & th & _ & _ & Hm' & Hth & Hroot & Hok).
  rewrite Hm in Hm'. injection Hm' as <-.
  unfold VerifyCrossShardBlockUTXO. simpl. rewrite <- hash_from_map_list, Hth. simpl.
  eexists. split; [reflexivity|].
  assert (hash_ok root) as Hrok by (rewrite <- Hroot; apply fold_path_ok, HashH_ok).
  rewrite VerifyMerkleTree_true; [|apply HashH_ok|done]. split; [by intros ->|].
  intros Hv. rewrite <- Hroot in Hv.
  destruct (decide (calHashOutCoinCrossShard (getOutCoinCrossShard txs s) = calHashOutCoinCrossShard (coins_for txs s))) as [|Hne]; [by left|].
  right. exists th. split; [done|]. apply fold_path_binding in Hv as [[Hv _]|Hc]; [|by apply collision_later|apply HashH_ok|apply HashH_ok|done..].
  apply collision_here; [|done]. intros Happ. apply Hne. apply app_inj_1 in Happ as [? _]; [done|].
  by rewrite (proj1 (calHashOutCoin_ok _)), (proj1 (calHashOutCoin_ok _)).
Qed.

(** ** The flags of the header *)

(** The shards a transaction sets in the byte map. *)
Definition flagged (tx : Transaction) : list Z :=
  if bool_decide (GetType tx = TxNormalType \/ GetType tx = TxSalaryType) then
    map (fun c => GetShardIDFromLastByte (GetPubKeyLastByte c)) (default [] (tx_outputs tx))
  else if bool_decide (GetType tx = TxCustomTokenType) then
    match tx with
    | CustomTokenTx _ data =>
        omap (fun vout => GetShardIDFromLastByte <$> last (Pk (VoutAddress vout)))
          (default [] (Vouts data))
    | _ => []
    end
  else if bool_decide (GetType tx = TxCustomTokenPrivacyType) then
    match tx with
    | CustomTokenPrivacyTx _ data =>
        map (fun c => GetShardIDFromLastByte (GetPubKeyLastByte c)) (default [] (outputs (TxNormal data)))
    | _ => []
    end
  else [].

Definition set_flags (ids : list Z) (byteMap : list bool) : list bool :=
  foldl (fun m s => <[Z.to_nat s := true]> m) byteMap ids.

Lemma shard_mod_idem b : GetShardIDFromLastByte (GetShardIDFromLastByte b) = GetShardIDFromLastByte b.
Proof. unfold GetShardIDFromLastByte. by rewrite Z.mod_mod. Qed.

Lemma mark_coins_flags coins m :
  mark_coins coins m = set_flags (map (fun c => GetShardIDFromLastByte (GetPubKeyLastByte c)) coins) m.
Proof.
  revert m. induction coins as [|c coins IH]; intros m; [done|]. cbn. rewrite shard_mod_idem. apply IH.
Qed.

Lemma mark_tx_flags tx m m' : mark_tx tx m = Ok m' -> m' = set_flags (flagged tx) m.
Proof.
  unfold mark_tx, flagged. destruct (bool_decide _); [intros [= <-]; apply mark_coins_flags|].
  destruct (bool_decide _).
  - destruct tx as [|t d|]; simpl; [done| |done]. generalize (default [] (Vouts d)). intros vouts.
    revert m. induction vouts as [|v vouts IH]; intros m; simpl; [by intros [= <-]|].
    unfold vout_last_byte. destruct (last _) as [b|]; simpl; [|done].
    rewrite shard_mod_idem. apply IH.
  - destruct (bool_decide _); [|by intros [= <-]].
    destruct tx as [| |t p]; simpl; [done|done|]. intros [= <-]. apply mark_coins_flags.
Qed.

Lemma mark_txs_flags txs m m' :
  mark_txs txs m = Ok m' -> m' = set_flags (concat (map flagged txs)) m.
Proof.
  revert m. induction txs as [|tx txs IH]; intros m; simpl; [by intros [= <-]|].
  destruct (mark_tx tx m) as [m1| |] eqn:H1; simpl; [|done..]. intros ->%IH.
  apply mark_tx_flags in H1 as ->. unfold set_flags. by rewrite foldl_app.
Qed.

Lemma set_flags_lookup ids m k :
  set_flags ids m !! k = Some true <->
  (k < length m)%nat /\ (m !! k = Some true \/ k ∈ map Z.to_nat ids).
Proof.
  revert m. induction ids as [|s ids IH]; intros m; simpl.
  - split; [intros H; split; [by eapply lookup_lt_Some|by left]|].
    intros [_ [?|Hin]]; [done|by apply not_elem_of_nil in Hin].
  - rewrite IH, length_insert, elem_of_cons. split; intros [Hlt H]; (split; [done|]).
    + destruct (decide (k = Z.to_nat s)) as [->|Hne]; [auto|].
      rewrite list_lookup_insert_ne in H by done. tauto.
    + destruct (decide (k = Z.to_nat s)) as [->|Hne]; [by rewrite list_lookup_insert_eq; auto|].
      rewrite list_lookup_insert_ne by done. tauto.
Qed.

Lemma flagged_range txs : Forall (fun k => 0 <= k < 4) (concat (map flagged txs)).
Proof.
  apply Forall_concat, Forall_map, Forall_forall. intros tx _. unfold flagged. simpl.
  assert (forall coins : list C, Forall (fun k => 0 <= k < 4)
    (map (fun c => GetShardIDFromLastByte (GetPubKeyLastByte c)) coins)) as Hc.
  { intros coins. apply Forall_map, Forall_forall. intros c _. apply shard_mod_range. }
  destruct (bool_decide _); [done|]. destruct (bool_decide _).
  - destruct tx as [|t d|]; [constructor| |constructor]. apply Forall_forall.
    intros k (v & _ & Hv)%list_elem_of_omap. destruct (last _); simplify_eq/=. apply shard_mod_range.
  - destruct (bool_decide _); [|constructor]. by destruct tx.
Qed.

Lemma flag_bytes_elem m from k :
  length m = 4%nat ->
  k ∈ flag_bytes m from <-> k <> from /\ 0 <= k /\ m !! Z.to_nat k = Some true.
Proof.
  intros Hlen. unfold flag_bytes. rewrite list_elem_of_omap. split.
  - intros ([k' b] & Hin & Hb). apply list_elem_of_lookup in Hin as [i Hi].
    apply lookup_zip_with_Some in Hi as (k'' & b' & [= -> ->] & Hk & Hm).
    apply lookup_seqZ in Hk as [-> Hk]. destruct b'; [|done].
    destruct (0 + Z.of_nat i =? from) eqn:He; simpl in Hb; to_prop; simplify_eq/=.
    split_and!; [done|lia|]. by replace (Z.to_nat _) with i by lia.
  - intros (Hne & Hk & Hm). exists (k, true). split.
    + apply list_elem_of_lookup. exists (Z.to_nat k). apply lookup_zip_with_Some.
      exists k, true. split; [done|]. split; [|done]. apply lookup_lt_Some in Hm.
      apply lookup_seqZ. unfold MAX_SHARD_NUMBER. lia.
    + by rewrite (proj2 (Z.eqb_neq _ _) Hne).
Qed.

Lemma flag_bytes_sorted m from : length m = 4%nat -> StronglySorted Z.lt (flag_bytes m from).
Proof.
  intros Hlen. destruct m as [|b0 [|b1 [|b2 [|b3 [|]]]]]; try done.
  unfold flag_bytes. simpl. case_ifs; repeat constructor; lia.
Qed.

Lemma set_flags_length ids m : length (set_flags ids m) = length m.
Proof. revert m. induction ids as [|s ids IH]; intros m; [done|]. simpl. by rewrite IH, length_insert. Qed.

(** The header of a shard block lists, in ascending order, exactly the other shards
    that some transaction flags: those its coins go to for normal and salary
    transactions, those its token outputs go to for custom-token ones (the coins of a
    custom-token transaction, which the root does commit to, do not count), those of the
    token proof's coins for privacy tokens. *)
Theorem cross_shard_bytes_spec (txs : list Transaction) (from : Z) (crossIDs : bytes) :
  CreateCrossShardByteArray txs from = Ok crossIDs ->
  StronglySorted Z.lt crossIDs /\
  forall k, k ∈ crossIDs <-> k <> from /\ k ∈ concat (map flagged txs).
Proof.
  unfold CreateCrossShardByteArray. destruct (mark_txs _ _) as [m| |] eqn:Hm; simpl; [|done..].
  intros [= <-]. apply mark_txs_flags in Hm.
  assert (length m = 4%nat) as Hlen by by rewrite Hm, set_flags_length.
  split; [by apply flag_bytes_sorted|]. intros k. rewrite flag_bytes_elem by done.
  rewrite Hm, set_flags_lookup. pose proof (flagged_range txs) as Hr. rewrite Forall_forall in Hr.
  split.
  - intros (Hne & Hk & _ & [H|H]); [by apply lookup_replicate in H as [? _]|]. split; [done|].
    apply list_elem_of_fmap in H as (k' & Heq & Hk'). specialize (Hr _ Hk').
    by replace k with k' by lia.
  - intros [Hne Hin]. specialize (Hr _ Hin). split_and!; [done|lia| |].
    + rewrite length_replicate. change (Z.to_nat MAX_SHARD_NUMBER) with 4%nat. lia.
    + right. apply list_elem_of_fmap. eauto.
Qed.

(** The root over the cross-shard coins a block claims to have received commits to
    the first four of them only: two non-empty maps that agree on their first four
    entries (in the order of the source shards) get the same root and verify against the
    same header, whatever coins follow. *)
Theorem cross_output_root_truncates (m m' : gmap Z (list CrossOutputCoinRec)) (root : Hash) :
  m <> ∅ -> m' <> ∅ ->
  take 4 (concat (sorted_values m)) = take 4 (concat (sorted_values m')) ->
  CreateMerkleCrossOutputCoin m = CreateMerkleCrossOutputCoin m' /\
  VerifyMerkleCrossOutputCoin m root = VerifyMerkleCrossOutputCoin m' root.
Proof.
  intros Hm Hm' Htake. unfold VerifyMerkleCrossOutputCoin.
  assert (CreateMerkleCrossOutputCoin m = CreateMerkleCrossOutputCoin m') as ->; [|done].
  unfold CreateMerkleCrossOutputCoin. rewrite !bool_decide_false by done.
  destruct (merkle_of_hashs_spec (map (fun v => Some (CrossOutputCoin_Hash v))
    (concat (sorted_values m)))) as (_ & -> & _).
  destruct (merkle_of_hashs_spec (map (fun v => Some (CrossOutputCoin_Hash v))
    (concat (sorted_values m')))) as (_ & -> & _).
  rewrite !firstn_map. by rewrite Htake.
Qed.
End ShardTx.

(** *** Concrete transactions *)

Section Witnesses.
#[local] Existing Instance QuickHash.quick_hash.

(** A coin as its key's last byte. *)
#[local] Instance Z_coin : OutputCoinOps Z := {|
  GetPubKeyLastByte := fun z => z; coin_bytes := fun z => [z]; InCoin := unit; ProofRest := unit; TxRest := unit |}.

Definition tx_of (typ : string) (coins : option (list Z)) : Tx (C := Z) :=
  @mkTx Z Z_coin typ ((fun l => @mkProof Z Z_coin [] l tt) <$> coins) tt.
Definition pay (coins : list Z) : Transaction := NormalTx (tx_of "n" (Some coins)).

Definition root_of (txs : list (Transaction (C := Z))) : Hash :=
  match GetMerklePathCrossShard txs 0 with Ok (_, root) => root | _ => [] end.

Definition accepted_by (s : Z) (txs : list (Transaction (C := Z))) : outcome bool :=
  blk ← CreateCrossShardBlock txs (root_of txs) s;
  VerifyCrossShardBlockUTXO blk (MerklePathShard blk).

(** A coin for a key that ends in 5 belongs to shard 1 but is left out of its block. *)
Example coin_dropped :
  accepted_by 1 [pay [1]] = Ok true /\ accepted_by 1 [pay [1; 5]] = Ok false /\
  accepted_by 1 [pay [5]] = Err "Oops".
Proof. split_and!; vm_compute; reflexivity. Qed.

Definition token_data : TxTokenData :=
  mkTokenData (token_id 9) "name" "SYM" 1 false 7 [] (Some [mkVout 3 (mkPaymentAddress [8; 1] [])]).

(** The coin of a custom-token transaction for shard 2 is committed to but not flagged. *)
Example token_coin_not_flagged :
  let tx := CustomTokenTx (tx_of "t" (Some [2])) token_data in
  CreateCrossShardByteArray [tx] 0 = Ok [1] /\ coins_for [tx] 2 = [2].
Proof. split; vm_compute; reflexivity. Qed.

Lemma cross_shard_path_verifies_witness :
  exists path root, length path = 2%nat /\
    VerifyMerkleTree (token_id 7) path root (Z.of_nat 2) = true.
Proof.
  destruct (cross_shard_path_verifies 1 2 [token_id 5; token_id 6; token_id 7; token_id 8])
    as (md & path & root & _ & _ & _ & H1 & H2); [reflexivity|simpl; lia|].
  exists path, root. split; [exact H1|exact H2].
Defined.

Lemma token_id_ok b : in_u8 b -> hash_ok (token_id b).
Proof. intros Hb. split; [done|]. constructor; [done|]. by apply Forall_replicate. Qed.

Lemma cross_shard_path_binding_witness :
  (token_id 1 = token_id 1 /\ [token_id 2] = [token_id 2]) \/
  collision (path_inputs 0 (token_id 1) [token_id 2]) (path_inputs 0 (token_id 1) [token_id 2]).
Proof.
  apply (cross_shard_path_binding (token_id 1) (token_id 1) (hash_pair (token_id 1) (token_id 2))
           [token_id 2] [token_id 2] 0).
  - apply token_id_ok; by_compute.
  - apply token_id_ok; by_compute.
  - apply HashH_ok.
  - apply Forall_cons_2; [apply token_id_ok; by_compute|apply Forall_nil_2].
  - apply Forall_cons_2; [apply token_id_ok; by_compute|apply Forall_nil_2].
  - done.
  - vm_compute. reflexivity.
  - vm_compute. reflexivity.
Defined.

Definition sample_block : CrossShardBlock :=
  match CreateCrossShardBlock [pay [1; 2; 3]; CustomTokenTx (tx_of "t" None) token_data]
    (root_of [pay [1; 2; 3]; CustomTokenTx (tx_of "t" None) token_data]) 1 with
  | Ok blk => blk
  | _ => mkCrossShardBlock [] 0 [] [] []
  end.

Lemma cross_shard_block_verifies_witness :
  exists accepted, VerifyCrossShardBlockUTXO sample_block (MerklePathShard sample_block) = Ok accepted /\
    accepted = true.
Proof.
  destruct (cross_shard_block_verifies [pay [1; 2; 3]; CustomTokenTx (tx_of "t" None) token_data]
    (root_of [pay [1; 2; 3]; CustomTokenTx (tx_of "t" None) token_data]) 1 sample_block)
    as (accepted & H1 & H2 & _); [lia|vm_compute; reflexivity|].
  exists accepted. split; [exact H1|]. apply H2. vm_compute. reflexivity.
Defined.

Lemma cross_shard_bytes_spec_witness :
  1 ∈ [1; 3] <-> 1 <> 0 /\ 1 ∈ concat (map flagged [pay [5; 4]; pay [7]]).
Proof.
  destruct (cross_shard_bytes_spec [pay [5; 4]; pay [7]] 0 [1; 3]) as [_ H];
    [vm_compute; reflexivity|apply H].
Defined.

Definition incoming (coins : list Z) : gmap Z (list CrossOutputCoinRec) :=
  {[1 := map (fun c => mkCrossOutputCoin 1 zero_hash [c]) coins]}.

(** The fifth coin can be replaced. *)
Lemma cross_output_root_truncates_witness :
  CreateMerkleCrossOutputCoin (incoming [1; 2; 3; 4; 5])
  = CreateMerkleCrossOutputCoin (incoming [1; 2; 3; 4; 99]).
Proof.
  refine (proj1 (cross_output_root_truncates (incoming [1; 2; 3; 4; 5]) (incoming [1; 2; 3; 4; 99])
    zero_hash _ _ _)).
  - vm_compute. congruence.
  - vm_compute. congruence.
  - vm_compute. reflexivity.
Defined.
End Witnesses.
End ShardTx.
