(* ===== verification/Coins.v ===== *)
(** Coins (src/privacy/coin.go) and the encryption of their contents
    (src/privacy/hybridencryption.go, aes.go).  AES in counter mode is an interface. *)

From Stdlib Require Import Ascii String.
From S2P Require Import Prelude GoStr Hash Sha256 Base58 Modular EC Schnorr MultiSig Keys ShardTx.

#[local] Open Scope list_scope.
#[local] Open Scope Z_scope.

(** [aes.NewCipher] accepts keys of 16, 24 and 32 bytes; [cipher.NewCTR] XORs a text with a
    stream that depends on key and initial vector. *)
Class Aes : Type := {
  aes_ctr : bytes -> bytes -> bytes -> bytes;
  aes_involutive key iv text : Forall in_u8 text -> aes_ctr key iv (aes_ctr key iv text) = text;
  aes_length key iv text : length (aes_ctr key iv text) = length text
}.

Module Coins.
Import Hashes EC Keys.

Record Coin := mkCoin {
  PublicKey : option EllipticPoint;
  CoinCommitment : option EllipticPoint;
  SNDerivator : option Z;
  SerialNumber : option EllipticPoint;
  Randomness : option Z;
  Coin_Value : Z;
  Info : bytes
}.

Record InputCoin := mkInputCoin { input_details : Coin }.

(** [msgEncrypted], [symKeyEncrypted]. *)
Record Ciphertext := mkCipher { msgEncrypted : bytes; symKeyEncrypted : bytes }.

Record OutputCoin := mkOutputCoin { CoinDetails : Coin; CoinDetailsEncrypted : option Ciphertext }.

(** [new(Coin)], and the coin after [Init]. *)
Definition new_coin : Coin := mkCoin None None None None None 0 [].
Definition Coin_Init : Coin := mkCoin (Some infinity) (Some infinity) (Some 0) (Some infinity) (Some 0) 0 [].

Section Serial.
Context {curve : Curve} {sha : Sha256}.

(** ** Coins as bytes *)

(** A length byte and the bytes of a pointer; a nil pointer has no bytes. *)
Definition point_field (p : option EllipticPoint) : bytes :=
  match p with None => [0] | Some p => u8 (Z.of_nat (length (Compress p))) :: Compress p end.

(** The length byte of a number is 32 however long its bytes are. *)
Definition int_field (x : option Z) : bytes :=
  match x with None => [0] | Some x => u8 (Z.of_nat BigIntSize) :: AddPaddingBigInt x BigIntSize end.

Definition value_field (v : Z) : bytes := if 0 <? v then u8 (Z.of_nat (length (Bytes v))) :: Bytes v else [0].
Definition info_field (info : bytes) : bytes :=
  if (0 <? length info)%nat then u8 (Z.of_nat (length info)) :: info else [0].

Definition Coin_Bytes (c : Coin) : bytes :=
  point_field (PublicKey c) ++ point_field (CoinCommitment c) ++ int_field (SNDerivator c) ++
  point_field (SerialNumber c) ++ int_field (Randomness c) ++ value_field (Coin_Value c) ++ info_field (Info c).

(** [GetPubKeyLastByte]: the last byte of the compressed key, of which an invalid one has none. *)
Definition Coin_GetPubKeyLastByte (c : Coin) : outcome Z :=
  match PublicKey c with
  | None => Panic
  | Some p => match last (Compress p) with Some b => Ok b | None => Panic end
  end.

Definition Coin_HashH (c : Coin) : Hash := HashH (Coin_Bytes c).

(** [coinBytes[offset : offset+n]] and the rest of the array, of which [Decompress] reads the
    32 bytes it needs whatever the length of the slice. *)
Definition read_point (data spare : list Z) (off : nat) (old : option EllipticPoint) : outcome (option EllipticPoint * nat) :=
  n ← byte_at data off;
  if n =? 0 then Ok (old, S off)
  else
    _ ← cut data spare (S off) (S off + Z.to_nat n);
    p ← decompressed (drop (S off) (data ++ spare));
    Ok (Some p, (S off + Z.to_nat n)%nat).

Definition read_int (data spare : list Z) (off : nat) (old : option Z) : outcome (option Z * nat) :=
  n ← byte_at data off;
  if n =? 0 then Ok (old, S off)
  else b ← cut data spare (S off) (S off + Z.to_nat n); Ok (Some (SetBytes b), (S off + Z.to_nat n)%nat).

(** [big.Int.Uint64] keeps the low 64 bits. *)
Definition read_value (data spare : list Z) (off : nat) (old : Z) : outcome (Z * nat) :=
  n ← byte_at data off;
  if n =? 0 then Ok (old, S off)
  else b ← cut data spare (S off) (S off + Z.to_nat n); Ok (u64 (SetBytes b), (S off + Z.to_nat n)%nat).

(** The length is read again, from the first byte of the field, and the bytes are copied over
    those that the coin has. *)
Definition read_info (data spare : list Z) (off : nat) (old : bytes) : outcome bytes :=
  n ← byte_at data off;
  if n =? 0 then Ok old
  else
    n ← byte_at data (S off);
    b ← cut data spare (S off) (S off + Z.to_nat n);
    Ok (copy_into old b).

Definition Coin_SetBytes (coinBytes spare : list Z) (c : Coin) : outcome Coin :=
  match coinBytes with
  | [] => Ok c
  | _ =>
      '(pk, off) ← read_point coinBytes spare 0 (PublicKey c);
      '(cm, off) ← read_point coinBytes spare off (CoinCommitment c);
      '(snd, off) ← read_int coinBytes spare off (SNDerivator c);
      '(sn, off) ← read_point coinBytes spare off (SerialNumber c);
      '(rand, off) ← read_int coinBytes spare off (Randomness c);
      '(value, off) ← read_value coinBytes spare off (Coin_Value c);
      info ← read_info coinBytes spare off (Info c);
      Ok (mkCoin pk cm snd sn rand value info)
  end.

(** ** Input and output coins *)

Definition InputCoin_Bytes (c : InputCoin) : bytes := Coin_Bytes (input_details c).

Definition InputCoin_SetBytes (b spare : bytes) : outcome InputCoin :=
  match b with
  | [] => Err "bytes array is empty"
  | _ => c ← Coin_SetBytes b spare new_coin; Ok (mkInputCoin c)
  end.

Definition Ciphertext_IsNil (c : Ciphertext) : bool :=
  (length (msgEncrypted c) =? 0)%nat || (length (symKeyEncrypted c) =? 0)%nat.

Definition Cipher_Bytes (c : Ciphertext) : bytes :=
  if Ciphertext_IsNil c then [] else symKeyEncrypted c ++ msgEncrypted c.

Definition Cipher_SetBytes (b spare : list Z) : outcome Ciphertext :=
  match b with
  | [] => Err "SetBytes ciphertext encryption: invalid input"
  | _ =>
      key ← cut b spare 0 66;
      if (length b <? 66)%nat then Panic else Ok (mkCipher (drop 66 b) key)
  end.

Definition OutputCoin_Bytes (c : OutputCoin) : bytes :=
  match CoinDetailsEncrypted c with
  | None => [0]
  | Some e => u8 (Z.of_nat (length (Cipher_Bytes e))) :: Cipher_Bytes e
  end ++ u8 (Z.of_nat (length (Coin_Bytes (CoinDetails c)))) :: Coin_Bytes (CoinDetails c).

(** The slices that are handed on keep the capacity of the whole. *)
Definition OutputCoin_SetBytes (b spare : list Z) (c : OutputCoin) : outcome OutputCoin :=
  match b with
  | [] => Err "bytes array is empty"
  | _ =>
      n ← byte_at b 0;
      let n := Z.to_nat n in
      enc ← (if (0 <? n)%nat then
               e ← cut b spare 1 (1 + n); e ← Cipher_SetBytes e (drop (1 + n) (b ++ spare)); Ok (Some e)
             else Ok (CoinDetailsEncrypted c));
      m ← byte_at b (1 + n);
      let m := Z.to_nat m in
      details ← (if (0 <? m)%nat then
                   d ← cut b spare (2 + n) (2 + n + m); Coin_SetBytes d (drop (2 + n + m) (b ++ spare)) new_coin
                 else Ok (CoinDetails c));
      Ok (mkOutputCoin details enc)
  end.

(** ** Commitment *)

Context (PedCom_G : list EllipticPoint).

(** A nil field, or generators that are not five, is dereferenced. *)
Definition Coin_CommitAll (c : Coin) : outcome Coin :=
  lastByte ← Coin_GetPubKeyLastByte c;
  match PublicKey c, SNDerivator c, Randomness c with
  | Some pk, Some sn, Some r =>
      match Schnorr.CommitAll PedCom_G [0; Coin_Value c; sn; SetBytes [GetShardIDFromLastByte lastByte]; r] with
      | Some cm =>
          Ok (mkCoin (PublicKey c) (Some (Add cm pk)) (SNDerivator c) (SerialNumber c) (Randomness c)
                (Coin_Value c) (Info c))
      | None => Panic
      end
  | _, _, _ => Panic
  end.
End Serial.

(** ** Encryption of coins *)

Section Encryption.
Context {curve : Curve} {aes : Aes}.

Definition aes_key (key : bytes) : bool := ((length key =? 16) || (length key =? 24) || (length key =? 32))%nat.

Definition AES_encrypt (key iv plaintext : bytes) : outcome bytes :=
  if aes_key key then Ok (iv ++ aes_ctr key iv plaintext) else Err "crypto/aes: invalid key size".

Definition AES_decrypt (key : bytes) (ciphertext : list Z) : outcome bytes :=
  if (length ciphertext <? 16)%nat then Panic
  else if aes_key key then Ok (aes_ctr key (take 16 ciphertext) (drop 16 ciphertext))
  else Err "crypto/aes: invalid key size".

(** The random point whose abscissa is the key, the random scalar, the random vector. *)
Record Draw := mkDraw { draw_point : EllipticPoint; draw_scalar : Z; draw_iv : bytes }.

(** The key has no leading zeros. *)
Definition HybridEncrypt (d : Draw) (msg : bytes) (publicKey : EllipticPoint) : outcome Ciphertext :=
  m ← AES_encrypt (Bytes (X (draw_point d))) (draw_iv d) msg;
  Ok (mkCipher m (Schnorr.Ciphertext_Bytes (Schnorr.Encrypt publicKey (draw_scalar d) (draw_point d)))).

Definition HybridDecrypt (ciphertext : option Ciphertext) (privateKey : Z) : outcome bytes :=
  match ciphertext with
  | None => Panic
  | Some c =>
      if Ciphertext_IsNil c then Err "ciphertext must not be nil"
      else
        k ← Schnorr.Ciphertext_SetBytes (symKeyEncrypted c);
        match k with
        | None => Panic
        | Some k => p ← Schnorr.Decrypt privateKey k; AES_decrypt (Bytes (X p)) (msgEncrypted c)
        end
  end.

(** The randomness is not padded. *)
Definition coin_message (randomness value : Z) : bytes := Bytes randomness ++ Bytes value.

Definition OutputCoin_Encrypt (d : Draw) (recipientTK : bytes) (c : OutputCoin) : outcome OutputCoin :=
  match Randomness (CoinDetails c) with
  | None => Panic
  | Some r =>
      let msg := coin_message r (Coin_Value (CoinDetails c)) in
      pubKeyPoint ← decompressed recipientTK;
      e ← HybridEncrypt d msg pubKeyPoint;
      Ok (mkOutputCoin (CoinDetails c) (Some e))
  end.

(** The plaintext is a slice of its own, whose capacity is its length. *)
Definition OutputCoin_Decrypt (rk : bytes) (c : OutputCoin) : outcome OutputCoin :=
  msg ← HybridDecrypt (CoinDetailsEncrypted c) (SetBytes rk);
  if (length msg <? 32)%nat then Panic
  else
    let d := CoinDetails c in
    Ok (mkOutputCoin
          (mkCoin (PublicKey d) (CoinCommitment d) (SNDerivator d) (SerialNumber d)
             (Some (SetBytes (take 32 msg))) (u64 (SetBytes (drop 32 msg))) (Info d))
          (CoinDetailsEncrypted c)).
End Encryption.

(** ** Lemmas *)

Section Facts.
Context {curve : Curve} {sha : Sha256}.

Lemma Bytes_back x n : 0 <= x < 256 ^ Z.of_nat n ->
  SetBytes (Bytes x) = x /\ (length (Bytes x) <= n)%nat /\ Forall in_u8 (Bytes x) /\ (0 < x -> (0 < length (Bytes x))%nat).
Proof.
  intros Hx. unfold Bytes, Base58.big_bytes, SetBytes, be_value. pose proof (log2_fuel x ltac:(lia)) as Hf.
  rewrite rev_involutive, length_rev, le_value_radix, radix_digits_value by lia.
  split; [done|]. split; [rewrite (digits_fuel 256 _ n) by lia; apply digits_length|]. split.
  - apply Forall_rev. eapply Forall_impl; [apply radix_digits_range; lia|done].
  - intros Hpos. destruct (radix_digits _ _ x) eqn:E; [|cbn; lia].
    assert (radix_value 256 (radix_digits 256 (Z.to_nat (Z.log2 x + 1)) x) = x) as Hv by (apply radix_digits_value; lia).
      rewrite E in Hv. cbn in Hv. lia.
Qed.

Lemma decompress_prefix b junk q : length b = 33%nat -> Decompress (b ++ junk) q = Decompress b q.
Proof.
  intros Hl. destruct b as [|format b]; [done|]. injection Hl as Hl. unfold Decompress. cbn [app].
  destruct (Z.land format 254 =? PointCompressed); [|done]. cbn [length]. rewrite length_app, Hl.
  replace (S (32 + length junk) <? 33)%nat with false by (symmetry; apply Nat.ltb_ge; lia).
  change (33 <? 33)%nat with false. cbv iota. cbn [drop]. rewrite !drop_0.
  by rewrite take_app_length', (take_ge b) by lia.
Qed.

(** Fields read back in the middle of any data. *)
Lemma read_point_back pre p post spare :
  (forall q, p = Some q -> on_curve q) ->
  read_point (pre ++ point_field p ++ post) spare (length pre) None =
  Ok (p, (length pre + length (point_field p))%nat).
Proof.
  intros Hp. unfold read_point, point_field. destruct p as [q|].
  - specialize (Hp q eq_refl). destruct (compress_bytes q Hp) as [Hl _]. rewrite Hl.
    change (u8 (Z.of_nat 33)) with 33. cbn [app]. rewrite byte_at_app by done. cbn [mbind outcome_bind].
    change (33 =? 0) with false. cbv iota. change (Z.to_nat 33) with 33%nat.
    change (pre ++ 33 :: Compress q ++ post) with (pre ++ [33] ++ Compress q ++ post).
    rewrite (app_assoc pre).
    rewrite cut_app by (rewrite length_app, ?Hl; cbn; lia). cbn [mbind outcome_bind].
    replace (S (length pre)) with (length (pre ++ [33])) by (rewrite length_app; cbn; lia).
    rewrite <- app_assoc, drop_app_length. unfold decompressed. rewrite <- app_assoc, decompress_prefix by done.
    pose proof (decompress_compress q Hp) as Hd. unfold decompressed in Hd.
    destruct (Decompress (Compress q) infinity) as [? [?|?|]]; try discriminate. injection Hd as ->. cbn [mbind outcome_bind].
    rewrite length_app. cbn [length]. rewrite Hl. do 2 f_equal. lia.
  - cbn [app]. rewrite byte_at_app by done. cbn. do 2 f_equal. lia.
Qed.

Lemma read_int_back pre x post spare :
  (forall z, x = Some z -> 0 <= z < 2 ^ 256) ->
  read_int (pre ++ int_field x ++ post) spare (length pre) None = Ok (x, (length pre + length (int_field x))%nat).
Proof.
  intros Hx. unfold read_int, int_field. destruct x as [z|].
  - destruct (padded_bytes_ok z BigIntSize (Hx z eq_refl)) as (Hl & _ & Hv).
    change (u8 (Z.of_nat BigIntSize)) with 32. set (b := AddPaddingBigInt z BigIntSize) in *. cbn [app].
    rewrite byte_at_app by done. cbn [mbind outcome_bind]. change (32 =? 0) with false. cbv iota.
    change (Z.to_nat 32) with 32%nat. change BigIntSize with 32%nat in Hl.
    change (pre ++ 32 :: b ++ post) with (pre ++ [32] ++ b ++ post). rewrite (app_assoc pre).
    rewrite cut_app by (rewrite length_app, ?Hl; cbn; lia). cbn [mbind outcome_bind length].
    rewrite Hv, Hl. do 2 f_equal. lia.
  - cbn [app]. rewrite byte_at_app by done. cbn. do 2 f_equal. lia.
Qed.

Lemma read_value_back pre v post spare :
  in_u64 v -> read_value (pre ++ value_field v ++ post) spare (length pre) 0 =
    Ok (v, (length pre + length (value_field v))%nat).
Proof.
  intros Hv. unfold read_value, value_field. destruct (0 <? v) eqn:E.
  - apply Z.ltb_lt in E. destruct (Bytes_back v 8) as (Hset & Hl & _ & Hpos); [exact Hv|]. specialize (Hpos E).
    set (b := Bytes v) in *. rewrite u8_id by (unfold in_u8; lia). cbn [app].
    rewrite byte_at_app by done. cbn [mbind outcome_bind].
    replace (Z.of_nat (length b) =? 0) with false by (symmetry; apply Z.eqb_neq; lia). rewrite Nat2Z.id.
    change (pre ++ Z.of_nat (length b) :: b ++ post) with (pre ++ [Z.of_nat (length b)] ++ b ++ post). rewrite (app_assoc pre).
    rewrite cut_app by (rewrite length_app; cbn; lia). cbn [mbind outcome_bind length].
    rewrite Hset, u64_id by done. do 2 f_equal. lia.
  - apply Z.ltb_ge in E. unfold in_u64 in Hv. assert (v = 0) as -> by lia.
    cbn [app]. rewrite byte_at_app by done. cbn. do 2 f_equal. lia.
Qed.

Definition with_info (c : Coin) (info : bytes) : Coin :=
  mkCoin (PublicKey c) (CoinCommitment c) (SNDerivator c) (SerialNumber c) (Randomness c) (Coin_Value c) info.

Record coin_ok (c : Coin) : Prop := {
  ok_key p : PublicKey c = Some p -> on_curve p;
  ok_commitment p : CoinCommitment c = Some p -> on_curve p;
  ok_serial p : SerialNumber c = Some p -> on_curve p;
  ok_snd z : SNDerivator c = Some z -> 0 <= z < 2 ^ 256;
  ok_rand z : Randomness c = Some z -> 0 <= z < 2 ^ 256;
  ok_value : in_u64 (Coin_Value c)
}.

(** What is read where the info of a new coin is: nothing that is kept. *)
Lemma read_info_back pre info spare :
  read_info (pre ++ info_field info) spare (length pre) [] =
  match info with
  | first :: _ =>
      if (u8 (Z.of_nat (length info)) =? 0) || (Z.to_nat first <=? length info + length spare)%nat then Ok [] else Panic
  | [] => Ok []
  end.
Proof.
  unfold read_info, info_field. destruct info as [|first info]; [cbn [length Nat.ltb Nat.leb]; rewrite (byte_at_app pre [] 0 (length pre) eq_refl); reflexivity|].
  cbn [length Nat.ltb Nat.leb]. set (n := u8 _). rewrite (byte_at_app pre (first :: info) n (length pre) eq_refl). cbn [mbind outcome_bind].
  destruct (n =? 0); [done|]. cbn [orb].
  change (pre ++ n :: first :: info) with (pre ++ [n] ++ first :: info). rewrite (app_assoc pre).
  rewrite byte_at_app by (rewrite length_app; cbn; lia). cbn [mbind outcome_bind]. unfold cut.
  rewrite !length_app. cbn [length].
  replace (S (length pre) <=? S (length pre) + Z.to_nat first)%nat with true by (symmetry; apply Nat.leb_le; lia).
  replace (S (length pre) + Z.to_nat first <=? length pre + 1 + S (length info) + length spare)%nat
    with (Z.to_nat first <=? S (length info) + length spare)%nat.
  - cbn [andb]. destruct (_ <=? _)%nat; [|done]. cbn [mbind outcome_bind]. unfold copy_into. by rewrite drop_nil.
  - destruct (Nat.leb_spec (Z.to_nat first) (S (length info) + length spare)); symmetry; [apply Nat.leb_le|apply Nat.leb_gt]; lia.
Qed.

Lemma coin_back c spare : coin_ok c ->
  Coin_SetBytes (Coin_Bytes c) spare new_coin =
  match Info c with
  | first :: _ =>
      if (u8 (Z.of_nat (length (Info c))) =? 0) || (Z.to_nat first <=? length (Info c) + length spare)%nat
      then Ok (with_info c []) else Panic
  | [] => Ok c
  end.
Proof.
  intros [H1 H2 H3 H4 H5 H6]. unfold Coin_SetBytes, Coin_Bytes.
  set (f1 := point_field _). set (f2 := point_field _). set (f3 := int_field _). set (f4 := point_field _).
  set (f5 := int_field _). set (f6 := value_field _). set (f7 := info_field _).
  assert (exists x l, f1 ++ f2 ++ f3 ++ f4 ++ f5 ++ f6 ++ f7 = x :: l) as (x & l & E)
    by (unfold f1, point_field; destruct (PublicKey c); by eexists _, _).
  rewrite E, <- E. clear x l E. cbn [new_coin PublicKey CoinCommitment SNDerivator SerialNumber Randomness Coin_Value Info].
  pose proof (read_point_back [] (PublicKey c) (f2 ++ f3 ++ f4 ++ f5 ++ f6 ++ f7) spare H1) as R. fold f1 in R. cbn [app length Nat.add] in R.
  rewrite R. cbn [mbind outcome_bind]. clear R.
  pose proof (read_point_back f1 (CoinCommitment c) (f3 ++ f4 ++ f5 ++ f6 ++ f7) spare H2) as R. fold f2 in R.
  rewrite R. cbn [mbind outcome_bind]. clear R. rewrite <- length_app, app_assoc.
  pose proof (read_int_back (f1 ++ f2) (SNDerivator c) (f4 ++ f5 ++ f6 ++ f7) spare H4) as R. fold f3 in R.
  rewrite R. cbn [mbind outcome_bind]. clear R. rewrite <- length_app, app_assoc.
  pose proof (read_point_back ((f1 ++ f2) ++ f3) (SerialNumber c) (f5 ++ f6 ++ f7) spare H3) as R. fold f4 in R.
  rewrite R. cbn [mbind outcome_bind]. clear R. rewrite <- length_app, app_assoc.
  pose proof (read_int_back (((f1 ++ f2) ++ f3) ++ f4) (Randomness c) (f6 ++ f7) spare H5) as R. fold f5 in R.
  rewrite R. cbn [mbind outcome_bind]. clear R. rewrite <- length_app, app_assoc.
  pose proof (read_value_back ((((f1 ++ f2) ++ f3) ++ f4) ++ f5) (Coin_Value c) f7 spare H6) as R. fold f6 in R.
  rewrite R. cbn [mbind outcome_bind]. clear R. rewrite <- length_app, app_assoc. unfold f7.
  rewrite read_info_back. destruct (Info c) as [|first info] eqn:Ei; [cbn [mbind outcome_bind]; by destruct c; cbn in *; subst|].
  by destruct (_ || _).
Qed.

(** The bytes of a coin without info lead back to the coin, whatever follows them in
    memory.  Info does not come back: its first byte is read as its length, which ends in a
    panic where that is more than the memory behind the coin, and otherwise the info is
    copied into a slice without room. *)
Theorem coin_roundtrip (c : Coin) (spare : bytes) (Hc : coin_ok c) :
  Coin_SetBytes (Coin_Bytes c) spare new_coin =
  match Info c with
  | first :: _ =>
      if (u8 (Z.of_nat (length (Info c))) =? 0) || (Z.to_nat first <=? length (Info c) + length spare)%nat
      then Ok (with_info c []) else Panic
  | [] => Ok c
  end.
Proof. by apply coin_back. Qed.

Lemma cipher_back e spare : length (symKeyEncrypted e) = 66%nat ->
  Cipher_SetBytes (symKeyEncrypted e ++ msgEncrypted e) spare = Ok e.
Proof.
  destruct e as [m k]. cbn [symKeyEncrypted msgEncrypted]. intros Hk.
  assert (Cipher_SetBytes (k ++ m) spare = (key ← cut (k ++ m) spare 0 66;
    if (length (k ++ m) <? 66)%nat then Panic else Ok (mkCipher (drop 66 (k ++ m)) key))) as -> by by destruct k.
  pose proof (cut_app [] k m spare 0 66 eq_refl) as Hcut. cbn [app length] in Hcut. rewrite Hcut by lia.
  cbn [mbind outcome_bind]. rewrite length_app, Hk.
  replace (66 + _ <? 66)%nat with false by (symmetry; apply Nat.ltb_ge; lia). by rewrite drop_app_length'.
Qed.

(** The bytes of an output coin lead back to it while a byte holds the lengths of its parts. *)
Lemma output_coin_back (c : OutputCoin) spare :
  coin_ok (CoinDetails c) -> Info (CoinDetails c) = [] -> (length (Coin_Bytes (CoinDetails c)) < 256)%nat ->
  (forall e, CoinDetailsEncrypted c = Some e ->
    length (symKeyEncrypted e) = 66%nat /\ (0 < length (msgEncrypted e) < 190)%nat) ->
  OutputCoin_SetBytes (OutputCoin_Bytes c) spare (mkOutputCoin new_coin None) = Ok c.
Proof.
  intros Hc Hinfo Hlen Henc. destruct c as [d e]. cbn [CoinDetails CoinDetailsEncrypted] in *.
  assert (0 < length (Coin_Bytes d))%nat as Hpos
    by (unfold Coin_Bytes, point_field; destruct (PublicKey d); cbn; lia).
  assert (forall pre spare', let m := u8 (Z.of_nat (length (Coin_Bytes d))) in
    byte_at (pre ++ m :: Coin_Bytes d) (length pre) = Ok m /\ Z.to_nat m = length (Coin_Bytes d) /\
    cut (pre ++ m :: Coin_Bytes d) spare' (S (length pre)) (S (length pre) + length (Coin_Bytes d)) = Ok (Coin_Bytes d)) as Hread.
  { intros pre spare' m. split; [by rewrite byte_at_app|]. split; [unfold m; rewrite u8_id; unfold in_u8; lia|].
    change (pre ++ m :: Coin_Bytes d) with (pre ++ [m] ++ Coin_Bytes d). rewrite <- (app_nil_r (Coin_Bytes d)) at 1.
    rewrite (app_assoc pre). rewrite cut_app by (rewrite length_app; cbn; lia). done. }
  pose proof (coin_back d) as Hback. rewrite Hinfo in Hback.
  unfold OutputCoin_Bytes, OutputCoin_SetBytes. cbn [CoinDetails CoinDetailsEncrypted].
  destruct e as [e|].
  - destruct (Henc e eq_refl) as [Hs Hm]. unfold Cipher_Bytes, Ciphertext_IsNil.
    replace (_ || _) with false by (symmetry; apply orb_false_intro; apply Nat.eqb_neq; lia).
    set (eb := symKeyEncrypted e ++ msgEncrypted e).
    assert (length eb = 66 + length (msgEncrypted e))%nat as Heb by (unfold eb; rewrite length_app; lia).
    set (n := u8 (Z.of_nat (length eb))). assert (Z.to_nat n = length eb) as Hn by (unfold n; rewrite u8_id; unfold in_u8; lia).
    change ((n :: eb) ++ ?l) with (n :: eb ++ l). destruct (Hread (n :: eb) spare) as (B & M & C). cbn zeta in B, M, C.
    set (m := u8 (Z.of_nat (length (Coin_Bytes d)))) in *. cbn [app length] in B, C.
    change (byte_at (n :: ?l) 0) with (Ok n). cbn [mbind outcome_bind]. rewrite Hn.
    replace (0 <? length eb)%nat with true by (symmetry; apply Nat.ltb_lt; lia).
    assert (cut (n :: eb ++ m :: Coin_Bytes d) spare 1 (1 + length eb) = Ok eb) as ->.
    { change (n :: eb ++ m :: Coin_Bytes d) with ([n] ++ eb ++ m :: Coin_Bytes d). by rewrite (cut_app [n] eb) by (cbn; lia). }
    cbn [mbind outcome_bind].
    assert (forall sp, Cipher_SetBytes eb sp = Ok e) as ->.
    { intros sp. unfold eb. by apply cipher_back. }
    cbn [mbind outcome_bind]. change (1 + length eb)%nat with (S (length eb)). rewrite B. cbn [mbind outcome_bind]. rewrite M.
    replace (0 <? length (Coin_Bytes d))%nat with true by (symmetry; apply Nat.ltb_lt; lia).
    change (2 + length eb)%nat with (S (S (length eb))). rewrite C. cbn [mbind outcome_bind]. by rewrite Hback.
  - destruct (Hread [0] spare) as (B & M & C). cbn zeta in B, M, C. set (m := u8 (Z.of_nat (length (Coin_Bytes d)))) in *.
    cbn [app length] in B, C |- *. change (byte_at (0 :: ?l) 0) with (Ok 0). cbn [mbind outcome_bind].
    change (Z.to_nat 0) with 0%nat. change (0 <? 0)%nat with false. cbv iota. cbn [mbind outcome_bind Nat.add]. rewrite B. cbn [mbind outcome_bind].
    rewrite M. replace (0 <? length (Coin_Bytes d))%nat with true by (symmetry; apply Nat.ltb_lt; lia).
    cbn [Nat.add] in C. rewrite C. cbn [mbind outcome_bind]. by rewrite Hback.
Qed.
End Facts.

(** ** Encryption and decryption *)

Section Encrypted.
Context {curve : Curve} {aes : Aes}.

Lemma SetBytes_bound b : Forall in_u8 b -> 0 <= SetBytes b < 256 ^ Z.of_nat (length b).
Proof. intros Hb. unfold SetBytes, be_value. apply Forall_rev, le_value_range in Hb. by rewrite length_rev in Hb. Qed.

Lemma message_ok r v : 0 <= r < 2 ^ 256 -> in_u64 v ->
  Forall in_u8 (coin_message r v) /\
  (2 ^ 248 <= r -> (32 <= length (coin_message r v))%nat /\
    SetBytes (take 32 (coin_message r v)) = r /\ SetBytes (drop 32 (coin_message r v)) = v) /\
  (r < 2 ^ 248 -> (length (coin_message r v) < 32)%nat \/ SetBytes (take 32 (coin_message r v)) <> r).
Proof.
  intros Hr Hv. unfold coin_message.
  destruct (Bytes_back r 32 Hr) as (Sr & Lr & Rr & Pr). destruct (Bytes_back v 8 Hv) as (Sv & Lv & Rv & Pv).
  pose proof (SetBytes_bound _ Rr) as Br. split; [by apply Forall_app_2|]. split.
  - intros Hbig. assert (length (Bytes r) = 32)%nat as El.
    { destruct (decide (length (Bytes r) <= 31)%nat) as [Hle|]; [|lia]. exfalso. rewrite Sr in Br.
      assert (256 ^ Z.of_nat (length (Bytes r)) <= 256 ^ 31) by (apply Z.pow_le_mono_r; lia). lia. }
    rewrite take_app_length', drop_app_length', length_app by done. split; [lia|done].
  - intros Hsmall. rewrite length_app. destruct (decide (length (Bytes r) + length (Bytes v) < 32)%nat) as [|Hlen]; [by left|].
    right. assert (length (Bytes r) <= 31)%nat as Hl31.
    { destruct (Bytes_back r 31) as (_ & H & _); [split; [apply Hr|exact Hsmall]|done]. }
    assert (0 < r) as Hpos.
    { destruct (decide (r = 0)) as [->|]; [|lia]. change (length (Bytes 0)) with 0%nat in Hlen. lia. }
    rewrite take_app_ge by lia. rewrite MultiSig.be_value_app, Sr, length_take.
    assert (0 <= SetBytes (take (32 - length (Bytes r)) (Bytes v))) by by apply SetBytes_bound, Forall_take.
    assert (256 ^ 1 <= 256 ^ Z.of_nat ((32 - length (Bytes r)) `min` length (Bytes v))) by (apply Z.pow_le_mono_r; lia). nia.
Qed.

(** A coin that is encrypted to an address is decrypted with its receiving key, provided the
    randomness fills its 32 bytes.  Smaller randomness is written without its leading zeros:
    decryption panics or finds another randomness.  Where the abscissa that is drawn for a
    key is not 16, 24 or 32 bytes long, encryption fails. *)
Theorem coin_encryption (d : Draw) (rk : bytes) (c : OutputCoin) (r : Z)
    (Hrk : 0 < SetBytes rk < curve_N) (Hr : Randomness (CoinDetails c) = Some r) (Hr256 : 0 <= r < 2 ^ 256)
    (Hv : in_u64 (Coin_Value (CoinDetails c))) (Hpoint : on_curve (draw_point d))
    (Hscalar : 0 < draw_scalar d < curve_N) (Hiv : length (draw_iv d) = 16%nat)
    (Hc2 : Add (draw_point d) (ScalarMult (ScalarMult curve_G (draw_scalar d)) (SetBytes rk)) <> infinity) :
  if aes_key (Bytes (X (draw_point d))) then
    exists e, let c' := mkOutputCoin (CoinDetails c) (Some e) in
      OutputCoin_Encrypt d (GenerateTransmissionKey rk) c = Ok c' /\
      (2 ^ 248 <= r -> OutputCoin_Decrypt rk c' = Ok c') /\
      (r < 2 ^ 248 -> OutputCoin_Decrypt rk c' = Panic \/
        exists c'' r'', OutputCoin_Decrypt rk c' = Ok c'' /\ Randomness (CoinDetails c'') = Some r'' /\ r'' <> r)
  else OutputCoin_Encrypt d (GenerateTransmissionKey rk) c = Err "crypto/aes: invalid key size"%string.
Proof.
  destruct (Schnorr.shared_key _ _ Hrk Hscalar) as (H1 & H2 & Hshared).
  destruct (message_ok r _ Hr256 Hv) as (Hmsg & Hbig & Hsmall). set (msg := coin_message _ _) in *.
  set (key := Bytes (X (draw_point d))). unfold OutputCoin_Encrypt. rewrite Hr. fold msg.
  unfold GenerateTransmissionKey. rewrite decompress_compress by by apply public_on. cbn [mbind outcome_bind].
  unfold HybridEncrypt, AES_encrypt. fold key. destruct (aes_key key) eqn:Ek; [|done].
  set (k := Schnorr.Encrypt _ _ _). eexists. split; [done|].
  assert (on_curve (Schnorr.C2 k)) as Hk2.
  { unfold k, Schnorr.Encrypt. cbn [Schnorr.C2]. unfold Schnorr.GenPubKey in Hshared. rewrite Hshared.
    destruct (Add_valid (draw_point d) (ScalarMult (ScalarMult curve_G (draw_scalar d)) (SetBytes rk))); auto using on_valid.
    done. }
  destruct (Schnorr.ciphertext_back k) as [Hback Hlk]; [exact H1|done|].
  assert (OutputCoin_Decrypt rk (mkOutputCoin (CoinDetails c)
      (Some (mkCipher (draw_iv d ++ aes_ctr key (draw_iv d) msg) (Schnorr.Ciphertext_Bytes k)))) =
    (if (length msg <? 32)%nat then Panic else
     Ok (mkOutputCoin (mkCoin (PublicKey (CoinDetails c)) (CoinCommitment (CoinDetails c)) (SNDerivator (CoinDetails c))
           (SerialNumber (CoinDetails c)) (Some (SetBytes (take 32 msg))) (u64 (SetBytes (drop 32 msg))) (Info (CoinDetails c)))
        (Some (mkCipher (draw_iv d ++ aes_ctr key (draw_iv d) msg) (Schnorr.Ciphertext_Bytes k)))))) as Hdec.
  { unfold OutputCoin_Decrypt, HybridDecrypt. cbn [CoinDetailsEncrypted CoinDetails]. unfold Ciphertext_IsNil.
    cbn [msgEncrypted symKeyEncrypted]. rewrite length_app, Hiv, Hlk. cbn [Nat.add Nat.eqb orb]. rewrite Hback.
    cbn [mbind outcome_bind].
    pose proof (Schnorr.decrypt_encrypt (SetBytes rk) (draw_scalar d) (draw_point d) Hrk Hscalar (on_valid _ Hpoint)) as Hd.
    unfold Schnorr.GenPubKey in Hd. fold k in Hd. rewrite Hd. cbn [mbind outcome_bind].
    unfold AES_decrypt. fold key. rewrite length_app, Hiv.
    replace (16 + _ <? 16)%nat with false by (symmetry; apply Nat.ltb_ge; lia). rewrite Ek.
    rewrite take_app_length', drop_app_length', aes_involutive by done. done. }
  rewrite Hdec. split.
  - intros (Hl & Ht & Hdr)%Hbig. replace (_ <? 32)%nat with false by (symmetry; apply Nat.ltb_ge; lia).
    rewrite Ht, Hdr, u64_id, <- Hr by done. by destruct (CoinDetails c).
  - intros [Hl|Hne]%Hsmall.
    + left. by replace (_ <? 32)%nat with true by (symmetry; apply Nat.ltb_lt; lia).
    + destruct (_ <? _)%nat; [by left|]. right. eexists _, _. by split.
Qed.
End Encrypted.

(** A coin as the shards see it; [P] and [F] are the rest of a proof and of a transaction. *)
Definition output_coin_ops {curve : Curve} (P F : Type) : OutputCoinOps OutputCoin := {|
  GetPubKeyLastByte := fun c => match Coin_GetPubKeyLastByte (CoinDetails c) with Ok b => b | _ => 0 end;
  coin_bytes := OutputCoin_Bytes;
  InCoin := InputCoin;
  ProofRest := P;
  TxRest := F
|}.

(** ** Concrete inputs *)

Section Samples.
Import Sha256Impl SmallCurve.

Definition sample_coin : Coin :=
  mkCoin (Some (mkPoint 5 2)) None (Some 9) (Some (mkPoint 4 3)) (Some (2 ^ 250)) 700 [200; 1].

Lemma sample_coin_ok : coin_ok sample_coin.
Proof.
  split; cbn; try done;
    first [intros p [= <-]; split; [|split]; [vm_compute; split; congruence..|vm_compute; reflexivity]
          | intros z [= <-]; lia | unfold in_u64; lia].
Qed.

(** The info begins with 200, and 3 bytes follow the coin in memory. *)
Lemma coin_roundtrip_witness : Coin_SetBytes (Coin_Bytes sample_coin) [0; 0; 0] new_coin = Panic.
Proof. apply (coin_roundtrip sample_coin [0; 0; 0]), sample_coin_ok. Defined.

Example coin_without_info :
  Coin_SetBytes (Coin_Bytes (with_info sample_coin [])) [] new_coin = Ok (with_info sample_coin []).
Proof. vm_compute. reflexivity. Qed.

(** A constant stream. *)
#[local] Instance toy_aes : Aes.
Proof.
  refine {| aes_ctr := fun _ _ text => map (Z.lxor 90) text |}.
  - intros key iv text _. rewrite map_map. erewrite map_ext; [apply map_id|].
    intros x. by rewrite <- Z.lxor_assoc, Z.lxor_nilpotent, Z.lxor_0_l.
  - intros. apply length_map.
Defined.

Definition sample_draw : Draw := mkDraw (mkPoint 5 2) 4 (replicate 16 0).

(** The abscissas of the small curve are too short for a key. *)
Lemma coin_encryption_witness :
  OutputCoin_Encrypt sample_draw (GenerateTransmissionKey [3]) (mkOutputCoin sample_coin None) =
  Err "crypto/aes: invalid key size"%string.
Proof.
  apply (coin_encryption sample_draw [3] (mkOutputCoin sample_coin None) (2 ^ 250)).
  - vm_compute. split; reflexivity.
  - reflexivity.
  - lia.
  - unfold in_u64. cbn. lia.
  - split; [|split]; [vm_compute; split; congruence..|vm_compute; reflexivity].
  - vm_compute. split; reflexivity.
  - reflexivity.
  - vm_compute. discriminate.
Defined.
End Samples.
End Coins.
