(* ===== verification/Committee.v ===== *)
(** Committees and candidates: the queue discipline of validators, the assignment of
    candidates to shards and the filters on stakers (the utilities at the end of
    src/blockchain/beaconprocess.go, [CreateSwapAction] of src/blockchain/shardutils.go,
    [GetValidStaker] of src/metadata/staking.go). *)

From S2P Require Import Prelude GoStr Hash Sha256.

#[local] Open Scope string_scope.
#[local] Open Scope list_scope.
#[local] Open Scope Z_scope.

Module Committee.
Import Hashes.

(** ** Slices *)

(** [l[:n]] and [l[n:]]. *)
Definition slice_to {A} (n : Z) (l : list A) : outcome (list A) :=
  if (0 <=? n) && (n <=? Z.of_nat (length l)) then Ok (take (Z.to_nat n) l) else Panic.

Definition slice_from {A} (n : Z) (l : list A) : outcome (list A) :=
  if (0 <=? n) && (n <=? Z.of_nat (length l)) then Ok (drop (Z.to_nat n) l) else Panic.

Lemma slice_to_ok {A} n (l : list A) : (n <= length l)%nat -> slice_to (Z.of_nat n) l = Ok (take n l).
Proof. intros. unfold slice_to. cmp. simpl. by rewrite Nat2Z.id. Qed.

Lemma slice_from_ok {A} n (l : list A) : (n <= length l)%nat -> slice_from (Z.of_nat n) l = Ok (drop n l).
Proof. intros. unfold slice_from. cmp. simpl. by rewrite Nat2Z.id. Qed.

(** ** Swapping *)

(** The remaining pending validators, the new committee, the validators swapped out, the
    incoming ones, and the error. *)
Record SwapResult := mkSwap {
  sw_pending : list string;
  sw_current : list string;
  sw_swapped : list string;
  sw_incoming : list string;
  sw_error : option string
}.

(** The part after the committee has been filled up. *)
Definition swap_full (pendingValidators currentValidators tempValidators : list string)
    (maxCommittee offset : Z) : outcome SwapResult :=
  swapValidator ← slice_to offset currentValidators;
  currentValidators ← slice_from offset currentValidators;
  incoming ← slice_to offset pendingValidators;
  let tempValidators := tempValidators ++ incoming in
  let currentValidators := currentValidators ++ incoming in
  pendingValidators ← slice_from offset pendingValidators;
  if maxCommittee <? Z.of_nat (length currentValidators) then Panic
  else Ok (mkSwap pendingValidators currentValidators swapValidator tempValidators None).

(** In the branch where the committee takes [diff] of the validators without letting any
    go, the code declares a second [tempValidators]: the one it returns stays empty. *)
Definition SwapValidator (pendingValidators currentValidators : list string)
    (maxCommittee offset : Z) : outcome SwapResult :=
  if (maxCommittee <? 0) || (offset <? 0) then Panic
  else if offset =? 0 then
    Ok (mkSwap [] pendingValidators currentValidators [] (Some "can't not swap 0 validator"))
  else
    let offset := if Z.of_nat (length pendingValidators) <? offset
                  then Z.of_nat (length pendingValidators) else offset in
    if offset =? 0 then
      Ok (mkSwap pendingValidators currentValidators [] [] (Some "no pending validator for swapping"))
    else if maxCommittee <? offset then
      Ok (mkSwap pendingValidators currentValidators [] [] (Some "trying to swap too many validator"))
    else if Z.of_nat (length currentValidators) <? maxCommittee then
      let diff := maxCommittee - Z.of_nat (length currentValidators) in
      if offset <=? diff then
        tempValidators ← slice_to offset pendingValidators;
        pendingValidators ← slice_from offset pendingValidators;
        Ok (mkSwap pendingValidators (currentValidators ++ tempValidators) [] tempValidators None)
      else
        filled ← slice_to diff pendingValidators;
        pendingValidators ← slice_from diff pendingValidators;
        swap_full pendingValidators (currentValidators ++ filled) [] maxCommittee (offset - diff)
    else swap_full pendingValidators currentValidators [] maxCommittee offset.

(** The instruction with the validators coming in and going out. *)
Definition CreateSwapAction (pendingValidator commitees : list string) (committeeSize shardID : Z) :
    outcome (list string * list string * list string) :=
  r ← SwapValidator pendingValidator commitees committeeSize OFFSET;
  match sw_error r with
  | Some e => Err e
  | None => Ok (["swap"; Join (sw_incoming r); Join (sw_swapped r); "shard"; Itoa shardID],
                sw_pending r, sw_current r)
  end.

(** ** Removing *)

(** Each step takes the first element off and compares at an index that moves on; the
    list is returned as far as it got, with the error. *)
Fixpoint remove_validators (index : nat) (removed validators : list string) :
    outcome (list string * option string) :=
  match removed with
  | [] => Ok (validators, None)
  | validator :: rest =>
      match validators !! index with
      | None => Panic
      | Some v =>
          if decide (v = validator) then remove_validators (S index) rest (drop 1 validators)
          else Ok (validators, Some "remove Validator with Wrong Format")
      end
  end.

Definition RemoveValidator (validators removedValidators : list string) :
    outcome (list string * option string) :=
  if (length validators <? length removedValidators)%nat
  then Ok (validators, Some "trying to remove too many validators")
  else remove_validators 0 removedValidators validators.

(** ** Assigning and shuffling *)

Section Assign.
Context {sha : Sha256}.

(** [activeShards = 0] divides by zero. *)
Definition calculateCandidateShardID (candidate : string) (rand activeShards : Z) : outcome Z :=
  let hash := Sum256 (bytes_of (candidate +:+ Itoa rand)) in
  match last hash with
  | None => Panic
  | Some b => if activeShards =? 0 then Panic else Ok (u8 (Z.rem b activeShards))
  end.

Fixpoint AssignValidatorShard (currentCandidates : gmap Z (list string))
    (shardCandidates : list string) (rand activeShards : Z) : outcome (gmap Z (list string)) :=
  match shardCandidates with
  | [] => Ok currentCandidates
  | candidate :: rest =>
      shardID ← calculateCandidateShardID candidate rand activeShards;
      AssignValidatorShard
        (<[shardID := map_get_list currentCandidates shardID ++ [candidate]]> currentCandidates)
        rest rand activeShards
  end.

Definition AssignValidator (candidates : list string) (rand activeShards : Z) :
    outcome (gmap Z (list string)) :=
  AssignValidatorShard ∅ candidates rand activeShards.

Definition VerifyValidator (candidate : string) (rand shardID activeShards : Z) : outcome bool :=
  res ← calculateCandidateShardID candidate rand activeShards; Ok (shardID =? res).

(** The hashes are sorted, but the result is read off the map from hashes to candidates
    in Go's random iteration order; [order] is the order of one run. *)
Definition shuffle_map (candidates : list string) (rand : Z) : gmap bytes string :=
  foldl (fun m candidate => <[Sum256 (bytes_of (candidate +:+ Itoa rand)) := candidate]> m)
    ∅ candidates.

Definition ShuffleCandidate (order : list string -> list string) (candidates : list string)
    (rand : Z) : outcome (list string) :=
  Ok (order (map_to_list (shuffle_map candidates rand)).*2).
End Assign.

(** ** Stakers *)

Definition GetValidStaker (committees stakers : list string) : list string :=
  filter (fun staker => ~ (staker ∈ committees)) stakers.

(** ** What they compute *)

Lemma swap_full_ok pending current (maxCommittee : Z) n :
  (n <= length current)%nat -> (n <= length pending)%nat ->
  Z.of_nat (length current) <= maxCommittee ->
  swap_full pending current [] maxCommittee (Z.of_nat n) =
    Ok (mkSwap (drop n pending) (drop n current ++ take n pending) (take n current)
          (take n pending) None).
Proof.
  intros Hc Hp Hmax. unfold swap_full.
  rewrite !slice_to_ok, !slice_from_ok by done. simpl.
  rewrite length_app, length_drop, length_take. cmp. done.
Qed.

Lemma swap_full_panic pending current (maxCommittee : Z) n :
  (n <= length current)%nat -> (n <= length pending)%nat ->
  maxCommittee < Z.of_nat (length current) ->
  swap_full pending current [] maxCommittee (Z.of_nat n) = Panic.
Proof.
  intros Hc Hp Hmax. unfold swap_full.
  rewrite !slice_to_ok, !slice_from_ok by done. simpl.
  rewrite length_app, length_drop, length_take. cmp. done.
Qed.

(** [SwapValidator] on every branch.  With [k] the number of validators to bring in
    and [out] the number that no longer fits, it moves the first [k] pending validators
    to the end of the committee and lets the first [out] of the committee go; it panics
    exactly when the committee is already too large.  The incoming list it reports is
    complete unless the committee had some room, but not enough. *)
Theorem swap_validator_spec (pending current : list string) (maxCommittee offset : Z) :
  0 <= maxCommittee -> 0 < offset ->
  let k := Nat.min (Z.to_nat offset) (length pending) in
  let out := Z.to_nat (Z.of_nat (length current + k) - maxCommittee) in
  let room := Z.to_nat (maxCommittee - Z.of_nat (length current)) in
  SwapValidator pending current maxCommittee offset =
    if (k =? 0)%nat then
      Ok (mkSwap pending current [] [] (Some "no pending validator for swapping"))
    else if maxCommittee <? Z.of_nat k then
      Ok (mkSwap pending current [] [] (Some "trying to swap too many validator"))
    else if maxCommittee <? Z.of_nat (length current) then Panic
    else Ok (mkSwap (drop k pending) (drop out current ++ take k pending) (take out current)
               (if (k <=? room)%nat then take k pending else drop room (take k pending)) None).
Proof.
  intros Hmax Hoff k out room. unfold SwapValidator. rewrite (proj2 (Z.ltb_ge _ _)) by done.
  rewrite (proj2 (Z.ltb_ge offset 0)) by lia. simpl orb. cbv iota.
  rewrite (proj2 (Z.eqb_neq offset 0)) by lia.
  assert ((if Z.of_nat (length pending) <? offset then Z.of_nat (length pending) else offset)
          = Z.of_nat k) as ->.
  { unfold k. destruct (_ <? _) eqn:?; to_prop; lia. }
  assert (k <= length pending)%nat as Hk by (unfold k; lia). clearbody k.
  destruct (k =? 0)%nat eqn:Hk0; [apply Nat.eqb_eq in Hk0 as ->; done|].
  apply Nat.eqb_neq in Hk0. rewrite (proj2 (Z.eqb_neq (Z.of_nat k) 0)) by lia.
  destruct (maxCommittee <? Z.of_nat k) eqn:Hkmax; [done|]. to_prop.
  destruct (Z.of_nat (length current) <? maxCommittee) eqn:Hroom; to_prop.
  - rewrite (proj2 (Z.ltb_ge maxCommittee _)) by lia. fold room.
    destruct (Z.of_nat k <=? _) eqn:Hfit; to_prop.
    + rewrite slice_to_ok, slice_from_ok by done. simpl.
      assert (out = 0%nat) as -> by (unfold out; lia).
      by rewrite (proj2 (Nat.leb_le _ _)) by (unfold room; lia).
    + replace (maxCommittee - Z.of_nat (length current)) with (Z.of_nat room) by (unfold room; lia).
      rewrite slice_to_ok, slice_from_ok by (unfold room; lia). simpl.
      replace (Z.of_nat k - Z.of_nat room) with (Z.of_nat (k - room)) by (unfold room; lia).
      rewrite (proj2 (Nat.leb_gt _ _)) by (unfold room; lia).
      rewrite swap_full_ok; rewrite ?length_app, ?length_take, ?length_drop; try (unfold room; lia).
      assert (out = (k - room)%nat) as -> by (unfold out, room; lia).
      rewrite drop_drop. replace (room + (k - room))%nat with k by (unfold room; lia).
      rewrite drop_app_le, take_app_le by (unfold room; lia).
      rewrite <- app_assoc. do 2 f_equal.
      * f_equal. replace k with (room + (k - room))%nat at 2 by (unfold room; lia).
        by rewrite take_take_drop.
      * replace k with (room + (k - room))%nat at 2 by (unfold room; lia).
        by rewrite <- take_drop_commute.
  - destruct (maxCommittee <? Z.of_nat (length current)) eqn:Hbig; to_prop.
    + apply swap_full_panic; lia.
    + rewrite swap_full_ok by lia. assert (out = k) as -> by (unfold out; lia).
      rewrite (proj2 (Nat.leb_gt _ _)) by (unfold room; lia).
      assert (room = 0%nat) as -> by (unfold room; lia). done.
Qed.

Lemma swap_validator_spec_witness :
  SwapValidator ["x"; "y"; "z"] ["a"; "b"; "c"] 4 2 =
    Ok (mkSwap ["z"] ["b"; "c"; "x"; "y"] ["a"] ["y"] None).
Proof.
  pose proof (swap_validator_spec ["x"; "y"; "z"] ["a"; "b"; "c"] 4 2
    ltac:(lia) ltac:(lia)) as H. exact H.
Defined.

(** ** Removing *)

Lemma remove_validators_ok index removed validators r :
  remove_validators index removed validators = Ok (r, None) <->
  r = drop (length removed) validators /\
  forall i v, removed !! i = Some v -> validators !! (index + 2 * i)%nat = Some v.
Proof.
  revert index validators. induction removed as [|v0 removed IH]; intros index validators; cbn [remove_validators length].
  - rewrite drop_0. split; [intros [= ->]|intros [-> _]]; [|done]. split; [done|]. intros ? ? [=].
  - destruct (validators !! index) as [v|] eqn:Hv.
    + destruct (decide (v = v0)) as [->|Hne].
      * rewrite IH, drop_drop. split.
        -- intros [-> H]. split; [done|]. intros [|i] w Hw; simpl in Hw.
           ++ injection Hw as <-. rewrite <- Hv. f_equal. lia.
           ++ specialize (H i w Hw). rewrite lookup_drop in H. rewrite <- H. f_equal. lia.
        -- intros [-> H]. split; [done|]. intros i w Hw. rewrite lookup_drop.
           rewrite <- (H (S i) w Hw). f_equal. lia.
      * split; [done|]. intros [_ H]. specialize (H 0%nat v0 eq_refl).
        replace (index + 2 * 0)%nat with index in H by lia. congruence.
    + split; [done|]. intros [_ H]. specialize (H 0%nat v0 eq_refl).
      replace (index + 2 * 0)%nat with index in H by lia. congruence.
Qed.

(** [RemoveValidator] succeeds exactly when the validators to remove are those at the
    positions [0, 2, 4, ...], and it then drops as many from the front. *)
Theorem remove_validator_spec (validators removedValidators r : list string) :
  RemoveValidator validators removedValidators = Ok (r, None) <->
  r = drop (length removedValidators) validators /\
  forall i v, removedValidators !! i = Some v -> validators !! (2 * i)%nat = Some v.
Proof.
  unfold RemoveValidator. destruct (Nat.ltb_spec (length validators) (length removedValidators)).
  - split; [done|]. intros [_ Hall].
    destruct (lookup_lt_is_Some_2 removedValidators (length removedValidators - 1)) as [v Hv]; [lia|].
    specialize (Hall _ _ Hv). apply lookup_lt_Some in Hall. lia.
  - apply (remove_validators_ok 0).
Qed.

(** What the comment asks for, removing validators that are the first of the list, is
    refused for more than one: the second comparison looks one position too far. *)
Theorem remove_prefix_rejected (v1 v2 : string) (removed rest : list string) :
  NoDup (v1 :: v2 :: removed ++ rest) ->
  RemoveValidator (v1 :: v2 :: removed ++ rest) (v1 :: v2 :: removed) =
    match removed ++ rest with
    | [] => Panic
    | l => Ok (v2 :: l, Some "remove Validator with Wrong Format")
    end.
Proof.
  intros Hnd. unfold RemoveValidator. simpl length. rewrite length_app.
  rewrite (proj2 (Nat.ltb_ge _ _)) by lia. simpl. rewrite decide_True by done. simpl.
  destruct (removed ++ rest) as [|v3 l]; [done|].
  cbn [lookup list_lookup]. rewrite decide_False; [done|]. intros ->. apply NoDup_cons_1_2, NoDup_cons_1_1 in Hnd.
  apply Hnd. by left.
Qed.

Lemma remove_prefix_rejected_witness :
  RemoveValidator ["a"; "b"; "c"] ["a"; "b"] =
    Ok (["b"; "c"], Some "remove Validator with Wrong Format").
Proof.
  apply (remove_prefix_rejected "a" "b" [] ["c"]). apply (bool_decide_eq_true_1 _). reflexivity.
Defined.

Lemma remove_one v validators : RemoveValidator (v :: validators) [v] = Ok (validators, None).
Proof. apply remove_validator_spec. split; [done|]. intros [|i] w [=]. by subst. Qed.

(** Swapping in one validator. *)
Lemma swap_one (pending current : list string) (maxCommittee : Z) : 0 <= maxCommittee ->
  SwapValidator pending current maxCommittee 1 =
    match pending with
    | [] => Ok (mkSwap [] current [] [] (Some "no pending validator for swapping"))
    | v :: rest =>
        if maxCommittee <? 1 then
          Ok (mkSwap pending current [] [] (Some "trying to swap too many validator"))
        else if Z.of_nat (length current) <? maxCommittee then
          Ok (mkSwap rest (current ++ [v]) [] [v] None)
        else if maxCommittee <? Z.of_nat (length current) then Panic
        else Ok (mkSwap rest (drop 1 current ++ [v]) (take 1 current) [v] None)
    end.
Proof.
  intros Hmax. unfold SwapValidator. rewrite (proj2 (Z.ltb_ge maxCommittee 0)) by done.
  change ((false || (1 <? 0))) with false. change (1 =? 0) with false. cbv iota.
  destruct pending as [|v rest]; [done|].
  rewrite (proj2 (Z.ltb_ge (Z.of_nat (length (v :: rest))) 1)) by (cbn [length]; lia).
  change (1 =? 0) with false. cbv iota.
  destruct (maxCommittee <? 1) eqn:H1; [done|]. to_prop.
  destruct (Z.of_nat (length current) <? maxCommittee) eqn:Hroom; to_prop.
  - rewrite (proj2 (Z.leb_le 1 _)) by lia. change 1 with (Z.of_nat 1).
    rewrite slice_to_ok, slice_from_ok by (cbn [length]; lia). done.
  - change 1 with (Z.of_nat 1).
    destruct (maxCommittee <? Z.of_nat (length current)) eqn:Hbig; to_prop.
    + apply swap_full_panic; cbn [length]; lia.
    + rewrite swap_full_ok by (cbn [length]; lia). done.
Qed.

Lemma remove_none validators : RemoveValidator validators [] = Ok (validators, None).
Proof. apply remove_validator_spec. split; [done|]. intros i w [=]. Qed.

(** ** Assigning *)

Section AssignSpec.
Context {sha : Sha256}.

Lemma sum256_last b : exists x, last (Sum256 b) = Some x /\ 0 <= x < 256.
Proof.
  destruct (Sum256_ok b) as [Hl Hb]. destruct (last (Sum256 b)) as [x|] eqn:E.
  - exists x. split; [done|]. apply last_Some in E as [l E]. rewrite E in Hb.
    apply Forall_app in Hb as [_ Hb]. by inversion Hb.
  - apply last_None in E. by rewrite E in Hl.
Qed.

Lemma candidate_shard_ok candidate rand act :
  0 < act -> exists s, calculateCandidateShardID candidate rand act = Ok s /\ 0 <= s < Z.min act 256.
Proof.
  intros Hact. unfold calculateCandidateShardID.
  destruct (sum256_last (bytes_of (candidate +:+ Itoa rand))) as (x & -> & Hx).
  rewrite (proj2 (Z.eqb_neq act 0)) by lia. eexists; split; [done|].
  pose proof (Z.rem_bound_pos x act ltac:(lia) Hact) as Hr.
  assert (Z.rem x act <= x) by (rewrite Z.rem_mod_nonneg by lia; apply Z.mod_le; lia).
  unfold u8. rewrite Z.mod_small; lia.
Qed.

(** The candidates [VerifyValidator] places in a shard. *)
Definition placed_in (rand activeShards shardID : Z) (candidate : string) : bool :=
  match VerifyValidator candidate rand shardID activeShards with Ok b => b | _ => false end.

Lemma placed_in_eq rand act s candidate s' :
  calculateCandidateShardID candidate rand act = Ok s' ->
  placed_in rand act s candidate = (s =? s').
Proof. intros H. unfold placed_in, VerifyValidator. by rewrite H. Qed.

Lemma map_get_list_insert {A} (m : gmap Z (list A)) k l s :
  map_get_list (<[k:=l]> m) s = if decide (s = k) then l else map_get_list m s.
Proof.
  unfold map_get_list, map_get. destruct (decide (s = k)) as [->|Hne].
  - by rewrite lookup_insert_eq.
  - by rewrite lookup_insert_ne by done.
Qed.

(** Every candidate goes to one shard, the one [VerifyValidator] accepts for it, in the
    order of the candidates, and no other shard is touched; the shards are active ones
    (and fit a byte). *)
Theorem assign_validator_shard_spec (current : gmap Z (list string)) (candidates : list string)
    (rand activeShards : Z) :
  0 < activeShards ->
  exists assigned, AssignValidatorShard current candidates rand activeShards = Ok assigned /\
    (forall s, map_get_list assigned s =
       map_get_list current s ++ List.filter (placed_in rand activeShards s) candidates) /\
    (forall s, s ∈ dom assigned -> s ∈ dom current \/ 0 <= s < Z.min activeShards 256).
Proof.
  intros Hact. revert current. induction candidates as [|c cands IH]; intros current; simpl.
  - exists current. split; [done|]. split; [|by left]. intros s. by rewrite app_nil_r.
  - destruct (candidate_shard_ok c rand activeShards Hact) as (s0 & Hs0 & Hr). rewrite Hs0. simpl.
    destruct (IH (<[s0 := map_get_list current s0 ++ [c]]> current)) as (m & Hm & Hget & Hdom).
    exists m. split; [done|]. split.
    + intros s. rewrite Hget, map_get_list_insert, (placed_in_eq _ _ _ _ _ Hs0).
      destruct (decide (s = s0)) as [->|Hne].
      * rewrite Z.eqb_refl. by rewrite <- app_assoc.
      * by rewrite (proj2 (Z.eqb_neq _ _)) by done.
    + intros s Hs. apply Hdom in Hs as [Hs|Hs]; [|by right].
      apply elem_of_dom in Hs as [l Hl]. destruct (decide (s = s0)) as [->|Hne]; [by right|].
      rewrite lookup_insert_ne in Hl by done. left. apply elem_of_dom. by eexists.
Qed.

(** ** Shuffling *)

Lemma shuffle_map_list (rand : Z) (candidates : list string) (m : gmap bytes string) :
  NoDup (map (fun c => Sum256 (bytes_of (c +:+ Itoa rand))) candidates) ->
  (forall c, c ∈ candidates -> m !! Sum256 (bytes_of (c +:+ Itoa rand)) = None) ->
  (map_to_list (foldl (fun m c => <[Sum256 (bytes_of (c +:+ Itoa rand)) := c]> m) m candidates)).*2
    ≡ₚ candidates ++ (map_to_list m).*2.
Proof.
  revert m. induction candidates as [|c cands IH]; intros m Hnd Hnone; [done|].
  cbn [map] in Hnd. apply NoDup_cons in Hnd as [Hc Hnd]. cbn [foldl]. rewrite IH; [|done|].
  - rewrite map_to_list_insert by (apply Hnone; by left). cbn. by rewrite Permutation_middle.
  - intros d Hd. rewrite lookup_insert_ne; [apply Hnone; by right|].
    intros E. apply Hc. rewrite E. by apply (list_elem_of_fmap_2 (fun c => Sum256 (bytes_of (c +:+ Itoa rand)))).
Qed.
End AssignSpec.

(** The order in which Go's [range] visits a map's entries may be any. *)
Definition range_order (order : list string -> list string) : Prop :=
  forall l, order l ≡ₚ l.

(** The order that lists [l] first when it is a permutation of what the map holds. *)
Definition order_as (l : list string) (entries : list string) : list string :=
  if decide (l ≡ₚ entries) then l else entries.

Lemma order_as_range l : range_order (order_as l).
Proof. intros entries. unfold order_as. by destruct (decide _). Qed.

(** [ShuffleCandidate] shuffles by Go's map order: of candidates with different hashes
    it returns some permutation, and whatever the random number every permutation is
    returned in some run, so that nodes need not agree on it. *)
Theorem shuffle_any_order {sha : Sha256} (candidates shuffled : list string) (rand : Z) :
  NoDup (map (fun c => Sum256 (bytes_of (c +:+ Itoa rand))) candidates) ->
  shuffled ≡ₚ candidates <->
  exists order, range_order order /\ ShuffleCandidate order candidates rand = Ok shuffled.
Proof.
  intros Hnd.
  assert ((map_to_list (shuffle_map candidates rand)).*2 ≡ₚ candidates) as Hp.
  { unfold shuffle_map. rewrite shuffle_map_list; [|done|].
    - rewrite map_to_list_empty. cbn. by rewrite app_nil_r.
    - intros c _. apply lookup_empty. }
  unfold ShuffleCandidate. split.
  - intros Hs. exists (order_as shuffled). split; [apply order_as_range|].
    unfold order_as. rewrite decide_True; [done|]. by rewrite Hs, Hp.
  - intros (order & Ho & [= <-]). by rewrite (Ho _), Hp.
Qed.

Lemma shuffle_any_order_witness :
  exists order, range_order order /\
    ShuffleCandidate (sha := Sha256Impl.sha256_instance) order ["a"; "b"; "c"] 7
      = Ok ["c"; "a"; "b"].
Proof.
  apply (shuffle_any_order (sha := Sha256Impl.sha256_instance) ["a"; "b"; "c"] ["c"; "a"; "b"] 7).
  - apply (bool_decide_eq_true_1 _). vm_compute. reflexivity.
  - apply (bool_decide_eq_true_1 _). vm_compute. reflexivity.
Defined.

Lemma assign_validator_shard_spec_witness :
  exists assigned,
    AssignValidatorShard (sha := Sha256Impl.sha256_instance) {[1 := ["p"]]} ["a"; "b"] 5 4 = Ok assigned /\
    (forall s, map_get_list assigned s = map_get_list {[1 := ["p"]]} s ++
       List.filter (placed_in (sha := Sha256Impl.sha256_instance) 5 4 s) ["a"; "b"]) /\
    (forall s, s ∈ dom assigned -> s ∈ dom ({[1 := ["p"]]} : gmap Z (list string)) \/ 0 <= s < Z.min 4 256).
Proof.
  apply (assign_validator_shard_spec (sha := Sha256Impl.sha256_instance)). reflexivity.
Defined.
End Committee.
