(* ===== verification/Json.v ===== *)
(** [encoding/json] as an interface: a type that is marshalled and unmarshalled, and the
    values that come back unchanged.  Any countable type has an executable codec, on which
    concrete inputs are evaluated. *)

From Stdlib Require Import Ascii.
From S2P Require Import Prelude.

#[local] Open Scope string_scope.
#[local] Open Scope Z_scope.

(** [json.Marshal] of these types (structs of strings, numbers and byte slices) does not
    fail; [json.Unmarshal] into a fresh value may.  [json_ok] holds of the values that the
    two carry over: a field that is not exported is not among them. *)
Class Json (A : Type) : Type := {
  json_ok : A -> Prop;
  Marshal : A -> string;
  Unmarshal : string -> outcome A;
  json_roundtrip a : json_ok a -> Unmarshal (Marshal a) = Ok a
}.
#[export] Hint Mode Json ! : typeclass_instances.

(** ** An executable codec *)

Fixpoint pos_string (p : positive) : string :=
  match p with
  | xH => ""
  | xO p' => String "0"%char (pos_string p')
  | xI p' => String "1"%char (pos_string p')
  end.

Fixpoint string_pos (s : string) : option positive :=
  match s with
  | EmptyString => Some xH
  | String a s' =>
      if Ascii.eqb a "0"%char then xO <$> string_pos s'
      else if Ascii.eqb a "1"%char then xI <$> string_pos s' else None
  end.

Lemma string_pos_string p : string_pos (pos_string p) = Some p.
Proof. induction p as [p IH|p IH|]; simpl; rewrite ?IH; done. Qed.

Section Countable.
Context {A : Type} `{Countable A}.

Definition text_of (a : A) : string := pos_string (encode a).

Definition of_text (s : string) : outcome A :=
  match string_pos s ≫= decode with Some a => Ok a | None => Err "invalid character" end.

Lemma of_text_of (a : A) : of_text (text_of a) = Ok a.
Proof. unfold of_text, text_of. rewrite string_pos_string. simpl. by rewrite decode_encode. Qed.

(** The codec of a type all of whose values are carried over. *)
Definition countable_json : Json A :=
  {| json_ok := fun _ => True; Marshal := text_of; Unmarshal := of_text;
     json_roundtrip := fun a _ => of_text_of a |}.
End Countable.

Example text_of_3 : text_of 3 = "01".
Proof. reflexivity. Qed.
