(* ===== verification/Params.v ===== *)
(** The parameters that the two boards govern the network by, and their hashes
    (src/blockchain/component: params.go, networkparams.go, consitutionparams.go; the
    payment address of src/privacy/key.go).  A pointer that may be nil is an [option]; the
    orders in which Go visits maps do not matter here. *)

From S2P Require Import Prelude GoStr Hash Json Sha256 Keys.

#[local] Open Scope string_scope.
#[local] Open Scope list_scope.
#[local] Open Scope Z_scope.

Module Params.
Import Hashes Keys.

(** ** Go's conversion of an integer to a string *)

(** [string(n)] is the UTF-8 encoding of the code point [n], or of U+FFFD. *)
Definition rune_ok (n : Z) : bool :=
  (0 <=? n) && (n <=? 1114111) && negb ((55296 <=? n) && (n <=? 57343)).

Definition utf8 (n : Z) : bytes :=
  if n <? 128 then [n]
  else if n <? 2048 then [192 + n / 64; 128 + n mod 64]
  else if n <? 65536 then [224 + n / 4096; 128 + n / 64 mod 64; 128 + n mod 64]
  else [240 + n / 262144; 128 + n / 4096 mod 64; 128 + n / 64 mod 64; 128 + n mod 64].

Definition rune_bytes (n : Z) : bytes := utf8 (if rune_ok n then n else 65533).

(** ** Voters *)

Record Voter := mkVoter { voter_PaymentAddress : PaymentAddress; AmountOfVote : Z }.

(** [bytes.Compare(a, b) > 0]. *)
Fixpoint bytes_greater (a b : bytes) : bool :=
  match a, b with
  | x :: a', y :: b' => if y <? x then true else if x <? y then false else bytes_greater a' b'
  | _ :: _, [] => true
  | [], _ => false
  end.

Definition Greater (voter voter2 : Voter) : bool :=
  (AmountOfVote voter2 <? AmountOfVote voter) ||
  ((AmountOfVote voter =? AmountOfVote voter2) &&
   bytes_greater (PaymentAddress_Bytes (voter_PaymentAddress voter))
     (PaymentAddress_Bytes (voter_PaymentAddress voter2))).

Definition Voter_ToBytes (voter : Voter) : bytes :=
  bytes_of (PaymentAddress_String (voter_PaymentAddress voter)) ++ rune_bytes (AmountOfVote voter).

Record SubmitProposalInfo := mkSubmitProposalInfo {
  spi_ExecuteDuration : Z;
  spi_Explanation : string;
  spi_PaymentAddress : PaymentAddress;
  spi_ConstitutionIndex : Z
}.

Definition SubmitProposalInfo_ToBytes (s : SubmitProposalInfo) : bytes :=
  Uint64ToBytes (spi_ExecuteDuration s) ++ bytes_of (spi_Explanation s) ++
  PaymentAddress_Bytes (spi_PaymentAddress s) ++ Uint32ToBytes (spi_ConstitutionIndex s).

Definition MinimumBlockOfProposalDuration : Z := 50.
Definition MaximumBlockOfProposalDuration : Z := 200.
Definition MaximumProposalExplainationLength : Z := 1000.

Definition SubmitProposalInfo_ValidateSanityData (s : SubmitProposalInfo) : bool :=
  if (spi_ExecuteDuration s <? MinimumBlockOfProposalDuration) ||
     (MaximumBlockOfProposalDuration <? spi_ExecuteDuration s) then false
  else if MaximumProposalExplainationLength <? Z.of_nat (String.length (spi_Explanation s)) then false
  else true.

(** ** The parameters of the DCB board *)

Record LoanParams := mkLoanParams {
  lp_InterestRate : Z;
  lp_Maturity : Z;
  lp_LiquidationStart : Z
}.

(** [proposalTxHash], a field that is never set, is left out. *)
Record SaleData := mkSaleData {
  SaleID : bytes;
  sd_EndBlock : Z;
  BuyingAsset : Hash;
  BuyingAmount : Z;
  DefaultBuyPrice : Z;
  SellingAsset : Hash;
  SellingAmount : Z;
  DefaultSellPrice : Z
}.

Record RaiseReserveData := mkRaiseReserveData { rr_EndBlock : Z; rr_Amount : Z }.

Record SpendReserveData := mkSpendReserveData {
  sr_EndBlock : Z;
  ReserveMinPrice : Z;
  sr_Amount : Z
}.

(** A nil map reads as the empty one. *)
Record DCBParams := mkDCBParams {
  ListSaleData : list SaleData;
  MinLoanResponseRequire : Z;
  MinCMBApprovalRequire : Z;
  LateWithdrawResponseFine : Z;
  RaiseReserve : gmap Hash (option RaiseReserveData);
  SpendReserve : gmap Hash (option SpendReserveData);
  DividendAmount : Z;
  ListLoanParams : list LoanParams
}.

Definition validAssetPair (buyingAsset sellingAsset : Hash) : bool :=
  if IsBondAsset buyingAsset && IsConstantAsset sellingAsset then true
  else IsConstantAsset buyingAsset && IsBondAsset sellingAsset.

Definition DCBParams_ValidateSanityData (p : DCBParams) : bool :=
  forallb (fun d => validAssetPair (BuyingAsset d) (SellingAsset d)) (ListSaleData p).

(** ** The parameters of the GOV board *)

Record SellingBonds := mkSellingBonds {
  BondName : string;
  BondSymbol : string;
  sb_TotalIssue : Z;
  BondsToSell : Z;
  BondPrice : Z;
  sb_Maturity : Z;
  BuyBackPrice : Z;
  sb_StartSellingAt : Z;
  sb_SellingWithin : Z
}.

Record SellingGOVTokens := mkSellingGOVTokens {
  sg_TotalIssue : Z;
  GOVTokensToSell : Z;
  GOVTokenPrice : Z;
  sg_StartSellingAt : Z;
  sg_SellingWithin : Z
}.

Record RefundInfo := mkRefundInfo { ThresholdToLargeTx : Z; RefundAmount : Z }.

Record OracleNetwork := mkOracleNetwork {
  OraclePubKeys : list bytes;
  WrongTimesAllowed : Z;
  Quorum : Z;
  AcceptableErrorMargin : Z;
  UpdateFrequency : Z;
  OracleRewardMultiplier : Z
}.

Record GOVParams := mkGOVParams {
  SalaryPerTx : Z;
  BasicSalary : Z;
  FeePerKbTx : Z;
  SellingBonds_ : option SellingBonds;
  SellingGOVTokens_ : option SellingGOVTokens;
  RefundInfo_ : option RefundInfo;
  OracleNetwork_ : option OracleNetwork
}.

(** ** The price feeds *)

Record Oracle := mkOracle {
  Bonds : gmap string Z;
  DCBToken : Z;
  GOVToken : Z;
  Constant : Z;
  ETH : Z;
  BTC : Z
}.

(** ** Hashes *)

Section HashOf.
Context {sha : Sha256}.

Definition SaleData_Hash (d : SaleData) : Hash :=
  DoubleHashH (rune_bytes (sd_EndBlock d) ++ bytes_of (Hashes.String (BuyingAsset d)) ++
    rune_bytes (BuyingAmount d) ++ rune_bytes (DefaultBuyPrice d) ++
    bytes_of (Hashes.String (SellingAsset d)) ++ rune_bytes (SellingAmount d) ++
    rune_bytes (DefaultSellPrice d)).

Definition RaiseReserveData_Hash (d : RaiseReserveData) : Hash :=
  DoubleHashH (bytes_of (Itoa (rr_EndBlock d) +:+ Itoa (rr_Amount d))).

Definition SpendReserveData_Hash (d : SpendReserveData) : Hash :=
  DoubleHashH (bytes_of (Itoa (sr_EndBlock d) +:+ Itoa (ReserveMinPrice d) +:+ Itoa (sr_Amount d))).

Definition SellingBonds_Hash (b : SellingBonds) : Hash :=
  DoubleHashH (bytes_of (BondName b) ++ bytes_of (BondSymbol b) ++ rune_bytes (BondsToSell b) ++
    rune_bytes (BondPrice b) ++ rune_bytes (sb_Maturity b) ++ rune_bytes (BuyBackPrice b) ++
    rune_bytes (sb_StartSellingAt b) ++ rune_bytes (sb_SellingWithin b) ++
    rune_bytes (sb_TotalIssue b)).

Definition SellingGOVTokens_Hash (t : SellingGOVTokens) : Hash :=
  DoubleHashH (rune_bytes (sg_TotalIssue t) ++ rune_bytes (GOVTokensToSell t) ++
    rune_bytes (GOVTokenPrice t) ++ rune_bytes (sg_StartSellingAt t) ++
    rune_bytes (sg_SellingWithin t)).

Definition RefundInfo_Hash (r : RefundInfo) : Hash :=
  DoubleHashH (rune_bytes (ThresholdToLargeTx r) ++ rune_bytes (RefundAmount r)).

Definition OracleNetwork_Hash (n : OracleNetwork) : Hash :=
  DoubleHashH (rune_bytes (WrongTimesAllowed n) ++ rune_bytes (Quorum n) ++
    rune_bytes (AcceptableErrorMargin n) ++ rune_bytes (UpdateFrequency n) ++ concat (OraclePubKeys n)).

(** The methods read their receiver's fields: a nil pointer panics. *)
Definition deref {A B} (f : A -> B) (p : option A) : outcome B :=
  match p with Some a => Ok (f a) | None => Panic end.

(** [record = ...] for the sales: the last one stays.  The loops over the reserves declare
    a [record] of their own, which goes away; they only visit the pointers. *)
Definition sales_record (l : list SaleData) : bytes :=
  foldl (fun _ d => GetBytes (SaleData_Hash d)) [] l.

Definition loan_record (l : list LoanParams) : bytes :=
  concat (map (fun i => rune_bytes (lp_InterestRate i) ++ rune_bytes (lp_Maturity i) ++
                        rune_bytes (lp_LiquidationStart i)) l).

Definition no_nil {A} (m : gmap Hash (option A)) : bool :=
  bool_decide (map_Forall (fun _ p => p <> None) m).

Definition DCBParams_Hash (p : DCBParams) : outcome Hash :=
  if no_nil (RaiseReserve p) && no_nil (SpendReserve p) then
    Ok (DoubleHashH (sales_record (ListSaleData p) ++ rune_bytes (MinLoanResponseRequire p) ++
      rune_bytes (MinCMBApprovalRequire p) ++ rune_bytes (LateWithdrawResponseFine p) ++
      rune_bytes (DividendAmount p) ++ loan_record (ListLoanParams p)))
  else Panic.

Definition GOVParams_Hash (p : GOVParams) : outcome Hash :=
  bonds ← deref SellingBonds_Hash (SellingBonds_ p);
  tokens ← deref SellingGOVTokens_Hash (SellingGOVTokens_ p);
  refund ← deref RefundInfo_Hash (RefundInfo_ p);
  network ← deref OracleNetwork_Hash (OracleNetwork_ p);
  Ok (DoubleHashH (rune_bytes (SalaryPerTx p) ++ rune_bytes (BasicSalary p) ++ rune_bytes (FeePerKbTx p) ++
        GetBytes bonds ++ GetBytes tokens ++ GetBytes refund ++ GetBytes network)).

(** [GetID] appends to a slice of the global [common.BondTokenID], which has room for what
    is appended: the global is overwritten with the identifier.  The state is the global. *)
Definition bond_record (b : SellingBonds) : string :=
  Itoa (sb_Maturity b) +:+ Itoa (BuyBackPrice b) +:+ Itoa (sb_StartSellingAt b).

Definition GetID (b : SellingBonds) : M Hash Hash :=
  let temp := DoubleHashH (bytes_of (bond_record b)) in
  bondTokenID ← get;
  let bondIDBytesWithPrefix := take 8 bondTokenID ++ drop 8 temp in
  _ ← put bondIDBytesWithPrefix;
  mret bondIDBytesWithPrefix.
End HashOf.

(** ** Lemmas *)

Lemma rune_bytes_large n : 1114111 < n -> rune_bytes n = rune_bytes 65533.
Proof.
  intros Hn. unfold rune_bytes, rune_ok. replace (n <=? 1114111) with false by (symmetry; apply Z.leb_gt; lia).
  by rewrite andb_false_r.
Qed.

Lemma utf8_range n : 0 <= n <= 1114111 -> Forall in_u8 (utf8 n).
Proof.
  intros Hn. unfold utf8, in_u8.
  assert (0 <= n / 64 /\ 0 <= n / 4096 /\ 0 <= n / 262144) as (? & ? & ?)
    by (repeat split; apply Z.div_pos; lia).
  case_ifs; to_prop; repeat constructor; try lia;
    try (pose proof (Z.mod_pos_bound n 64); pose proof (Z.mod_pos_bound (n / 64) 64);
         pose proof (Z.mod_pos_bound (n / 4096) 64); lia).
  - assert (n / 64 < 32) by (apply Z.div_lt_upper_bound; lia). lia.
  - assert (n / 4096 < 16) by (apply Z.div_lt_upper_bound; lia). lia.
  - assert (n / 262144 < 5) by (apply Z.div_lt_upper_bound; lia). lia.
Qed.

Lemma rune_bytes_range n : Forall in_u8 (rune_bytes n).
Proof.
  unfold rune_bytes. apply utf8_range. destruct (rune_ok n) eqn:E; [|lia].
  unfold rune_ok in E. to_prop. lia.
Qed.

Section Facts.
Context {sha : Sha256}.

Lemma sales_record_snoc l d : sales_record (l ++ [d]) = SaleData_Hash d.
Proof. unfold sales_record. by rewrite foldl_app. Qed.

Definition with_reserves (raise : gmap Hash (option RaiseReserveData))
    (spend : gmap Hash (option SpendReserveData)) (p : DCBParams) : DCBParams :=
  mkDCBParams (ListSaleData p) (MinLoanResponseRequire p) (MinCMBApprovalRequire p)
    (LateWithdrawResponseFine p) raise spend (DividendAmount p) (ListLoanParams p).

Definition with_dividend (amount : Z) (p : DCBParams) : DCBParams :=
  mkDCBParams (ListSaleData p) (MinLoanResponseRequire p) (MinCMBApprovalRequire p)
    (LateWithdrawResponseFine p) (RaiseReserve p) (SpendReserve p) amount (ListLoanParams p).

Definition with_sales (sales : list SaleData) (p : DCBParams) : DCBParams :=
  mkDCBParams sales (MinLoanResponseRequire p) (MinCMBApprovalRequire p)
    (LateWithdrawResponseFine p) (RaiseReserve p) (SpendReserve p) (DividendAmount p) (ListLoanParams p).

(** The hash of the DCB parameters says nothing about the reserves, about any sale but the
    last, or about a dividend above the largest code point: parameters that differ there
    have the same hash. *)
Theorem dcb_hash_forgets (p : DCBParams) (raise : gmap Hash (option RaiseReserveData))
    (spend : gmap Hash (option SpendReserveData)) (d : SaleData) (l l' : list SaleData) (x y : Z)
    (Hp : no_nil (RaiseReserve p) && no_nil (SpendReserve p) = true)
    (Hr : no_nil raise && no_nil spend = true) (Hx : 1114111 < x) (Hy : 1114111 < y) :
  DCBParams_Hash (with_reserves raise spend p) = DCBParams_Hash p /\
  DCBParams_Hash (with_sales (l ++ [d]) p) = DCBParams_Hash (with_sales (l' ++ [d]) p) /\
  DCBParams_Hash (with_dividend x p) = DCBParams_Hash (with_dividend y p) /\
  is_ok (DCBParams_Hash p) = true.
Proof.
  unfold DCBParams_Hash, with_reserves, with_dividend, with_sales.
  cbn [RaiseReserve SpendReserve ListSaleData MinLoanResponseRequire MinCMBApprovalRequire
    LateWithdrawResponseFine DividendAmount ListLoanParams].
  rewrite Hp, Hr, !sales_record_snoc.
  rewrite (rune_bytes_large x), (rune_bytes_large y) by done. done.
Qed.

(** [GetID] returns an identifier of the bond prefix, whatever the global holds after its
    prefix, and leaves the identifier in the global; two bonds whose maturity, price and
    start are written with the same digits have the same identifier. *)
Theorem bond_id_spec (b b' : SellingBonds) (g : Hash) (Hg : hash_ok g) (Hbond : IsBondAsset g = true) :
  exists id, GetID b g = (id, Ok id) /\ hash_ok id /\ IsBondAsset id = true /\
    (bond_record b' = bond_record b -> forall g', hash_ok g' -> IsBondAsset g' = true ->
       GetID b' g' = (id, Ok id)).
Proof.
  set (temp := DoubleHashH (bytes_of (bond_record b))).
  destruct (Sum256_ok (Sum256 (bytes_of (bond_record b)))) as [Hlen Hrange].
  destruct Hg as [Hglen Hgrange].
  exists (take 8 g ++ drop 8 temp). split; [done|]. split; [split|split].
  - rewrite length_app, length_take, length_drop, Hglen. unfold temp, DoubleHashH. by rewrite Hlen.
  - apply Forall_app_2; [by apply Forall_take|by apply Forall_drop].
  - unfold IsBondAsset in *. rewrite take_app_le by (rewrite length_take, Hglen; unfold HashSize; lia).
    by rewrite take_take.
  - intros Heq g' _ Hbond'. unfold GetID. mrun. rewrite Heq. fold temp.
    apply bool_decide_eq_true in Hbond, Hbond'. by rewrite Hbond', Hbond.
Qed.
End Facts.

(** ** Concrete parameters *)

#[local] Existing Instance Sha256Impl.sha256_instance.

Definition sample_params : DCBParams :=
  mkDCBParams [] 1 1 0 {[USDAssetID := Some (mkRaiseReserveData 10 20)]} ∅ 2000000 [].

Definition sample_sale : SaleData := mkSaleData [1] 100 BondTokenID 5 6 ConstantID 7 8.

Definition sample_bonds (maturity price : Z) : SellingBonds :=
  mkSellingBonds "bond" "b" 100 100 5 maturity price 7 1000.

Lemma dcb_hash_forgets_witness :
  DCBParams_Hash (with_reserves ∅ ∅ sample_params) = DCBParams_Hash sample_params /\
  DCBParams_Hash (with_sales ([] ++ [sample_sale]) sample_params) =
    DCBParams_Hash (with_sales ([sample_sale; sample_sale] ++ [sample_sale]) sample_params) /\
  DCBParams_Hash (with_dividend 2000000 sample_params) = DCBParams_Hash (with_dividend 3000000 sample_params) /\
  is_ok (DCBParams_Hash sample_params) = true.
Proof.
  apply (dcb_hash_forgets sample_params ∅ ∅ sample_sale [] [sample_sale; sample_sale] 2000000 3000000);
    [vm_compute; reflexivity|vm_compute; reflexivity|lia|lia].
Defined.

Lemma bond_id_spec_witness :
  exists id, GetID (sample_bonds 12 3) BondTokenID = (id, Ok id) /\ hash_ok id /\ IsBondAsset id = true /\
    (bond_record (sample_bonds 1 23) = bond_record (sample_bonds 12 3) ->
     forall g', hash_ok g' -> IsBondAsset g' = true -> GetID (sample_bonds 1 23) g' = (id, Ok id)).
Proof.
  apply bond_id_spec; [split; [reflexivity|apply Forall_replicate; by_compute]|vm_compute; reflexivity].
Defined.

Example same_digits : bond_record (sample_bonds 12 3) = bond_record (sample_bonds 1 23).
Proof. vm_compute. reflexivity. Qed.
End Params.
