(* ===== verification/LevelDB.v ===== *)
(** The key-value store of a node and the key schemes on top of it: blocks, block indices,
    cross-shard links, committees, loans, reserves, multi-signatures and custom bank
    accounts (src/database/lvdb: db.go, beacon.go, shard.go, loan.go, loanutils.go,
    reserve.go, multisigs.go, cmb.go, cmbutils.go).  goleveldb itself is an interface: a
    store with some content, whose writes may fail and otherwise do what they say.  The
    spare capacity of Go's slices is not modelled: keys are fresh lists, values have none. *)

From S2P Require Import Prelude GoStr Hash.

#[local] Open Scope string_scope.
#[local] Open Scope list_scope.
#[local] Open Scope Z_scope.

(** The documented behaviour of goleveldb: [Put] and [Delete] return an error ([None]) or
    change the one key; reads see the content. *)
Class LevelDB (S : Type) : Type := {
  lv_content : S -> gmap bytes bytes;
  lv_Put : bytes -> bytes -> S -> option S;
  lv_Delete : bytes -> S -> option S;
  lv_Put_ok k v s s' : lv_Put k v s = Some s' -> lv_content s' = <[k := v]> (lv_content s);
  lv_Delete_ok k s s' : lv_Delete k s = Some s' -> lv_content s' = delete k (lv_content s)
}.

(** A store in memory, which never fails. *)
#[export] Instance memory_store : LevelDB (gmap bytes bytes).
Proof.
  refine {| lv_content := fun s => s; lv_Put := fun k v s => Some (<[k := v]> s);
            lv_Delete := fun k s => Some (delete k s) |}; congruence.
Defined.

Module LevelDB.
Import Hashes.

(** ** Errors and key prefixes *)

(** The messages of src/database/error.go. *)
Definition LvDbNotFound : string := "lvdb not found".
Definition NotImplHashMethod : string := "Data does not implement Hash() method".
Definition BlockExisted : string := "Block already existed".
Definition UnexpectedError : string := "Unexpected error".
Definition KeyExisted : string := "PubKey already existed in database".

Definition beaconPrefix : bytes := bytes_of "bea-".
Definition beaconBestBlockkey : bytes := bytes_of "bea-bestBlock".
Definition committeePrefix : bytes := bytes_of "com-".
Definition epochPrefix : bytes := bytes_of "ep-".
Definition shardIDPrefix : bytes := bytes_of "s".
Definition blockKeyPrefix : bytes := bytes_of "b-".
Definition blockKeyIdxPrefix : bytes := bytes_of "i-".
Definition crossShardKeyPrefix : bytes := bytes_of "csh-".
Definition nextCrossShardKeyPrefix : bytes := bytes_of "ncsh-".
Definition shardToBeaconKeyPrefix : bytes := bytes_of "stb-".
Definition bestBlockKey : bytes := bytes_of "bestBlock".
Definition Splitter : bytes := bytes_of "-[-]-".
Definition loanIDKeyPrefix : bytes := bytes_of "loanID-".
Definition loanPaymentKeyPrefix : bytes := bytes_of "loanPayment-".
Definition loanWithdrawedPrefix : bytes := bytes_of "loanWithdrawed-".
Definition loanRequestPostfix : bytes := bytes_of "-req".
Definition multisigsPrefix : bytes := bytes_of "multisigs".
Definition cmbPrefix : bytes := bytes_of "cmb-".
Definition cmbResponsePrefix : bytes := bytes_of "cmbres-".
Definition cmbDepositSendKeyPrefix : bytes := bytes_of "cmbdepositsend-".
Definition cmbWithdrawRequestPrefix : bytes := bytes_of "cmbwithdrawreq-".
Definition cmbNoticePrefix : bytes := bytes_of "cmbnotice-".
Definition reserveIssuingInfoPrefix : bytes := bytes_of "rsIss".
Definition reserveContractingInfoPrefix : bytes := bytes_of "rsCon".

(** A value handed over as [interface{}]: what its [Hash] method returns, if it has one,
    and what [json.Marshal] makes of it. *)
Record Stored := mkStored { st_hash : option Hash; st_json : outcome bytes }.

(** [binary.Read] of a uint64 from a slice: an error when it is too short. *)
Definition read_u64 (b : bytes) : outcome Z :=
  if (length b <? 8)%nat then Err UnexpectedError else Ok (le_value (take 8 b)).

Section Ops.
Context {S : Type} {lvdb : LevelDB S}.

(** [if err := ...; err != nil { return NewDatabaseError(e, ...) }]. *)
Definition or_err {A} (e : string) (m : M S A) : M S A := fun s =>
  match m s with (s', Err _) => (s', Err e) | r => r end.

(** [if ok, _ := db.HasValue(key); ok { return ... }]. *)
Definition fail_if (b : bool) (e : string) : M S unit := if b then throw e else mret tt.

(** ** db.go *)

Definition HasValue (key : bytes) : M S bool := fun s =>
  (s, Ok (bool_decide (is_Some (lv_content s !! key)))).

Definition Put (key value : bytes) : M S unit := fun s =>
  match lv_Put key value s with Some s' => (s', Ok tt) | None => (s, Err UnexpectedError) end.

Definition Delete (key : bytes) : M S unit := fun s =>
  match lv_Delete key s with Some s' => (s', Ok tt) | None => (s, Err UnexpectedError) end.

Definition Get (key : bytes) : M S bytes := fun s =>
  (s, match lv_content s !! key with Some v => Ok v | None => Err LvDbNotFound end).

(** The keys [NewIterator(util.BytesPrefix(prefix))] visits, in order. *)
Fixpoint bytes_leb (a b : bytes) : bool :=
  match a, b with
  | [], _ => true
  | _ :: _, [] => false
  | x :: a', y :: b' => if x <? y then true else if y <? x then false else bytes_leb a' b'
  end.

Fixpoint insert_key (k : bytes) (l : list bytes) : list bytes :=
  match l with
  | [] => [k]
  | k' :: l' => if bytes_leb k k' then k :: l else k' :: insert_key k l'
  end.

Definition iterate (prefix : bytes) : M S (list bytes) := fun s =>
  (s, Ok (foldr insert_key []
            (List.filter (fun k => bool_decide (take (length prefix) k = prefix))
               (map_to_list (lv_content s)).*1))).

(** ** beacon.go *)

Definition next_height_key (fromShard toShard curHeight : Z) : bytes :=
  nextCrossShardKeyPrefix ++ [fromShard] ++ bytes_of "-" ++ [toShard] ++ bytes_of "-" ++
  le_bytes 8 curHeight.

Definition StoreCrossShardNextHeight (fromShard toShard curHeight nextHeight : Z) : M S unit :=
  or_err UnexpectedError (Put (next_height_key fromShard toShard curHeight) (le_bytes 8 nextHeight)).

Definition HasCrossShardNextHeight (key : bytes) : M S bool := HasValue key.

(** [info[:8]] panics on a shorter value. *)
Definition FetchCrossShardNextHeight (fromShard toShard curHeight : Z) : M S Z :=
  let key := next_height_key fromShard toShard curHeight in
  _ ← HasCrossShardNextHeight key;
  info ← or_err UnexpectedError (Get key);
  lift (BytesToUint64 info).

Definition beacon_block_key (hash : Hash) : bytes := beaconPrefix ++ blockKeyPrefix ++ hash.
Definition block_key (hash : Hash) : bytes := blockKeyPrefix ++ hash.
Definition beacon_index_key (suffix : bytes) : bytes := beaconPrefix ++ blockKeyIdxPrefix ++ suffix.

(** The block under its own key, and a reference to it under the chain's key. *)
Definition store_block (key keyB : bytes) (json : outcome bytes) : M S unit :=
  ok ← HasValue key;
  _ ← fail_if ok BlockExisted;
  val ← or_err UnexpectedError (lift json);
  _ ← or_err UnexpectedError (Put key keyB);
  or_err UnexpectedError (Put keyB val).

Definition StoreBeaconBlock (v : Stored) : M S unit :=
  match st_hash v with
  | None => throw NotImplHashMethod
  | Some hash => store_block (beacon_block_key hash) (block_key hash) (st_json v)
  end.

Definition StoreBeaconBlockHeader (v : Stored) (hash : Hash) : M S unit :=
  store_block (beacon_block_key hash) (block_key hash) (st_json v).

(** The first test's answer is not used. *)
Definition HasBeaconBlock (hash : Hash) : M S bool :=
  _ ← HasValue (beacon_block_key hash);
  HasValue (block_key hash).

Definition FetchBeaconBlock (hash : Hash) : M S bytes :=
  _ ← HasBeaconBlock hash;
  or_err UnexpectedError (Get (block_key hash)).

Definition DeleteBeaconBlock (hash : Hash) (idx : Z) : M S unit :=
  _ ← or_err UnexpectedError (Delete (beacon_block_key hash));
  _ ← or_err UnexpectedError (Delete (block_key hash));
  _ ← or_err UnexpectedError (Delete (beacon_index_key hash));
  _ ← or_err UnexpectedError (Delete (le_bytes 8 idx));
  or_err UnexpectedError (Delete (beacon_block_key hash)).

Definition StoreBeaconBestState (v : Stored) : M S unit :=
  val ← or_err UnexpectedError (lift (st_json v));
  or_err UnexpectedError (Put beaconBestBlockkey val).

Definition FetchBeaconBestState : M S bytes := or_err UnexpectedError (Get beaconBestBlockkey).

Definition CleanBeaconBestState : M S unit := or_err UnexpectedError (Delete beaconBestBlockkey).

Definition StoreBeaconBlockIndex (h : Hash) (idx : Z) : M S unit :=
  let buf := le_bytes 8 idx in
  _ ← or_err UnexpectedError (Put (beacon_index_key h) buf);
  or_err UnexpectedError (Put (beacon_index_key buf) h).

Definition GetIndexOfBeaconBlock (h : Hash) : M S Z :=
  b ← or_err UnexpectedError (Get (beacon_index_key h));
  lift (BytesToUint64 b).

(** An error of [SetBytes] is dropped: the hash stays zero. *)
Definition GetBeaconBlockHashByIndex (idx : Z) : M S Hash :=
  b ← or_err UnexpectedError (Get (beacon_index_key (le_bytes 8 idx)));
  mret (match SetBytes b with Ok h => h | _ => zero_hash end).

Definition FetchBeaconBlockChain : M S (list Hash) :=
  let prefix := beaconPrefix ++ blockKeyPrefix in
  keys ← iterate prefix;
  mret (map (fun k => match SetBytes (drop (length prefix) k) with Ok h => h | _ => zero_hash end) keys).

Definition accepted_key (shardID : Z) (shardBlkHash : Hash) : bytes :=
  shardToBeaconKeyPrefix ++ shardID :: shardBlkHash.

Definition StoreAcceptedShardToBeacon (shardID blkHeight : Z) (shardBlkHash : Hash) : M S unit :=
  or_err UnexpectedError (Put (accepted_key shardID shardBlkHash) (le_bytes 8 blkHeight)).

Definition HasAcceptedShardToBeacon (shardID : Z) (shardBlkHash : Hash) : M S unit :=
  ok ← HasValue (accepted_key shardID shardBlkHash);
  if ok : bool then mret tt else throw BlockExisted.

Definition GetAcceptedShardToBeacon (shardID : Z) (shardBlkHash : Hash) : M S Z :=
  b ← or_err UnexpectedError (Get (accepted_key shardID shardBlkHash));
  lift (read_u64 b).

Definition committee_height_key (blkHeight : Z) : bytes :=
  beaconPrefix ++ shardIDPrefix ++ committeePrefix ++ le_bytes 8 blkHeight.
Definition committee_epoch_key (blkEpoch : Z) : bytes :=
  beaconPrefix ++ shardIDPrefix ++ committeePrefix ++ epochPrefix ++ le_bytes 8 blkEpoch.

Definition StoreCommitteeByHeight (blkHeight : Z) (v : Stored) : M S unit :=
  val ← or_err UnexpectedError (lift (st_json v));
  or_err UnexpectedError (Put (committee_height_key blkHeight) val).

Definition FetchCommitteeByHeight (blkHeight : Z) : M S bytes :=
  or_err UnexpectedError (Get (committee_height_key blkHeight)).

Definition StoreCommitteeByEpoch (blkEpoch : Z) (v : Stored) : M S unit :=
  val ← or_err UnexpectedError (lift (st_json v));
  or_err UnexpectedError (Put (committee_epoch_key blkEpoch) val).

Definition FetchCommitteeByEpoch (blkEpoch : Z) : M S bytes :=
  or_err UnexpectedError (Get (committee_epoch_key blkEpoch)).

Definition HasCommitteeByEpoch (blkEpoch : Z) : M S bool := HasValue (committee_epoch_key blkEpoch).

(** ** shard.go *)

Definition shard_block_key (shardID : Z) (hash : Hash) : bytes :=
  shardIDPrefix ++ [shardID] ++ blockKeyPrefix ++ hash.
Definition index_key (hash : Hash) : bytes := blockKeyIdxPrefix ++ hash.
Definition height_key (idx shardID : Z) : bytes := le_bytes 8 idx ++ [shardID].
Definition best_state_key (shardID : Z) : bytes := bestBlockKey ++ [shardID].
Definition incoming_key (shardID crossShardID : Z) (crossBlkHash : Hash) : bytes :=
  crossShardKeyPrefix ++ [shardID] ++ [crossShardID] ++ crossBlkHash.
Definition outgoing_key (shardID crossShardID blkHeight : Z) : bytes :=
  crossShardKeyPrefix ++ [shardID] ++ le_bytes 8 blkHeight ++ [crossShardID].

Definition StoreShardBlock (v : Stored) (shardID : Z) : M S unit :=
  match st_hash v with
  | None => throw NotImplHashMethod
  | Some hash => store_block (shard_block_key shardID hash) (block_key hash) (st_json v)
  end.

Definition StoreShardBlockHeader (v : Stored) (hash : Hash) (shardID : Z) : M S unit :=
  store_block (shard_block_key shardID hash) (block_key hash) (st_json v).

Definition HasBlock (hash : Hash) : M S bool := HasValue (block_key hash).

Definition FetchBlock (hash : Hash) : M S bytes := or_err UnexpectedError (Get (block_key hash)).

Definition DeleteBlock (hash : Hash) (idx shardID : Z) : M S unit :=
  _ ← or_err UnexpectedError (Delete (block_key hash));
  _ ← or_err UnexpectedError (Delete (index_key hash));
  or_err UnexpectedError (Delete (height_key idx shardID)).

Definition StoreBestState (v : Stored) (shardID : Z) : M S unit :=
  val ← or_err UnexpectedError (lift (st_json v));
  or_err UnexpectedError (Put (best_state_key shardID) val).

Definition FetchBestState (shardID : Z) : M S bytes :=
  or_err UnexpectedError (Get (best_state_key shardID)).

Definition CleanBestState : M S unit :=
  mfor (fun shardID => or_err UnexpectedError (Delete (best_state_key (Z.of_nat shardID))))
    (seq 0 (Z.to_nat MAX_SHARD_NUMBER)).

Definition StoreShardBlockIndex (h : Hash) (idx shardID : Z) : M S unit :=
  let buf := height_key idx shardID in
  _ ← or_err UnexpectedError (Put (index_key h) buf);
  or_err UnexpectedError (Put buf h).

Definition GetIndexOfBlock (h : Hash) : M S (Z * Z) :=
  b ← or_err UnexpectedError (Get (index_key h));
  idx ← lift (BytesToUint64 b);
  match b !! 8%nat with
  | None => throw UnexpectedError
  | Some shardID => mret (idx, shardID)
  end.

Definition GetBlockByIndex (idx shardID : Z) : M S Hash :=
  b ← or_err UnexpectedError (Get (height_key idx shardID));
  or_err UnexpectedError (lift (SetBytes b)).

Definition StoreIncomingCrossShard (shardID crossShardID blkHeight : Z) (crossBlkHash : Hash) :
    M S unit :=
  let key := incoming_key shardID crossShardID crossBlkHash in
  ok ← HasValue key;
  _ ← fail_if ok BlockExisted;
  or_err UnexpectedError (Put key (le_bytes 8 blkHeight)).

Definition HasIncomingCrossShard (shardID crossShardID : Z) (crossBlkHash : Hash) : M S unit :=
  ok ← HasValue (incoming_key shardID crossShardID crossBlkHash);
  if ok : bool then mret tt else throw BlockExisted.

Definition GetIncomingCrossShard (shardID crossShardID : Z) (crossBlkHash : Hash) : M S Z :=
  b ← or_err UnexpectedError (Get (incoming_key shardID crossShardID crossBlkHash));
  lift (read_u64 b).

Definition StoreOutgoingCrossShard (shardID crossShardID blkHeight : Z) (crossBlk : Stored) :
    M S unit :=
  match st_hash crossBlk with
  | None => throw NotImplHashMethod
  | Some _ =>
      let key := outgoing_key shardID crossShardID blkHeight in
      ok ← HasValue key;
      _ ← fail_if ok BlockExisted;
      val ← or_err UnexpectedError (lift (st_json crossBlk));
      or_err UnexpectedError (Put key val)
  end.

Definition HasOutgoingCrossShard (shardID crossShardID blkHeight : Z) : M S unit :=
  ok ← HasValue (outgoing_key shardID crossShardID blkHeight);
  if ok : bool then mret tt else throw BlockExisted.

Definition GetOutgoingCrossShard (shardID crossShardID blkHeight : Z) : M S bytes :=
  or_err UnexpectedError (Get (outgoing_key shardID crossShardID blkHeight)).

(** ** loan.go *)

(** [value[0]] panics on an empty value. *)
Definition GetLoanWithdrawed (loanID : bytes) : M S bool :=
  value ← Get (loanWithdrawedPrefix ++ loanID);
  match value with [] => gopanic | b :: _ => mret (0 <? b) end.

Definition StoreLoanWithdrawed (loanID : bytes) : M S unit :=
  or_err UnexpectedError (Put (loanWithdrawedPrefix ++ loanID) [1]).

Definition GetLoanRequestTx (loanID : bytes) : M S bytes :=
  Get (loanIDKeyPrefix ++ loanID ++ loanRequestPostfix).

Definition getLoanPaymentValue (principle interest deadline : Z) : bytes :=
  Uint64ToBytes principle ++ Uint64ToBytes interest ++ Uint64ToBytes deadline.

Definition parseLoanPaymentValue (value : bytes) : outcome (Z * Z * Z) :=
  if (length value <? 8 * 3)%nat then Err "Error parsing loan payment value"
  else
    principle ← BytesToUint64 value;
    interest ← BytesToUint64 (drop 8 value);
    deadline ← BytesToUint64 (drop 8 (drop 8 value));
    Ok (principle, interest, deadline).

Definition StoreLoanPayment (loanID : bytes) (principle interest deadline : Z) : M S unit :=
  or_err UnexpectedError
    (Put (loanPaymentKeyPrefix ++ loanID) (getLoanPaymentValue principle interest deadline)).

Definition GetLoanPayment (loanID : bytes) : M S (Z * Z * Z) :=
  value ← Get (loanPaymentKeyPrefix ++ loanID);
  lift (parseLoanPaymentValue value).

(** ** reserve.go *)

Definition getIssuingInfoKey (reqTxID : Hash) : bytes :=
  reserveIssuingInfoPrefix ++ bytes_of (Hashes.String reqTxID).
Definition getIssuingInfoValue (amount : Z) (instType : bytes) : bytes :=
  Uint64ToBytes amount ++ instType.

Definition parseIssuingInfoValue (value : bytes) : outcome (Z * bytes) :=
  if (length value <? 8)%nat then Err "Error parsing info value"
  else amount ← BytesToUint64 (take 8 value); Ok (amount, drop 8 value).

Definition StoreIssuingInfo (reqTxID : Hash) (amount : Z) (instType : bytes) : M S unit :=
  Put (getIssuingInfoKey reqTxID) (getIssuingInfoValue amount instType).

Definition GetIssuingInfo (reqTxID : Hash) : M S (Z * bytes) :=
  value ← Get (getIssuingInfoKey reqTxID);
  lift (parseIssuingInfoValue value).

Definition getContractingInfoKey (reqTxID : Hash) : bytes :=
  reserveContractingInfoPrefix ++ bytes_of (Hashes.String reqTxID).
Definition getContractingInfoValue (amount redeem : Z) (instType : bytes) : bytes :=
  Uint64ToBytes amount ++ Uint64ToBytes redeem ++ instType.

(** Only 8 bytes are asked for; [value[8:16]] panics on less than 16. *)
Definition parseContractingInfoValue (value : bytes) : outcome (Z * Z * bytes) :=
  if (length value <? 8)%nat then Err "Error parsing info value"
  else
    amount ← BytesToUint64 (take 8 value);
    if (length value <? 16)%nat then Panic
    else redeem ← BytesToUint64 (take 8 (drop 8 value)); Ok (amount, redeem, drop 16 value).

Definition StoreContractingInfo (reqTxID : Hash) (amount redeem : Z) (instType : bytes) : M S unit :=
  Put (getContractingInfoKey reqTxID) (getContractingInfoValue amount redeem instType).

Definition GetContractingInfo (reqTxID : Hash) : M S (Z * Z * bytes) :=
  value ← Get (getContractingInfoKey reqTxID);
  lift (parseContractingInfoValue value).

(** ** multisigs.go *)

Definition StoreMultiSigsRegistration (pubKey registration : bytes) : M S unit :=
  or_err UnexpectedError (Put (multisigsPrefix ++ pubKey) registration).

(** A missing registration is no error. *)
Definition GetMultiSigsRegistration (pubKey : bytes) : M S bytes := fun s =>
  (s, Ok (default [] (lv_content s !! (multisigsPrefix ++ pubKey)))).

(** ** cmb.go, cmbutils.go *)

Definition PaymentAddressLen : nat := 66.
Definition CMBRequested : Z := 1.
Definition WithdrawRequested : Z := 0.

Definition getCMBInitKey (mainAccount : bytes) : bytes := cmbPrefix ++ mainAccount.

Fixpoint cmb_members (members : list bytes) : outcome bytes :=
  match members with
  | [] => Ok []
  | member :: rest =>
      if decide (length member = PaymentAddressLen)
      then l ← cmb_members rest; Ok (member ++ l)
      else Err "provided bytes are not payment address"
  end.

Definition getCMBInitValue (reserve : bytes) (members : list bytes) (capital : Z) (txHash : bytes)
    (state fine : Z) : outcome bytes :=
  ms ← cmb_members members;
  Ok (reserve ++ le_bytes 8 capital ++ le_bytes 8 fine ++ ms ++ txHash ++ Uint8ToBytes state).

(** [value[i:j]]. *)
Definition slice (i j : Z) (value : bytes) : outcome bytes :=
  if (0 <=? i) && (i <=? j) && (j <=? Z.of_nat (length value))
  then Ok (take (Z.to_nat (j - i)) (drop (Z.to_nat i) value)) else Panic.

Fixpoint chunks (n : nat) (value : bytes) : list bytes :=
  match n with
  | O => []
  | Datatypes.S n' => take PaymentAddressLen value :: chunks n' (drop PaymentAddressLen value)
  end.

Record CMB := mkCMB {
  cmb_reserve : bytes;
  cmb_member_list : list bytes;
  cmb_capital : Z;
  cmb_txHash : bytes;
  cmb_state : Z;
  cmb_fine : Z
}.

(** The members are taken up to [len(value)-common.HashSize-2]. *)
Definition parseCMBInitValue (value : bytes) : outcome CMB :=
  if (length value <? PaymentAddressLen)%nat then Err "error parsing cmb value"
  else
    let reserve := take PaymentAddressLen value in
    let value := drop PaymentAddressLen value in
    if (length value <? 8)%nat then Err "error parsing cmb value"
    else
      capital ← BytesToUint64 value;
      let value := drop 8 value in
      if (length value <? 8)%nat then Err "error parsing cmb value"
      else
        fine ← BytesToUint64 value;
        state ← match last value with Some b => Ok b | None => Panic end;
        let len := Z.of_nat (length value) in
        txHash ← slice (len - 32 - 1) (len - 1) value;
        value ← slice 8 (len - 32 - 2) value;
        if (length value mod PaymentAddressLen =? 0)%nat
        then Ok (mkCMB reserve (chunks (length value / PaymentAddressLen) value) capital txHash state fine)
        else Err "error parsing cmb value".

Definition getCMBResponseKey (mainAccount approver : bytes) : bytes :=
  cmbResponsePrefix ++ mainAccount ++ Splitter ++ approver.
Definition getCMBDepositSendKey (contractID : bytes) : bytes := cmbDepositSendKeyPrefix ++ contractID.
Definition getCMBDepositSendValue (txHash : bytes) : bytes := txHash.
Definition getCMBWithdrawRequestKey (contractID : bytes) : bytes :=
  cmbWithdrawRequestPrefix ++ contractID.
Definition getCMBWithdrawRequestValue (txHash : bytes) (state : Z) : bytes :=
  txHash ++ Uint8ToBytes state.

(** The hash is taken up to [len(values)-2]. *)
Definition parseWithdrawRequestValue (values : bytes) : outcome (bytes * Z) :=
  if (length values =? 1 + 32)%nat
  then
    txHash ← slice 0 (Z.of_nat (length values) - 2) values;
    match last values with Some state => Ok (txHash, state) | None => Panic end
  else Err "Error parsing withdraw request".

Definition getCMBNoticeKey (blockHeight : Z) (txReqHash : bytes) : bytes :=
  cmbNoticePrefix ++ Uint32ToBytes blockHeight ++ Splitter ++ txReqHash.

Definition updateCMB (cmbInitKey reserve : bytes) (members : list bytes) (capital : Z)
    (txHash : bytes) (state fine : Z) : M S unit :=
  newValue ← or_err UnexpectedError (lift (getCMBInitValue reserve members capital txHash state fine));
  or_err UnexpectedError (Put cmbInitKey newValue).

(** The test is on the bare account, and the other way round. *)
Definition StoreCMB (mainAccount reserveAccount : bytes) (members : list bytes) (capital : Z)
    (txHash : bytes) : M S unit :=
  ok ← HasValue mainAccount;
  _ ← fail_if (negb ok) KeyExisted;
  updateCMB (getCMBInitKey mainAccount) reserveAccount members capital txHash CMBRequested 0.

Definition GetCMB (mainAccount : bytes) : M S CMB :=
  cmbInitValue ← Get (getCMBInitKey mainAccount);
  lift (parseCMBInitValue cmbInitValue).

Definition UpdateCMBState (mainAccount : bytes) (state : Z) : M S unit :=
  cmbInitValue ← Get (getCMBInitKey mainAccount);
  c ← lift (parseCMBInitValue cmbInitValue);
  updateCMB (getCMBInitKey mainAccount) (cmb_reserve c) (cmb_member_list c) (cmb_capital c)
    (cmb_txHash c) state (cmb_fine c).

Definition UpdateCMBFine (mainAccount : bytes) (fine : Z) : M S unit :=
  cmbInitValue ← Get (getCMBInitKey mainAccount);
  c ← lift (parseCMBInitValue cmbInitValue);
  updateCMB (getCMBInitKey mainAccount) (cmb_reserve c) (cmb_member_list c) (cmb_capital c)
    (cmb_txHash c) (cmb_state c) fine.

Definition StoreCMBResponse (mainAccount approver : bytes) : M S unit :=
  or_err UnexpectedError (Put (getCMBResponseKey mainAccount approver) [1]).

(** [strings.Split(key, Splitter)[1]]: what lies between the first two splitters. *)
Fixpoint after_splitter (key : bytes) : option bytes :=
  if bool_decide (take 5 key = Splitter) then Some (drop 5 key)
  else match key with [] => None | _ :: rest => after_splitter rest end.

Fixpoint before_splitter (key : bytes) : bytes :=
  if bool_decide (take 5 key = Splitter) then []
  else match key with [] => [] | b :: rest => b :: before_splitter rest end.

Definition second_part (key : bytes) : outcome bytes :=
  match after_splitter key with None => Panic | Some rest => Ok (before_splitter rest) end.

Fixpoint second_parts (keys : list bytes) : outcome (list bytes) :=
  match keys with
  | [] => Ok []
  | key :: rest => p ← second_part key; ps ← second_parts rest; Ok (p :: ps)
  end.

Definition GetCMBResponse (mainAccount : bytes) : M S (list bytes) :=
  keys ← iterate (getCMBResponseKey mainAccount []);
  lift (second_parts keys).

Definition StoreDepositSend (contractID txHash : bytes) : M S unit :=
  or_err UnexpectedError (Put (getCMBDepositSendKey contractID) (getCMBDepositSendValue txHash)).

Definition GetDepositSend (contractID : bytes) : M S bytes := Get (getCMBDepositSendKey contractID).

Definition StoreWithdrawRequest (contractID txHash : bytes) : M S unit :=
  or_err UnexpectedError
    (Put (getCMBWithdrawRequestKey contractID) (getCMBWithdrawRequestValue txHash WithdrawRequested)).

Definition GetWithdrawRequest (contractID : bytes) : M S (bytes * Z) :=
  value ← Get (getCMBWithdrawRequestKey contractID);
  lift (parseWithdrawRequestValue value).

Definition UpdateWithdrawRequestState (contractID : bytes) (state : Z) : M S unit :=
  value ← Get (getCMBWithdrawRequestKey contractID);
  r ← or_err UnexpectedError (lift (parseWithdrawRequestValue value));
  or_err UnexpectedError
    (Put (getCMBWithdrawRequestKey contractID) (getCMBWithdrawRequestValue (fst r) state)).

Definition StoreNoticePeriod (blockHeight : Z) (txReqHash : bytes) : M S unit :=
  or_err UnexpectedError (Put (getCMBNoticeKey blockHeight txReqHash) [1]).

Definition GetNoticePeriod (blockHeight : Z) : M S (list bytes) :=
  keys ← iterate (getCMBNoticeKey blockHeight []);
  lift (second_parts keys).

(** ** What the schemes guarantee *)

Lemma or_err_ok {A} e (m : M S A) s s' a : or_err e m s = (s', Ok a) <-> m s = (s', Ok a).
Proof. unfold or_err. destruct (m s) as [s1 [x|x|]]; by split; intros [= <- <-]. Qed.

Lemma put_ok e k v s s' :
  or_err e (Put k v) s = (s', Ok tt) -> lv_content s' = <[k := v]> (lv_content s).
Proof.
  rewrite or_err_ok. unfold Put. destruct (lv_Put k v s) eqn:E; intros [= <-]. by apply lv_Put_ok.
Qed.

Lemma delete_ok e k s s' :
  or_err e (Delete k) s = (s', Ok tt) -> lv_content s' = delete k (lv_content s).
Proof.
  rewrite or_err_ok. unfold Delete. destruct (lv_Delete k s) eqn:E; intros [= <-]. by apply lv_Delete_ok.
Qed.

Lemma get_or_err e k s :
  or_err e (Get k) s = (s, match lv_content s !! k with Some v => Ok v | None => Err e end).
Proof. unfold or_err, Get. by destruct (_ !! _). Qed.

Lemma store_block_ok key keyB json s s' :
  store_block key keyB json s = (s', Ok tt) ->
  lv_content s !! key = None /\ exists val, json = Ok val /\
    lv_content s' = <[keyB := val]> (<[key := keyB]> (lv_content s)).
Proof.
  unfold store_block. intros H. apply M_bind_ok in H as (s1 & ok & [= <- <-] & H).
  apply M_bind_ok in H as (s1 & [] & Hf & H). unfold fail_if in Hf.
  case_bool_decide as Hk; [done|]. injection Hf as <-. split; [by apply eq_None_not_Some|].
  apply M_bind_ok in H as (s1 & val & Hj & H). apply or_err_ok in Hj as [= <- ->].
  apply M_bind_ok in H as (s1 & [] & H1 & H). exists val. split; [done|].
  by rewrite (put_ok _ _ _ _ _ H), (put_ok _ _ _ _ _ H1).
Qed.

Lemma le_bytes_u64_inj x y : in_u64 x -> in_u64 y -> le_bytes 8 x = le_bytes 8 y -> x = y.
Proof.
  intros Hx Hy E. apply (f_equal le_value) in E. rewrite !le_value_bytes in E.
  rewrite !Z.mod_small in E; unfold in_u64 in *; lia.
Qed.

Lemma BytesToUint64_le x : in_u64 x -> BytesToUint64 (le_bytes 8 x) = Ok x.
Proof.
  intros Hx. unfold BytesToUint64. rewrite le_bytes_length. simpl Nat.ltb. cbv iota.
  rewrite take_ge by (by rewrite le_bytes_length). rewrite le_value_bytes, Z.mod_small; [done|].
  unfold in_u64 in Hx. lia.
Qed.

Lemma next_height_key_inj f t c f' t' c' :
  in_u64 c -> in_u64 c' ->
  next_height_key f t c = next_height_key f' t' c' -> f = f' /\ t = t' /\ c = c'.
Proof.
  intros Hc Hc'. unfold next_height_key. intros E. rewrite !app_assoc in E.
  apply app_inj_1 in E as [E1 E2]; [|done]. injection E1 as -> ->.
  split; [done|]. split; [done|]. by apply le_bytes_u64_inj.
Qed.
End Ops.

(** Keys of different families differ in their prefix or in their length. *)
Ltac key_neq :=
  let E := fresh in intros E;
  first
  [ apply (f_equal (take 5)) in E; vm_compute in E; discriminate E
  | apply (f_equal (@length Z)) in E;
    unfold beacon_block_key, block_key, beacon_index_key, shard_block_key, index_key, height_key in E;
    rewrite ?length_app, ?le_bytes_length in E; cbn in E; lia ].

Ltac look :=
  repeat first
  [ rewrite lookup_insert_eq | rewrite lookup_delete_eq
  | rewrite lookup_insert_ne by key_neq | rewrite lookup_delete_ne by key_neq ].

Section Theorems.
Context {S : Type} {lvdb : LevelDB S}.

Lemma next_height_stored (s s' : S) (fromShard toShard curHeight nextHeight : Z) :
  in_u64 curHeight -> in_u64 nextHeight ->
  StoreCrossShardNextHeight fromShard toShard curHeight nextHeight s = (s', Ok tt) ->
  snd (FetchCrossShardNextHeight fromShard toShard curHeight s') = Ok nextHeight /\
  forall f t c, in_u64 c -> (f, t, c) <> (fromShard, toShard, curHeight) ->
    snd (FetchCrossShardNextHeight f t c s') = snd (FetchCrossShardNextHeight f t c s).
Proof.
  intros Hc Hn H. apply put_ok in H. unfold FetchCrossShardNextHeight, HasCrossShardNextHeight, HasValue.
  unfold mbind, M_bind. setoid_rewrite get_or_err. rewrite H, lookup_insert_eq. split.
  - by apply BytesToUint64_le.
  - intros f t c Hc' Hne. rewrite lookup_insert_ne.
    + by destruct (lv_content s !! _).
    + intros E. apply next_height_key_inj in E as (-> & -> & ->); done.
Qed.

(** A cross-shard link that was stored is read back, for its two shards and height, and
    no other link changes. *)
Theorem next_height_roundtrip (s s' : S) (fromShard toShard curHeight nextHeight : Z) :
  in_u64 curHeight -> in_u64 nextHeight ->
  StoreCrossShardNextHeight fromShard toShard curHeight nextHeight s = (s', Ok tt) ->
  snd (FetchCrossShardNextHeight fromShard toShard curHeight s') = Ok nextHeight /\
  forall f t c, in_u64 c -> (f, t, c) <> (fromShard, toShard, curHeight) ->
    snd (FetchCrossShardNextHeight f t c s') = snd (FetchCrossShardNextHeight f t c s).
Proof. apply next_height_stored. Qed.

(** After a beacon block and its index are stored, the block, its height and the hash
    at its height are found; [DeleteBeaconBlock] removes the block and its height, but
    not the entry of the height, which keeps naming the deleted block. *)
Theorem beacon_block_lifecycle (s s1 s2 s3 : S) (hash : Hash) (block : bytes) (idx : Z) :
  length hash = 32%nat -> in_u64 idx ->
  StoreBeaconBlock (mkStored (Some hash) (Ok block)) s = (s1, Ok tt) ->
  StoreBeaconBlockIndex hash idx s1 = (s2, Ok tt) ->
  DeleteBeaconBlock hash idx s2 = (s3, Ok tt) ->
  snd (HasBeaconBlock hash s2) = Ok true /\ snd (FetchBeaconBlock hash s2) = Ok block /\
  snd (GetIndexOfBeaconBlock hash s2) = Ok idx /\ snd (GetBeaconBlockHashByIndex idx s2) = Ok hash /\
  snd (HasBeaconBlock hash s3) = Ok false /\ snd (GetIndexOfBeaconBlock hash s3) = Err UnexpectedError /\
  snd (GetBeaconBlockHashByIndex idx s3) = Ok hash.
Proof.
  intros Hh Hi H1 H2 H3.
  apply store_block_ok in H1 as (_ & val & [= <-] & E1).
  apply M_bind_ok in H2 as (? & [] & Ha%put_ok & Hb%put_ok). rewrite Ha, E1 in Hb.
  apply M_bind_ok in H3 as (? & [] & Hd1%delete_ok & H3).
  apply M_bind_ok in H3 as (? & [] & Hd2%delete_ok & H3).
  apply M_bind_ok in H3 as (? & [] & Hd3%delete_ok & H3).
  apply M_bind_ok in H3 as (? & [] & Hd4%delete_ok & H3%delete_ok).
  rewrite Hd4, Hd3, Hd2, Hd1, Hb in H3. clear Hd1 Hd2 Hd3 Hd4 Ha E1.
  assert (SetBytes hash = Ok hash) as Hset by (unfold SetBytes; by rewrite Hh).
  unfold HasBeaconBlock, FetchBeaconBlock, GetIndexOfBeaconBlock, GetBeaconBlockHashByIndex, HasBeaconBlock, HasValue.
  unfold mbind, M_bind. rewrite !get_or_err. rewrite Hb, H3. clear Hb H3. look. cbn [snd].
  rewrite (BytesToUint64_le idx Hi), Hset. done.
Qed.

Lemma cmb_members_ok members b :
  cmb_members members = Ok b -> length b = (66 * length members)%nat.
Proof.
  revert b. induction members as [|m ms IH]; intros b; cbn [cmb_members]; [by intros [= <-]|].
  destruct (decide _) as [Hm|]; [|done]. destruct (cmb_members ms) as [l| |]; [|done..].
  intros [= <-]. rewrite length_app, (IH l eq_refl), Hm. unfold PaymentAddressLen. cbn [length]. lia.
Qed.

Lemma slice_ok i j value :
  0 <= i -> i <= j -> j <= Z.of_nat (length value) ->
  slice i j value = Ok (take (Z.to_nat (j - i)) (drop (Z.to_nat i) value)).
Proof. intros. unfold slice. cmp. done. Qed.

Lemma cmb_value_parse reserve members capital txHash state fine value :
  length reserve = 66%nat -> length txHash = 32%nat ->
  getCMBInitValue reserve members capital txHash state fine = Ok value ->
  parseCMBInitValue value = if decide (members = []) then Panic else Err "error parsing cmb value".
Proof.
  intros Hr Ht. unfold getCMBInitValue.
  destruct (cmb_members members) as [ms| |] eqn:Hms; [|done..]. apply cmb_members_ok in Hms.
  assert (exists C F, le_bytes 8 capital = C /\ le_bytes 8 fine = F /\ length C = 8%nat /\ length F = 8%nat)
    as (C & F & -> & -> & HC & HF) by (do 2 eexists; repeat split; apply le_bytes_length).
  intros [= <-]. unfold parseCMBInitValue, PaymentAddressLen, Uint8ToBytes.
  rewrite drop_app_le, drop_ge by lia. cbn [app]. rewrite !length_app, Hr, Ht, HC, HF.
  rewrite (proj2 (Nat.ltb_ge _ _)) by lia. cbv zeta. rewrite (proj2 (Nat.ltb_ge _ _)) by lia.
  unfold BytesToUint64. rewrite !drop_app_le, !(drop_ge C) by lia.
  cbn [app]. rewrite !length_app, Ht, HC, HF.
  cbn [length]. rewrite !(proj2 (Nat.ltb_ge _ _)) by lia. cbn [mbind outcome_bind].
  rewrite !app_assoc, last_snoc. cbn [mbind outcome_bind]. rewrite <- !app_assoc.
  rewrite (slice_ok (_ - 32 - 1)); rewrite ?length_app, ?Ht, ?HF; cbn [length]; try lia.
  cbn [mbind outcome_bind]. destruct (decide (members = [])) as [->|Hne].
  - unfold slice at 1. cbn [length] in Hms. rewrite Hms.
    match goal with |- context [if ?b then Ok _ else Panic] => replace b with false by (symmetry; apply andb_false_intro1, andb_false_intro2, Z.leb_gt; lia) end. done.
  - assert (1 <= length members)%nat by (destruct members; simpl; [done|lia]).
    rewrite slice_ok; rewrite ?length_app, ?Ht, ?HF; cbn [length]; try lia.
    cbn [mbind outcome_bind]. rewrite length_take, length_drop, !length_app, Ht, HF, Hms.
    cbn [length]. destruct (_ =? 0)%nat eqn:E; [|done]. apply Nat.eqb_eq in E. exfalso. revert E.
    replace (_ `min` _)%nat with (65 + (length members - 1) * 66)%nat by lia.
    rewrite Nat.Div0.mod_add. done.
Qed.

(** A custom bank account that was stored can never be read or updated: the parser
    leaves one byte off the members, so it always reports a broken value (it panics when
    there are no members). *)
Theorem cmb_never_read_back (s s' : S) (mainAccount reserve : bytes) (members : list bytes)
    (capital : Z) (txHash : bytes) (state fine : Z) :
  length reserve = 66%nat -> length txHash = 32%nat ->
  updateCMB (getCMBInitKey mainAccount) reserve members capital txHash state fine s = (s', Ok tt) ->
  snd (GetCMB mainAccount s') =
    (if decide (members = []) then Panic else Err "error parsing cmb value") /\
  forall state', UpdateCMBState mainAccount state' s' =
    (s', if decide (members = []) then Panic else Err "error parsing cmb value").
Proof.
  intros Hr Ht H. apply M_bind_ok in H as (s1 & value & Hv & Hput%put_ok).
  apply or_err_ok in Hv as [= <- Hval]. apply cmb_value_parse in Hval; [|done..].
  unfold GetCMB, UpdateCMBState, Get, mbind, M_bind. rewrite Hput, lookup_insert_eq.
  cbn [snd lift]. unfold lift. rewrite Hval. by destruct (decide (members = [])).
Qed.

(** The hash of a withdraw request is read back without its last byte, and after one
    update of its state the request no longer parses. *)
Lemma withdraw_request_truncated (txHash : bytes) (state : Z) :
  length txHash = 32%nat ->
  parseWithdrawRequestValue (getCMBWithdrawRequestValue txHash state) = Ok (take 31 txHash, state) /\
  parseWithdrawRequestValue (getCMBWithdrawRequestValue (take 31 txHash) state) =
    Err "Error parsing withdraw request".
Proof.
  intros Ht. unfold parseWithdrawRequestValue, getCMBWithdrawRequestValue, Uint8ToBytes.
  rewrite !length_app, length_take, Ht. cbn [length]. split; [|done].
  change (32 + 1 =? 1 + 32)%nat with true. cbv iota. rewrite slice_ok; rewrite ?length_app, ?Ht; cbn [length]; try lia.
  cbn [mbind outcome_bind]. rewrite last_snoc. unfold mbind, outcome_bind.
  rewrite drop_0, take_app_le by (cbn; lia). done.
Qed.
End Theorems.

(** ** Runs on a store in memory *)

Definition sample_hash : Hash := token_id 7.
Definition run {A} (m : M (gmap bytes bytes) A) (s : gmap bytes bytes) : gmap bytes bytes := fst (m s).

Lemma next_height_roundtrip_witness :
  snd (FetchCrossShardNextHeight 1 2 7 (run (StoreCrossShardNextHeight 1 2 7 9) ∅)) = Ok 9.
Proof.
  apply (next_height_roundtrip (∅ : gmap bytes bytes) (run (StoreCrossShardNextHeight 1 2 7 9) ∅) 1 2 7 9);
    [by_compute|by_compute|reflexivity].
Defined.

Lemma beacon_block_lifecycle_witness :
  let s1 := run (StoreBeaconBlock (mkStored (Some sample_hash) (Ok [123; 125]))) ∅ in
  let s2 := run (StoreBeaconBlockIndex sample_hash 5) s1 in
  let s3 := run (DeleteBeaconBlock sample_hash 5) s2 in
  snd (HasBeaconBlock sample_hash s3) = Ok false /\
  snd (GetBeaconBlockHashByIndex 5 s3) = Ok sample_hash.
Proof.
  intros s1 s2 s3.
  destruct (beacon_block_lifecycle ∅ s1 s2 s3 sample_hash [123; 125] 5 eq_refl ltac:(by_compute)
    eq_refl eq_refl eq_refl) as (_ & _ & _ & _ & H1 & _ & H2).
  exact (conj H1 H2).
Defined.

Lemma cmb_never_read_back_witness :
  snd (GetCMB [1] (run (updateCMB (getCMBInitKey [1]) (replicate 66 0) [replicate 66 5] 10
    sample_hash CMBRequested 0) ∅)) = Err "error parsing cmb value".
Proof.
  apply (cmb_never_read_back (∅ : gmap bytes bytes)
    (run (updateCMB (getCMBInitKey [1]) (replicate 66 0) [replicate 66 5] 10 sample_hash CMBRequested 0) ∅)
    [1] (replicate 66 0) [replicate 66 5] 10 sample_hash CMBRequested 0);
    reflexivity.
Defined.

(** [StoreCMB] refuses an account that was never seen, naming it a duplicate. *)
Example store_cmb_refused :
  StoreCMB [1] (replicate 66 0) [] 10 sample_hash (∅ : gmap bytes bytes) = (∅, Err KeyExisted).
Proof. reflexivity. Qed.

(** [DeleteBlock] leaves the shard's reference: the same block cannot be stored again. *)
Example deleted_shard_block_not_restorable :
  let v := mkStored (Some sample_hash) (Ok [123; 125]) in
  let s := run (DeleteBlock sample_hash 5 1) (run (StoreShardBlock v 1) ∅) in
  snd (HasBlock sample_hash s) = Ok false /\ snd (StoreShardBlock v 1 s) = Err BlockExisted.
Proof. split; reflexivity. Qed.
End LevelDB.
