(* ===== verification/Loan.v ===== *)
(** Loans: the interest of src/metadata/loanpayment.go and the payment and withdrawal
    handlers of src/blockchain/stabilitybeaconprocess.go over the store of LevelDB.v.
    Amounts and heights are [uint64]s, their wrap-around written out.  The JSON of the
    actions is an interface. *)

From S2P Require Import Prelude GoStr Hash LevelDB.

#[local] Open Scope string_scope.
#[local] Open Scope list_scope.
#[local] Open Scope Z_scope.

(** [json.Unmarshal] into [LoanPaymentAction] and [LoanWithdrawAction]: the fields, in
    order. *)
Class LoanJson : Type := {
  json_LoanPaymentAction : string -> outcome (bytes * Z * Z * Z);
  json_LoanWithdrawAction : string -> outcome (bytes * Z * Z)
}.

Module Loan.
Import LevelDB.

(** ** Interest *)

Definition Decimals : Z := 10000.

Definition GetInterestPerTerm (principle interestRate : Z) : Z := u64 (principle * interestRate) / Decimals.

(** A maturity of zero divides by zero. *)
Definition GetTotalInterest (principle interest interestRate maturity deadline currentHeight : Z) :
    outcome Z :=
  if deadline <=? currentHeight then
    let perTerm := GetInterestPerTerm principle interestRate in
    if 0 <? perTerm then
      if maturity =? 0 then Panic
      else Ok (u64 (interest + u64 (u64 (currentHeight - deadline) / maturity * perTerm)))
    else Ok interest
  else Ok 0.

Definition GetTotalDebt (principle interest interestRate maturity deadline currentHeight : Z) :
    outcome Z :=
  totalInterest ← GetTotalInterest principle interest interestRate maturity deadline currentHeight;
  Ok (u64 (principle + totalInterest)).

Definition CalculateInterestPaid (amountSent principle interest deadline interestRate maturity
    currentHeight : Z) : outcome Z :=
  totalInterest ← GetTotalInterest principle interest interestRate maturity deadline currentHeight;
  Ok (if totalInterest <? amountSent then totalInterest else amountSent).

(** ** Payments *)

(** The new principle, interest and number of terms of a payment. *)
Definition pay (amountSent principle interest interestPerTerm totalInterest : Z) : Z * Z * Z :=
  if amountSent <=? totalInterest then
    if 0 <? interestPerTerm then
      if interest <=? amountSent then
        (principle, u64 (interestPerTerm - u64 (amountSent - interest) mod interestPerTerm),
         u64 (1 + u64 (amountSent - interest) / interestPerTerm))
      else (principle, u64 (interest - amountSent), 0)
    else (principle, interest, 0)
  else
    let principle := if principle <? u64 (amountSent - totalInterest) then 0
                     else u64 (principle - u64 (amountSent - totalInterest)) in
    if interest <=? totalInterest then
      if 0 <? interestPerTerm then
        (principle, interestPerTerm, u64 (1 + u64 (totalInterest - interest) / interestPerTerm))
      else (principle, interest, 0)
    else (principle, interest, 0).

(** The part of a node's state the handlers change: the store and the bank's fund, of
    which the latter is in the best state of the beacon chain. *)
Record Bank (S : Type) : Type := mkBank { bank_db : S; BankFund : Z }.
Arguments mkBank {_} _ _.
Arguments bank_db {_} _.
Arguments BankFund {_} _.

Section Handlers.
Context {S : Type} {lvdb : LevelDB S}.

Definition on_db {A} (m : M S A) : M (Bank S) A := fun b =>
  match m (bank_db b) with (s, r) => (mkBank s (BankFund b), r) end.

Definition add_fund (amount : Z) : M (Bank S) unit :=
  modify (fun b => mkBank (bank_db b) (u64 (BankFund b + amount))).

(** The fund is updated before the loan is stored. *)
Definition processLoanPayment (loanID : bytes) (amountSent interestRate maturity beaconHeight : Z) :
    M (Bank S) unit :=
  r ← on_db (GetLoanPayment loanID);
  let '(principle, interest, deadline) := r in
  interestPaid ← lift (CalculateInterestPaid amountSent principle interest deadline interestRate
                         maturity beaconHeight);
  _ ← add_fund interestPaid;
  let interestPerTerm := GetInterestPerTerm principle interestRate in
  totalInterest ← lift (GetTotalInterest principle interest interestRate maturity deadline beaconHeight);
  let '(principle, interest, termInc) := pay amountSent principle interest interestPerTerm totalInterest in
  on_db (StoreLoanPayment loanID principle interest (u64 (deadline + u64 (termInc * maturity)))).

Definition processLoanPaymentInstruction {json : LoanJson} (inst : list string) (beaconHeight : Z) :
    M (Bank S) unit :=
  match inst !! 2%nat with
  | None => gopanic
  | Some value =>
      a ← lift (json_LoanPaymentAction value);
      let '(loanID, amountSent, interestRate, maturity) := a in
      processLoanPayment loanID amountSent interestRate maturity beaconHeight
  end.

(** The first interest falls due at the height of the withdrawal. *)
Definition processLoanWithdrawInstruction {json : LoanJson} (inst : list string) (beaconHeight : Z) :
    M (Bank S) unit :=
  match inst !! 2%nat with
  | None => gopanic
  | Some value =>
      a ← lift (json_LoanWithdrawAction value);
      let '(loanID, principle, interest) := a in
      on_db (StoreLoanPayment loanID principle interest beaconHeight)
  end.

(** ** Lemmas *)

Lemma parse_loan_value p i d :
  in_u64 p -> in_u64 i -> in_u64 d ->
  parseLoanPaymentValue (getLoanPaymentValue p i d) = Ok (p, i, d).
Proof.
  intros Hp Hi Hd. unfold parseLoanPaymentValue, getLoanPaymentValue, Hashes.Uint64ToBytes.
  assert (forall x rest, in_u64 x -> Hashes.BytesToUint64 (le_bytes 8 x ++ rest) = Ok x) as Hx.
  { intros x rest Hx. unfold Hashes.BytesToUint64. rewrite length_app, le_bytes_length. simpl Nat.ltb. cbv iota.
    rewrite take_app_le, take_ge by (rewrite le_bytes_length; lia).
    rewrite le_value_bytes, Z.mod_small; [done|]. unfold in_u64 in Hx. lia. }
  rewrite !length_app, !le_bytes_length. simpl Nat.ltb. cbv iota. rewrite Hx by done.
  rewrite (drop_app_length' (le_bytes 8 p)) by (symmetry; apply le_bytes_length). cbn [mbind outcome_bind].
  rewrite Hx by done. cbn [mbind outcome_bind].
  rewrite (drop_app_length' (le_bytes 8 i)) by (symmetry; apply le_bytes_length).
  rewrite <- (app_nil_r (le_bytes 8 d)), Hx by done. done.
Qed.

Lemma get_loan_stored loanID p i d (s s' : S) :
  in_u64 p -> in_u64 i -> in_u64 d ->
  StoreLoanPayment loanID p i d s = (s', Ok tt) ->
  GetLoanPayment loanID s' = (s', Ok (p, i, d)).
Proof.
  intros Hp Hi Hd Hst%put_ok. unfold GetLoanPayment, Get, mbind, M_bind, lift.
  by rewrite Hst, lookup_insert_eq, parse_loan_value.
Qed.

(** ** What a payment does *)

(** No sum or product of the loan leaves [uint64]. *)
Record loan_fits (P I r m d h : Z) : Prop := {
  fit_P : in_u64 P; fit_I : in_u64 I; fit_d : in_u64 d; fit_h : in_u64 h; fit_r : 0 <= r;
  fit_m : 0 < m;
  fit_rate : P * r < 2 ^ 64;
  fit_interest : I + (h - d) / m * GetInterestPerTerm P r < 2 ^ 64;
  fit_deadline : d + m < 2 ^ 64;
  fit_height : h + m < 2 ^ 64
}.

Lemma per_term_range P r : 0 <= P -> 0 <= r -> P * r < 2 ^ 64 ->
  GetInterestPerTerm P r = P * r / Decimals /\ 0 <= GetInterestPerTerm P r < 2 ^ 64.
Proof.
  intros HP Hr Hlt. unfold GetInterestPerTerm, Decimals. rewrite u64_id by (unfold in_u64; nia).
  split; [done|]. split; [apply Z.div_pos; nia|].
  apply Z.le_lt_trans with (P * r); [|done]. apply Z.div_le_upper_bound; nia.
Qed.

(** The interest due, without machine arithmetic. *)
Definition interest_due (P I r m d h : Z) : Z :=
  if d <=? h then
    if 0 <? GetInterestPerTerm P r then I + (h - d) / m * GetInterestPerTerm P r else I
  else 0.

Lemma terms_range P I r m d h : loan_fits P I r m d h -> d <= h ->
  0 <= (h - d) / m <= h - d /\ 0 <= (h - d) / m * GetInterestPerTerm P r < 2 ^ 64.
Proof.
  intros [HP HI Hd Hh Hr Hm Hrate Hint _ _] Hle. unfold in_u64 in *.
  destruct (per_term_range P r) as [_ Hpt]; [lia..|].
  assert (0 <= (h - d) / m) by (apply Z.div_pos; lia).
  split; [|nia]. split; [done|]. apply Z.div_le_upper_bound; nia.
Qed.

Lemma total_interest_due P I r m d h : loan_fits P I r m d h ->
  GetTotalInterest P I r m d h = Ok (interest_due P I r m d h).
Proof.
  intros Hf. pose proof Hf as [HP HI Hd Hh Hr Hm Hrate Hint Hdl Hhm].
  unfold GetTotalInterest, interest_due. destruct (d <=? h) eqn:Hle; to_prop; [|done].
  destruct (0 <? _) eqn:Hpt; [|done]. rewrite (proj2 (Z.eqb_neq m 0)) by lia.
  destruct (terms_range _ _ _ _ _ _ Hf Hle) as [Hk Hkp]. unfold in_u64 in *.
  rewrite (u64_id (h - d)) by (unfold in_u64; lia).
  rewrite (u64_id (_ * _)) by (unfold in_u64; lia). rewrite u64_id by (unfold in_u64; lia). done.
Qed.

Lemma interest_due_range P I r m d h : loan_fits P I r m d h -> 0 <= interest_due P I r m d h < 2 ^ 64.
Proof.
  intros Hf. pose proof Hf as [HP HI Hd Hh Hr Hm Hrate Hint Hdl Hhm]. unfold in_u64 in *.
  unfold interest_due. destruct (d <=? h) eqn:Hle; to_prop; [|lia].
  destruct (terms_range _ _ _ _ _ _ Hf Hle) as [Hk Hkp]. destruct (0 <? _); lia.
Qed.

(** Paying forward [n] terms. *)
Lemma terms_after m d h n : 0 < m -> d <= h -> 0 <= n ->
  (d + n * m <= h <-> n <= (h - d) / m) /\ (h - (d + n * m)) / m = (h - d) / m - n.
Proof.
  intros Hm Hdh Hn. split.
  - pose proof (Z.div_mod (h - d) m ltac:(lia)). pose proof (Z.mod_pos_bound (h - d) m Hm). split; nia.
  - replace (h - (d + n * m)) with (h - d + - n * m) by lia. rewrite Z.div_add by lia. lia.
Qed.

(** A payment that the interest due absorbs. *)
Lemma pay_interest a P I r m d h :
  loan_fits P I r m d h -> in_u64 a -> 0 < GetInterestPerTerm P r ->
  a <= interest_due P I r m d h ->
  exists I' n, pay a P I (GetInterestPerTerm P r) (interest_due P I r m d h) = (P, I', n) /\
    in_u64 I' /\ 0 <= n /\ d + n * m <= Z.max d h + m /\
    interest_due P I' r m (d + n * m) h = interest_due P I r m d h - a.
Proof.
  intros Hf Ha Hpt Hle. pose proof Hf as [HP HI Hd Hh Hr Hm Hrate Hint Hdl Hhm].
  unfold pay. cmp. unfold interest_due in *. rewrite (proj2 (Z.ltb_lt _ _) Hpt) in *.
  destruct (per_term_range P r) as [_ Hpt2]; [unfold in_u64 in *; lia..|].
  set (ipt := GetInterestPerTerm P r) in *. unfold in_u64 in *.
  destruct (I <=? a) eqn:HIa; to_prop.
  - rewrite (u64_id (a - I)) by (unfold in_u64; lia).
    pose proof (Z.div_mod (a - I) ipt ltac:(lia)) as Hdm.
    pose proof (Z.mod_pos_bound (a - I) ipt Hpt) as Hmb.
    assert (0 <= (a - I) / ipt) as Hq by (apply Z.div_pos; lia).
    set (q := (a - I) / ipt) in *. set (rem := (a - I) mod ipt) in *.
    exists (ipt - rem), (1 + q).
    destruct (d <=? h) eqn:Hdh; to_prop.
    + destruct (terms_after m d h (1 + q) Hm Hdh ltac:(lia)) as [Hiff Hdiv].
      destruct (terms_after m d h q Hm Hdh Hq) as [Hiff0 _].
      set (k := (h - d) / m) in *.
      assert (q <= k) as Hqk by (apply (Zmult_le_reg_r _ _ ipt); lia).
      assert (q <= a - I) as Hqa by (pose proof (Z.mul_le_mono_nonneg_l 1 ipt q Hq ltac:(lia)); lia).
      apply Hiff0 in Hqk as Hqm.
      rewrite !u64_id by (unfold in_u64; lia).
      split; [done|]. split; [lia|]. split; [lia|]. split; [lia|].
      destruct (d + (1 + q) * m <=? h) eqn:Hd'; to_prop.
      * rewrite Hdiv. clear - Hdm. lia.
      * assert (q = k) as -> by lia. assert (rem = 0) by lia. lia.
    + assert (a = 0 /\ I = 0) as [-> ->] by lia. assert (q = 0) as Hq0 by (unfold q; by rewrite Z.div_0_l by lia).
      assert (rem = 0) as Hr0 by (unfold rem; by rewrite Z.mod_0_l by lia). rewrite Hq0, Hr0.
      rewrite !u64_id by (unfold in_u64; lia).
      split; [done|]. split; [lia|]. split; [lia|]. split; [lia|]. cmp. lia.
  - exists (I - a), 0. rewrite u64_id by (unfold in_u64; lia).
    split; [done|]. split; [lia|]. split; [lia|]. split; [lia|].
    rewrite Z.mul_0_l, Z.add_0_r. destruct (d <=? h) eqn:Hdh; to_prop; lia.
Qed.

(** A payment that covers the interest due and goes on to the principle. *)
Lemma pay_principle a P I r m d h :
  loan_fits P I r m d h -> in_u64 a -> 0 < GetInterestPerTerm P r ->
  interest_due P I r m d h < a ->
  let P' := P - Z.min P (a - interest_due P I r m d h) in
  exists I' n, pay a P I (GetInterestPerTerm P r) (interest_due P I r m d h) = (P', I', n) /\
    in_u64 P' /\ in_u64 I' /\ 0 <= n /\ d + n * m <= Z.max d h + m /\ h < d + n * m /\
    (d <= h -> I' = GetInterestPerTerm P r).
Proof.
  intros Hf Ha Hpt Hlt P'. pose proof Hf as [HP HI Hd Hh Hr Hm Hrate Hint Hdl Hhm].
  pose proof (interest_due_range _ _ _ _ _ _ Hf) as HT.
  destruct (per_term_range P r) as [_ Hpt2]; [unfold in_u64 in *; lia..|].
  unfold pay. unfold in_u64 in *.
  set (ipt := GetInterestPerTerm P r) in *.
  assert (interest_due P I r m d h = if d <=? h then I + (h - d) / m * ipt else 0) as HTd.
  { unfold interest_due. fold ipt. rewrite (proj2 (Z.ltb_lt _ _) Hpt). done. }
  set (T := interest_due P I r m d h) in *.
  rewrite (proj2 (Z.leb_gt a T)) by lia. rewrite (u64_id (a - T)) by (unfold in_u64; lia).
  assert ((if P <? a - T then 0 else u64 (P - (a - T))) = P') as ->.
  { unfold P'. destruct (P <? a - T) eqn:?; to_prop; [lia|]. rewrite u64_id by (unfold in_u64; lia). lia. }
  rewrite (proj2 (Z.ltb_lt _ _) Hpt).
  destruct (I <=? T) eqn:HIT; to_prop.
  - exists ipt. rewrite (u64_id (T - I)) by (unfold in_u64; lia).
    destruct (d <=? h) eqn:Hdh; to_prop.
    + assert ((T - I) / ipt = (h - d) / m) as ->
        by (rewrite HTd; replace (I + (h - d) / m * ipt - I) with ((h - d) / m * ipt) by lia; by rewrite Z.div_mul by lia).
      pose proof (Z.div_mod (h - d) m ltac:(lia)). pose proof (Z.mod_pos_bound (h - d) m Hm).
      assert (0 <= (h - d) / m) by (apply Z.div_pos; lia).
      exists (1 + (h - d) / m). rewrite u64_id by (unfold in_u64; nia).
      repeat split; try done; try lia; nia.
    + assert (T = 0 /\ I = 0) as [-> ->] by lia. exists 1. rewrite Z.div_0_l by lia.
      rewrite u64_id by by_compute. repeat split; try done; lia.
  - exists I, 0. destruct (d <=? h) eqn:Hdh; to_prop; [|repeat split; try done; lia].
    assert (0 <= (h - d) / m) by (apply Z.div_pos; lia). nia.
Qed.

(** A payment that succeeds: the loan it reads, and what it stores. *)
Lemma process_payment_inv loanID a r m h (b b' : Bank S) P I d T :
  GetLoanPayment loanID (bank_db b) = (bank_db b, Ok (P, I, d)) ->
  GetTotalInterest P I r m d h = Ok T ->
  processLoanPayment loanID a r m h b = (b', Ok tt) ->
  let '(P', I', n) := pay a P I (GetInterestPerTerm P r) T in
  BankFund b' = u64 (BankFund b + Z.min a T) /\
  StoreLoanPayment loanID P' I' (u64 (d + u64 (n * m))) (bank_db b) = (bank_db b', Ok tt).
Proof.
  intros Hget HT H. unfold processLoanPayment in H. apply M_bind_ok in H as (b1 & r1 & H1 & H).
  unfold on_db in H1. rewrite Hget in H1. injection H1 as <- <-.
  cbn [bank_db BankFund] in H. unfold CalculateInterestPaid in H. rewrite HT in H.
  apply M_bind_ok in H as (b2 & paid & [= <- <-] & H).
  apply M_bind_ok in H as (b3 & [] & [= <-] & H).
  apply M_bind_ok in H as (b4 & T' & [= <- <-] & H).
  destruct (pay a P I (GetInterestPerTerm P r) T) as [[P' I'] n].
  unfold on_db in H. cbn [bank_db BankFund] in H.
  destruct (StoreLoanPayment _ _ _ _ _) as [s1 r1] eqn:Hst. injection H as <- ->.
  cbn [bank_db BankFund]. split; [|done]. do 2 f_equal.
  destruct (T <? a) eqn:?; to_prop; lia.
Qed.

(** A payment is split between the interest due and the principle, nothing is lost: the
    interest due drops by what it took, the principle by the rest (down to zero), and the
    bank's fund grows by the interest paid. *)
Theorem loan_payment_settles (loanID : bytes) (a r m h : Z) (b b' : Bank S) (P I d : Z) :
  GetLoanPayment loanID (bank_db b) = (bank_db b, Ok (P, I, d)) ->
  loan_fits P I r m d h -> in_u64 a -> 0 < GetInterestPerTerm P r ->
  processLoanPayment loanID a r m h b = (b', Ok tt) ->
  let paid := Z.min a (interest_due P I r m d h) in
  BankFund b' = u64 (BankFund b + paid) /\
  exists P' I' d', GetLoanPayment loanID (bank_db b') = (bank_db b', Ok (P', I', d')) /\
    P' = P - Z.min P (a - paid) /\
    interest_due P' I' r m d' h = interest_due P I r m d h - paid.
Proof.
  intros Hget Hf Ha Hpt H paid. pose proof Hf as [HP HI Hd Hh Hr Hm Hrate Hint Hdl Hhm].
  eapply process_payment_inv in H; [|done|by apply total_interest_due].
  pose proof (interest_due_range _ _ _ _ _ _ Hf) as HT. unfold in_u64 in *.
  destruct (Z.le_gt_cases a (interest_due P I r m d h)) as [Hle|Hlt].
  - destruct (pay_interest a P I r m d h Hf Ha Hpt Hle) as (I' & n & Hpay & HI' & Hn & Hd' & Hdue).
    rewrite Hpay in H. destruct H as [Hfund Hst]. split; [done|].
    rewrite (u64_id (n * m)), u64_id in Hst by (unfold in_u64; nia).
    exists P, I', (d + n * m). split; [eapply get_loan_stored; [exact HP|exact HI'|unfold in_u64; nia|exact Hst]|].
    assert (paid = a) as -> by (unfold paid; lia). split; [lia|done].
  - destruct (pay_principle a P I r m d h Hf Ha Hpt Hlt) as (I' & n & Hpay & HP' & HI' & Hn & Hd' & Hnext & _).
    rewrite Hpay in H. destruct H as [Hfund Hst]. split; [done|].
    rewrite (u64_id (n * m)), u64_id in Hst by (unfold in_u64; nia).
    do 2 eexists. exists (d + n * m).
    split; [eapply get_loan_stored; [exact HP'|exact HI'|unfold in_u64; nia|exact Hst]|].
    assert (paid = interest_due P I r m d h) as -> by (unfold paid; lia). split; [done|].
    unfold interest_due at 1. rewrite (proj2 (Z.leb_gt _ _)) by lia. lia.
Qed.

(** A loan that is paid back is never closed: the last payment leaves one more term of
    the old interest, due at the next term, which no later payment reduces, while each of
    them is credited to the fund. *)
Theorem loan_repaid_never_closes (loanID : bytes) (a r m h : Z) (b b' : Bank S) (P I d : Z) :
  GetLoanPayment loanID (bank_db b) = (bank_db b, Ok (P, I, d)) ->
  loan_fits P I r m d h -> in_u64 a -> 0 < GetInterestPerTerm P r ->
  d <= h -> P + interest_due P I r m d h <= a ->
  processLoanPayment loanID a r m h b = (b', Ok tt) ->
  exists d', h < d' /\
    GetLoanPayment loanID (bank_db b') = (bank_db b', Ok (0, GetInterestPerTerm P r, d')) /\
    forall (b1 b2 : Bank S) a1 h1,
      GetLoanPayment loanID (bank_db b1) = (bank_db b1, Ok (0, GetInterestPerTerm P r, d')) ->
      d' <= h1 -> processLoanPayment loanID a1 r m h1 b1 = (b2, Ok tt) ->
      GetLoanPayment loanID (bank_db b2) = (bank_db b2, Ok (0, GetInterestPerTerm P r, d')) /\
      BankFund b2 = u64 (BankFund b1 + Z.min a1 (GetInterestPerTerm P r)).
Proof.
  intros Hget Hf Ha Hpt Hdh Hall H. pose proof Hf as [HP HI Hd Hh Hr Hm Hrate Hint Hdl Hhm].
  eapply process_payment_inv in H; [|done|by apply total_interest_due].
  destruct (per_term_range P r) as [Hpr Hpt2]; [unfold in_u64 in *; lia..|].
  assert (0 < P) as HP0.
  { destruct (Z.eq_dec P 0) as [->|]; [|unfold in_u64 in *; lia]. by rewrite Hpr in Hpt. }
  assert (interest_due P I r m d h < a) as Hlt by lia.
  destruct (pay_principle a P I r m d h Hf Ha Hpt Hlt) as (I' & n & Hpay & HP' & HI' & Hn & Hd' & Hnext & HI'eq).
  rewrite Hpay in H. destruct H as [_ Hst]. rewrite HI'eq in * by done. clear HI'eq.
  assert (P - P `min` (a - interest_due P I r m d h) = 0) as E by lia. rewrite E in *.
  rewrite (u64_id (n * m)), u64_id in Hst by (unfold in_u64 in *; nia).
  assert (in_u64 (d + n * m)) as Hdu by (unfold in_u64 in *; nia).
  exists (d + n * m). split; [done|]. split; [by apply (get_loan_stored _ _ _ _ _ _ HP' HI' Hdu Hst)|].
  intros b1 b2 a1 h1 Hget1 Hle1 H1.
  set (ipt := GetInterestPerTerm P r) in *.
  eapply process_payment_inv in H1; [|done|unfold GetTotalInterest; rewrite (proj2 (Z.leb_le _ _)) by done; reflexivity].
  change (GetInterestPerTerm 0 r) with 0 in H1.
  assert (pay a1 0 ipt 0 ipt = (0, ipt, 0)) as Hp1.
  { unfold pay. rewrite Z.leb_refl. destruct (a1 <=? ipt); [done|].
    destruct (u64_range (a1 - ipt)) as [Hu _]. destruct (0 <? u64 (a1 - ipt)) eqn:Hu0; [done|]. to_prop.
    replace (u64 (a1 - ipt)) with 0 by lia. done. }
  rewrite Hp1 in H1. destruct H1 as [Hfund Hst1]. split; [|done].
  rewrite Z.mul_0_l, (u64_id 0), Z.add_0_r, u64_id in Hst1 by (done || by_compute).
  by apply (get_loan_stored _ _ _ _ _ _ HP' HI' Hdu Hst1).
Qed.
End Handlers.

(** ** A loan of 1000 at 5 percent a term of 10 blocks *)

Definition loan_db : gmap bytes bytes := run (StoreLoanPayment [1] 1000 50 20) ∅.
Definition pay_at (a h : Z) (b : Bank (gmap bytes bytes)) : Bank (gmap bytes bytes) :=
  fst (processLoanPayment [1] a 500 10 h b).

Lemma sample_loan_fits : loan_fits 1000 50 500 10 20 35.
Proof. split; by_compute. Qed.

Lemma loan_payment_settles_witness :
  let b' := pay_at 300 35 (mkBank loan_db 7) in
  BankFund b' = 107 /\
  exists P' I' d', GetLoanPayment [1] (bank_db b') = (bank_db b', Ok (P', I', d')) /\
    P' = 800 /\ interest_due P' I' 500 10 d' 35 = 0.
Proof.
  intros b'. apply (loan_payment_settles [1] 300 500 10 35 (mkBank loan_db 7) b' 1000 50 20);
    [vm_compute; reflexivity|exact sample_loan_fits|by_compute|by_compute|vm_compute; reflexivity].
Defined.

Lemma loan_repaid_never_closes_witness :
  let b' := pay_at 1100 35 (mkBank loan_db 7) in
  exists d', 35 < d' /\
    GetLoanPayment [1] (bank_db b') = (bank_db b', Ok (0, 50, d')) /\
    forall (b1 b2 : Bank (gmap bytes bytes)) a1 h1,
      GetLoanPayment [1] (bank_db b1) = (bank_db b1, Ok (0, 50, d')) ->
      d' <= h1 -> processLoanPayment [1] a1 500 10 h1 b1 = (b2, Ok tt) ->
      GetLoanPayment [1] (bank_db b2) = (bank_db b2, Ok (0, 50, d')) /\
      BankFund b2 = u64 (BankFund b1 + Z.min a1 50).
Proof.
  intros b'. apply (loan_repaid_never_closes [1] 1100 500 10 35 (mkBank loan_db 7) b' 1000 50 20);
    [vm_compute; reflexivity|exact sample_loan_fits|by_compute|by_compute|by_compute|by_compute|vm_compute; reflexivity].
Defined.
End Loan.
