(* ===== verification/HeightPool.v ===== *)
(** Pools of blocks ordered by height: the loops that [BeaconPool], [ShardPool] and
    [ShardToBeaconPool] (src/mempool) share, written once over any type of block
    that has a height, and the lemmas about them. *)

From S2P Require Import Prelude.

(** What a pool needs from the blocks it holds: the height of their header. *)
Class BlockHeight (B : Type) : Type := block_height : B -> Z.
#[export] Hint Mode BlockHeight ! : typeclass_instances.

(** The hash of a block, as the pools report it. *)
Class BlockHash (B H : Type) : Type := block_hash : B -> H.
#[export] Hint Mode BlockHash ! - : typeclass_instances.

Section HeightPool.
Context {B : Type} `{!BlockHeight B}.

Definition heights (pool : list B) : list Z := map block_height pool.

(** *** The loops *)

(** [sort.Slice(pool, less)] with [less] on the heights. *)
Fixpoint insert_height (blk : B) (pool : list B) : list B :=
  match pool with
  | [] => [blk]
  | b :: rest =>
      if block_height blk <? block_height b then blk :: pool
      else b :: insert_height blk rest
  end.

Definition sort_height (pool : list B) : list B :=
  foldl (fun acc blk => insert_height blk acc) [] pool.

(** The loop of [RemoveBlock] over the blocks [rest] still to visit, [index] being
    the position of the first of them in [pool]. *)
Fixpoint remove_loop (last : Z) (rest : list B) (index : nat) (pool : list B) : list B :=
  match rest with
  | [] => pool
  | block :: rest' =>
      if block_height block <=? last then
        remove_loop last rest' (S index)
          (if (index =? length pool - 1)%nat then drop (index + 1) pool else pool)
      else drop index pool
  end.

(** The loop of [UpdateLatestBeaconState] and of [UpdateLatestShardState] of the
    shard-to-beacon pool. *)
Fixpoint scan_latest (lastHeight : Z) (pool : list B) : Z :=
  match pool with
  | [] => lastHeight
  | blk :: rest =>
      if (lastHeight <? block_height blk) && negb (u64 (lastHeight + 1) =? block_height blk)
      then lastHeight
      else scan_latest (block_height blk) rest
  end.

(** The loop of [GetValidBlock]. *)
Fixpoint valid_loop (latest : Z) (pool finalBlocks : list B) : list B :=
  match pool with
  | [] => finalBlocks
  | blk :: rest =>
      if latest <? block_height blk then finalBlocks
      else valid_loop latest rest (finalBlocks ++ [blk])
  end.

Definition has_height (h : Z) (pool : list B) : bool :=
  existsb (fun blkItem => block_height blkItem =? h) pool.

(** The capacity test before a block enters the pool: the pool it leaves (the last
    block is dropped when a better invalid one comes), or the error. *)
Definition check_capacity (maxValid maxInvalid latest : Z) (pool : list B) (blkHeight : Z) :
    outcome (list B) :=
  match pool with
  | [] => Ok pool
  | first :: _ =>
      let numValidPedingBlk := i64 (u64 (latest - block_height first)) in
      let numInValidPedingBlk := i64 (Z.of_nat (length pool) - numValidPedingBlk) in
      if maxValid <? numValidPedingBlk then Err "exceed max valid pending block"
      else if maxInvalid <? numInValidPedingBlk then
        match last pool with
        | None => Panic
        | Some lastBlkInPool =>
            if blkHeight <? block_height lastBlkInPool
            then Ok (take (length pool - 1) pool)
            else Err "exceed invalid pending block"
        end
      else Ok pool
  end.

(** *** What they compute *)

Definition upto (h : Z) (b : B) : bool := block_height b <=? h.

Lemma remove_loop_nonempty last rest index pool :
  rest <> [] -> rest = drop index pool ->
  remove_loop last rest index pool = drop_while (upto last) rest.
Proof.
  revert index pool. induction rest as [|b rest IH]; intros index pool Hne Hrest; [done|].
  assert (rest = drop (index + 1) pool) as Hrest'
    by (rewrite Nat.add_comm, <- drop_drop, drop_drop, Nat.add_comm, <- drop_drop, <- Hrest; done).
  assert (length (b :: rest) = length pool - index)%nat as Hlen
    by (rewrite Hrest; apply length_drop).
  cbn [remove_loop drop_while]. unfold upto at 1.
  destruct (block_height b <=? last); [|done].
  destruct rest as [|b' rest].
  - replace (index =? length pool - 1)%nat with true
      by (symmetry; apply Nat.eqb_eq; simpl in *; lia).
    by rewrite <- Hrest'.
  - replace (index =? length pool - 1)%nat with false
      by (symmetry; apply Nat.eqb_neq; simpl in *; lia).
    apply IH; [done|]. by rewrite Hrest', Nat.add_1_r.
Qed.

(** [RemoveBlock] drops exactly the leading blocks up to the given height. *)
Lemma remove_loop_drop last pool :
  remove_loop last pool 0 pool = drop_while (upto last) pool.
Proof. destruct pool; [done|]. by apply remove_loop_nonempty. Qed.

Lemma valid_loop_take latest pool acc :
  valid_loop latest pool acc = acc ++ take_while (upto latest) pool.
Proof.
  revert acc. induction pool as [|b pool IH]; intros acc; simpl.
  - by rewrite app_nil_r.
  - unfold upto at 1. rewrite Z.leb_antisym. destruct (latest <? block_height b); simpl.
    + by rewrite app_nil_r.
    + rewrite IH, <- app_assoc. done.
Qed.

Lemma has_height_true h pool :
  has_height h pool = true <-> Exists (fun b => block_height b = h) pool.
Proof.
  unfold has_height. rewrite existsb_exists, Exists_exists.
  setoid_rewrite Z.eqb_eq. setoid_rewrite list_elem_of_In. naive_solver.
Qed.

Lemma has_height_false h pool :
  has_height h pool = false <-> Forall (fun b => block_height b <> h) pool.
Proof.
  rewrite <- not_true_iff_false, has_height_true, <- Forall_Exists_neg. done.
Qed.

(** *** Ordered pools *)

Definition block_lt (b1 b2 : B) : Prop := block_height b1 < block_height b2.
Definition asc (pool : list B) : Prop := StronglySorted block_lt pool.

#[export] Instance block_lt_trans : Transitive block_lt.
Proof. intros ???. unfold block_lt. lia. Qed.

Lemma asc_app l1 l2 :
  asc (l1 ++ l2) <->
  (forall b1 b2, b1 ∈ l1 -> b2 ∈ l2 -> block_height b1 < block_height b2) /\ asc l1 /\ asc l2.
Proof. apply StronglySorted_app. Qed.

Lemma asc_drop_while f pool : asc pool -> asc (drop_while f pool).
Proof. rewrite <- (take_drop_while f pool) at 1. by intros (_ & _ & ?)%asc_app. Qed.

Lemma asc_take n pool : asc pool -> asc (take n pool).
Proof. rewrite <- (take_drop n pool) at 1. by intros (_ & ? & _)%asc_app. Qed.

Lemma asc_drop_gt h pool :
  asc pool -> Forall (fun b => h < block_height b) (drop_while (upto h) pool).
Proof.
  induction 1 as [|b pool Hpool IH Hb]; [by constructor|].
  simpl. unfold upto at 1. destruct (block_height b <=? h) eqn:Hle; [apply IH|].
  to_prop. constructor; [done|]. eapply Forall_impl; [done|]. unfold block_lt. simpl. lia.
Qed.

Lemma insert_height_perm blk pool : insert_height blk pool ≡ₚ blk :: pool.
Proof.
  induction pool as [|b pool IH]; simpl; [done|].
  destruct (_ <? _); [done|]. rewrite IH. by constructor.
Qed.

Lemma insert_height_asc blk pool :
  asc pool -> Forall (fun b => block_height b <> block_height blk) pool ->
  asc (insert_height blk pool).
Proof.
  induction 1 as [|b pool Hpool IH Hb]; intros Hne; simpl.
  - by repeat constructor.
  - apply Forall_cons in Hne as [Hne1 Hne2].
    destruct (_ <? _) eqn:Hlt; to_prop.
    + constructor; [by constructor|]. constructor; [done|].
      eapply Forall_impl; [exact Hb|]. unfold block_lt. simpl. intros. lia.
    + constructor; [by apply IH|]. rewrite insert_height_perm.
      constructor; [unfold block_lt; lia|done].
Qed.

Lemma insert_height_last blk pool :
  Forall (fun b => block_height b <= block_height blk) pool ->
  insert_height blk pool = pool ++ [blk].
Proof.
  induction 1 as [|b pool Hb _ IH]; [done|]. simpl.
  destruct (_ <? _) eqn:?; to_prop; [lia|]. by rewrite IH.
Qed.

(** Sorting an ordered pool with one block appended inserts the block. *)
Lemma sort_height_snoc pool blk :
  asc pool -> sort_height (pool ++ [blk]) = insert_height blk pool.
Proof.
  intros H. unfold sort_height. rewrite foldl_app. simpl. f_equal.
  induction pool as [|b pool IH] using rev_ind; [done|].
  rewrite foldl_app. simpl. apply asc_app in H as (H1 & H2 & _).
  rewrite IH by done. apply insert_height_last, Forall_forall.
  intros x Hx. assert (block_height x < block_height b) by (apply H1; set_solver). lia.
Qed.

(** [sort.Slice] is not stable, but an ordered pool has a single ordered
    permutation: any correct sort returns the list of the model. *)
Lemma sort_height_unique pool blk sorted :
  asc pool -> Forall (fun b => block_height b <> block_height blk) pool ->
  sorted ≡ₚ pool ++ [blk] -> asc sorted -> sorted = sort_height (pool ++ [blk]).
Proof.
  intros Hpool Hne Hperm Hsorted. rewrite sort_height_snoc by done.
  apply (StronglySorted_unique_strong block_lt).
  - unfold block_lt. intros ?????. lia.
  - done.
  - by apply insert_height_asc.
  - rewrite Hperm, insert_height_perm. solve_Permutation.
Qed.

(** *** Runs of consecutive heights *)

Fixpoint consecutive (a : Z) (l : list B) : Prop :=
  match l with
  | [] => True
  | b :: l' => block_height b = a /\ consecutive (a + 1) l'
  end.

Lemma consecutive_app a l1 l2 :
  consecutive a (l1 ++ l2) <-> consecutive a l1 /\ consecutive (a + Z.of_nat (length l1)) l2.
Proof.
  revert a. induction l1 as [|b l1 IH]; intros a; simpl.
  - rewrite Z.add_0_r. tauto.
  - rewrite IH. replace (a + 1 + Z.of_nat (length l1)) with (a + Z.of_nat (S (length l1))) by lia.
    tauto.
Qed.

Lemma consecutive_eq a a' l : consecutive a l -> a = a' -> consecutive a' l.
Proof. by intros ? <-. Qed.

Lemma consecutive_bounds a l :
  consecutive a l -> Forall (fun b => a <= block_height b < a + Z.of_nat (length l)) l.
Proof.
  revert a. induction l as [|b l IH]; intros a; [by constructor|].
  intros [Hb Hl]. constructor; [simpl; lia|].
  eapply Forall_impl; [by apply IH|]. simpl. lia.
Qed.

Lemma consecutive_lookup a l i b :
  consecutive a l -> l !! i = Some b -> block_height b = a + Z.of_nat i.
Proof.
  revert a i. induction l as [|b' l IH]; intros a i; [done|]. intros [Hb Hl] Hi.
  destruct i as [|i]; simplify_eq/=; [lia|]. rewrite (IH _ _ Hl Hi). lia.
Qed.

Lemma consecutive_drop_while h a l :
  consecutive a l ->
  consecutive (a + Z.of_nat (length l) - Z.of_nat (length (drop_while (upto h) l)))
    (drop_while (upto h) l).
Proof.
  revert a. induction l as [|b l IH]; intros a; [done|].
  intros [Hb Hl]. simpl. destruct (upto h b).
  - replace (a + Z.of_nat (S (length l))) with (a + 1 + Z.of_nat (length l)) by lia.
    by apply IH.
  - simpl. replace (a + _ - _) with a by lia. done.
Qed.

(** *** The invariant of a pool *)

(** [latest] is the last of the consecutive blocks at the front of the pool, if
    there are any; every other block is higher. *)
Record pool_ok (pool : list B) (latest : Z) : Prop := {
  ok_asc : asc pool;
  ok_range : Forall (fun b => in_u64 (block_height b)) pool;
  ok_latest : in_u64 latest;
  ok_split : exists valid pending, pool = valid ++ pending /\
    consecutive (latest + 1 - Z.of_nat (length valid)) valid /\
    Forall (fun b => latest < block_height b) pending
}.

(** The next height is missing: nothing more of the pool can become valid. *)
Definition settled (pool : list B) (latest : Z) : Prop :=
  Forall (fun b => block_height b <> latest + 1) pool.

Lemma pool_ok_nil latest : in_u64 latest -> pool_ok [] latest.
Proof. intros H. split; [constructor|constructor|done|]. by exists [], []. Qed.

Lemma pool_ok_above pool latest :
  asc pool -> Forall (fun b => in_u64 (block_height b)) pool -> in_u64 latest ->
  Forall (fun b => latest < block_height b) pool -> pool_ok pool latest.
Proof. intros. split; [done..|]. by exists [], pool. Qed.

Lemma pool_ok_valid pool latest :
  pool_ok pool latest ->
  let valid := take_while (upto latest) pool in
  consecutive (latest + 1 - Z.of_nat (length valid)) valid /\
  Forall (fun b => latest < block_height b) (drop_while (upto latest) pool).
Proof.
  intros [Hasc Hr Hl (valid & pending & -> & Hc & Hp)]. simpl.
  assert (Forall (fun x => upto latest x = true) valid) as Hv.
  { eapply Forall_impl; [by apply consecutive_bounds|].
    intros b Hb. unfold upto. apply Z.leb_le. simpl in Hb. lia. }
  assert (Forall (fun x => upto latest x = false) pending) as Hv'.
  { eapply Forall_impl; [done|]. intros b Hb. unfold upto. apply Z.leb_gt. done. }
  rewrite take_while_app, drop_while_app, take_while_none, drop_while_none, app_nil_r by done.
  done.
Qed.

Lemma pool_ok_remove pool latest h : pool_ok pool latest -> pool_ok (drop_while (upto h) pool) latest.
Proof.
  intros [Hasc Hr Hl (valid & pending & -> & Hc & Hp)].
  split; [by apply asc_drop_while|by apply Forall_drop_while|done|].
  apply (consecutive_drop_while h) in Hc. rewrite drop_while_split.
  destruct (drop_while (upto h) valid) as [|b valid'].
  - exists [], (drop_while (upto h) pending). split_and!; [done..|by apply Forall_drop_while].
  - exists (b :: valid'), pending. split_and!; [done| |done].
    eapply consecutive_eq; [exact Hc|]. lia.
Qed.

(** *** What the scan of the valid blocks finds *)

Lemma scan_valid a valid pending latest :
  consecutive a valid -> a - 1 <= latest -> 0 <= a -> a + Z.of_nat (length valid) <= 2 ^ 64 ->
  scan_latest latest (valid ++ pending) =
    scan_latest (if valid is nil then latest else a + Z.of_nat (length valid) - 1) pending.
Proof.
  revert a latest. induction valid as [|b valid IH]; intros a latest; [done|].
  intros [Hb Hv] Ha Ha0 Hmax. simpl in Hmax. simpl.
  replace ((latest <? block_height b) && negb (u64 (latest + 1) =? block_height b)) with false.
  - rewrite (IH (a + 1)) by (done || lia). f_equal. destruct valid; simpl in *; lia.
  - symmetry. apply andb_false_iff. destruct (latest <? block_height b) eqn:Hlt; [right|by left].
    to_prop. apply negb_false_iff, Z.eqb_eq. rewrite u64_id; unfold in_u64; lia.
Qed.

Lemma scan_run pending latest :
  asc pending -> Forall (fun b => in_u64 (block_height b)) pending -> in_u64 latest ->
  Forall (fun b => latest < block_height b) pending ->
  exists run rest, pending = run ++ rest /\ consecutive (latest + 1) run /\
    let latest' := scan_latest latest pending in
    latest' = latest + Z.of_nat (length run) /\ in_u64 latest' /\
    Forall (fun b => latest' + 1 < block_height b) rest.
Proof.
  intros Hasc. revert latest. induction Hasc as [|b pending Hasc IH Hb]; intros latest Hr Hl Hgt.
  - exists [], []. simpl. split_and!; [done..|lia|done|constructor].
  - apply Forall_cons in Hr as [Hrb Hr]. apply Forall_cons in Hgt as [Hgb Hgt]. simpl.
    destruct ((latest <? block_height b) && _) eqn:Hstop.
    + exists [], (b :: pending). to_prop.
      assert (latest + 1 < block_height b) as Hlt.
      { rewrite u64_id in * by (unfold in_u64 in *; lia). lia. }
      simpl. split_and!; [done..|lia|done|]. constructor; [done|].
      eapply Forall_impl; [exact Hb|]. unfold block_lt. simpl. intros. lia.
    + assert (block_height b = latest + 1) as Heq.
      { apply andb_false_iff in Hstop as [?|?]; to_prop; [lia|].
        rewrite u64_id in * by (unfold in_u64 in *; lia). lia. }
      destruct (IH (block_height b)) as (run & rest & -> & Hc & Hl' & Hu & Hrest); [done..|].
      exists (b :: run), rest. simpl. rewrite Heq in *. split_and!; [done..| |done|done].
      simpl in Hl'. rewrite Hl'. lia.
Qed.

(** The scan of a settled pool stays where it is. *)
Lemma scan_settled pool latest :
  pool_ok pool latest -> settled pool latest -> scan_latest latest pool = latest.
Proof.
  intros [Hasc Hr Hl (valid & pending & -> & Hc & Hp)] Hs.
  apply asc_app in Hasc as (_ & Hav & Hap). apply Forall_app in Hr as [Hrv Hrp].
  apply Forall_app in Hs as [_ Hs].
  assert (scan_latest latest (valid ++ pending) = scan_latest latest pending) as ->.
  { destruct valid as [|b valid]; [done|].
    assert (0 <= latest + 1 - Z.of_nat (length (b :: valid))).
    { apply Forall_cons in Hrv as [Hrv _]. destruct Hc as [<- _]. apply Hrv. }
    rewrite (scan_valid _ _ _ _ Hc) by (simpl in *; unfold in_u64 in *; lia).
    f_equal. simpl. lia. }
  destruct (scan_run pending latest) as (run & rest & -> & Hrun & Heq & _); [done..|].
  rewrite Heq. destruct run as [|b run]; [simpl; lia|].
  apply Forall_cons in Hs as [Hs _]. destruct Hrun as [? _]. lia.
Qed.

(** The scan keeps the invariant, never goes back, and settles the pool. *)
Lemma scan_latest_ok pool latest :
  pool_ok pool latest ->
  let latest' := scan_latest latest pool in
  pool_ok pool latest' /\ settled pool latest' /\ latest <= latest'.
Proof.
  intros [Hasc Hr Hl (valid & pending & -> & Hc & Hp)]. simpl.
  pose proof Hasc as (_ & Hav & Hap)%asc_app. apply Forall_app in Hr as [Hrv Hrp].
  assert (scan_latest latest (valid ++ pending) = scan_latest latest pending) as ->.
  { destruct valid as [|b valid]; [done|].
    assert (0 <= latest + 1 - Z.of_nat (length (b :: valid))).
    { apply Forall_cons in Hrv as [Hrv _]. destruct Hc as [<- _]. apply Hrv. }
    rewrite (scan_valid _ _ _ _ Hc) by (simpl in *; unfold in_u64 in *; lia).
    f_equal. simpl. lia. }
  destruct (scan_run pending latest) as (run & rest & -> & Hrun & Heq & Hu & Hrest); [done..|].
  simpl in *. set (latest' := scan_latest _ _) in *. clearbody latest'.
  assert (consecutive (latest' + 1 - Z.of_nat (length (valid ++ run))) (valid ++ run)) as Hcr.
  { apply consecutive_app. rewrite length_app. split; (eapply consecutive_eq; [eassumption|]; lia). }
  split_and!; [|..].
  - split; [done|by apply Forall_app|done|]. exists (valid ++ run), rest.
    split_and!; [by rewrite app_assoc|done|].
    eapply Forall_impl; [exact Hrest|]. simpl. lia.
  - unfold settled. rewrite app_assoc. apply Forall_app; split.
    + eapply Forall_impl; [by apply consecutive_bounds|]. simpl. lia.
    + eapply Forall_impl; [exact Hrest|]. simpl. lia.
  - lia.
Qed.

Lemma pool_ok_reset pool latest h :
  pool_ok pool latest -> in_u64 h -> pool_ok (drop_while (upto h) pool) h.
Proof.
  intros [Hasc Hr _ _] Hh.
  apply pool_ok_above; [by apply asc_drop_while|by apply Forall_drop_while|done|].
  by apply asc_drop_gt.
Qed.

Lemma pool_ok_insert pool latest blk :
  pool_ok pool latest -> in_u64 (block_height blk) -> latest < block_height blk ->
  Forall (fun b => block_height b <> block_height blk) pool ->
  pool_ok (sort_height (pool ++ [blk])) latest.
Proof.
  intros [Hasc Hr Hl (valid & pending & -> & Hc & Hp)] Hu Hlt Hne.
  rewrite sort_height_snoc by done. split.
  - by apply insert_height_asc.
  - rewrite insert_height_perm. by constructor.
  - done.
  - exists valid, (insert_height blk pending). split_and!; [|done|].
    + assert (Forall (fun b => block_height b < block_height blk) valid) as Hv.
      { eapply Forall_impl; [by apply consecutive_bounds|]. simpl. lia. }
      clear -Hv. induction Hv as [|b valid Hb _ IH]; [done|]. simpl.
      destruct (_ <? _) eqn:?; to_prop; [lia|]. by rewrite IH.
    + rewrite insert_height_perm. by constructor.
Qed.

Lemma pool_ok_removelast pool latest b :
  pool_ok pool latest -> last pool = Some b -> latest < block_height b ->
  pool_ok (take (length pool - 1) pool) latest.
Proof.
  intros [Hasc Hr Hl (valid & pending & -> & Hc & Hp)] Hlast Hlt.
  split; [by apply asc_take|by apply Forall_take|done|].
  destruct pending as [|b' pending _] using rev_ind.
  - exfalso. rewrite app_nil_r in *. apply last_Some in Hlast as [l' ->].
    apply consecutive_bounds in Hc. rewrite Forall_app, Forall_singleton in Hc.
    rewrite length_app in Hc. simpl in Hc. lia.
  - exists valid, pending. rewrite Forall_app in Hp. split_and!; [|done|apply Hp].
    rewrite !length_app, app_assoc, take_app_le by (rewrite length_app; simpl; lia).
    rewrite take_ge; [done|]. rewrite length_app. simpl. lia.
Qed.

Lemma block_heights_consecutive a l :
  consecutive a l -> map block_height l = seqZ a (Z.of_nat (length l)).
Proof.
  revert a. induction l as [|b l IH]; intros a; [done|]. intros [<- Hl]. simpl.
  rewrite seqZ_cons by lia. f_equal. rewrite (IH _ Hl). f_equal; lia.
Qed.

Lemma check_capacity_ok maxValid maxInvalid latest pool h pool' :
  check_capacity maxValid maxInvalid latest pool h = Ok pool' ->
  pool' = pool \/
  exists b, last pool = Some b /\ h < block_height b /\ pool' = take (length pool - 1) pool.
Proof.
  unfold check_capacity. destruct pool as [|first rest]; [naive_solver|].
  set (pool := first :: rest). clearbody pool. case_ifs; [done| |naive_solver].
  destruct (last pool) as [b|] eqn:Hb; [|done]. case_ifs; [|done].
  to_prop. naive_solver.
Qed.

Lemma check_capacity_fresh maxValid maxInvalid latest pool h pool' :
  has_height h pool = false -> check_capacity maxValid maxInvalid latest pool h = Ok pool' ->
  Forall (fun b => block_height b <> h) pool'.
Proof.
  intros Hh%has_height_false [->|(b & _ & _ & ->)]%check_capacity_ok; [done|].
  by apply Forall_take.
Qed.

(** The pool after a new block has passed the tests of [AddBeaconBlock] (or of its
    two counterparts) and has been sorted in. *)
Lemma add_pool_ok maxValid maxInvalid latest pool blk pool' :
  pool_ok pool latest -> in_u64 (block_height blk) -> latest < block_height blk ->
  has_height (block_height blk) pool = false ->
  check_capacity maxValid maxInvalid latest pool (block_height blk) = Ok pool' ->
  pool_ok (sort_height (pool' ++ [blk])) latest.
Proof.
  intros Hok Hu Hlt Hh Hc.
  apply pool_ok_insert; [|done..|by eapply check_capacity_fresh].
  apply check_capacity_ok in Hc as [->|(b & Hb & Hlt' & ->)]; [done|].
  eapply pool_ok_removelast; [done..|lia].
Qed.

(** Every block of the old pool is still there, except perhaps one higher block that
    made room. *)
Lemma check_capacity_keeps maxValid maxInvalid latest pool h pool' b :
  check_capacity maxValid maxInvalid latest pool h = Ok pool' ->
  b ∈ pool -> b ∈ pool' \/ h < block_height b.
Proof.
  intros [->|(b' & Hb' & Hlt & ->)]%check_capacity_ok Hb; [by left|].
  apply last_Some in Hb' as [l ->]. rewrite length_app, take_app_le by (simpl; lia).
  rewrite take_ge by (simpl; lia).
  apply elem_of_app in Hb as [?|Hb]; [by left|]. right. by apply list_elem_of_singleton in Hb as ->.
Qed.

Lemma check_capacity_incl maxValid maxInvalid latest pool h pool' :
  check_capacity maxValid maxInvalid latest pool h = Ok pool' -> pool' ⊆ pool.
Proof.
  intros [->|(b' & _ & _ & ->)]%check_capacity_ok; [done|].
  intros b (i & Hi & _)%elem_of_take. by eapply list_elem_of_lookup_2.
Qed.

Lemma check_capacity_asc maxValid maxInvalid latest pool h pool' :
  check_capacity maxValid maxInvalid latest pool h = Ok pool' -> asc pool -> asc pool'.
Proof. intros [->|(? & _ & _ & ->)]%check_capacity_ok; [done|apply asc_take]. Qed.

Lemma scan_latest_range (P : Z -> Prop) pool latest :
  Forall (fun b => P (block_height b)) pool -> P latest -> P (scan_latest latest pool).
Proof.
  intros H. revert latest. induction H as [|b pool Hb _ IH]; intros latest Hl; [done|].
  simpl. case_ifs; auto.
Qed.

Lemma sort_height_perm pool blk :
  asc pool -> sort_height (pool ++ [blk]) ≡ₚ blk :: pool.
Proof. intros ?. rewrite sort_height_snoc by done. apply insert_height_perm. Qed.

(** Neither the eviction nor the insertion of a block above the valid height touches
    the valid blocks. *)
Lemma valid_insert latest blk pool :
  latest < block_height blk ->
  take_while (upto latest) (insert_height blk pool) = take_while (upto latest) pool.
Proof.
  intros Hlt. induction pool as [|b pool IH]; simpl; unfold upto in *.
  - by cmp.
  - destruct (block_height blk <? block_height b) eqn:?; simpl; [|by rewrite IH]. to_prop.
    by cmp.
Qed.

Lemma valid_capacity maxValid maxInvalid latest pool h pool' :
  latest < h -> check_capacity maxValid maxInvalid latest pool h = Ok pool' ->
  take_while (upto latest) pool' = take_while (upto latest) pool.
Proof.
  intros Hlt [->|(b & Hb & Hlt' & ->)]%check_capacity_ok; [done|].
  apply last_Some in Hb as [l ->]. rewrite length_app, take_app_le by (simpl; lia).
  rewrite take_ge by (simpl; lia). induction l as [|b' l IH]; simpl.
  - unfold upto. by cmp.
  - destruct (upto _ b'); [by rewrite IH|done].
Qed.

Lemma valid_add maxValid maxInvalid latest pool blk pool' :
  asc pool -> latest < block_height blk ->
  check_capacity maxValid maxInvalid latest pool (block_height blk) = Ok pool' ->
  take_while (upto latest) (sort_height (pool' ++ [blk])) = take_while (upto latest) pool.
Proof.
  intros Hasc Hlt Hc. rewrite sort_height_snoc by (by eapply check_capacity_asc).
  rewrite valid_insert by done. by eapply valid_capacity.
Qed.

Lemma check_capacity_no_panic maxValid maxInvalid latest pool h :
  check_capacity maxValid maxInvalid latest pool h <> Panic.
Proof.
  unfold check_capacity. destruct pool as [|first rest]; [done|]. case_ifs; [done| |done].
  destruct (last (first :: rest)) eqn:Hb; [by case_ifs|]. by apply last_None in Hb.
Qed.

(** A block that passes the test leaves the pool within the two limits, as long as
    the heights stay below 2^62. *)
Lemma check_capacity_length maxValid maxInvalid latest pool h pool' :
  0 <= maxValid < 2 ^ 60 -> 0 <= maxInvalid < 2 ^ 60 ->
  0 <= latest < 2 ^ 62 -> Forall (fun b => 0 <= block_height b < 2 ^ 62) pool ->
  Z.of_nat (length pool) <= maxValid + maxInvalid + 1 ->
  check_capacity maxValid maxInvalid latest pool h = Ok pool' ->
  Z.of_nat (S (length pool')) <= maxValid + maxInvalid + 1.
Proof.
  unfold check_capacity. intros Hv Hi Hl Hr Hlen.
  destruct pool as [|first rest]; [intros [= <-]; simpl; lia|].
  apply Forall_cons in Hr as [Hr _]. rewrite i64_u64_sub by lia.
  set (pool := first :: rest) in *. assert (1 <= length pool)%nat by (simpl; lia). clearbody pool.
  destruct (maxValid <? _) eqn:H1; [done|]. to_prop.
  destruct (maxInvalid <? i64 _) eqn:H2.
  - destruct (last pool); [|done]. case_ifs; [|done]. intros [= <-]. rewrite length_take. lia.
  - intros [= <-]. to_prop. rewrite i64_id in H2 by (unfold in_i64; lia). lia.
Qed.
End HeightPool.
