(* ===== verification/BeaconPool.v ===== *)
(** The pool of beacon blocks of a beacon or shard node (src/mempool/beacon_pool.go). *)

From S2P Require Import Prelude HeightPool.

Module BeaconPool.
Section BeaconPool.
Context {B : Type} `{!BlockHeight B} {Hash : Type} `{!BlockHash B Hash}.

Definition MAX_VALID_BEACON_BLK_IN_POOL : Z := 1000.
Definition MAX_INVALID_BEACON_BLK_IN_POOL : Z := 200.

Record BeaconPool := mkBeaconPool {
  pool : list B;
  latestValidHeight : Z
}.

(** The singleton [GetBeaconPool] creates on its first call. *)
Definition newBeaconPool : BeaconPool := mkBeaconPool [] 1.

Definition UpdateLatestBeaconState (self : BeaconPool) : BeaconPool :=
  mkBeaconPool (pool self) (scan_latest (latestValidHeight self) (pool self)).

Definition RemoveBlock (lastBlockHeight : Z) (self : BeaconPool) : BeaconPool :=
  mkBeaconPool (remove_loop lastBlockHeight (pool self) 0 (pool self)) (latestValidHeight self).

Definition SetBeaconState (lastestBeaconHeight : Z) (self : BeaconPool) : BeaconPool :=
  UpdateLatestBeaconState
    (RemoveBlock lastestBeaconHeight (mkBeaconPool (pool self) lastestBeaconHeight)).

Definition GetBeaconState (self : BeaconPool) : Z := latestValidHeight self.

Definition AddBeaconBlock (blk : B) : M BeaconPool unit := fun self =>
  let blkHeight := block_height blk in
  if blkHeight <=? latestValidHeight self then (self, Err "receive old block")
  else if has_height blkHeight (pool self) then (self, Err "receive duplicate block")
  else
    match check_capacity MAX_VALID_BEACON_BLK_IN_POOL MAX_INVALID_BEACON_BLK_IN_POOL
            (latestValidHeight self) (pool self) blkHeight with
    | Ok pool' =>
        (UpdateLatestBeaconState
           (mkBeaconPool (sort_height (pool' ++ [blk])) (latestValidHeight self)), Ok tt)
    | Err e => (self, Err e)
    | Panic => (self, Panic)
    end.

Definition GetValidBlock (self : BeaconPool) : list B :=
  valid_loop (latestValidHeight self) (pool self) [].

Definition GetValidBlockHash (self : BeaconPool) : list Hash := map block_hash (GetValidBlock self).

Definition GetValidBlockHeight (self : BeaconPool) : list Z := map block_height (GetValidBlock self).

Definition GetLatestValidBlockHeight (self : BeaconPool) : Z :=
  foldl (fun _ blk => block_height blk) 0 (GetValidBlock self).

Definition GetAllBlockHeight (self : BeaconPool) : list Z := map block_height (pool self).

Definition InitBeaconPool (bestBeaconHeight : Z) : BeaconPool :=
  SetBeaconState bestBeaconHeight newBeaconPool.

(** *** Reachable pools *)

(** The calls a node makes on the pool, with heights below [bound]. *)
Inductive step (bound : Z) : BeaconPool -> BeaconPool -> Prop :=
  | step_add self blk :
      0 <= block_height blk < bound -> step bound self (fst (AddBeaconBlock blk self))
  | step_set self h : 0 <= h < bound -> step bound self (SetBeaconState h self)
  | step_remove self h : step bound self (RemoveBlock h self).

Definition reachable (bound : Z) : BeaconPool -> Prop := rtc (step bound) newBeaconPool.

Definition wf (self : BeaconPool) : Prop :=
  pool_ok (pool self) (latestValidHeight self) /\ settled (pool self) (latestValidHeight self).

Lemma beacon_update_wf p l : pool_ok p l -> wf (UpdateLatestBeaconState (mkBeaconPool p l)).
Proof. intros Hok. apply scan_latest_ok in Hok as (? & ? & _). done. Qed.

Lemma beacon_add_wf self blk : wf self -> in_u64 (block_height blk) -> wf (fst (AddBeaconBlock blk self)).
Proof.
  intros Hwf Hu. unfold AddBeaconBlock. case_ifs; [done..|]. to_prop.
  destruct (check_capacity _ _ _ _ _) as [pool'| |] eqn:Hc; [|done..]. simpl.
  apply beacon_update_wf. eapply add_pool_ok; [apply Hwf|done..].
Qed.

Lemma beacon_set_wf self h : wf self -> in_u64 h -> wf (SetBeaconState h self).
Proof.
  intros [Hok _] Hh. apply beacon_update_wf. simpl. rewrite remove_loop_drop.
  by eapply pool_ok_reset.
Qed.

Lemma beacon_remove_wf self h : wf self -> wf (RemoveBlock h self).
Proof.
  intros [Hok Hs]. unfold wf, RemoveBlock. simpl. rewrite remove_loop_drop.
  split; [by apply pool_ok_remove|by apply Forall_drop_while].
Qed.

Lemma beacon_reachable_wf bound self : bound <= 2 ^ 64 -> reachable bound self -> wf self.
Proof.
  intros Hbound. apply rtc_invariant.
  - split; [by apply pool_ok_nil|constructor].
  - intros ?? Hwf Hstep. destruct Hstep; [apply beacon_add_wf|apply beacon_set_wf|apply beacon_remove_wf]; try done; unfold in_u64; lia.
Qed.

(** C26. In every pool a node can reach, the blocks are in strictly increasing height
    order without duplicates, the blocks up to [latestValidHeight] are a run of
    consecutive heights that ends there, and the block after the run is missing
    (so the pool has advanced as far as its blocks allow). *)
Theorem beacon_pool_invariant (self : BeaconPool) :
  reachable (2 ^ 64) self ->
  asc (pool self) /\
  GetValidBlockHeight self =
    seqZ (latestValidHeight self + 1 - Z.of_nat (length (GetValidBlock self)))
         (Z.of_nat (length (GetValidBlock self))) /\
  GetLatestValidBlockHeight self =
    (match GetValidBlock self with [] => 0 | _ => latestValidHeight self end) /\
  Forall (fun b => b ∈ GetValidBlock self \/ latestValidHeight self + 1 < block_height b) (pool self).
Proof.
  intros [Hok Hs]%beacon_reachable_wf; [|done].
  pose proof (pool_ok_valid _ _ Hok) as [Hc Hp]. destruct Hok as [Hasc _ _ _].
  unfold GetValidBlockHeight, GetLatestValidBlockHeight, GetValidBlock.
  rewrite valid_loop_take. simpl. set (valid := take_while _ _) in *.
  split_and!; [done|by apply block_heights_consecutive| |].
  - destruct valid as [|b valid _] using rev_ind; [done|].
    rewrite foldl_app. simpl. apply consecutive_app in Hc as [_ [-> _]].
    rewrite length_app. destruct valid; simpl; lia.
  - rewrite <- (take_drop_while (upto (latestValidHeight self)) (pool self)) in Hs |- *.
    fold valid in Hs |- *. unfold settled in Hs. rewrite Forall_app in Hs |- *. split.
    + apply Forall_forall. auto.
    + destruct Hs as [_ Hs]. rewrite Forall_forall in *. intros b Hb. right.
      specialize (Hs b Hb). specialize (Hp b Hb). simpl in *. lia.
Qed.

(** [AddBeaconBlock] on a reachable pool never panics; an error leaves the pool as
    it was; on success the block was new and above the valid height, it is now in the
    pool, no block was lost except possibly one above it, nothing else came in, and
    the valid height never went back (it advanced when the block was the next one). *)
Theorem beacon_add_spec (self : BeaconPool) (blk : B) :
  reachable (2 ^ 64) self -> in_u64 (block_height blk) ->
  match AddBeaconBlock blk self with
  | (self', Ok _) =>
      latestValidHeight self < block_height blk /\
      ~ (block_height blk ∈ GetAllBlockHeight self) /\
      blk ∈ pool self' /\
      (forall b, b ∈ pool self -> b ∈ pool self' \/ block_height blk < block_height b) /\
      (forall b, b ∈ pool self' -> b = blk \/ b ∈ pool self) /\
      latestValidHeight self <= latestValidHeight self' /\
      (block_height blk = latestValidHeight self + 1 -> block_height blk <= latestValidHeight self')
  | (self', Err _) => self' = self
  | (_, Panic) => False
  end.
Proof.
  intros Hwf%beacon_reachable_wf Hu; [|done]. pose proof (beacon_add_wf _ _ Hwf Hu) as Hwf'.
  unfold AddBeaconBlock in *. case_ifs; [done..|]. to_prop.
  destruct (check_capacity _ _ _ _ _) as [pool'| |] eqn:Hc;
    [|done|by apply check_capacity_no_panic in Hc].
  assert (pool_ok (sort_height (pool' ++ [blk])) (latestValidHeight self)) as Hok
    by (eapply add_pool_ok; [apply Hwf|done..]).
  assert (asc pool') as Hasc.
  { eapply check_capacity_asc; [done|apply Hwf]. }
  destruct (scan_latest_ok _ _ Hok) as (_ & Hs & Hle). simpl in *.
  split_and!; [done| | | | |done|].
  - apply has_height_false in Heqb0. unfold GetAllBlockHeight.
    rewrite list_elem_of_In, in_map_iff. intros (b & Heq & Hb).
    rewrite Forall_forall in Heqb0. apply (Heqb0 b); [by apply list_elem_of_In|done].
  - rewrite sort_height_perm by done. left.
  - intros b Hb. eapply check_capacity_keeps in Hb as [?|?]; [left|by right|done].
    rewrite sort_height_perm by done. by right.
  - intros b. rewrite sort_height_perm, elem_of_cons by done. intros [?|Hb]; [by left|right].
    by eapply check_capacity_incl.
  - intros Heq. apply Forall_forall with (x := blk) in Hs; [lia|].
    rewrite sort_height_perm by done. left.
Qed.

Definition bounded (self : BeaconPool) : Prop :=
  Forall (fun b => 0 <= block_height b < 2 ^ 62) (pool self) /\
  0 <= latestValidHeight self < 2 ^ 62 /\
  Z.of_nat (length (pool self)) <=
    MAX_VALID_BEACON_BLK_IN_POOL + MAX_INVALID_BEACON_BLK_IN_POOL + 1.

Lemma update_bounded p l :
  bounded (mkBeaconPool p l) -> bounded (UpdateLatestBeaconState (mkBeaconPool p l)).
Proof.
  intros (Hr & Hl & Hlen). split; [done|]. split; [|done].
  by apply (scan_latest_range (fun z => 0 <= z < 2 ^ 62)).
Qed.

Lemma remove_bounded self h : bounded self -> bounded (RemoveBlock h self).
Proof.
  intros (Hr & Hl & Hlen). unfold bounded. simpl. rewrite remove_loop_drop.
  split_and!; [by apply Forall_drop_while|lia|lia|].
  pose proof (drop_while_length (upto h) (pool self)). lia.
Qed.

Lemma add_bounded self blk :
  wf self -> bounded self -> 0 <= block_height blk < 2 ^ 62 ->
  bounded (fst (AddBeaconBlock blk self)).
Proof.
  intros Hwf (Hr & Hl & Hlen) Hh. unfold AddBeaconBlock. case_ifs; [done..|].
  destruct (check_capacity _ _ _ _ _) as [pool'| |] eqn:Hc; [|done..]. simpl.
  assert (asc pool') as Hasc by (eapply check_capacity_asc; [done|apply Hwf]).
  apply update_bounded. split_and!; simpl; [|lia..|].
  - rewrite sort_height_perm by done. constructor; [done|].
    rewrite Forall_forall in *. intros b Hb. apply Hr. by eapply check_capacity_incl.
  - rewrite sort_height_perm by done.
    eapply check_capacity_length; [..|exact Hc]; done.
Qed.

Lemma reachable_bounded self : reachable (2 ^ 62) self -> wf self /\ bounded self.
Proof.
  apply (rtc_invariant _ (fun s => wf s /\ bounded s)).
  - split; [split; [by apply pool_ok_nil|constructor]|]. by split_and!; [constructor|..].
  - intros ? ? [Hwf Hb] Hstep. destruct Hstep as [s blk Hh|s h Hh|s h]; split.
    + apply beacon_add_wf; [done|unfold in_u64; lia].
    + by apply add_bounded.
    + apply beacon_set_wf; [done|unfold in_u64; lia].
    + destruct Hb as (? & ? & ?). by apply update_bounded, remove_bounded.
    + by apply beacon_remove_wf.
    + by apply remove_bounded.
Qed.

(** A pool whose heights stay below 2^62 never holds more than
    [MAX_VALID + MAX_INVALID + 1] blocks. *)
Theorem beacon_pool_bounded (self : BeaconPool) :
  reachable (2 ^ 62) self ->
  Z.of_nat (length (pool self)) <=
    MAX_VALID_BEACON_BLK_IN_POOL + MAX_INVALID_BEACON_BLK_IN_POOL + 1.
Proof.
  intros [_ (_ & _ & ?)]%reachable_bounded. done.
Qed.

(** The capacity test measures the distance from the valid height to the first
    block as if every height in between were held: while the first block is more
    than [MAX_INVALID] above the valid height, a block above the last one is refused
    even from a pool with a single block. *)
Theorem beacon_far_block_blocks_pool (self : BeaconPool) (blk first lastBlk : B) :
  reachable (2 ^ 62) self -> 0 <= block_height blk < 2 ^ 62 ->
  head (pool self) = Some first -> last (pool self) = Some lastBlk ->
  latestValidHeight self + MAX_INVALID_BEACON_BLK_IN_POOL <= block_height first ->
  block_height lastBlk < block_height blk ->
  AddBeaconBlock blk self = (self, Err "exceed invalid pending block").
Proof.
  intros Hr Hblk Hfirst Hlast Hdist Habove.
  assert (wf self /\ bounded self) as [[Hok _] (Hrange & Hl & Hlen)]
    by (by apply reachable_bounded).
  unfold AddBeaconBlock. destruct self as [p latest]. simpl in *.
  destruct p as [|b rest]; [done|]. injection Hfirst as ->.
  pose proof (ok_asc _ _ Hok) as Hasc.
  assert (Forall (fun b => block_height b <= block_height lastBlk) (first :: rest)) as Hle.
  { apply last_Some in Hlast as [l Hl']. rewrite Hl' in *.
    apply asc_app in Hasc as (Hasc & _ & _). apply Forall_app. split; [|by repeat constructor].
    apply Forall_forall. intros x Hx. apply Z.lt_le_incl, Hasc; [done|left]. }
  assert (latest < block_height lastBlk) as Hll.
  { apply Forall_cons in Hle as [Hle _]. unfold MAX_INVALID_BEACON_BLK_IN_POOL in *. lia. }
  replace (block_height blk <=? latest) with false by (symmetry; apply Z.leb_gt; lia).
  replace (has_height _ _) with false.
  2: { symmetry. apply has_height_false. eapply Forall_impl; [exact Hle|]. simpl. lia. }
  unfold check_capacity. apply Forall_cons in Hrange as [Hrange _].
  rewrite i64_u64_sub by lia. rewrite i64_id.
  2: { unfold in_i64, MAX_VALID_BEACON_BLK_IN_POOL, MAX_INVALID_BEACON_BLK_IN_POOL in *. lia. }
  unfold MAX_VALID_BEACON_BLK_IN_POOL, MAX_INVALID_BEACON_BLK_IN_POOL in *.
  destruct (1000 <? _) eqn:?; to_prop; [lia|].
  destruct (200 <? _) eqn:?; to_prop; [|simpl length in *; lia].
  rewrite Hlast. destruct (block_height blk <? _) eqn:?; to_prop; [lia|done].
Qed.
End BeaconPool.

(** *** Concrete pools *)

Section Witnesses.
#[local] Instance Z_height : BlockHeight Z := fun z => z.
#[local] Instance Z_hash : BlockHash Z Z := fun z => z.

Definition sample_pool (blks : list Z) : BeaconPool :=
  foldl (fun p blk => fst (AddBeaconBlock blk p)) newBeaconPool blks.

Example sample_valid : GetValidBlockHeight (sample_pool [3; 2; 7]) = [2; 3].
Proof. reflexivity. Qed.

Lemma beacon_sample_reachable bound blks :
  Forall (fun b => 0 <= b < bound) blks -> reachable bound (sample_pool blks).
Proof.
  intros H. unfold sample_pool. induction blks as [|b blks IH] using rev_ind; [constructor|].
  apply Forall_app in H as [H Hb]. rewrite foldl_app. simpl.
  eapply rtc_r; [by apply IH|]. apply step_add. by apply Forall_inv in Hb.
Qed.

Lemma beacon_pool_invariant_witness :
  asc (pool (sample_pool [3; 2; 7])) /\
  GetValidBlockHeight (sample_pool [3; 2; 7]) = seqZ 2 2.
Proof.
  destruct (beacon_pool_invariant (sample_pool [3; 2; 7])) as (H1 & H2 & _);
    [apply beacon_sample_reachable; by_range|].
  split; [exact H1|exact H2].
Defined.

Lemma beacon_add_spec_witness :
  latestValidHeight (fst (AddBeaconBlock 4 (sample_pool [3; 2; 7]))) = 4 /\
  latestValidHeight (sample_pool [3; 2; 7]) < 4.
Proof.
  split; [reflexivity|].
  refine (proj1 (beacon_add_spec (sample_pool [3; 2; 7]) 4 _ _)); [|by_compute].
  apply beacon_sample_reachable. by_range.
Defined.

Lemma beacon_pool_bounded_witness :
  Z.of_nat (length (pool (sample_pool [3; 2; 7]))) <= 1201.
Proof. apply beacon_pool_bounded, beacon_sample_reachable. by_range. Defined.

Lemma beacon_far_block_blocks_pool_witness :
  AddBeaconBlock 400 (sample_pool [300]) = (sample_pool [300], Err "exceed invalid pending block").
Proof.
  apply (beacon_far_block_blocks_pool _ 400 300 300);
    [apply beacon_sample_reachable; by_range|by_compute|reflexivity|reflexivity|by_compute|by_compute].
Defined.
End Witnesses.
End BeaconPool.
