(* ===== verification/ShardPool.v ===== *)
(** The pool of blocks of one shard (src/mempool/shard_pool.go) and the table of the
    pools of all shards. *)

From S2P Require Import Prelude HeightPool.

Module ShardPool.
Section ShardPool.
Context {B : Type} `{!BlockHeight B} {Hash : Type} `{!BlockHash B Hash}.

Definition MAX_VALID_SHARD_BLK_IN_POOL : Z := 1000.
Definition MAX_PENDING_SHARD_BLK_IN_POOL : Z := 200.

Record ShardPool := mkShardPool {
  pool : list B;
  shardID : Z;
  latestValidHeight : Z
}.

Fixpoint scan_shard (lastHeight : Z) (pool : list B) : Z :=
  match pool with
  | [] => lastHeight
  | blk :: rest =>
      if negb (u64 (lastHeight + 1) =? block_height blk) then lastHeight
      else scan_shard (block_height blk) rest
  end.

Definition UpdateLatestShardState (self : ShardPool) : ShardPool :=
  mkShardPool (pool self) (shardID self) (scan_shard (latestValidHeight self) (pool self)).

Definition RemoveBlock (lastBlockHeight : Z) (self : ShardPool) : ShardPool :=
  mkShardPool (remove_loop lastBlockHeight (pool self) 0 (pool self)) (shardID self)
    (latestValidHeight self).

Definition SetShardState (lastestShardHeight : Z) (self : ShardPool) : ShardPool :=
  UpdateLatestShardState
    (RemoveBlock lastestShardHeight (mkShardPool (pool self) (shardID self) lastestShardHeight)).

Definition GetShardState (self : ShardPool) : Z := latestValidHeight self.

Definition AddShardBlock (blk : B) : M ShardPool unit := fun self =>
  let blkHeight := block_height blk in
  if blkHeight <=? latestValidHeight self then (self, Err "receive old block")
  else if has_height blkHeight (pool self) then (self, Err "receive duplicate block")
  else
    match check_capacity MAX_VALID_SHARD_BLK_IN_POOL MAX_PENDING_SHARD_BLK_IN_POOL
            (latestValidHeight self) (pool self) blkHeight with
    | Ok pool' =>
        (UpdateLatestShardState
           (mkShardPool (sort_height (pool' ++ [blk])) (shardID self) (latestValidHeight self)),
         Ok tt)
    | Err e => (self, Err e)
    | Panic => (self, Panic)
    end.

Definition GetValidBlock (self : ShardPool) : list B :=
  valid_loop (latestValidHeight self) (pool self) [].

Definition GetValidBlockHash (self : ShardPool) : list Hash := map block_hash (GetValidBlock self).

Definition GetValidBlockHeight (self : ShardPool) : list Z := map block_height (GetValidBlock self).

Definition GetLatestValidBlockHeight (self : ShardPool) : Z :=
  foldl (fun _ blk => block_height blk) 0 (GetValidBlock self).

Definition GetAllBlockHeight (self : ShardPool) : list Z := map block_height (pool self).

(** *** The table of pools *)

(** [GetShardPool]: the pool of the shard, created on first use. *)
Definition newShardPool (id : Z) : ShardPool := mkShardPool [] id 1.

Definition GetShardPool (id : Z) (shardPoolMap : gmap Z ShardPool) :
    ShardPool * gmap Z ShardPool :=
  match shardPoolMap !! id with
  | Some p => (p, shardPoolMap)
  | None => (newShardPool id, <[id := newShardPool id]> shardPoolMap)
  end.

(** [InitShardPool]: the shards 0 to 254, each set to its best height. *)
Definition InitShardPool (bestShardHeight : Z -> Z) (shardPoolMap : gmap Z ShardPool) :
    gmap Z ShardPool :=
  foldl (fun m i =>
    let '(p, m') := GetShardPool i m in
    <[i := SetShardState (bestShardHeight i) p]> m') shardPoolMap (seqZ 0 255).

(** *** The scan of the valid blocks *)

Lemma scan_shard_above pool latest :
  Forall (fun b => latest < block_height b) pool -> asc pool -> in_u64 latest ->
  Forall (fun b => in_u64 (block_height b)) pool ->
  scan_shard latest pool = scan_latest latest pool.
Proof.
  intros Hgt Hasc. revert latest Hgt.
  induction Hasc as [|b pool Hasc IH Hb]; intros latest Hgt Hl Hr; [done|].
  apply Forall_cons in Hgt as [Hgt Hgt']. apply Forall_cons in Hr as [Hrb Hr]. simpl.
  replace (latest <? block_height b) with true by (symmetry; by apply Z.ltb_lt).
  destruct (u64 (latest + 1) =? block_height b); simpl; [by apply IH|done].
Qed.

Lemma scan_shard_stuck b pool latest :
  block_height b <= latest -> in_u64 (latest + 1) -> scan_shard latest (b :: pool) = latest.
Proof.
  intros Hle Hu. simpl. rewrite u64_id by done.
  by destruct (latest + 1 =? block_height b) eqn:?; to_prop; [lia|].
Qed.

(** *** Reachable pools *)

Inductive step (bound : Z) : ShardPool -> ShardPool -> Prop :=
  | step_add self blk :
      0 <= block_height blk < bound -> step bound self (fst (AddShardBlock blk self))
  | step_set self h : 0 <= h < bound -> step bound self (SetShardState h self)
  | step_remove self h : step bound self (RemoveBlock h self).

Definition reachable (bound id : Z) : ShardPool -> Prop := rtc (step bound) (newShardPool id).

Definition wf (self : ShardPool) : Prop := pool_ok (pool self) (latestValidHeight self).

(** The scan keeps the invariant: either it finds a valid block at the front and
    changes nothing, or it does what the scan of the beacon pool does. *)
Lemma scan_shard_ok pool latest :
  latest < 2 ^ 64 - 1 -> pool_ok pool latest -> pool_ok pool (scan_shard latest pool).
Proof.
  intros Hmax Hok. pose proof Hok as [Hasc Hr Hl (valid & pending & -> & Hc & Hp)].
  destruct valid as [|b valid].
  - simpl in *. rewrite scan_shard_above by done. by apply scan_latest_ok.
  - simpl app in *. rewrite scan_shard_stuck; [done| |unfold in_u64 in *; lia].
    apply consecutive_bounds in Hc. apply Forall_cons in Hc as [Hc _]. simpl in Hc. lia.
Qed.

Lemma shard_add_wf self blk :
  wf self -> latestValidHeight self < block_height blk -> in_u64 (block_height blk) ->
  wf (fst (AddShardBlock blk self)).
Proof.
  intros Hwf Hlt Hu. unfold AddShardBlock. case_ifs; [done..|].
  destruct (check_capacity _ _ _ _ _) as [pool'| |] eqn:Hc; [|done..].
  apply scan_shard_ok; [unfold in_u64 in *; simpl; lia|]. by eapply add_pool_ok.
Qed.

Lemma shard_set_wf self h : wf self -> 0 <= h < 2 ^ 64 - 1 -> wf (SetShardState h self).
Proof.
  intros Hwf Hh. apply scan_shard_ok; simpl; [lia|]. rewrite remove_loop_drop.
  eapply pool_ok_reset; [done|]. unfold in_u64. lia.
Qed.

Lemma shard_reachable_wf id self : reachable (2 ^ 64 - 1) id self -> wf self.
Proof.
  apply rtc_invariant; [by apply pool_ok_nil|].
  intros s s' Hwf Hstep. destruct Hstep as [s blk Hh|s h Hh|s h].
  - destruct (decide (latestValidHeight s < block_height blk)).
    + apply shard_add_wf; [done..|unfold in_u64; lia].
    + unfold AddShardBlock. by replace (_ <=? _) with true by (symmetry; apply Z.leb_le; lia).
  - by apply shard_set_wf.
  - unfold wf. simpl. rewrite remove_loop_drop. by apply pool_ok_remove.
Qed.

(** While a reachable shard pool has a valid block to hand out, adding a block,
    whatever its height, never makes another block valid: the scan stops at the
    first block of the pool.  (The beacon pool skips the blocks that are already
    valid.) *)
Theorem shard_pool_stuck (id : Z) (self : ShardPool) (blk : B) :
  reachable (2 ^ 64 - 1) id self -> in_u64 (block_height blk) ->
  GetValidBlock self <> [] ->
  let self' := fst (AddShardBlock blk self) in
  latestValidHeight self' = latestValidHeight self /\ GetValidBlock self' = GetValidBlock self.
Proof.
  intros Hwf%shard_reachable_wf Hu Hne. simpl.
  unfold AddShardBlock.
  destruct (_ <=? _) eqn:Hlt; [done|]. destruct (has_height _ _) eqn:Hdup; [done|]. to_prop.
  destruct (check_capacity _ _ _ _ _) as [pool'| |] eqn:Hc; [|done..]. simpl.
  pose proof (valid_add _ _ _ _ _ _ (ok_asc _ _ Hwf) Hlt Hc) as Hv.
  set (sorted := sort_height _) in *.
  assert (scan_shard (latestValidHeight self) sorted = latestValidHeight self) as Hscan.
  { unfold GetValidBlock in Hne. rewrite valid_loop_take, <- Hv in Hne.
    destruct sorted as [|b rest]; [done|]. simpl in Hne. unfold upto in Hne.
    destruct (block_height b <=? _) eqn:Hb; [|done]. to_prop.
    apply scan_shard_stuck; [done|]. unfold in_u64 in *.
    pose proof (ok_latest _ _ Hwf). unfold in_u64 in *. lia. }
  split; [done|]. unfold GetValidBlock. simpl. rewrite !valid_loop_take, Hscan. simpl.
  exact Hv.
Qed.

(** [SetShardState h] on a reachable pool forgets exactly the blocks up to [h]
    and then holds as valid the longest run of consecutive heights that starts at
    [h + 1]; this run is what [GetValidBlockHeight] reports. *)
Theorem shard_set_state_spec (id h : Z) (self : ShardPool) :
  reachable (2 ^ 64 - 1) id self -> 0 <= h < 2 ^ 64 - 1 ->
  let self' := SetShardState h self in
  (forall b, b ∈ pool self' <-> b ∈ pool self /\ h < block_height b) /\
  h <= latestValidHeight self' /\
  GetValidBlockHeight self' = seqZ (h + 1) (latestValidHeight self' - h) /\
  Forall (fun b => block_height b <> latestValidHeight self' + 1) (pool self').
Proof.
  intros Hwf%shard_reachable_wf Hh. simpl. pose proof Hwf as [Hasc Hr Hl _].
  unfold SetShardState, RemoveBlock, UpdateLatestShardState, GetValidBlockHeight, GetValidBlock.
  simpl. rewrite remove_loop_drop, valid_loop_take. simpl.
  set (p := drop_while (upto h) (pool self)).
  assert (Forall (fun b => h < block_height b) p) as Hgt by (by apply asc_drop_gt).
  assert (asc p) as Hasc' by (by apply asc_drop_while).
  assert (Forall (fun b => in_u64 (block_height b)) p) as Hr' by (by apply Forall_drop_while).
  rewrite scan_shard_above by (done || (unfold in_u64; lia)).
  destruct (scan_run p h) as (run & rest & Hp & Hrun & Heq & Hu & Hrest);
    [done..|unfold in_u64; lia|done|]. simpl in Heq, Hrest. rewrite Heq in *.
  split_and!; [|lia| |].
  - intros b. rewrite <- (take_drop_while (upto h) (pool self)). fold p.
    rewrite elem_of_app. rewrite Forall_forall in Hgt. split; [by auto|].
    intros [[Hb|Hb] Hlt]; [|done]. exfalso.
    pose proof (take_while_forall (upto h) (pool self)) as Ht.
    rewrite Forall_forall in Ht. apply Ht in Hb. unfold upto in Hb. to_prop. lia.
  - replace (h + Z.of_nat (length run) - h) with (Z.of_nat (length run)) by lia.
    rewrite <- (block_heights_consecutive _ _ Hrun). f_equal. rewrite Hp.
    rewrite take_while_app, take_while_none, app_nil_r; [done|..].
    + eapply Forall_impl; [exact Hrest|]. intros b Hb. apply Z.leb_gt. simpl in Hb. lia.
    + eapply Forall_impl; [by apply consecutive_bounds|]. intros b Hb. apply Z.leb_le.
      simpl in Hb. lia.
  - rewrite Hp, Forall_app. split.
    + eapply Forall_impl; [by apply consecutive_bounds|]. simpl. intros. lia.
    + eapply Forall_impl; [exact Hrest|]. simpl. intros. lia.
Qed.

Lemma GetShardPool_lookup id m j :
  snd (GetShardPool id m) !! j = if decide (id = j) then Some (fst (GetShardPool id m)) else m !! j.
Proof.
  unfold GetShardPool. destruct (m !! id) eqn:Hm; simpl; [case_decide; congruence|].
  apply lookup_insert.
Qed.

Lemma InitShardPool_lookup best (ids : list Z) m j :
  NoDup ids ->
  foldl (fun m i =>
    let '(p, m') := GetShardPool i m in
    <[i := SetShardState (best i) p]> m') m ids !! j =
  if decide (j ∈ ids) then Some (SetShardState (best j) (fst (GetShardPool j m))) else m !! j.
Proof.
  intros Hnd. induction ids as [|i ids IH] using rev_ind; [done|].
  apply NoDup_app in Hnd as (Hnd & Hi & _). rewrite foldl_app. simpl.
  set (m1 := foldl _ _ _) in *. specialize (IH Hnd).
  destruct (GetShardPool i m1) as [p m2] eqn:Hg.
  pose proof (GetShardPool_lookup i m1 j) as Hj. rewrite Hg in Hj. simpl in Hj.
  rewrite lookup_insert, Hj. destruct (decide (i = j)) as [->|Hne].
  - rewrite decide_True by set_solver. rewrite decide_False in IH.
    2: { intros H'. apply (Hi _ H'). left. }
    do 2 f_equal. unfold GetShardPool in *. rewrite IH in Hg.
    by destruct (m !! j); simplify_eq/=.
  - rewrite IH. rewrite (decide_ext (j ∈ ids ++ [i]) (j ∈ ids)); [done|].
    rewrite elem_of_app, list_elem_of_singleton. split; [intros [?|?]; congruence|by left].
Qed.

(** [InitShardPool] covers the shard identifiers 0 to 254 and no other: each gets
    its own pool (the one already in the table, or a new one) set to its best height. *)
Theorem init_shard_pool_spec (bestShardHeight : Z -> Z) (m : gmap Z ShardPool) (j : Z) :
  InitShardPool bestShardHeight m !! j =
    if decide (0 <= j < 255)
    then Some (SetShardState (bestShardHeight j) (default (newShardPool j) (m !! j)))
    else m !! j.
Proof.
  unfold InitShardPool. rewrite InitShardPool_lookup by apply NoDup_seqZ.
  destruct (decide (j ∈ _)) as [Hj|Hj]; rewrite elem_of_seqZ in Hj;
    destruct (decide (0 <= j < 255)); [|lia..|done].
  unfold GetShardPool. by destruct (m !! j).
Qed.
End ShardPool.

Section Witnesses.
#[local] Instance Z_height : BlockHeight Z := fun z => z.

(** Block 3 arrives after block 2: the pool hands out block 2 only. *)
Definition sample_pool : ShardPool := fst (AddShardBlock 2 (newShardPool 0)).

Lemma shard_sample_reachable : reachable (2 ^ 64 - 1) 0 sample_pool.
Proof. apply rtc_once, (step_add _ (newShardPool 0) 2). by_compute. Qed.

Lemma shard_pool_stuck_witness :
  GetValidBlock sample_pool = [2] /\ GetValidBlock (fst (AddShardBlock 3 sample_pool)) = [2].
Proof.
  split; [reflexivity|].
  refine (proj2 (shard_pool_stuck 0 sample_pool 3 _ _ _)); [apply shard_sample_reachable|by_compute|].
  vm_compute. congruence.
Defined.

Lemma shard_set_state_spec_witness :
  GetValidBlockHeight (SetShardState 1 (fst (AddShardBlock 3 sample_pool))) = [2; 3].
Proof.
  refine (proj1 (proj2 (proj2 (shard_set_state_spec 0 1 (fst (AddShardBlock 3 sample_pool)) _ _))));
    [|by_compute].
  eapply rtc_r; [apply shard_sample_reachable|]. apply step_add. by_compute.
Defined.
End Witnesses.
End ShardPool.
