(* ===== verification/ShardToBeaconPool.v ===== *)
(** The pool of shard blocks on their way to the beacon chain
    (src/mempool/shard_to_beacon_pool_v2.go): one ordered pool and one valid height per
    shard, and the two mutexes that guard them. *)

From S2P Require Import Prelude HeightPool.

(** The shard a block comes from. *)
Class BlockShard (B : Type) : Type := block_shard : B -> Z.
#[export] Hint Mode BlockShard ! : typeclass_instances.

Module ShardToBeaconPool.
Section ShardToBeaconPool.
Context {B : Type} `{!BlockHeight B} `{!BlockShard B} {Hash : Type} `{!BlockHash B Hash}.

Definition MAX_VALID_SHARD_TO_BEACON_BLK_IN_POOL : Z := 1000.
Definition MAX_INVALID_SHARD_TO_BEACON_BLK_IN_POOL : Z := 200.

Record ShardToBeaconPool := mkPool {
  pool : gmap Z (list B);
  latestValidHeight : gmap Z Z
}.

(** The singleton [GetShardToBeaconPool] creates. *)
Definition newPool : ShardToBeaconPool := mkPool ∅ ∅.

(** [if h == 0 { h = 1 }] on the height recorded for a shard. *)
Definition at_least_one (h : option Z) : Z :=
  let h := default 0 h in if h =? 0 then 1 else h.

Definition UpdateLatestShardState (self : ShardToBeaconPool) : ShardToBeaconPool :=
  mkPool (pool self)
    (range_update (fun _ blks h => scan_latest (at_least_one h) blks)
       (pool self) (latestValidHeight self)).

Definition RemovePendingBlock (blockItems : gmap Z Z) (self : ShardToBeaconPool) :
    ShardToBeaconPool :=
  mkPool
    (map_imap (fun shardID blks =>
       match blockItems !! shardID with
       | Some blockHeight => Some (remove_loop blockHeight blks 0 blks)
       | None => Some blks
       end) (pool self))
    (latestValidHeight self).

(** The map of the caller is clamped in place and returned here with the pool: the
    beacon best state passes its own [BestShardHeight]. *)
Definition SetShardState (latestShardState : gmap Z Z) (self : ShardToBeaconPool) :
    ShardToBeaconPool * gmap Z Z :=
  let latestShardState' := (fun latestHeight => if latestHeight <? 1 then 1 else latestHeight)
                             <$> latestShardState in
  let self' := mkPool (pool self)
    (range_update (fun _ h _ => h) latestShardState' (latestValidHeight self)) in
  (UpdateLatestShardState (RemovePendingBlock latestShardState' self'), latestShardState').

Definition GetShardState (self : ShardToBeaconPool) : gmap Z Z := latestValidHeight self.

Definition set_pool (id : Z) (blks : list B) (self : ShardToBeaconPool) : ShardToBeaconPool :=
  mkPool (<[id := blks]> (pool self)) (latestValidHeight self).

(** The range of heights to request from the shard after a block came in. *)
Definition request_range (id : Z) (self : ShardToBeaconPool) : outcome (Z * Z) :=
  match map_get_list (pool self) id with
  | [] => Panic
  | first :: _ =>
      let latest := map_get (latestValidHeight self) id in
      if latest <? block_height first then
        let offset := u64 (block_height first - latest) in
        let offset := if MAX_VALID_SHARD_TO_BEACON_BLK_IN_POOL <? offset
                      then MAX_VALID_SHARD_TO_BEACON_BLK_IN_POOL else offset in
        Ok (u64 (latest + 1), u64 (latest + offset))
      else Ok (0, 0)
  end.

Definition AddShardToBeaconBlock (blk : B) : M ShardToBeaconPool (Z * Z) := fun self =>
  let blkShardID := block_shard blk in
  let blkHeight := block_height blk in
  let self := mkPool (pool self)
    (if map_get (latestValidHeight self) blkShardID =? 0
     then <[blkShardID := 1]> (latestValidHeight self) else latestValidHeight self) in
  let latest := map_get (latestValidHeight self) blkShardID in
  let blks := map_get_list (pool self) blkShardID in
  if blkHeight <=? latest then (self, Err "receive old block")
  else if has_height blkHeight blks then (self, Err "receive duplicate block")
  else
    match check_capacity MAX_VALID_SHARD_TO_BEACON_BLK_IN_POOL
            MAX_INVALID_SHARD_TO_BEACON_BLK_IN_POOL latest blks blkHeight with
    | Ok blks' =>
        let self' := UpdateLatestShardState
                       (set_pool blkShardID (sort_height (blks' ++ [blk])) self) in
        (self', request_range blkShardID self')
    | Err e => (self, Err e)
    | Panic => (self, Panic)
    end.

(** [limit] is the optional map of the highest height wanted from each shard. *)
Fixpoint pending_loop (latest limit : Z) (blks : list B) : list B :=
  match blks with
  | [] => []
  | blk :: rest =>
      if latest <? block_height blk then []
      else if negb (limit =? 0) && (limit <? block_height blk) then []
      else blk :: pending_loop latest limit rest
  end.

Definition GetValidPendingBlock (limit : option (gmap Z Z)) (self : ShardToBeaconPool) :
    ShardToBeaconPool * gmap Z (list B) :=
  let self' := mkPool (pool self)
    (range_update (fun _ _ h => at_least_one h) (pool self) (latestValidHeight self)) in
  (self',
   map_imap (fun shardID blks =>
     match pending_loop (map_get (latestValidHeight self') shardID)
             (match limit with None => 0 | Some l => map_get l shardID end) blks with
     | [] => None
     | valid => Some valid
     end) (pool self')).

Definition GetValidPendingBlockHash (self : ShardToBeaconPool) : gmap Z (list Hash) :=
  map block_hash <$> snd (GetValidPendingBlock None self).

Definition GetValidPendingBlockHeight (self : ShardToBeaconPool) : gmap Z (list Z) :=
  map block_height <$> snd (GetValidPendingBlock None self).

Definition GetLatestValidPendingBlockHeight (self : ShardToBeaconPool) : gmap Z Z :=
  foldl (fun _ blk => block_height blk) 0 <$> snd (GetValidPendingBlock None self).

Definition GetAllPendingBlockHeight (self : ShardToBeaconPool) : gmap Z (list Z) :=
  map_imap (fun _ blks => match blks with [] => None | _ => Some (map block_height blks) end)
    (pool self).

(** *** Invariant *)

Definition valid_height (self : ShardToBeaconPool) (id : Z) : Z :=
  at_least_one (latestValidHeight self !! id).

Definition wf (self : ShardToBeaconPool) : Prop :=
  (forall id blks, pool self !! id = Some blks ->
    pool_ok blks (valid_height self id) /\ settled blks (valid_height self id)) /\
  (forall id h, latestValidHeight self !! id = Some h -> in_u64 h).

Inductive step : ShardToBeaconPool -> ShardToBeaconPool -> Prop :=
  | step_add self blk :
      in_u64 (block_height blk) -> step self (fst (AddShardToBeaconBlock blk self))
  | step_set self state :
      (forall id h, state !! id = Some h -> in_u64 h) -> step self (fst (SetShardState state self))
  | step_remove self items : step self (RemovePendingBlock items self)
  | step_get self limit : step self (fst (GetValidPendingBlock limit self)).

Definition reachable : ShardToBeaconPool -> Prop := rtc step newPool.

Lemma at_least_one_range h : (forall z, h = Some z -> in_u64 z) -> in_u64 (at_least_one h).
Proof.
  unfold at_least_one. destruct h as [z|]; simpl; intros H; [|done].
  case_ifs; [done|]. by apply H.
Qed.

Lemma at_least_one_pos h : (forall z, h = Some z -> 0 <= z) -> 1 <= at_least_one h.
Proof.
  unfold at_least_one. destruct h as [z|]; simpl; intros H; [|done].
  specialize (H z eq_refl). case_ifs; to_prop; lia.
Qed.

Lemma at_least_one_id z : 1 <= z -> at_least_one (Some z) = z.
Proof. unfold at_least_one. simpl. intros. by cmp. Qed.

Lemma valid_height_range self id : wf self -> in_u64 (valid_height self id).
Proof. intros [_ Hr]. apply at_least_one_range. apply Hr. Qed.

Lemma valid_height_pos self id : wf self -> 1 <= valid_height self id.
Proof. intros [_ Hr]. apply at_least_one_pos. intros z Hz. by apply Hr in Hz as [? _]. Qed.

(** The scan over all shards keeps the pools and settles each of them. *)
Lemma update_spec self :
  (forall id blks, pool self !! id = Some blks -> pool_ok blks (valid_height self id)) ->
  (forall id h, latestValidHeight self !! id = Some h -> in_u64 h) ->
  wf (UpdateLatestShardState self) /\
  forall id, valid_height (UpdateLatestShardState self) id =
    match pool self !! id with
    | Some blks => scan_latest (valid_height self id) blks
    | None => valid_height self id
    end.
Proof.
  intros Hok Hr.
  assert (forall id blks, pool self !! id = Some blks ->
    1 <= scan_latest (valid_height self id) blks) as Hpos.
  { intros id blks Hb. apply Hok in Hb. destruct (scan_latest_ok _ _ Hb) as (_ & _ & ?).
    simpl in *. pose proof (at_least_one_pos (latestValidHeight self !! id)) as Hp.
    unfold valid_height in *. assert (1 <= at_least_one (latestValidHeight self !! id)); [|lia].
    apply Hp. intros z Hz. by apply Hr in Hz as [? _]. }
  assert (forall id, valid_height (UpdateLatestShardState self) id =
    match pool self !! id with
    | Some blks => scan_latest (valid_height self id) blks
    | None => valid_height self id
    end) as Hv.
  { intros id. unfold valid_height at 1. simpl. rewrite range_update_lookup.
    destruct (pool self !! id) as [blks|] eqn:Hb; [|done].
    apply at_least_one_id. by apply Hpos. }
  split; [|done]. split.
  - intros id blks Hb. rewrite Hv. simpl in Hb. rewrite Hb.
    apply Hok in Hb. by destruct (scan_latest_ok _ _ Hb) as (? & ? & _).
  - intros id h. simpl. rewrite range_update_lookup.
    destruct (pool self !! id) as [blks|] eqn:Hb; [|apply Hr].
    intros [= <-]. apply Hok in Hb. by destruct (scan_latest_ok _ _ Hb) as ([] & _).
Qed.

Lemma init_height_valid self s id :
  valid_height (mkPool (pool self)
    (if map_get (latestValidHeight self) s =? 0
     then <[s := 1]> (latestValidHeight self) else latestValidHeight self)) id = valid_height self id.
Proof.
  unfold valid_height, map_get. simpl. case_ifs; [|done]. to_prop.
  destruct (decide (s = id)) as [<-|Hne]; [|by rewrite lookup_insert_ne].
  rewrite lookup_insert_eq. unfold at_least_one. rewrite Heqb. done.
Qed.

Lemma init_height_wf self s :
  wf self ->
  wf (mkPool (pool self)
    (if map_get (latestValidHeight self) s =? 0
     then <[s := 1]> (latestValidHeight self) else latestValidHeight self)).
Proof.
  intros [Hp Hr]. split.
  - intros id blks Hb. rewrite init_height_valid. by apply Hp.
  - intros id h. simpl. case_ifs; [|apply Hr].
    rewrite lookup_insert. case_decide; [|apply Hr]. by intros [= <-].
Qed.

Lemma init_height_get self s :
  map_get (if map_get (latestValidHeight self) s =? 0
     then <[s := 1]> (latestValidHeight self) else latestValidHeight self) s = valid_height self s.
Proof.
  unfold valid_height, at_least_one, map_get. case_ifs; [|done]. by rewrite lookup_insert_eq.
Qed.

Lemma pool_get_ok self s :
  wf self -> pool_ok (map_get_list (pool self) s) (valid_height self s).
Proof.
  intros Hwf. unfold map_get_list. destruct (pool self !! s) as [blks|] eqn:Hb; simpl.
  - destruct Hwf as [Hp _]. by apply Hp in Hb as [? _].
  - by apply pool_ok_nil, valid_height_range.
Qed.

(** Replacing the blocks of one shard and rescanning touches that shard only. *)
Lemma set_pool_spec self s blks :
  wf self -> pool_ok blks (valid_height self s) ->
  let self' := UpdateLatestShardState (set_pool s blks self) in
  wf self' /\ valid_height self s <= valid_height self' s /\
  forall id, id <> s -> pool self' !! id = pool self !! id /\ valid_height self' id = valid_height self id.
Proof.
  intros Hwf Hok. simpl. destruct (update_spec (set_pool s blks self)) as [Hwf' Hv].
  { intros id b. simpl. rewrite lookup_insert. case_decide as Hid; [subst|].
    - intros [= ->]. exact Hok.
    - intros Hb. destruct Hwf as [Hp _]. by apply Hp in Hb as [? _]. }
  { apply Hwf. }
  split; [done|]. split.
  - rewrite Hv. simpl. rewrite lookup_insert_eq.
    change (valid_height (set_pool s blks self) s) with (valid_height self s).
    by apply scan_latest_ok.
  - intros id Hid. rewrite Hv. simpl. rewrite lookup_insert_ne by done. split; [done|].
    destruct (pool self !! id) as [b|] eqn:Hb; [|done].
    destruct Hwf as [Hp _]. apply Hp in Hb as [? ?]. by apply scan_settled.
Qed.

Lemma request_range_spec self s first rest :
  wf self -> map_get_list (pool self) s = first :: rest ->
  map_get (latestValidHeight self) s = valid_height self s ->
  exists from to, request_range s self = Ok (from, to) /\
    (block_height first <= valid_height self s /\ from = 0 /\ to = 0 \/
     valid_height self s < block_height first /\ from = valid_height self s + 1 /\
     to = valid_height self s +
          Z.min MAX_VALID_SHARD_TO_BEACON_BLK_IN_POOL (block_height first - valid_height self s)).
Proof.
  intros Hwf Hfirst Hget. unfold request_range. rewrite Hfirst, Hget.
  pose proof (valid_height_pos self s Hwf).
  assert (in_u64 (block_height first)) as Hu.
  { pose proof (ok_range _ _ (pool_get_ok self s Hwf)) as Hr. rewrite Hfirst in Hr.
    by apply Forall_cons in Hr as [? _]. }
  destruct (valid_height self s <? block_height first) eqn:Hlt; to_prop; [|by eauto 10].
  unfold MAX_VALID_SHARD_TO_BEACON_BLK_IN_POOL in *.
  rewrite (u64_id (_ - _)) by (unfold in_u64 in *; lia).
  do 2 eexists; split; [reflexivity|]. right. split; [done|]. unfold in_u64 in *.
  destruct (1000 <? _) eqn:?; to_prop; rewrite !u64_id by (unfold in_u64; lia); lia.
Qed.

(** What a successful addition does, from the pool with the height of its shard
    initialised. *)
Lemma add_ok_spec self blk blks' :
  let s := block_shard blk in
  wf self -> in_u64 (block_height blk) -> valid_height self s < block_height blk ->
  has_height (block_height blk) (map_get_list (pool self) s) = false ->
  check_capacity MAX_VALID_SHARD_TO_BEACON_BLK_IN_POOL MAX_INVALID_SHARD_TO_BEACON_BLK_IN_POOL
    (valid_height self s) (map_get_list (pool self) s) (block_height blk) = Ok blks' ->
  let self' := UpdateLatestShardState (set_pool s (sort_height (blks' ++ [blk])) self) in
  wf self' /\ valid_height self s <= valid_height self' s /\
  (forall id, id <> s -> pool self' !! id = pool self !! id /\ valid_height self' id = valid_height self id) /\
  map_get (latestValidHeight self') s = valid_height self' s /\
  blk ∈ map_get_list (pool self') s.
Proof.
  intros s Hwf Hu Hlt Hdup Hc self'.
  pose proof (pool_get_ok self s Hwf) as Hok.
  pose proof (add_pool_ok _ _ _ _ _ _ Hok Hu Hlt Hdup Hc) as Hok'.
  destruct (set_pool_spec self s _ Hwf Hok') as (Hwf' & Hle & Hframe). fold self' in Hwf', Hle, Hframe.
  assert (pool self' !! s = Some (sort_height (blks' ++ [blk]))) as Hp by apply lookup_insert_eq.
  split_and!; [done..| |].
  - pose proof (valid_height_pos self s Hwf).
    assert (exists h, latestValidHeight self' !! s = Some h /\ valid_height self s <= h) as (h & Hh & Hle').
    { eexists. split.
      - unfold self'. simpl. by rewrite range_update_lookup, lookup_insert_eq.
      - by apply scan_latest_ok. }
    unfold map_get, valid_height. rewrite Hh. simpl.
    symmetry. apply at_least_one_id. lia.
  - unfold map_get_list. rewrite Hp. simpl. rewrite sort_height_perm; [left|].
    by eapply check_capacity_asc, Hok.
Qed.

Lemma s2b_add_wf self blk :
  wf self -> in_u64 (block_height blk) -> wf (fst (AddShardToBeaconBlock blk self)).
Proof.
  intros Hwf Hu. unfold AddShardToBeaconBlock.
  set (self0 := mkPool (pool self) _).
  assert (wf self0) as Hwf0 by (by apply init_height_wf).
  assert (map_get (latestValidHeight self0) (block_shard blk) = valid_height self0 (block_shard blk))
    as -> by (unfold self0; rewrite init_height_valid; apply init_height_get).
  clearbody self0.
  destruct (_ <=? _) eqn:Hlt; [done|]. destruct (has_height _ _) eqn:Hdup; [done|]. to_prop.
  destruct (check_capacity _ _ _ _ _) as [blks'| |] eqn:Hc; [|done..].
  by apply add_ok_spec.
Qed.

Lemma s2b_set_wf self state :
  wf self -> (forall id h, state !! id = Some h -> in_u64 h) ->
  wf (fst (SetShardState state self)).
Proof.
  intros [Hp Hr] Hs. unfold SetShardState. simpl.
  set (state' := _ <$> state).
  assert (forall id h, state' !! id = Some h -> 1 <= h /\ in_u64 h) as Hs'.
  { intros id h. unfold state'. rewrite lookup_fmap.
    destruct (state !! id) as [h0|] eqn:Hh; [|done]. apply Hs in Hh.
    simpl. intros [= <-]. unfold in_u64 in *. case_ifs; to_prop; lia. }
  clearbody state'. apply update_spec; simpl.
  - intros id blks. rewrite map_lookup_imap. destruct (pool self !! id) as [b|] eqn:Hb; [|done].
    simpl. unfold valid_height. simpl. rewrite range_update_lookup.
    apply Hp in Hb as [Hok _]. destruct (state' !! id) as [h|] eqn:Hh.
    + intros [= <-]. apply Hs' in Hh as [? ?]. rewrite at_least_one_id, remove_loop_drop by done.
      by eapply pool_ok_reset.
    + by intros [= <-].
  - intros id h. rewrite range_update_lookup. destruct (state' !! id) as [h'|] eqn:Hh; [|apply Hr].
    intros [= <-]. by apply Hs' in Hh as [_ ?].
Qed.

Lemma s2b_remove_wf self items : wf self -> wf (RemovePendingBlock items self).
Proof.
  intros [Hp Hr]. split; [|done]. intros id blks. simpl. rewrite map_lookup_imap.
  destruct (pool self !! id) as [b|] eqn:Hb; [|done]. simpl. apply Hp in Hb as [Hok Hs].
  change (valid_height (RemovePendingBlock items self) id) with (valid_height self id).
  destruct (items !! id); intros [= <-]; [|done]. rewrite remove_loop_drop.
  split; [by apply pool_ok_remove|by apply Forall_drop_while].
Qed.

Lemma get_valid_height limit self id :
  valid_height (fst (GetValidPendingBlock limit self)) id = valid_height self id.
Proof.
  unfold valid_height. simpl. rewrite range_update_lookup.
  destruct (pool self !! id); [|done]. unfold at_least_one. simpl. case_ifs; to_prop; lia.
Qed.

Lemma get_wf limit self : wf self -> wf (fst (GetValidPendingBlock limit self)).
Proof.
  intros [Hp Hr]. split.
  - intros id blks. rewrite get_valid_height. apply Hp.
  - intros id h. simpl. rewrite range_update_lookup. destruct (pool self !! id); [|apply Hr].
    intros [= <-]. apply at_least_one_range. apply Hr.
Qed.

Lemma s2b_reachable_wf self : reachable self -> wf self.
Proof.
  apply rtc_invariant; [done|]. intros s s' Hwf Hstep.
  destruct Hstep; [by apply s2b_add_wf|by apply s2b_set_wf|by apply s2b_remove_wf|by apply get_wf].
Qed.

(** [AddShardToBeaconBlock] on a reachable pool never panics and touches no other
    shard.  An error changes no block and no valid height.  On success the block is in
    the pool of its shard, the valid height of the shard did not go back, and the two
    heights returned are (0, 0) when the first block held is valid, and otherwise ask
    for the missing heights from the valid height on, at most 1000 of them, never
    beyond the first block held. *)
Theorem s2b_add_spec (self : ShardToBeaconPool) (blk : B) :
  reachable self -> in_u64 (block_height blk) ->
  let '(self', r) := AddShardToBeaconBlock blk self in
  let s := block_shard blk in
  (forall id, id <> s -> pool self' !! id = pool self !! id /\ valid_height self' id = valid_height self id) /\
  match r with
  | Ok (from, to) =>
      blk ∈ map_get_list (pool self') s /\
      valid_height self s <= valid_height self' s /\
      exists first, head (map_get_list (pool self') s) = Some first /\
        (block_height first <= valid_height self' s /\ from = 0 /\ to = 0 \/
         from = valid_height self' s + 1 /\ from <= to <= block_height first /\
         to - from < MAX_VALID_SHARD_TO_BEACON_BLK_IN_POOL)
  | Err _ => pool self' = pool self /\ valid_height self' s = valid_height self s
  | Panic => False
  end.
Proof.
  intros Hwf%s2b_reachable_wf Hu. unfold AddShardToBeaconBlock.
  set (s := block_shard blk). set (self0 := mkPool (pool self) _).
  assert (wf self0) as Hwf0 by (by apply init_height_wf).
  assert (forall id, valid_height self0 id = valid_height self id) as Hv0
    by (intros; apply init_height_valid).
  assert (map_get (latestValidHeight self0) s = valid_height self0 s) as ->
    by (rewrite Hv0; apply init_height_get).
  change (pool self) with (pool self0). clearbody self0.
  destruct (_ <=? _) eqn:Hlt; [by eauto|]. destruct (has_height _ _) eqn:Hdup; [by eauto|]. to_prop.
  destruct (check_capacity _ _ _ _ _) as [blks'| |] eqn:Hc;
    [|by eauto|by apply check_capacity_no_panic in Hc].
  destruct (add_ok_spec self0 blk blks' Hwf0 Hu Hlt Hdup Hc) as (Hwf' & Hle & Hframe & Hget & Hin).
  fold s in Hle, Hframe, Hget, Hin, Hwf'.
  set (self' := UpdateLatestShardState _) in *. clearbody self'.
  destruct (map_get_list (pool self') s) as [|first rest] eqn:Hfirst; [by apply elem_of_nil in Hin|].
  destruct (request_range_spec self' s first rest Hwf' Hfirst Hget) as (from & to & -> & Hreq).
  rewrite <- Hfirst in Hin. split; [by intros id Hid; rewrite <- Hv0; apply Hframe|].
  rewrite <- Hv0. rewrite Hfirst in *. split_and!; [done..|]. exists first. split; [done|].
  unfold MAX_VALID_SHARD_TO_BEACON_BLK_IN_POOL in *. lia.
Qed.

Lemma pending_loop_take latest limit blks :
  pending_loop latest limit blks =
  take_while (upto (if limit =? 0 then latest else Z.min latest limit)) blks.
Proof.
  induction blks as [|b blks IH]; [done|]. simpl. rewrite <- IH. unfold upto.
  destruct (limit =? 0); simpl.
  - rewrite Z.leb_antisym. by destruct (latest <? block_height b).
  - destruct (latest <? block_height b) eqn:?, (limit <? block_height b) eqn:?; to_prop; by cmp.
Qed.

Lemma consecutive_take_while h a (l : list B) :
  consecutive a l ->
  consecutive a (take_while (upto h) l) /\
  take_while (upto h) l = take (length (take_while (upto h) l)) l.
Proof.
  revert a. induction l as [|b l IH]; intros a; [done|]. intros [Hb Hl]. simpl.
  destruct (upto h b); [|done]. destruct (IH _ Hl) as [IH1 IH2]. simpl. by rewrite <- IH2.
Qed.

Lemma valid_run (self : ShardToBeaconPool) (limit : option (gmap Z Z)) (id : Z) :
  wf self ->
  let '(self', blocks) := GetValidPendingBlock limit self in
  pool self' = pool self /\ (forall id, valid_height self' id = valid_height self id) /\
  match blocks !! id with
  | None => True
  | Some valid =>
      valid <> [] /\ valid `prefix_of` map_get_list (pool self) id /\
      (exists a, map block_height valid = seqZ a (Z.of_nat (length valid))) /\
      Forall (fun b => block_height b <= valid_height self id /\
        forall l h, limit = Some l -> l !! id = Some h -> h <> 0 -> block_height b <= h) valid /\
      (limit = None -> exists b, last valid = Some b /\ block_height b = valid_height self id)
  end.
Proof.
  intros Hwf. split; [done|]. split; [intros; apply (get_valid_height limit)|].
  rewrite map_lookup_imap. simpl. destruct (pool self !! id) as [blks|] eqn:Hb; [|done]. simpl.
  unfold map_get at 1. rewrite range_update_lookup, Hb. simpl.
  fold (valid_height self id). rewrite pending_loop_take. set (bound := if _ =? 0 then _ else _).
  destruct Hwf as [Hp _]. apply Hp in Hb as Hok. destruct Hok as [Hok _].
  destruct (pool_ok_valid _ _ Hok) as [Hc _]. simpl in Hc.
  assert (bound <= valid_height self id) as Hbound by (unfold bound; case_ifs; lia).
  assert (take_while (upto bound) blks =
    take_while (upto bound) (take_while (upto (valid_height self id)) blks)) as Htw.
  { clear -Hbound. induction blks as [|b blks IH]; [done|]. simpl. unfold upto in *.
    destruct (block_height b <=? bound) eqn:H1; to_prop.
    - cmp. simpl. cmp. by rewrite <- IH.
    - destruct (block_height b <=? valid_height self id); [|done]. simpl. by cmp. }
  destruct (take_while (upto bound) blks) as [|b valid] eqn:Hv; [done|]. rewrite <- Hv in *.
  split; [by rewrite Hv|]. split; [|split; [|split]].
  - unfold map_get_list. rewrite Hb. simpl. exists (drop_while (upto bound) blks).
    by rewrite take_drop_while.
  - eexists. rewrite Htw. eapply block_heights_consecutive, consecutive_take_while, Hc.
  - eapply Forall_impl; [apply take_while_forall|]. intros x Hx. unfold upto in Hx. to_prop.
    split; [lia|]. intros l h -> Hl Hh. unfold bound, map_get in Hx. rewrite Hl in Hx. simpl in Hx.
    destruct (h =? 0) eqn:?; to_prop; [done|lia].
  - intros ->. subst bound. simpl in *. rewrite Hv in Hc |- *.
    destruct (exists_last (l := b :: valid)) as (l' & x & Hl); [done|]. rewrite Hl in Hc |- *.
    exists x. rewrite last_snoc. split; [done|]. apply consecutive_app in Hc as [_ [-> _]].
    rewrite length_app. simpl. lia.
Qed.

(** The blocks the beacon producer gets from [GetValidPendingBlock] are, for each
    shard, a run of consecutive heights from the first block held, none above the
    valid height or the given limit; without a limit the run ends exactly at the
    valid height.  Reading them changes no block and no valid height. *)
Theorem s2b_get_valid_spec (self : ShardToBeaconPool) (limit : option (gmap Z Z)) (id : Z) :
  reachable self ->
  let '(self', blocks) := GetValidPendingBlock limit self in
  pool self' = pool self /\ (forall id, valid_height self' id = valid_height self id) /\
  match blocks !! id with
  | None => True
  | Some valid =>
      valid <> [] /\ valid `prefix_of` map_get_list (pool self) id /\
      (exists a, map block_height valid = seqZ a (Z.of_nat (length valid))) /\
      Forall (fun b => block_height b <= valid_height self id /\
        forall l h, limit = Some l -> l !! id = Some h -> h <> 0 -> block_height b <= h) valid /\
      (limit = None -> exists b, last valid = Some b /\ block_height b = valid_height self id)
  end.
Proof. intros H%s2b_reachable_wf. by apply valid_run. Qed.
End ShardToBeaconPool.

(** ** The two mutexes *)

Section Locks.
Inductive mutex : Type := poolMutex | latestValidHeightMutex.

#[export] Instance mutex_eq_dec : EqDecision mutex.
Proof. solve_decision. Defined.

(** [sync.RWMutex] operations of a thread, in program order (deferred unlocks run in
    reverse order of their [defer]). *)
Inductive lock_op : Type :=
  | Lock (m : mutex)
  | Unlock (m : mutex)
  | RLock (m : mutex)
  | RUnlock (m : mutex).

Definition RemovePendingBlock_locks : list lock_op := [Lock poolMutex; Unlock poolMutex].

Definition SetShardState_locks : list lock_op :=
  Lock latestValidHeightMutex :: RemovePendingBlock_locks ++ [Unlock latestValidHeightMutex].

Definition AddShardToBeaconBlock_locks : list lock_op :=
  [Lock poolMutex; Lock latestValidHeightMutex; Unlock latestValidHeightMutex; Unlock poolMutex].

Definition GetValidPendingBlock_locks : list lock_op :=
  [RLock poolMutex; Lock latestValidHeightMutex; Unlock latestValidHeightMutex; RUnlock poolMutex].

Record lock_state := mkLockState {
  writers : list mutex;           (* locked for writing *)
  readers : list mutex;           (* one entry per reader *)
  threads : list (list lock_op)   (* what each thread has left to do *)
}.

Definition exec_lock (op : lock_op) (s : lock_state) : option (list mutex * list mutex) :=
  match op with
  | Lock m => if decide (m ∈ writers s ++ readers s) then None else Some (m :: writers s, readers s)
  | Unlock m => Some (list_difference (writers s) [m], readers s)
  | RLock m => if decide (m ∈ writers s) then None else Some (writers s, m :: readers s)
  | RUnlock m =>
      Some (writers s, match list_find (fun m' => m' = m) (readers s) with
                       | Some (i, _) => delete i (readers s)
                       | None => readers s
                       end)
  end.

Inductive lock_step : lock_state -> lock_state -> Prop :=
  | lock_step_thread s i op rest ws rs :
      threads s !! i = Some (op :: rest) -> exec_lock op s = Some (ws, rs) ->
      lock_step s (mkLockState ws rs (<[i := rest]> (threads s))).

Definition deadlocked (s : lock_state) : Prop :=
  (exists i op rest, threads s !! i = Some (op :: rest)) /\ forall s', ~ lock_step s s'.

Definition start (ts : list (list lock_op)) : lock_state := mkLockState [] [] ts.

(** Both threads hold one mutex and wait for the other's. *)
Lemma crossed_deadlock rest1 rest2 :
  deadlocked (mkLockState [poolMutex; latestValidHeightMutex] []
    [Lock poolMutex :: rest1; Lock latestValidHeightMutex :: rest2]).
Proof.
  split; [by exists 0%nat; eauto|]. intros s' Hstep. inversion Hstep as [s i op rest ws rs Hi Hx]; subst.
  destruct i as [|[|i]]; simpl in Hi; simplify_eq.
Qed.

(** [SetShardState] takes the height mutex before the pool mutex, while
    [AddShardToBeaconBlock] and [GetValidPendingBlock] take them in the other order:
    a beacon block being processed while a shard block comes in (or while a block is
    being produced) can leave both threads blocked for ever. *)
Theorem s2b_lock_order_deadlock (other : list lock_op) :
  other = AddShardToBeaconBlock_locks \/ other = GetValidPendingBlock_locks ->
  exists s, rtc lock_step (start [SetShardState_locks; other]) s /\ deadlocked s.
Proof.
  intros [-> | ->].
  - eexists; split; [|apply crossed_deadlock].
    eapply rtc_l; [by eapply (lock_step_thread _ 0%nat)|].
    eapply rtc_l; [by eapply (lock_step_thread _ 1%nat)|]. constructor.
  - exists (mkLockState [latestValidHeightMutex] [poolMutex]
      [RemovePendingBlock_locks ++ [Unlock latestValidHeightMutex];
       drop 1 GetValidPendingBlock_locks]). split.
    + eapply rtc_l; [by eapply (lock_step_thread _ 0%nat)|].
      eapply rtc_l; [by eapply (lock_step_thread _ 1%nat)|]. constructor.
    + split; [by exists 0%nat; eauto|]. intros s' Hstep.
      inversion Hstep as [s i op rest ws rs Hi Hx]; subst.
      destruct i as [|[|i]]; simpl in Hi; simplify_eq.
Qed.

Lemma s2b_lock_order_deadlock_witness :
  exists s, rtc lock_step (start [SetShardState_locks; AddShardToBeaconBlock_locks]) s /\ deadlocked s.
Proof. apply (s2b_lock_order_deadlock AddShardToBeaconBlock_locks). by left. Defined.
End Locks.

(** *** Concrete pools *)

Section Witnesses.
(** A block as its (shard, height) pair. *)
#[local] Instance pair_height : BlockHeight (Z * Z) := snd.
#[local] Instance pair_shard : BlockShard (Z * Z) := fst.

Definition sample_pool : ShardToBeaconPool :=
  fst (AddShardToBeaconBlock (0, 3) (fst (AddShardToBeaconBlock (0, 2) newPool))).

Lemma s2b_sample_reachable : reachable sample_pool.
Proof.
  eapply rtc_r; [eapply rtc_r; [constructor|]|]; apply step_add; by_compute.
Qed.

Example sample_request :
  snd (AddShardToBeaconBlock (1, 5) sample_pool) = Ok (2, 5).
Proof. reflexivity. Qed.

Lemma s2b_add_spec_witness :
  pool (fst (AddShardToBeaconBlock (1, 5) sample_pool)) !! 0 = pool sample_pool !! 0.
Proof.
  refine (proj1 (proj1 (s2b_add_spec sample_pool (1, 5) s2b_sample_reachable _) 0 _)); by_compute.
Defined.

Lemma s2b_get_valid_spec_witness :
  block_height (0, 3) <= valid_height sample_pool 0.
Proof.
  pose proof (s2b_get_valid_spec sample_pool None 0 s2b_sample_reachable) as (_ & _ & H).
  destruct H as (_ & _ & _ & H & _). rewrite Forall_forall in H. apply (H (0, 3)). by right; left.
Defined.
End Witnesses.
End ShardToBeaconPool.
