(* ===== verification/CrossShardPool.v ===== *)
(** The pool of cross-shard blocks of one destination shard
    (src/mempool/cross_shard_pool_v2.go) and the aggregated-signature check it calls
    (src/blockchain/multisigs.go). *)

From S2P Require Import Prelude HeightPool ShardToBeaconPool.

(** The fields of a cross-shard block that the pool reads, besides height and shard. *)
Class CrossShardBlk (B : Type) : Type := {
  blk_to_shard : B -> Z;
  blk_epoch : B -> Z;
  blk_agg_sig : B -> string;
  blk_R : B -> string;
  blk_validators_idx : B -> list (list Z)
}.
#[export] Hint Mode CrossShardBlk ! : typeclass_instances.

Module CrossShardPool.

(** The body returns [nil] before any check (the code after the return is dead). *)
Definition ValidateAggSignature {Hash : Type} (validatorIdx : list (list Z))
    (committees : list string) (aggSig R : string) (blockHash : Hash) : outcome unit := Ok tt.

Section CrossShardPool.
Context {B : Type} `{!BlockHeight B} `{!BlockShard B} `{!CrossShardBlk B}
  {Hash : Type} `{!BlockHash B Hash}.

(** The database calls the pool makes, and the JSON decoding of a stored committee. *)
Record CrossShardDb := {
  FetchCrossShardNextHeight : Z -> Z -> Z -> outcome Z;
  FetchCommitteeByEpoch : Z -> outcome (list Z);
  UnmarshalCommittee : list Z -> option (gmap Z (list string))
}.

Definition MAX_PENDING_CROSS_SHARD_IN_POOL : nat := 100.

Record CrossShardPool_v2 := mkCrossPool {
  shardID : Z;
  validPool : gmap Z (list B);
  pendingPool : gmap Z (list B);
  crossShardState : gmap Z Z
}.

(** [GetCrossShardPool] for a shard that has none yet. *)
Definition newCrossShardPool (id : Z) : CrossShardPool_v2 := mkCrossPool id ∅ ∅ ∅.

Definition getNextCrossShardHeight (db : CrossShardDb) (fromShard toShard startHeight : Z) : Z :=
  match FetchCrossShardNextHeight db fromShard toShard startHeight with
  | Ok nextHeight => nextHeight
  | _ => 0
  end.

(** The leading blocks at or below the height are dropped. *)
Fixpoint remove_index (h : Z) (blks : list B) : nat :=
  match blks with
  | [] => 0
  | blk :: rest => if block_height blk <=? h then S (remove_index h rest) else 0
  end.

Definition removeBlockByHeight (removeSinceBlkHeight : gmap Z Z) (self : CrossShardPool_v2) :
    CrossShardPool_v2 :=
  let cut id blks := Some (drop (remove_index (map_get removeSinceBlkHeight id) blks) blks) in
  mkCrossPool (shardID self) (map_imap cut (validPool self)) (map_imap cut (pendingPool self))
    (crossShardState self).

(** The inner loop of [updatePool]: how many blocks were confirmed, and the height
    waited for when it broke off.  [startHeight] stays the same in every iteration. *)
Fixpoint confirm_loop (db : CrossShardDb) (from to startHeight : Z) (blks : list B) :
    nat * option Z :=
  match blks with
  | [] => (0%nat, None)
  | blk :: rest =>
      let waitHeight := getNextCrossShardHeight db from to startHeight in
      if waitHeight =? block_height blk then
        let '(index, expected) := confirm_loop db from to startHeight rest in
        (S index, expected)
      else (0%nat, Some waitHeight)
  end.

(** [bestCrossShard] is the map of the shard's best state, read when the call starts. *)
Definition updatePool (db : CrossShardDb) (bestCrossShard : gmap Z Z) (self : CrossShardPool_v2) :
    CrossShardPool_v2 * gmap Z Z :=
  let self := removeBlockByHeight bestCrossShard
    (mkCrossPool (shardID self) (validPool self) (pendingPool self) bestCrossShard) in
  let confirmed id blks := confirm_loop db id (shardID self) (map_get bestCrossShard id) blks in
  let pending' := map_imap (fun id blks => Some (drop (fst (confirmed id blks)) blks))
                    (pendingPool self) in
  let valid' := range_update (fun id blks valid => default [] valid ++ take (fst (confirmed id blks)) blks)
                  (filter (fun '(id, blks) => (0 < fst (confirmed id blks))%nat) (pendingPool self))
                  (validPool self) in
  (mkCrossPool (shardID self) valid' pending' bestCrossShard,
   map_imap (fun id blks => snd (confirmed id blks)) (pendingPool self)).

Definition UpdatePool (db : CrossShardDb) (bestCrossShard : gmap Z Z) (self : CrossShardPool_v2) :
    CrossShardPool_v2 :=
  fst (updatePool db bestCrossShard self).

(** Besides the error, the call returns the expected heights and the pool's shard. *)
Definition AddCrossShardBlock (db : CrossShardDb) (bestCrossShard : gmap Z Z) (blk : B) :
    M CrossShardPool_v2 (gmap Z Z * Z) := fun self =>
  let id := block_shard blk in
  let blkHeight := block_height blk in
  if negb (blk_to_shard blk =? shardID self) then
    (self, Err "This pool cannot receive this cross shard block, this block for another shard")
  else if blkHeight <=? map_get (crossShardState self) id then (self, Err "receive old block")
  else if has_height blkHeight (map_get_list (validPool self) id) then
    (self, Err "receive duplicate block")
  else if has_height blkHeight (map_get_list (pendingPool self) id) then
    (self, Err "receive duplicate block")
  else
    match FetchCommitteeByEpoch db (blk_epoch blk) with
    | Err _ => (self, Err "No committee for this epoch")
    | Panic => (self, Panic)
    | Ok shardCommitteeByte =>
        match UnmarshalCommittee db shardCommitteeByte with
        | None => (self, Err "Fail to unmarshal shard committee")
        | Some shardCommittee =>
            match ValidateAggSignature (blk_validators_idx blk) (map_get_list shardCommittee id)
                    (blk_agg_sig blk) (blk_R blk) (block_hash blk) with
            | Err e => (self, Err e)
            | Panic => (self, Panic)
            | Ok _ =>
                if (MAX_PENDING_CROSS_SHARD_IN_POOL <? length (map_get_list (pendingPool self) id))%nat
                then (self, Err "Reach max pending cross shard block")
                else
                  let pending := sort_height (map_get_list (pendingPool self) id ++ [blk]) in
                  let '(self', expectedHeight) := updatePool db bestCrossShard
                    (mkCrossPool (shardID self) (validPool self)
                       (<[id := pending]> (pendingPool self)) (crossShardState self)) in
                  (self', Ok (expectedHeight, shardID self'))
            end
        end
    end.

Fixpoint limit_loop (limit : Z) (blks : list B) : list B :=
  match blks with
  | [] => []
  | blk :: rest =>
      if negb (limit =? 0) && (limit <? block_height blk) then [] else blk :: limit_loop limit rest
  end.

Definition nonempty {A} (l : list A) : option (list A) :=
  match l with [] => None | _ => Some l end.

Definition GetValidBlock (limit : option (gmap Z Z)) (self : CrossShardPool_v2) : gmap Z (list B) :=
  map_imap (fun id blks =>
    nonempty (limit_loop (match limit with None => 0 | Some l => map_get l id end) blks))
    (validPool self).

Definition GetValidBlockHash (self : CrossShardPool_v2) : gmap Z (list Hash) :=
  map_imap (fun _ blks => nonempty (map block_hash blks)) (validPool self).

Definition GetValidBlockHeight (self : CrossShardPool_v2) : gmap Z (list Z) :=
  map_imap (fun _ blks => nonempty (map block_height blks)) (validPool self).

Definition GetPendingBlockHeight (self : CrossShardPool_v2) : gmap Z (list Z) :=
  map_imap (fun _ blks => nonempty (map block_height blks)) (pendingPool self).

Definition GetAllBlockHeight (self : CrossShardPool_v2) : gmap Z (list Z) :=
  merge (fun o1 o2 => nonempty (default [] o1 ++ default [] o2))
    (map block_height <$> validPool self) (map block_height <$> pendingPool self).

Definition GetLatestValidBlockHeight (self : CrossShardPool_v2) : gmap Z Z :=
  (fun blkItems => default 0 (block_height <$> last blkItems)) <$> validPool self.

(** *** Runs of a pool *)

(** The steps of a pool of shard [id]: its methods, and the shard's best state
    changing the cross-shard heights, which the pool shares by reference. *)
Inductive step (db : CrossShardDb) : CrossShardPool_v2 -> CrossShardPool_v2 -> Prop :=
  | step_add s best blk : step db s (fst (AddCrossShardBlock db best blk s))
  | step_update s best : step db s (UpdatePool db best s)
  | step_remove s since : step db s (removeBlockByHeight since s)
  | step_best s best :
      step db s (mkCrossPool (shardID s) (validPool s) (pendingPool s) best).

Definition reachable (db : CrossShardDb) (id : Z) : CrossShardPool_v2 -> Prop :=
  rtc (step db) (newCrossShardPool id).

Definition valid_of (self : CrossShardPool_v2) (id : Z) : list B := map_get_list (validPool self) id.
Definition pending_of (self : CrossShardPool_v2) (id : Z) : list B :=
  map_get_list (pendingPool self) id.

Definition lane_ok (valid pending : list B) : Prop :=
  asc pending /\ NoDup (heights (valid ++ pending)) /\ (length pending <= 101)%nat.

Definition wf (self : CrossShardPool_v2) : Prop :=
  forall id, lane_ok (valid_of self id) (pending_of self id).

Lemma remove_index_drop h blks : drop (remove_index h blks) blks = drop_while (upto h) blks.
Proof. induction blks as [|b blks IH]; [done|]. simpl. unfold upto at 1. by destruct (_ <=? _). Qed.

Lemma remove_lookup since self id :
  valid_of (removeBlockByHeight since self) id
    = drop_while (upto (map_get since id)) (valid_of self id) /\
  pending_of (removeBlockByHeight since self) id
    = drop_while (upto (map_get since id)) (pending_of self id).
Proof.
  unfold valid_of, pending_of, map_get_list, removeBlockByHeight. simpl.
  rewrite !map_lookup_imap. split; destruct (_ !! id); simpl; by rewrite ?remove_index_drop.
Qed.

Lemma lane_ok_drop f valid pending :
  lane_ok valid pending -> lane_ok (drop_while f valid) (drop_while f pending).
Proof.
  intros (Hasc & Hnd & Hlen). split_and!; [by apply asc_drop_while| |].
  - unfold heights in *. rewrite <- (take_drop_while f valid), <- (take_drop_while f pending) in Hnd.
    rewrite !map_app in *. rewrite <- app_assoc in Hnd.
    apply NoDup_app in Hnd as (_ & _ & Hnd). apply NoDup_app in Hnd as (Hv & Hdis & Hnd).
    apply NoDup_app in Hnd as (_ & _ & Hp). apply NoDup_app.
    split_and!; [done| |done]. intros x Hx Hin.
    apply (Hdis x Hx), elem_of_app. by right.
  - pose proof (drop_while_length f pending). lia.
Qed.

Lemma cross_remove_wf since self : wf self -> wf (removeBlockByHeight since self).
Proof.
  intros Hwf id. destruct (remove_lookup since self id) as [-> ->]. by apply lane_ok_drop.
Qed.

(** In an ascending lane at most the first block has the height waited for. *)
Lemma confirm_loop_asc db from to start blks :
  asc blks ->
  let w := getNextCrossShardHeight db from to start in
  confirm_loop db from to start blks =
    match blks with
    | [] => (0%nat, None)
    | blk :: rest =>
        if w =? block_height blk then (1%nat, if rest is [] then None else Some w)
        else (0%nat, Some w)
    end.
Proof.
  intros Hasc w. destruct Hasc as [|blk rest _ Hgt]; [done|]. simpl. fold w.
  destruct (w =? _) eqn:Hw; [|done]. to_prop.
  destruct Hgt as [|blk' rest Hgt _]; [done|]. simpl. fold w. unfold block_lt in Hgt. by cmp.
Qed.

Lemma drop_while_filter h (pool : list B) :
  asc pool -> drop_while (upto h) pool = filter (fun b => h < block_height b) pool.
Proof.
  induction 1 as [|b pool Hasc IH Hgt]; [done|]. simpl. unfold upto at 1.
  destruct (block_height b <=? h) eqn:Hb; to_prop.
  - rewrite filter_cons_False by lia. done.
  - rewrite filter_cons_True by lia. f_equal. rewrite <- IH. symmetry.
    apply drop_while_none. eapply Forall_impl; [exact Hgt|].
    unfold block_lt, upto. simpl. intros. apply Z.leb_gt. lia.
Qed.

Lemma update_lookup db best self id :
  wf self ->
  let '(self', expected) := updatePool db best self in
  let v := drop_while (upto (map_get best id)) (valid_of self id) in
  let p := drop_while (upto (map_get best id)) (pending_of self id) in
  let waitHeight := getNextCrossShardHeight db id (shardID self) (map_get best id) in
  match p with
  | [] => valid_of self' id = v /\ pending_of self' id = [] /\ expected !! id = None
  | blk :: rest =>
      if waitHeight =? block_height blk then
        valid_of self' id = v ++ [blk] /\ pending_of self' id = rest /\
        expected !! id = (if rest is [] then None else Some waitHeight)
      else
        valid_of self' id = v /\ pending_of self' id = p /\ expected !! id = Some waitHeight
  end.
Proof.
  intros Hwf. unfold updatePool.
  set (self0 := mkCrossPool (shardID self) (validPool self) (pendingPool self) best).
  destruct (remove_lookup best self0 id) as [Hv Hp].
  destruct (lane_ok_drop (upto (map_get best id)) _ _ (Hwf id)) as [Hasc _].
  change (valid_of self0 id) with (valid_of self id) in Hv.
  change (pending_of self0 id) with (pending_of self id) in Hp.
  rewrite <- Hv, <- Hp in *. clear Hv Hp.
  set (self1 := removeBlockByHeight best self0) in *.
  assert (shardID self1 = shardID self) as Hid by done. clearbody self1. rewrite <- Hid. simpl.
  unfold valid_of, pending_of, map_get_list in *. simpl.
  rewrite range_update_lookup, !map_lookup_imap, map_lookup_filter.
  destruct (pendingPool self1 !! id) as [blks|]; [|done]. cbn -[confirm_loop] in *.
  pose proof (confirm_loop_asc db id (shardID self1) (map_get best id) blks Hasc) as Hc.
  cbv zeta in Hc. case_guard as Hpos; cbn -[confirm_loop]; rewrite Hc in *; clear Hc;
    (destruct blks as [|blk rest]; cbn in *; [try lia; done|]);
    destruct (_ =? _); cbn in *; (lia || done).
Qed.

Lemma cross_update_wf db best self : wf self -> wf (UpdatePool db best self).
Proof.
  intros Hwf id. pose proof (update_lookup db best self id Hwf) as H. unfold UpdatePool.
  destruct (updatePool db best self) as [self' expected]. simpl in *.
  pose proof (lane_ok_drop (upto (map_get best id)) _ _ (Hwf id)) as Hok.
  destruct (drop_while _ (pending_of self id)) as [|blk rest].
  - by destruct H as (-> & -> & _).
  - destruct (_ =? _); destruct H as (-> & -> & _); [|done].
    destruct Hok as (Hasc & Hnd & Hlen). split_and!.
    + by inversion Hasc.
    + by rewrite <- app_assoc.
    + simpl in Hlen. lia.
Qed.

Definition after_insert (blk : B) (self : CrossShardPool_v2) : CrossShardPool_v2 :=
  mkCrossPool (shardID self) (validPool self)
    (<[block_shard blk := sort_height (pending_of self (block_shard blk) ++ [blk])]> (pendingPool self))
    (crossShardState self).

Lemma insert_wf blk self :
  wf self ->
  has_height (block_height blk) (valid_of self (block_shard blk)) = false ->
  has_height (block_height blk) (pending_of self (block_shard blk)) = false ->
  (length (pending_of self (block_shard blk)) <= 100)%nat ->
  wf (after_insert blk self).
Proof.
  intros Hwf Hv%has_height_false Hp%has_height_false Hlen id. specialize (Hwf id).
  change (valid_of (after_insert blk self) id) with (valid_of self id).
  unfold pending_of at 1, after_insert, map_get_list. simpl.
  destruct (decide (block_shard blk = id)) as [<-|Hne];
    [|by rewrite lookup_insert_ne].
  rewrite lookup_insert_eq. simpl. destruct Hwf as (Hasc & Hnd & _).
  rewrite sort_height_snoc by done. split_and!.
  - by apply insert_height_asc.
  - unfold heights. rewrite insert_height_perm, <- Permutation_middle. simpl. constructor; [|done].
    rewrite list_elem_of_fmap. intros (b & Heq & [Hb|Hb]%elem_of_app).
    + rewrite Forall_forall in Hv. by apply (Hv b).
    + rewrite Forall_forall in Hp. by apply (Hp b).
  - rewrite insert_height_perm. simpl. lia.
Qed.

(** What lets a block into the pool. *)
Definition admissible (db : CrossShardDb) (blk : B) (self : CrossShardPool_v2) : bool :=
  let id := block_shard blk in
  (blk_to_shard blk =? shardID self) &&
  (map_get (crossShardState self) id <? block_height blk) &&
  negb (has_height (block_height blk) (valid_of self id ++ pending_of self id)) &&
  match FetchCommitteeByEpoch db (blk_epoch blk) with
  | Ok bytes => bool_decide (is_Some (UnmarshalCommittee db bytes))
  | _ => false
  end &&
  (length (pending_of self id) <=? 100)%nat.

Lemma has_height_app h (l1 l2 : list B) :
  has_height h (l1 ++ l2) = has_height h l1 || has_height h l2.
Proof. apply existsb_app. Qed.

Lemma add_cases db best blk self :
  (admissible db blk self = true /\
   has_height (block_height blk) (valid_of self (block_shard blk)) = false /\
   has_height (block_height blk) (pending_of self (block_shard blk)) = false /\
   (length (pending_of self (block_shard blk)) <= 100)%nat /\
   AddCrossShardBlock db best blk self =
     let '(self', expected) := updatePool db best (after_insert blk self) in
     (self', Ok (expected, shardID self'))) \/
  (admissible db blk self = false /\ fst (AddCrossShardBlock db best blk self) = self /\
   is_ok (snd (AddCrossShardBlock db best blk self)) = false).
Proof.
  unfold AddCrossShardBlock, admissible, MAX_PENDING_CROSS_SHARD_IN_POOL.
  fold (valid_of self (block_shard blk)). fold (pending_of self (block_shard blk)).
  fold (after_insert blk self).
  rewrite has_height_app, Z.leb_antisym.
  destruct (_ =? shardID self); [simpl|by right]. destruct (_ <? block_height blk); [simpl|by right].
  destruct (has_height _ (valid_of _ _)); [by right|simpl].
  destruct (has_height _ (pending_of _ _)); [by right|simpl].
  destruct (FetchCommitteeByEpoch _ _) as [bytes| |]; [|by right..].
  destruct (UnmarshalCommittee db bytes); [simpl|by right].
  destruct (100 <? _)%nat eqn:Hcap; simpl.
  - right. apply Nat.ltb_lt in Hcap. rewrite (proj2 (Nat.leb_gt _ _)) by done. done.
  - left. apply Nat.ltb_ge in Hcap. rewrite (proj2 (Nat.leb_le _ _)) by done. done.
Qed.

Lemma cross_reachable_wf db id self : reachable db id self -> wf self.
Proof.
  apply rtc_invariant.
  - intros j. unfold valid_of, pending_of, map_get_list. simpl. rewrite !lookup_empty.
    split_and!; simpl; [constructor|constructor|lia].
  - intros s s' Hwf Hstep. destruct Hstep as [s best blk|s best|s since|s best].
    + destruct (add_cases db best blk s) as [(_ & Hv & Hp & Hlen & ->)|(_ & -> & _)]; [|done].
      pose proof (cross_update_wf db best _ (insert_wf _ _ Hwf Hv Hp Hlen)) as H.
      unfold UpdatePool in H. by destruct (updatePool _ _ _).
    + by apply cross_update_wf.
    + by apply cross_remove_wf.
    + exact Hwf.
Qed.

(** C29. Whatever the order of its steps, a cross-shard pool keeps for every source
    shard an ascending list of at most 101 pending blocks, and never holds two blocks
    of one height. *)
Theorem cross_pool_invariant (db : CrossShardDb) (id s : Z) (self : CrossShardPool_v2) :
  reachable db id self ->
  asc (pending_of self s) /\ NoDup (heights (valid_of self s ++ pending_of self s)) /\
  (length (pending_of self s) <= 101)%nat.
Proof. intros Hwf%cross_reachable_wf. apply Hwf. Qed.

(** One [updatePool] confirms at most one block of each source shard: the first
    pending one, when its height is the next one the beacon recorded after the best
    state; the height waited for does not advance within the call, so with more blocks
    pending it reports as expected the height of the block it has just confirmed. *)
Theorem cross_update_one_block (db : CrossShardDb) (best : gmap Z Z) (id s : Z)
    (self : CrossShardPool_v2) :
  reachable db id self ->
  let '(self', expected) := updatePool db best self in
  let v := drop_while (upto (map_get best s)) (valid_of self s) in
  let p := drop_while (upto (map_get best s)) (pending_of self s) in
  let waitHeight := getNextCrossShardHeight db s (shardID self) (map_get best s) in
  match p with
  | [] => valid_of self' s = v /\ pending_of self' s = [] /\ expected !! s = None
  | blk :: rest =>
      if waitHeight =? block_height blk then
        valid_of self' s = v ++ [blk] /\ pending_of self' s = rest /\
        expected !! s = (if rest is [] then None else Some waitHeight)
      else
        valid_of self' s = v /\ pending_of self' s = p /\ expected !! s = Some waitHeight
  end.
Proof. intros Hwf%cross_reachable_wf. by apply update_lookup. Qed.

(** [AddCrossShardBlock] succeeds exactly when the block is for this shard, is
    above the recorded height, is not in the pool, its epoch's committee is known and
    the lane has room (no signature, validator index or hash matters); otherwise the
    pool is unchanged.  After a success the block is pending or valid unless the best
    state has passed it, and no other block above the best state was lost. *)
Theorem cross_add_spec (db : CrossShardDb) (best : gmap Z Z) (id : Z) (blk : B)
    (self : CrossShardPool_v2) :
  reachable db id self ->
  let '(self', result) := AddCrossShardBlock db best blk self in
  is_ok result = admissible db blk self /\
  (is_ok result = false -> self' = self) /\
  (is_ok result = true -> forall s,
    valid_of self' s ++ pending_of self' s ≡ₚ
      drop_while (upto (map_get best s)) (valid_of self s) ++
      filter (fun b => map_get best s < block_height b)
        ((if block_shard blk =? s then [blk] else []) ++ pending_of self s)).
Proof.
  intros Hwf%cross_reachable_wf.
  destruct (add_cases db best blk self) as [(-> & Hv & Hp & Hlen & ->)|(-> & He & Hn)].
  2: { destruct (AddCrossShardBlock _ _ _ _) as [self' result]. simpl in *.
       split_and!; [done..|congruence]. }
  pose proof (fun s => update_lookup db best _ s (insert_wf _ _ Hwf Hv Hp Hlen)) as Hup.
  destruct (updatePool _ _ _) as [self' expected]. split_and!; [done..|]. intros _ s.
  specialize (Hup s). simpl in Hup.
  assert (valid_of self' s ++ pending_of self' s =
    drop_while (upto (map_get best s)) (valid_of self s) ++
    drop_while (upto (map_get best s)) (pending_of (after_insert blk self) s)) as ->.
  { change (valid_of (after_insert blk self) s) with (valid_of self s) in Hup.
    destruct (drop_while _ (pending_of _ _)) as [|b rest]; [by destruct Hup as (-> & -> & _)|].
    destruct (_ =? _); destruct Hup as (-> & -> & _); [by rewrite <- app_assoc|done]. }
  f_equiv. rewrite drop_while_filter by apply (insert_wf _ _ Hwf Hv Hp Hlen).
  unfold pending_of at 1, after_insert, map_get_list. simpl.
  destruct (decide (block_shard blk = s)) as [<-|Hne].
  - rewrite lookup_insert_eq, Z.eqb_refl. simpl. f_equiv.
    rewrite sort_height_perm by apply Hwf. done.
  - rewrite lookup_insert_ne by done. by rewrite (proj2 (Z.eqb_neq _ _) Hne).
Qed.
End CrossShardPool.

(** *** Concrete pools *)

Section Witnesses.
#[local] Instance Z_height : BlockHeight Z := fun z => z.
#[local] Instance Z_hash : BlockHash Z Z := fun z => z.
#[local] Instance Z_shard : BlockShard Z := fun _ => 1.
#[local] Instance Z_cross : CrossShardBlk Z := {
  blk_to_shard := fun _ => 0; blk_epoch := fun _ => 1; blk_agg_sig := fun _ => "forged"%string;
  blk_R := fun _ => ""%string; blk_validators_idx := fun _ => [] }.

(** The beacon confirmed the cross-shard blocks 5, 8 and 9 of every shard. *)
Definition sample_db : CrossShardDb := {|
  FetchCrossShardNextHeight := fun _ _ h =>
    if h <? 5 then Ok 5 else if h <? 8 then Ok 8 else if h <? 9 then Ok 9 else Err "none"%string;
  FetchCommitteeByEpoch := fun _ => Ok [];
  UnmarshalCommittee := fun _ => Some ∅
|}.

Definition sample_pool (blks : list Z) : CrossShardPool_v2 :=
  foldl (fun p blk => fst (AddCrossShardBlock sample_db ∅ blk p)) (newCrossShardPool 0) blks.

Lemma cross_sample_reachable blks : reachable sample_db 0 (sample_pool blks).
Proof.
  unfold sample_pool. induction blks as [|b blks IH] using rev_ind; [constructor|].
  rewrite foldl_app. simpl. eapply rtc_r; [exact IH|]. apply step_add.
Qed.

(** Three confirmed blocks: only the first one becomes valid. *)
Example sample_heights :
  GetValidBlockHeight (sample_pool [9; 5; 8]) !! 1 = Some [5] /\
  GetPendingBlockHeight (sample_pool [9; 5; 8]) !! 1 = Some [8; 9].
Proof. split; reflexivity. Qed.

Lemma cross_pool_invariant_witness :
  asc (pending_of (sample_pool [9; 5; 8]) 1).
Proof. refine (proj1 (cross_pool_invariant sample_db 0 1 _ _)). apply cross_sample_reachable. Defined.

Lemma cross_update_one_block_witness :
  snd (updatePool sample_db {[1 := 5]} (sample_pool [9; 5; 8])) !! 1 = Some 8 /\
  valid_of (fst (updatePool sample_db {[1 := 5]} (sample_pool [9; 5; 8]))) 1 = [8].
Proof.
  pose proof (cross_update_one_block sample_db {[1 := 5]} 0 1 (sample_pool [9; 5; 8])
    (cross_sample_reachable _)) as H.
  split; [exact (proj2 (proj2 H))|exact (proj1 H)].
Defined.

Lemma cross_add_spec_witness :
  is_ok (snd (AddCrossShardBlock sample_db ∅ 12 (sample_pool [9; 5; 8]))) = true.
Proof.
  pose proof (cross_add_spec sample_db ∅ 0 12 (sample_pool [9; 5; 8]) (cross_sample_reachable _)) as H.
  exact (proj1 H).
Defined.
End Witnesses.
End CrossShardPool.
