(* ===== verification/BeaconState.v ===== *)
(** The beacon chain's best state and its update by a block (src/blockchain/beaconblock.go,
    [BestStateBeacon] of src/blockchain/beaconbeststate.go, [Update] of
    src/blockchain/beaconprocess.go).  The fields of the Go struct are grouped in records by
    what changes them.  What the stability instructions do to the parameters and to the
    [StabilityInfo] is an interface, implemented in Stability.v. *)

From S2P Require Import Prelude GoStr Hash Sha256 Merkle Committee.

#[local] Open Scope string_scope.
#[local] Open Scope list_scope.
#[local] Open Scope Z_scope.

(** [processStabilityInstruction], given the height of the best block, and the other uses
    the best state makes of the [StabilityInfo]. *)
Class StabilityOps (I : Type) : Type := {
  process_stability : Z -> list string -> M (gmap string string * I) unit;
  stability_bytes : I -> bytes;
  empty_stability : I
}.

Module BeaconState.
Import Hashes Merkle Committee.

(** ** Blocks *)

Definition VERSION : Z := 1.

Record BeaconBody := mkBody {
  ShardState_ : gmap Z (list ShardState);
  Instructions : list (list string)
}.

Record BeaconHeader := mkHeader {
  Producer : string;
  Version : Z;
  Height_ : Z;
  Epoch_ : Z;
  Round : Z;
  Timestamp : Z;
  PrevBlockHash : Hash;
  ValidatorsRoot : Hash;
  BeaconCandidateRoot : Hash;
  ShardCandidateRoot : Hash;
  ShardValidatorsRoot : Hash;
  ShardStateHash : Hash;
  InstructionHash : Hash
}.

Record BeaconBlock := mkBlock {
  AggregatedSig : string;
  R : string;
  ValidatorsIdx : list (list Z);
  ProducerSig : string;
  Body : BeaconBody;
  Header : BeaconHeader
}.

Definition Header_toString (h : BeaconHeader) : string :=
  Producer h +:+ Itoa (Version h) +:+ Itoa (Height_ h) +:+ Itoa (Epoch_ h) +:+ Itoa (Round h) +:+
  Itoa (Timestamp h) +:+ Hashes.String (PrevBlockHash h) +:+ Hashes.String (ValidatorsRoot h) +:+
  Hashes.String (BeaconCandidateRoot h) +:+ Hashes.String (ShardCandidateRoot h) +:+
  Hashes.String (ShardValidatorsRoot h) +:+ Hashes.String (ShardStateHash h) +:+
  Hashes.String (InstructionHash h).

(** ** The best state *)

(** What the last block sets. *)
Record Chain := mkChain {
  BestBlockHash : Hash;
  PrevBestBlockHash : Hash;
  BestBlock : option BeaconBlock;
  BestShardHash : gmap Z Hash;
  BestShardHeight : gmap Z Z;
  Epoch : Z;
  BeaconHeight : Z;
  BeaconProposerIdx : Z
}.

Record Committees := mkCommittees {
  BeaconCommittee : list string;
  BeaconPendingValidator : list string;
  ShardCommittee : gmap Z (list string);
  ShardPendingValidator : gmap Z (list string)
}.

Record Candidates := mkCandidates {
  CandidateShardWaitingForCurrentRandom : list string;
  CandidateBeaconWaitingForCurrentRandom : list string;
  CandidateShardWaitingForNextRandom : list string;
  CandidateBeaconWaitingForNextRandom : list string
}.

Record Randoms := mkRandoms {
  CurrentRandomNumber : Z;
  CurrentRandomTimeStamp : Z;
  IsGetRandomNumber : bool
}.

(** Set from the network's parameters. *)
Record Sizes := mkSizes {
  BeaconCommitteeSize : Z;
  ShardCommitteeSize : Z;
  ActiveShards : Z
}.

Record BestStateBeacon (I : Type) := mkBestState {
  chain : Chain;
  committees : Committees;
  candidates : Candidates;
  randoms : Randoms;
  sizes : Sizes;
  Params : gmap string string;
  StabilityInfo : I;
  ShardHandle : gmap Z bool;
  LastCrossShardState : gmap Z (gmap Z Z)
}.
Arguments mkBestState {_}.
Arguments chain {_}.
Arguments committees {_}.
Arguments candidates {_}.
Arguments randoms {_}.
Arguments sizes {_}.
Arguments Params {_}.
Arguments StabilityInfo {_}.
Arguments ShardHandle {_}.
Arguments LastCrossShardState {_}.

#[export] Instance shard_state_eq_dec : EqDecision ShardState.
Proof. solve_decision. Defined.
#[export] Instance beacon_body_eq_dec : EqDecision BeaconBody.
Proof. solve_decision. Defined.
#[export] Instance beacon_header_eq_dec : EqDecision BeaconHeader.
Proof. solve_decision. Defined.
#[export] Instance beacon_block_eq_dec : EqDecision BeaconBlock.
Proof. solve_decision. Defined.
#[export] Instance chain_eq_dec : EqDecision Chain.
Proof. solve_decision. Defined.
#[export] Instance committees_eq_dec : EqDecision Committees.
Proof. solve_decision. Defined.
#[export] Instance candidates_eq_dec : EqDecision Candidates.
Proof. solve_decision. Defined.
#[export] Instance randoms_eq_dec : EqDecision Randoms.
Proof. solve_decision. Defined.
#[export] Instance sizes_eq_dec : EqDecision Sizes.
Proof. solve_decision. Defined.
#[export] Instance best_state_eq_dec {I : Type} `{EqDecision I} : EqDecision (BestStateBeacon I).
Proof. solve_decision. Defined.

(** What the instructions of a block collect. *)
Record Collected := mkCollected {
  newBeaconCandidate : list string;
  newShardCandidate : list string;
  randomFlag : bool
}.

Section State.
Context {sha : Sha256} {I : Type} {stab : StabilityOps I}.

Definition Header_Hash (h : BeaconHeader) : Hash := DoubleHashH (bytes_of (Header_toString h)).
Definition Block_Hash (b : BeaconBlock) : Hash := Header_Hash (Header b).

Definition State : Type := BestStateBeacon I.

Definition set_chain (c : Chain) (s : State) : State :=
  mkBestState c (committees s) (candidates s) (randoms s) (sizes s) (Params s) (StabilityInfo s)
    (ShardHandle s) (LastCrossShardState s).
Definition set_committees (c : Committees) (s : State) : State :=
  mkBestState (chain s) c (candidates s) (randoms s) (sizes s) (Params s) (StabilityInfo s)
    (ShardHandle s) (LastCrossShardState s).
Definition set_candidates (c : Candidates) (s : State) : State :=
  mkBestState (chain s) (committees s) c (randoms s) (sizes s) (Params s) (StabilityInfo s)
    (ShardHandle s) (LastCrossShardState s).
Definition set_randoms (r : Randoms) (s : State) : State :=
  mkBestState (chain s) (committees s) (candidates s) r (sizes s) (Params s) (StabilityInfo s)
    (ShardHandle s) (LastCrossShardState s).
Definition set_params (p : gmap string string) (s : State) : State :=
  mkBestState (chain s) (committees s) (candidates s) (randoms s) (sizes s) p (StabilityInfo s)
    (ShardHandle s) (LastCrossShardState s).
Definition set_stability (p : gmap string string) (i : I) (s : State) : State :=
  mkBestState (chain s) (committees s) (candidates s) (randoms s) (sizes s) p i
    (ShardHandle s) (LastCrossShardState s).
Definition set_cross (l : gmap Z (gmap Z Z)) (s : State) : State :=
  mkBestState (chain s) (committees s) (candidates s) (randoms s) (sizes s) (Params s)
    (StabilityInfo s) (ShardHandle s) l.

Definition empty_chain : Chain := mkChain zero_hash zero_hash None ∅ ∅ 0 0 0.

(** [InitBestStateBeacon] on a singleton never used before (its other fields are zero). *)
Definition InitBestStateBeacon (netparam : Sizes) : State :=
  mkBestState empty_chain (mkCommittees [] [] ∅ ∅) (mkCandidates [] [] [] []) (mkRandoms (-1) 0 false)
    netparam ∅ empty_stability ∅ ∅.

(** [BestStateBeacon{}]. *)
Definition zero_state : State :=
  mkBestState empty_chain (mkCommittees [] [] ∅ ∅) (mkCandidates [] [] [] []) (mkRandoms 0 0 false)
    (mkSizes 0 0 0) ∅ empty_stability ∅ ∅.

(** ** Update: the block, and its shard states *)

(** [shardStates[len(shardStates)-1]] panics on an empty list. *)
Definition last_states (m : gmap Z (list ShardState)) : outcome (gmap Z ShardState) :=
  if decide (map_Forall (fun _ l => l <> []) m)
  then Ok (omap (fun l => last l) m) else Panic.

Definition update_chain (newBlock : BeaconBlock) : M State unit :=
  s ← get;
  let c := chain s in
  let proposer := if Height_ (Header newBlock) =? 1 then 0
                  else IndexOfStr (Producer (Header newBlock)) (BeaconCommittee (committees s)) in
  let c := mkChain (Block_Hash newBlock) (BestBlockHash c) (Some newBlock) (BestShardHash c)
             (BestShardHeight c) (Epoch_ (Header newBlock)) (Height_ (Header newBlock)) proposer in
  _ ← put (set_chain c s);
  lasts ← lift (last_states (ShardState_ (Body newBlock)));
  modify (fun s =>
    set_chain (mkChain (BestBlockHash c) (PrevBestBlockHash c) (BestBlock c)
      ((StateHash <$> lasts) ∪ BestShardHash c) ((Height <$> lasts) ∪ BestShardHeight c)
      (Epoch c) (BeaconHeight c) (BeaconProposerIdx c)) s).

(** ** Update: the instructions *)

Definition idx (l : list string) (n : nat) : M State string :=
  match l !! n with None => gopanic | Some x => mret x end.

(** [v, err = RemoveValidator(...)]: the list, assigned in any case, and the error. *)
Definition remove (validators removed : list string) (assign : list string -> Committees -> Committees) :
    M State unit :=
  r ← lift (RemoveValidator validators removed);
  _ ← modify (fun s => set_committees (assign (fst r) (committees s)) s);
  match snd r with None => mret tt | Some _ => throw "Unexpected error" end.

Definition set_beacon_committee (l : list string) (c : Committees) : Committees :=
  mkCommittees l (BeaconPendingValidator c) (ShardCommittee c) (ShardPendingValidator c).
Definition set_beacon_pending (l : list string) (c : Committees) : Committees :=
  mkCommittees (BeaconCommittee c) l (ShardCommittee c) (ShardPendingValidator c).
Definition set_shard_committee (k : Z) (l : list string) (c : Committees) : Committees :=
  mkCommittees (BeaconCommittee c) (BeaconPendingValidator c) (<[k := l]> (ShardCommittee c))
    (ShardPendingValidator c).
Definition set_shard_pending (k : Z) (l : list string) (c : Committees) : Committees :=
  mkCommittees (BeaconCommittee c) (BeaconPendingValidator c) (ShardCommittee c)
    (<[k := l]> (ShardPendingValidator c)).

Definition swap_shard (shardID : Z) (l1 l2 : string) : M State unit :=
  _ ← (if decide (l1 = "") then mret tt else
         s ← get;
         _ ← remove (map_get_list (ShardPendingValidator (committees s)) shardID) (Split l1)
               (set_shard_pending shardID);
         modify (fun s => set_committees (set_shard_committee shardID
           (map_get_list (ShardCommittee (committees s)) shardID ++ Split l1) (committees s)) s));
  if decide (l2 = "") then mret tt else
    s ← get;
    remove (map_get_list (ShardCommittee (committees s)) shardID) (Split l2)
      (set_shard_committee shardID).

Definition swap_beacon (l1 l2 : string) : M State unit :=
  _ ← (if decide (l1 = "") then mret tt else
         s ← get;
         _ ← remove (BeaconPendingValidator (committees s)) (Split l1) set_beacon_pending;
         modify (fun s => set_committees (set_beacon_committee
           (BeaconCommittee (committees s) ++ Split l1) (committees s)) s));
  if decide (l2 = "") then mret tt else
    s ← get;
    remove (BeaconCommittee (committees s)) (Split l2) set_beacon_committee.

Definition swap_instruction (l : list string) : M State unit :=
  l1 ← idx l 1; l2 ← idx l 2; l3 ← idx l 3;
  if decide (l3 = "shard") then
    l4 ← idx l 4;
    match Atoi l4 with
    | Ok temp => swap_shard (u8 temp) l1 l2
    | _ => throw "Unexpected error"
    end
  else if decide (l3 = "beacon") then swap_beacon l1 l2
  else mret tt.

(** The height of the best block; a nil block is not met after the first update. *)
Definition best_height (s : State) : Z :=
  match BestBlock (chain s) with Some b => Height_ (Header b) | None => 0 end.

(** The error of a stability instruction is only printed. *)
Definition stability_step (l : list string) : M State unit := fun s =>
  match process_stability (best_height s) l (Params s, StabilityInfo s) with
  | ((p, i), Panic) => (set_stability p i s, Panic)
  | ((p, i), _) => (set_stability p i s, Ok tt)
  end.

Definition instruction_step (acc : Collected) (l : list string) : M State Collected :=
  _ ← stability_step l;
  l0 ← idx l 0;
  if decide (l0 = "set") then
    l1 ← idx l 1; l2 ← idx l 2;
    _ ← modify (fun s => set_params (<[l1 := l2]> (Params s)) s);
    mret acc
  else if decide (l0 = "del") then
    l1 ← idx l 1;
    _ ← modify (fun s => set_params (delete l1 (Params s)) s);
    mret acc
  else if decide (l0 = "swap") then
    _ ← swap_instruction l; mret acc
  else if decide (l0 = "random") then
    l1 ← idx l 1;
    match Atoi l1 with
    | Ok temp =>
        _ ← modify (fun s => set_randoms (mkRandoms temp (CurrentRandomTimeStamp (randoms s))
                               (IsGetRandomNumber (randoms s))) s);
        mret (mkCollected (newBeaconCandidate acc) (newShardCandidate acc) true)
    | _ => throw "Unexpected error"
    end
  else if decide (l0 = "stake") then
    l2 ← idx l 2;
    if decide (l2 = "beacon") then
      l1 ← idx l 1;
      mret (mkCollected (newBeaconCandidate acc ++ Split l1) (newShardCandidate acc) (randomFlag acc))
    else if decide (l2 = "shard") then
      l1 ← idx l 1;
      mret (mkCollected (newBeaconCandidate acc) (newShardCandidate acc ++ Split l1) (randomFlag acc))
    else mret acc
  else mret acc.

Fixpoint instruction_loop (acc : Collected) (ls : list (list string)) : M State Collected :=
  match ls with
  | [] => mret acc
  | l :: rest => acc ← instruction_step acc l; instruction_loop acc rest
  end.

(** ** Update: the candidates *)

(** [l[i:j]], the capacity of a slice taken to be its length. *)
Definition slice {A} (i j : Z) (l : list A) : outcome (list A) :=
  if (0 <=? i) && (i <=? j) && (j <=? Z.of_nat (length l))
  then Ok (take (Z.to_nat (j - i)) (drop (Z.to_nat i) l)) else Panic.

(** [make([]string, n)], then [copy]. *)
Definition copy_into (n : Z) (src : list string) : outcome (list string) :=
  if n <? 0 then Panic
  else Ok (take (Z.to_nat n) src ++ replicate (Z.to_nat n - length src) "").

Definition genesis_shard (newShard : list string) (shardID : nat) : M State unit :=
  s ← get;
  let k := Z.of_nat shardID in
  let size := ShardCommitteeSize (sizes s) in
  l ← lift (slice (k * size) ((k + 1) * size) newShard);
  put (set_committees (set_shard_committee (u8 k)
         (map_get_list (ShardCommittee (committees s)) (u8 k) ++ l) (committees s)) s).

Definition set_epoch (e : Z) (s : State) : State :=
  let c := chain s in
  set_chain (mkChain (BestBlockHash c) (PrevBestBlockHash c) (BestBlock c) (BestShardHash c)
               (BestShardHeight c) e (BeaconHeight c) (BeaconProposerIdx c)) s.

Definition update_candidates (acc : Collected) : M State unit :=
  s ← get;
  if BeaconHeight (chain s) =? 1 then
    let n := BeaconCommitteeSize (sizes s) in
    first ← lift (slice 0 n (newBeaconCandidate acc));
    committee ← lift (copy_into n first);
    _ ← put (set_committees (set_beacon_committee committee (committees s)) s);
    _ ← mfor (genesis_shard (newShardCandidate acc)) (seq 0 (Z.to_nat (ActiveShards (sizes s))));
    modify (set_epoch 1)
  else
    let c := candidates s in
    put (set_candidates (mkCandidates (CandidateShardWaitingForCurrentRandom c)
           (CandidateBeaconWaitingForCurrentRandom c)
           (CandidateShardWaitingForNextRandom c ++ newShardCandidate acc)
           (CandidateBeaconWaitingForNextRandom c ++ newBeaconCandidate acc)) s).

(** ** Update: the phases of an epoch *)

Definition snapshot_candidates (timestamp : Z) : M State unit :=
  modify (fun s =>
    let c := candidates s in let r := randoms s in
    set_randoms (mkRandoms (CurrentRandomNumber r) timestamp (IsGetRandomNumber r))
      (set_candidates (mkCandidates (CandidateShardWaitingForNextRandom c)
         (CandidateBeaconWaitingForNextRandom c) [] []) s)).

Definition set_got_random (b : bool) (s : State) : State :=
  set_randoms (mkRandoms (CurrentRandomNumber (randoms s)) (CurrentRandomTimeStamp (randoms s)) b) s.

Definition assign_candidates (order : list string -> list string) : M State unit :=
  _ ← modify (set_got_random true);
  s ← get;
  let c := candidates s in let cs := committees s in
  let rand := CurrentRandomNumber (randoms s) in
  pending ← lift (AssignValidatorShard (ShardPendingValidator cs)
                    (CandidateShardWaitingForCurrentRandom c) rand (ActiveShards (sizes s)));
  newPending ← lift (ShuffleCandidate order (CandidateBeaconWaitingForCurrentRandom c) rand);
  put (set_candidates (mkCandidates [] [] (CandidateShardWaitingForNextRandom c)
                         (CandidateBeaconWaitingForNextRandom c))
      (set_committees (mkCommittees (BeaconCommittee cs) (BeaconPendingValidator cs ++ newPending)
                         (ShardCommittee cs) pending) s)).

(** The branch at the end of an epoch. *)
Definition swap_at_end : M State unit :=
  s ← get;
  let cs := committees s in
  r ← lift (SwapValidator (BeaconPendingValidator cs) (BeaconCommittee cs)
              (BeaconCommitteeSize (sizes s)) OFFSET);
  _ ← put (set_committees (mkCommittees (sw_current r) (sw_pending r) (ShardCommittee cs)
             (ShardPendingValidator cs)) s);
  match sw_error r with None => mret tt | Some _ => throw "Unexpected error" end.

Definition epoch_phase (order : list string -> list string) (timestamp : Z) (random : bool) :
    M State unit :=
  s ← get;
  let h := BeaconHeight (chain s) in
  if (h mod EPOCH =? 1) && negb (h =? 1) then modify (set_got_random false)
  else if h mod EPOCH <? RANDOM_TIME then mret tt
  else if RANDOM_TIME <=? h mod EPOCH then
    _ ← (if h mod EPOCH =? RANDOM_TIME then snapshot_candidates timestamp else mret tt);
    if random then assign_candidates order else mret tt
  else if h mod EPOCH =? 0 then swap_at_end
  else mret tt.

(** [order] is the order in which [ShuffleCandidate] happens to visit its map. *)
Definition Update (order : list string -> list string) (newBlock : BeaconBlock) : M State unit :=
  _ ← update_chain newBlock;
  acc ← instruction_loop (mkCollected [] [] false) (Instructions (Body newBlock));
  _ ← update_candidates acc;
  epoch_phase order (Timestamp (Header newBlock)) (randomFlag acc).

(** ** Queries *)

(** [visit] is the order of Go's [range] over the map. *)
Definition GetCurrentShard (visit : gmap Z bool -> list (Z * bool)) (s : State) : Z :=
  match List.find snd (visit (ShardHandle s)) with Some (k, _) => k | None => 0 end.

(** The first shard with the key in one of its lists. *)
Fixpoint find_shard (pubkey : string) (l : list (Z * list string)) : option Z :=
  match l with
  | [] => None
  | (shardID, pubkeyArr) :: rest =>
      if -1 <? IndexOfStr pubkey pubkeyArr then Some shardID else find_shard pubkey rest
  end.

Definition GetPubkeyRole (visit : gmap Z (list string) -> list (Z * list string)) (pubkey : string)
    (proposerOffset : Z) (s : State) : string * Z :=
  let cs := committees s in
  match find_shard pubkey (visit (ShardPendingValidator cs)) with
  | Some shardID => ("shard", shardID)
  | None =>
      match find_shard pubkey (visit (ShardCommittee cs)) with
      | Some shardID => ("shard", shardID)
      | None =>
          let found := IndexOfStr pubkey (BeaconCommittee cs) in
          if -1 <? found then
            let tmpID := Z.rem (BeaconProposerIdx (chain s) + proposerOffset + 1)
                           (Z.of_nat (length (BeaconCommittee cs))) in
            if found =? tmpID then ("proposer", 0) else ("validator", 0)
          else if -1 <? IndexOfStr pubkey (BeaconPendingValidator cs) then ("pending", 0)
          else ("", 0)
      end
  end.

Definition GetValidStakers (tempStaker : list string) (s : State) : list string :=
  let cs := committees s in let c := candidates s in
  let tempStaker := foldl (fun st l => GetValidStaker l st) tempStaker (map_to_list (ShardCommittee cs)).*2 in
  let tempStaker := foldl (fun st l => GetValidStaker l st) tempStaker
                      (map_to_list (ShardPendingValidator cs)).*2 in
  foldl (fun st l => GetValidStaker l st) tempStaker
    [BeaconCommittee cs; BeaconPendingValidator cs; CandidateBeaconWaitingForCurrentRandom c;
     CandidateBeaconWaitingForNextRandom c; CandidateShardWaitingForCurrentRandom c;
     CandidateShardWaitingForNextRandom c; CandidateShardWaitingForNextRandom c].

Definition sorted_params (m : gmap string string) : list string :=
  omap (fun k => m !! k) (merge_sort (fun a b => Is_true (string_leb a b)) (map_to_list m).*1).

(** The hash of the best state: the code after its first [return] is dead, so that the
    shard handles, the sizes and the cross-shard state are not part of it. *)
Definition State_Hash (s : State) : outcome Hash :=
  let c := chain s in let cs := committees s in let cd := candidates s in let r := randoms s in
  match BestBlock c with
  | None => Panic
  | Some block =>
      Ok (DoubleHashH (
        BestBlockHash c ++ PrevBestBlockHash c ++ Block_Hash block ++ PrevBlockHash (Header block) ++
        concat (sorted_values (BestShardHash c)) ++ map u8 (sorted_values (BestShardHeight c)) ++
        le_bytes 8 (Epoch c) ++ le_bytes 8 (BeaconHeight c) ++ bytes_of (Itoa (BeaconProposerIdx c)) ++
        concat_bytes (BeaconCommittee cs) ++ concat_bytes (BeaconPendingValidator cs) ++
        concat_bytes (CandidateBeaconWaitingForCurrentRandom cd) ++
        concat_bytes (CandidateBeaconWaitingForNextRandom cd) ++
        concat_bytes (CandidateShardWaitingForCurrentRandom cd) ++
        concat_bytes (CandidateShardWaitingForNextRandom cd) ++
        concat_bytes (concat (sorted_values (ShardCommittee cs))) ++
        concat_bytes (concat (sorted_values (ShardPendingValidator cs))) ++
        le_bytes 8 (u64 (CurrentRandomNumber r)) ++ le_bytes 8 (u64 (CurrentRandomTimeStamp r)) ++
        bytes_of (if IsGetRandomNumber r then "true" else "false") ++
        concat_bytes (sorted_params (Params s)) ++ stability_bytes (StabilityInfo s)))
  end.

(** ** Swapping *)

Definition plain_key (k : string) : Prop := no_comma k = true /\ k <> "".

Lemma join_plain k : Join [k] = k.
Proof. done. Qed.

Lemma split_plain k : plain_key k -> Split k = [k].
Proof. intros [H _]. by apply split_word. Qed.

Lemma remove_head v rest assign (s : State) :
  remove (v :: rest) [v] assign s = (set_committees (assign rest (committees s)) s, Ok tt).
Proof. unfold remove. by rewrite remove_one. Qed.

(** C22. The swap instruction a shard makes of its pending validators and committee, when
    the beacon processes it, changes the beacon's lists of that shard exactly as the
    shard changed its own. *)
Theorem swap_instruction_agrees (s : State) (size shardID : Z) (inst pending current : list string) :
  0 <= size -> 0 <= shardID < 256 ->
  Forall plain_key (map_get_list (ShardPendingValidator (committees s)) shardID) ->
  Forall plain_key (map_get_list (ShardCommittee (committees s)) shardID) ->
  CreateSwapAction (map_get_list (ShardPendingValidator (committees s)) shardID)
    (map_get_list (ShardCommittee (committees s)) shardID) size shardID = Ok (inst, pending, current) ->
  exists s', swap_instruction inst s = (s', Ok tt) /\
    map_get_list (ShardPendingValidator (committees s')) shardID = pending /\
    map_get_list (ShardCommittee (committees s')) shardID = current /\
    (forall k, k <> shardID ->
       map_get_list (ShardPendingValidator (committees s')) k =
         map_get_list (ShardPendingValidator (committees s)) k /\
       map_get_list (ShardCommittee (committees s')) k =
         map_get_list (ShardCommittee (committees s)) k) /\
    BeaconCommittee (committees s') = BeaconCommittee (committees s) /\
    BeaconPendingValidator (committees s') = BeaconPendingValidator (committees s).
Proof.
  intros Hsize Hid Hp Hc Hswap. unfold CreateSwapAction, OFFSET in Hswap.
  rewrite swap_one in Hswap by done.
  destruct (map_get_list (ShardPendingValidator (committees s)) shardID) as [|v rest] eqn:Hpend; [done|].
  destruct (size <? 1) eqn:H1; [done|]. to_prop.
  apply Forall_cons in Hp as [Hv _]. pose proof (proj2 Hv) as Hv0.
  assert (Atoi (Itoa shardID) = Ok shardID) as Hatoi by (apply Atoi_Itoa; unfold in_i64; lia).
  assert (u8 shardID = shardID) as Hu8 by (apply u8_id; done).
  set (cur := map_get_list (ShardCommittee (committees s)) shardID) in *.
  set (s1 := set_committees (set_shard_committee shardID (cur ++ [v])
                (set_shard_pending shardID rest (committees s))) s).
  assert (forall (l2 : string), swap_shard shardID v l2 s =
    (if decide (l2 = "") then mret tt
     else remove (cur ++ [v]) (Split l2) (set_shard_committee shardID)) s1) as Hstep.
  { intros l2. unfold swap_shard. destruct (decide (v = "")) as [|_]; [done|].
    unfold mbind, M_bind, get. rewrite Hpend, split_plain by done. rewrite remove_head.
    cbn [modify set_committees committees ShardCommittee set_shard_pending]. fold cur.
    unfold s1. cbn. destruct (decide (l2 = "")); [done|].
    cbn. rewrite map_get_list_insert, decide_True by done. done. }
  assert (forall l2, swap_instruction ["swap"; v; l2; "shard"; Itoa shardID] s = swap_shard shardID v l2 s) as Hinst.
  { intros l2. unfold swap_instruction, idx. cbn -[Itoa Atoi]. mrun. cbn -[Itoa Atoi]. by rewrite Hatoi, Hu8. }
  destruct (Z.of_nat (length cur) <? size) eqn:Hroom; to_prop.
  - cbn in Hswap. injection Hswap as <- <- <-. rewrite Hinst, Hstep. exists s1. split; [done|].
    unfold s1. cbn. rewrite !map_get_list_insert, !decide_True by done.
    repeat split; try done; by rewrite map_get_list_insert, decide_False.
  - destruct (size <? Z.of_nat (length cur)) eqn:Hbig; [done|]. to_prop.
    destruct cur as [|c cs] eqn:Hcur; [cbn in *; lia|]. apply Forall_cons in Hc as [Hcp _].
    cbn in Hswap. injection Hswap as <- <- <-. rewrite Hinst, Hstep.
    destruct (decide (c = "")) as [|_]; [by destruct Hcp|]. rewrite split_plain by done. cbn [app].
    rewrite remove_head. eexists. split; [done|]. unfold s1. cbn.
    rewrite !map_get_list_insert, !decide_True by done.
    repeat split; try done; by rewrite !map_get_list_insert, !decide_False.
Qed.

(** ** What the steps leave alone *)

Lemma remove_ok validators removed assign (s s' : State) :
  remove validators removed assign s = (s', Ok tt) ->
  exists l, s' = set_committees (assign l (committees s)) s.
Proof.
  unfold remove. intros H. apply M_bind_ok in H as (s1 & r & [= <- _] & H).
  apply M_bind_ok in H as (s2 & [] & [= <-] & H). destruct (snd r); [done|]. injection H as <-.
  by eexists.
Qed.

Lemma swap_shard_ok shardID l1 l2 (s s' : State) :
  swap_shard shardID l1 l2 s = (s', Ok tt) ->
  exists sc sp, s' = set_committees (mkCommittees (BeaconCommittee (committees s))
                       (BeaconPendingValidator (committees s)) sc sp) s.
Proof.
  unfold swap_shard. intros H. apply M_bind_ok in H as (s1 & [] & H1 & H2).
  assert (exists sc sp, s1 = set_committees (mkCommittees (BeaconCommittee (committees s))
            (BeaconPendingValidator (committees s)) sc sp) s) as (sc & sp & ->).
  { destruct (decide (l1 = "")).
    - injection H1 as <-. destruct s as [? [] ???????]. by do 2 eexists.
    - apply M_bind_ok in H1 as (? & ? & [= <- <-] & H1).
      apply M_bind_ok in H1 as (? & [] & [l ->]%remove_ok & [= <-]). by do 2 eexists. }
  destruct (decide (l2 = "")).
  - injection H2 as <-. by do 2 eexists.
  - apply M_bind_ok in H2 as (? & ? & [= <- <-] & [l ->]%remove_ok). by do 2 eexists.
Qed.

Lemma swap_beacon_ok l1 l2 (s s' : State) :
  swap_beacon l1 l2 s = (s', Ok tt) -> exists cs, s' = set_committees cs s.
Proof.
  unfold swap_beacon. intros H. apply M_bind_ok in H as (s1 & [] & H1 & H2).
  assert (exists cs, s1 = set_committees cs s) as [cs ->].
  { destruct (decide (l1 = "")).
    - injection H1 as <-. exists (committees s). by destruct s.
    - apply M_bind_ok in H1 as (? & ? & [= <- <-] & H1).
      apply M_bind_ok in H1 as (? & [] & [l ->]%remove_ok & [= <-]). by eexists. }
  destruct (decide (l2 = "")).
  - injection H2 as <-. by eexists.
  - apply M_bind_ok in H2 as (? & ? & [= <- <-] & [l ->]%remove_ok). by eexists.
Qed.

Lemma idx_ok l n (s s' : State) x : idx l n s = (s', Ok x) -> s' = s /\ l !! n = Some x.
Proof. unfold idx. destruct (l !! n); by intros [= <- <-]. Qed.

(** Only the committees change, and the beacon's only by a beacon swap. *)
Lemma swap_instruction_ok l (s s' : State) :
  swap_instruction l s = (s', Ok tt) ->
  exists cs, s' = set_committees cs s /\
    (l !! 3%nat <> Some "beacon" ->
     BeaconCommittee cs = BeaconCommittee (committees s) /\
     BeaconPendingValidator cs = BeaconPendingValidator (committees s)).
Proof.
  unfold swap_instruction. intros H.
  apply M_bind_ok in H as (? & l1 & [-> _]%idx_ok & H).
  apply M_bind_ok in H as (? & l2 & [-> _]%idx_ok & H).
  apply M_bind_ok in H as (? & l3 & [-> H3]%idx_ok & H).
  destruct (decide (l3 = "shard")) as [->|].
  - apply M_bind_ok in H as (? & l4 & [-> _]%idx_ok & H).
    destruct (Atoi l4); [|done..]. apply swap_shard_ok in H as (sc & sp & ->).
    eexists; split; [reflexivity|]. done.
  - destruct (decide (l3 = "beacon")) as [->|].
    + apply swap_beacon_ok in H as [cs ->]. exists cs. split; [done|]. congruence.
    + injection H as <-. exists (committees s). split; [by destruct s|done].
Qed.

Lemma stability_step_ok l (s s' : State) :
  stability_step l s = (s', Ok tt) -> exists p i, s' = set_stability p i s.
Proof.
  unfold stability_step. destruct (process_stability _ _ _) as [[p i] [| |]]; intros [= <-]; by do 2 eexists.
Qed.

(** What an instruction stakes for a role, and whether it brings a random number. *)
Definition stake_of (role : string) (l : list string) : list string :=
  if decide (l !! 0%nat = Some "stake" /\ l !! 2%nat = Some role)
  then Split (default "" (l !! 1%nat)) else [].
Definition is_random (l : list string) : bool := bool_decide (l !! 0%nat = Some "random").
Definition stakes (role : string) (ls : list (list string)) : list string :=
  concat (map (stake_of role) ls).
Definition has_random (ls : list (list string)) : bool := existsb is_random ls.
Definition swaps_beacon (l : list string) : Prop :=
  l !! 0%nat = Some "swap" /\ l !! 3%nat = Some "beacon".

(** The chain, the candidates and the sizes are not touched; the flag of the random
    number stays. *)
Record step_frame (s s' : State) : Prop := {
  frame_chain : chain s' = chain s;
  frame_candidates : candidates s' = candidates s;
  frame_sizes : sizes s' = sizes s;
  frame_got : IsGetRandomNumber (randoms s') = IsGetRandomNumber (randoms s);
  frame_time : CurrentRandomTimeStamp (randoms s') = CurrentRandomTimeStamp (randoms s);
  frame_cross : LastCrossShardState s' = LastCrossShardState s
}.

Lemma step_frame_refl s : step_frame s s.
Proof. by split. Qed.

Lemma step_frame_trans s1 s2 s3 : step_frame s1 s2 -> step_frame s2 s3 -> step_frame s1 s3.
Proof. intros [] []. split; congruence. Qed.

Definition beacon_lists_kept (s s' : State) : Prop :=
  BeaconCommittee (committees s') = BeaconCommittee (committees s) /\
  BeaconPendingValidator (committees s') = BeaconPendingValidator (committees s).

Lemma instruction_step_ok acc l (s s' : State) acc' :
  instruction_step acc l s = (s', Ok acc') ->
  acc' = mkCollected (newBeaconCandidate acc ++ stake_of "beacon" l)
           (newShardCandidate acc ++ stake_of "shard" l) (randomFlag acc || is_random l) /\
  step_frame s s' /\ (~ swaps_beacon l -> beacon_lists_kept s s').
Proof.
  unfold instruction_step. intros H.
  apply M_bind_ok in H as (s1 & [] & (p & i & ->)%stability_step_ok & H).
  apply M_bind_ok in H as (? & l0 & [-> H0]%idx_ok & H).
  unfold stake_of, is_random, swaps_beacon. rewrite H0.
  destruct (decide (l0 = "set")) as [->|].
  { apply M_bind_ok in H as (? & l1 & [-> _]%idx_ok & H).
    apply M_bind_ok in H as (? & l2 & [-> _]%idx_ok & H). injection H as <- <-.
    rewrite !decide_False by (intros [[=] _]). cbn. rewrite !app_nil_r, orb_false_r.
    split; [by destruct acc|]. by repeat split. }
  destruct (decide (l0 = "del")) as [->|].
  { apply M_bind_ok in H as (? & l1 & [-> _]%idx_ok & H). injection H as <- <-.
    rewrite !decide_False by (intros [[=] _]). cbn. rewrite !app_nil_r, orb_false_r.
    split; [by destruct acc|]. by repeat split. }
  destruct (decide (l0 = "swap")) as [->|].
  { apply M_bind_ok in H as (? & [] & (cs & -> & Hcs)%swap_instruction_ok & [= <- <-]).
    rewrite !decide_False by (intros [[=] _]). cbn. rewrite !app_nil_r, orb_false_r.
    split; [by destruct acc|]. split; [by split|]. intros Hs. apply Hcs. intros H3. by apply Hs. }
  destruct (decide (l0 = "random")) as [->|].
  { apply M_bind_ok in H as (? & l1 & [-> _]%idx_ok & H). destruct (Atoi l1); [|done..].
    injection H as <- <-. rewrite !decide_False by (intros [[=] _]). cbn.
    rewrite !app_nil_r, orb_true_r. split; [done|]. by repeat split. }
  rewrite (bool_decide_eq_false_2 (Some l0 = Some "random")), orb_false_r by congruence.
  destruct (decide (l0 = "stake")) as [->|].
  - apply M_bind_ok in H as (? & l2 & [-> H2]%idx_ok & H). rewrite H2.
    destruct (decide (l2 = "beacon")) as [->|].
    { apply M_bind_ok in H as (? & l1 & [-> H1]%idx_ok & [= <- <-]). rewrite H1.
      rewrite decide_True, decide_False by (done || intros [_ [=]]). cbn. rewrite app_nil_r.
      split; [done|]. by repeat split. }
    rewrite (decide_False (P := Some "stake" = Some "stake" /\ Some l2 = Some "beacon")) by (intros [_ [=]]; done).
    destruct (decide (l2 = "shard")) as [->|].
    { apply M_bind_ok in H as (? & l1 & [-> H1]%idx_ok & [= <- <-]). rewrite H1.
      rewrite decide_True by done. cbn. rewrite app_nil_r. split; [done|]. by repeat split. }
    rewrite decide_False by (intros [_ [=]]; done). injection H as <- <-. rewrite !app_nil_r.
    split; [by destruct acc|]. by repeat split.
  - rewrite !decide_False by (intros [[=] _]; done). injection H as <- <-. rewrite !app_nil_r.
    split; [by destruct acc|]. by repeat split.
Qed.

Lemma instruction_loop_ok acc ls (s s' : State) acc' :
  instruction_loop acc ls s = (s', Ok acc') ->
  acc' = mkCollected (newBeaconCandidate acc ++ stakes "beacon" ls)
           (newShardCandidate acc ++ stakes "shard" ls) (randomFlag acc || has_random ls) /\
  step_frame s s' /\ (Forall (fun l => ~ swaps_beacon l) ls -> beacon_lists_kept s s').
Proof.
  revert acc s. induction ls as [|l ls IH]; intros acc s; cbn [instruction_loop].
  - intros [= <- <-]. unfold stakes. cbn. rewrite !app_nil_r, orb_false_r.
    split; [by destruct acc|]. split; [apply step_frame_refl|done].
  - intros H. apply M_bind_ok in H as (s1 & acc1 & (-> & Hf1 & Hk1)%instruction_step_ok & H).
    apply IH in H as (-> & Hf & Hk). cbn. rewrite <- !app_assoc, <- orb_assoc.
    split; [done|]. split; [by eapply step_frame_trans|].
    intros [Hl Hls]%Forall_cons. destruct (Hk1 Hl), (Hk Hls). split; congruence.
Qed.

Lemma update_chain_ok b (s s' : State) :
  update_chain b s = (s', Ok tt) ->
  exists c, s' = set_chain c s /\ BeaconHeight c = Height_ (Header b) /\
    BestBlockHash c = Block_Hash b /\ PrevBestBlockHash c = BestBlockHash (chain s) /\
    BestBlock c = Some b /\ Epoch c = Epoch_ (Header b).
Proof.
  unfold update_chain. intros H. apply M_bind_ok in H as (? & ? & [= <- <-] & H).
  apply M_bind_ok in H as (? & [] & [= <-] & H).
  apply M_bind_ok in H as (? & lasts & [= <- _] & [= <-]). by eexists.
Qed.

Lemma update_candidates_ok acc (s s' : State) :
  update_candidates acc s = (s', Ok tt) -> BeaconHeight (chain s) <> 1 ->
  s' = set_candidates (mkCandidates (CandidateShardWaitingForCurrentRandom (candidates s))
         (CandidateBeaconWaitingForCurrentRandom (candidates s))
         (CandidateShardWaitingForNextRandom (candidates s) ++ newShardCandidate acc)
         (CandidateBeaconWaitingForNextRandom (candidates s) ++ newBeaconCandidate acc)) s.
Proof.
  unfold update_candidates. intros H Hne. apply M_bind_ok in H as (? & ? & [= <- <-] & H).
  rewrite (proj2 (Z.eqb_neq _ _)) in H by done. by injection H as <-.
Qed.

Lemma assign_candidates_ok order (s s' : State) :
  assign_candidates order s = (s', Ok tt) ->
  exists pending shuffled,
    AssignValidatorShard (ShardPendingValidator (committees s))
      (CandidateShardWaitingForCurrentRandom (candidates s)) (CurrentRandomNumber (randoms s))
      (ActiveShards (sizes s)) = Ok pending /\
    ShuffleCandidate order (CandidateBeaconWaitingForCurrentRandom (candidates s))
      (CurrentRandomNumber (randoms s)) = Ok shuffled /\
    s' = set_candidates (mkCandidates [] [] (CandidateShardWaitingForNextRandom (candidates s))
           (CandidateBeaconWaitingForNextRandom (candidates s)))
        (set_committees (mkCommittees (BeaconCommittee (committees s))
           (BeaconPendingValidator (committees s) ++ shuffled) (ShardCommittee (committees s)) pending)
        (set_got_random true s)).
Proof.
  unfold assign_candidates. intros H. apply M_bind_ok in H as (s1 & [] & [= <-] & H).
  apply M_bind_ok in H as (? & ? & [= <- <-] & H).
  apply M_bind_ok in H as (? & pending & [-> Hp]%lift_ok & H).
  apply M_bind_ok in H as (? & shuffled & [-> Hs]%lift_ok & [= <-]).
  exists pending, shuffled. done.
Qed.

(** The snapshot of the waiting candidates at the middle of an epoch, if it is due. *)
Definition after_snapshot (h timestamp : Z) (s : State) : State :=
  if h mod EPOCH =? RANDOM_TIME then fst (snapshot_candidates timestamp s) else s.

(** The last branch is never taken: what is not in the first half of an epoch is in the
    second. *)
Lemma epoch_phase_ok order timestamp random (s s' : State) :
  epoch_phase order timestamp random s = (s', Ok tt) ->
  let h := BeaconHeight (chain s) in
  if (h mod EPOCH =? 1) && negb (h =? 1) then s' = set_got_random false s
  else if (RANDOM_TIME <=? h mod EPOCH) && random
  then assign_candidates order (after_snapshot h timestamp s) = (s', Ok tt)
  else s' = after_snapshot h timestamp s.
Proof.
  unfold epoch_phase. intros H. apply M_bind_ok in H as (? & ? & [= <- <-] & H).
  cbv zeta. set (h := BeaconHeight (chain s)) in *.
  destruct ((h mod EPOCH =? 1) && negb (h =? 1)); [by injection H as <-|].
  unfold after_snapshot. destruct (h mod EPOCH <? RANDOM_TIME) eqn:Hlt; to_prop.
  - rewrite (proj2 (Z.leb_gt RANDOM_TIME _)), (proj2 (Z.eqb_neq (h mod EPOCH) RANDOM_TIME)) by lia. simpl.
    by injection H as <-.
  - rewrite (proj2 (Z.leb_le RANDOM_TIME _)) in H |- * by lia. cbn [andb].
    apply M_bind_ok in H as (s1 & [] & H1 & H).
    assert (s1 = if h mod EPOCH =? RANDOM_TIME then fst (snapshot_candidates timestamp s) else s) as ->.
    { destruct (h mod EPOCH =? RANDOM_TIME); injection H1 as <-; done. }
    destruct random; [done|]. by injection H as <-.
Qed.

Lemma Update_ok order b (s s' : State) :
  Update order b s = (s', Ok tt) -> Height_ (Header b) <> 1 ->
  let ls := Instructions (Body b) in
  exists c s2, BeaconHeight c = Height_ (Header b) /\
    step_frame (set_chain c s) s2 /\
    (Forall (fun l => ~ swaps_beacon l) ls -> beacon_lists_kept s s2) /\
    epoch_phase order (Timestamp (Header b)) (has_random ls)
      (set_candidates (mkCandidates (CandidateShardWaitingForCurrentRandom (candidates s))
         (CandidateBeaconWaitingForCurrentRandom (candidates s))
         (CandidateShardWaitingForNextRandom (candidates s) ++ stakes "shard" ls)
         (CandidateBeaconWaitingForNextRandom (candidates s) ++ stakes "beacon" ls)) s2) = (s', Ok tt).
Proof.
  intros H Hne ls. unfold Update in H. apply M_bind_ok in H as (s1 & [] & (c & -> & Hc & _)%update_chain_ok & H).
  apply M_bind_ok in H as (s2 & acc & (-> & Hf & Hk)%instruction_loop_ok & H).
  apply M_bind_ok in H as (s3 & [] & Hcand & H).
  apply update_candidates_ok in Hcand; [|rewrite (frame_chain _ _ Hf); cbn; congruence].
  exists c, s2. rewrite (frame_candidates _ _ Hf) in Hcand. subst s3. done.
Qed.

(** C23. The life of the waiting candidates, for every block but the first: new stakes join
    the lists for the next random number; in the middle of an epoch these become the
    lists for the current one (whatever was still waiting there is lost); a random number
    in the second half of an epoch empties those. *)
Theorem candidate_lists_spec (order : list string -> list string) (b : BeaconBlock) (s s' : State) :
  Update order b s = (s', Ok tt) -> Height_ (Header b) <> 1 ->
  let h := Height_ (Header b) in
  let ls := Instructions (Body b) in
  let c := candidates s in
  let shard := CandidateShardWaitingForNextRandom c ++ stakes "shard" ls in
  let beacon := CandidateBeaconWaitingForNextRandom c ++ stakes "beacon" ls in
  let snapshot := h mod EPOCH =? RANDOM_TIME in
  let assigned := (RANDOM_TIME <=? h mod EPOCH) && has_random ls in
  candidates s' =
    mkCandidates
      (if assigned then [] else if snapshot then shard else CandidateShardWaitingForCurrentRandom c)
      (if assigned then [] else if snapshot then beacon else CandidateBeaconWaitingForCurrentRandom c)
      (if snapshot then [] else shard) (if snapshot then [] else beacon) /\
  IsGetRandomNumber (randoms s') =
    (if h mod EPOCH =? 1 then false else if assigned then true else IsGetRandomNumber (randoms s)).
Proof.
  intros H Hne h ls c shard beacon snapshot assigned.
  apply Update_ok in H as (c1 & s2 & Hc1 & Hf & _ & H%epoch_phase_ok); [|done].
  fold ls c shard beacon in H. cbv zeta in H. cbn [chain set_candidates] in H.
  rewrite (frame_chain _ _ Hf) in H. cbn [chain set_chain] in H. rewrite Hc1 in H. fold h in H.
  pose proof (frame_got _ _ Hf) as Hgot. cbn [randoms set_chain] in Hgot.
  rewrite (proj2 (Z.eqb_neq h 1)) in H by done. cbn [negb] in H. rewrite andb_true_r in H.
  fold assigned in H. unfold after_snapshot in H. fold snapshot in H.
  destruct (h mod EPOCH =? 1) eqn:H1.
  - apply Z.eqb_eq in H1. assert (snapshot = false) as -> by (unfold snapshot; rewrite H1; done).
    assert (assigned = false) as -> by (unfold assigned; rewrite H1; done). by subst s'.
  - destruct assigned.
    + apply assign_candidates_ok in H as (pending & shuffled & _ & _ & ->). by destruct snapshot.
    + subst s'. by destruct snapshot.
Qed.

(** The end of an epoch swaps nobody: the beacon committee changes by the swap
    instructions for the beacon only, and the pending list otherwise only grows, by the
    shuffled candidates of a random number. *)
Theorem beacon_committee_frame (order : list string -> list string) (b : BeaconBlock) (s s' : State) :
  Update order b s = (s', Ok tt) -> Height_ (Header b) <> 1 ->
  Forall (fun l => ~ swaps_beacon l) (Instructions (Body b)) ->
  BeaconCommittee (committees s') = BeaconCommittee (committees s) /\
  exists shuffled, BeaconPendingValidator (committees s') =
    BeaconPendingValidator (committees s) ++ shuffled /\
    (has_random (Instructions (Body b)) = false -> shuffled = []).
Proof.
  intros H Hne Hno. apply Update_ok in H as (c1 & s2 & Hc1 & Hf & Hk & H%epoch_phase_ok); [|done].
  destruct (Hk Hno) as [HBC HBP]. cbv zeta in H.
  assert (forall h t s, committees (after_snapshot h t s) = committees s) as Hsnap.
  { intros h t s0. unfold after_snapshot. destruct (h mod EPOCH =? RANDOM_TIME); reflexivity. }
  destruct (_ && negb _).
  - subst s'. split; [exact HBC|]. exists []. rewrite app_nil_r. split; [exact HBP|done].
  - destruct (_ && has_random _) eqn:Hr.
    + apply assign_candidates_ok in H as (pending & shuffled & _ & _ & ->).
      cbn [committees set_candidates set_committees BeaconCommittee BeaconPendingValidator].
      rewrite !Hsnap. cbn [committees set_candidates]. rewrite HBC, HBP. split; [done|].
      exists shuffled. split; [done|]. intros Hr'. rewrite Hr', andb_false_r in Hr. done.
    + subst s'. rewrite Hsnap. cbn [committees set_candidates]. split; [exact HBC|]. exists [].
      rewrite app_nil_r. split; [exact HBP|done].
Qed.
(** ** What the update does not look at *)

(** The best block replaced by another of the same height. *)
Definition reseat (h : Hash) (b : BeaconBlock) (s : State) : State :=
  let c := chain s in
  set_chain (mkChain h (PrevBestBlockHash c) (Some b) (BestShardHash c) (BestShardHeight c) (Epoch c)
               (BeaconHeight c) (BeaconProposerIdx c)) s.

Section Blind.
Context (h : Hash) (b : BeaconBlock).

(** A step that only looks at the best block's height. *)
Definition blind {A} (m : M State A) : Prop :=
  forall s, best_height s = Height_ (Header b) ->
    m (reseat h b s) = (reseat h b (fst (m s)), snd (m s)) /\
    best_height (fst (m s)) = Height_ (Header b).

Lemma blind_bind {A B} (m : M State A) (k : A -> M State B) :
  blind m -> (forall a, blind (k a)) -> blind (m ≫= k).
Proof.
  intros Hm Hk s Hs. destruct (Hm s Hs) as [E Hh]. unfold mbind, M_bind. rewrite E.
  destruct (m s) as [s1 [a|e|]]; cbn [fst snd] in *; [|done..]. by apply Hk.
Qed.

(** A read of fields that stay. *)
Lemma blind_get {A} (k : State -> M State A) :
  (forall s0, blind (k s0)) -> (forall s, k (reseat h b s) = k s) -> blind (s ← get; k s).
Proof. intros Hk Hr s Hs. unfold mbind, M_bind, get. rewrite Hr. by apply Hk. Qed.

Lemma blind_mfor {A} (f : A -> M State unit) l : (forall x, blind (f x)) -> blind (mfor f l).
Proof. intros Hf. induction l as [|x l IH]; [by intros s Hs|]. by apply blind_bind. Qed.

Lemma blind_stability l : blind (stability_step l).
Proof.
  intros s Hs. unfold stability_step.
  replace (best_height (reseat h b s)) with (best_height s) by (by rewrite Hs).
  change (Params (reseat h b s)) with (Params s). change (StabilityInfo (reseat h b s)) with (StabilityInfo s).
  destruct (process_stability _ _ _) as [[p i] [| |]]; by split.
Qed.

(** Runs a step on both states and compares. *)
Ltac run_both :=
  intros s Hs; mrun; cbn -[Itoa Atoi Split SwapValidator Z.modulo];
  repeat match goal with
  | |- context [match ?x with _ => _ end] => destruct x
  end; by split.

Lemma blind_remove v r assign : blind (remove v r assign).
Proof. unfold remove. run_both. Qed.

Lemma blind_idx l n : blind (idx l n).
Proof. unfold idx. by destruct (l !! n). Qed.

(** Follows the code: sequences, conditionals and reads one by one. *)
Ltac follow :=
  repeat lazymatch goal with
  | |- blind (remove _ _ _) => apply blind_remove
  | |- blind (stability_step _) => apply blind_stability
  | |- blind (swap_instruction _) => assumption
  | |- blind (idx _ _) => apply blind_idx
  | |- blind (get ≫= _) => apply blind_get; [intros ?|done]
  | |- blind (_ ≫= _) => apply blind_bind; [|intros ?]
  | |- blind (match ?x with _ => _ end) => destruct x
  | |- blind _ => intros s Hs; split; [reflexivity|exact Hs]
  end.

Lemma blind_swap l : blind (swap_instruction l).
Proof. unfold swap_instruction, swap_shard, swap_beacon. follow. Qed.

Lemma blind_step acc l : blind (instruction_step acc l).
Proof. pose proof (blind_swap l). unfold instruction_step. follow. Qed.

Lemma blind_loop acc ls : blind (instruction_loop acc ls).
Proof.
  revert acc. induction ls as [|l ls IH]; intros acc; [run_both|].
  apply blind_bind; [apply blind_step|done].
Qed.

Lemma blind_candidates acc : blind (update_candidates acc).
Proof.
  assert (forall x, blind (genesis_shard (newShardCandidate acc) x)) as Hg.
  { intros x. unfold genesis_shard. run_both. }
  intros s Hs. unfold update_candidates.
  assert (forall (k : State -> M State unit) s, (get ≫= k) s = k s s) as Hget by done.
  rewrite !Hget. change (chain (reseat h b s)) with (chain (reseat h b s)).
  change (BeaconHeight (chain (reseat h b s))) with (BeaconHeight (chain s)).
  destruct (_ =? 1); [|by split].
  change (sizes (reseat h b s)) with (sizes s).
  destruct (slice _ _ _) as [first| |]; [|by split..].
  mrun. destruct (copy_into _ _) as [committee| |]; [|by split..].
  set (s1 := set_committees (set_beacon_committee committee (committees s)) s).
  change (set_committees _ (reseat h b s)) with (reseat h b s1).
  assert (best_height s1 = Height_ (Header b)) as Hs1 by done.
  destruct (blind_mfor (genesis_shard (newShardCandidate acc))
              (seq 0 (Z.to_nat (ActiveShards (sizes s)))) Hg s1 Hs1) as [E Hh].
  rewrite E. destruct (mfor _ _ s1) as [s2 [[]| |]]; cbn [fst snd] in *; by split.
Qed.

Lemma blind_phase order t random : blind (epoch_phase order t random).
Proof.
  intros s Hs. unfold epoch_phase, snapshot_candidates, assign_candidates, swap_at_end.
  unfold mbind, M_bind, get. change (BeaconHeight (chain (reseat h b s))) with (BeaconHeight (chain s)).
  destruct (_ && negb _); [by split|].
  destruct (_ <? RANDOM_TIME); [by split|].
  destruct (RANDOM_TIME <=? _); [|destruct (_ =? 0); [|by split]].
  - destruct (_ =? RANDOM_TIME), random; revert s Hs; run_both.
  - revert s Hs. run_both.
Qed.
End Blind.

(** Two blocks with the same body and the same fields that the update reads. *)
Record same_update (b b' : BeaconBlock) : Prop := {
  same_body : Body b' = Body b;
  same_height : Height_ (Header b') = Height_ (Header b);
  same_epoch : Epoch_ (Header b') = Epoch_ (Header b);
  same_producer : Producer (Header b') = Producer (Header b);
  same_time : Timestamp (Header b') = Timestamp (Header b)
}.

Lemma update_chain_reseat b b' s : same_update b b' ->
  update_chain b' s = (reseat (Block_Hash b') b' (fst (update_chain b s)), snd (update_chain b s)) /\
  best_height (fst (update_chain b s)) = Height_ (Header b').
Proof.
  intros [Hb Hh He Hp Ht]. unfold update_chain. mrun. rewrite Hb, Hh, He, Hp.
  destruct (last_states _); split; try done; unfold best_height; cbn; by rewrite Hh.
Qed.

(** The seals of a block and its signature do not matter to the update. *)
Lemma Update_reseat order b b' s : same_update b b' ->
  Update order b' s = (reseat (Block_Hash b') b' (fst (Update order b s)), snd (Update order b s)).
Proof.
  intros Hsame. destruct (update_chain_reseat b b' s Hsame) as [E Hh].
  pose proof Hsame as [Hb Hheight _ _ Ht]. unfold Update. rewrite Hb, Ht.
  set (k := fun _ : unit => acc ← instruction_loop (mkCollected [] [] false) (Instructions (Body b));
                 _ ← update_candidates acc; epoch_phase order (Timestamp (Header b)) (randomFlag acc)).
  assert (forall u, blind (Block_Hash b') b' (k u)) as Hk.
  { intros u. apply blind_bind; [apply blind_loop|intros acc].
    apply blind_bind; [apply blind_candidates|intros; apply blind_phase]. }
  clearbody k. unfold mbind, M_bind. rewrite E.
  destruct (update_chain b s) as [s1 [u|e|]]; cbn [fst snd] in *; [|done..].
  by apply Hk.
Qed.

(** Follows the code of a step that leaves a field alone. *)
Ltac kept :=
  repeat lazymatch goal with
  | |- preserves _ (get ≫= _) => apply preserves_get; intros ? ?
  | |- preserves _ (_ ≫= _) => apply preserves_bind; [|intros ?]
  | |- preserves _ (mfor _ _) => apply preserves_mfor; intros ?
  | |- preserves _ (if ?b then _ else _) => destruct b
  | |- preserves _ (match ?x with _ => _ end) => destruct x
  | |- preserves _ (put _) => intros ? ?; cbn; assumption
  | |- preserves _ (modify _) => intros ? ?; cbn; assumption
  | |- preserves _ (instruction_loop _ _) => fail
  | |- preserves _ _ => apply preserves_read; intros ?; reflexivity
  end.

Lemma instruction_loop_kept (P : State -> Prop) acc ls :
  (forall p i s, P s -> P (set_stability p i s)) -> (forall c s, P s -> P (set_committees c s)) ->
  (forall p s, P s -> P (set_params p s)) -> (forall r s, P s -> P (set_randoms r s)) ->
  preserves P (instruction_loop acc ls).
Proof.
  intros H1 H2 H3 H4. revert acc. induction ls as [|l ls IH]; intros acc; [by apply preserves_read|].
  apply preserves_bind; [|done]. unfold instruction_step. apply preserves_bind; [|intros []].
  { intros s Hs. unfold stability_step. destruct (process_stability _ _ _) as [[p i] [| |]]; by apply H1. }
  unfold swap_instruction, swap_shard, swap_beacon, remove, idx.
  repeat lazymatch goal with
  | |- preserves _ (modify _) => intros ? ?; cbn; eauto
  | |- _ => progress kept
  end.
Qed.

(** The links between shards are none of the update's business. *)
Lemma Update_cross (links : gmap Z (gmap Z Z)) order b :
  preserves (fun s => LastCrossShardState s = links) (Update order b).
Proof.
  unfold Update. apply preserves_bind; [unfold update_chain; kept|intros []].
  apply preserves_bind; [by apply instruction_loop_kept|intros acc].
  unfold update_candidates, genesis_shard, epoch_phase, snapshot_candidates, assign_candidates, swap_at_end.
  kept.
Qed.

(** The part of the chain that a block sets for good, even when the update fails later. *)
Definition seat (s : State) : Hash * Hash * option BeaconBlock * Z * Z :=
  let c := chain s in
  (BestBlockHash c, PrevBestBlockHash c, BestBlock c, BeaconHeight c, BeaconProposerIdx c).

Lemma Update_rest_seat x order b :
  preserves (fun s => seat s = x)
    (acc ← instruction_loop (mkCollected [] [] false) (Instructions (Body b));
     _ ← update_candidates acc;
     epoch_phase order (Timestamp (Header b)) (randomFlag acc)).
Proof.
  apply preserves_bind; [by apply instruction_loop_kept|intros acc].
  unfold update_candidates, genesis_shard, epoch_phase, snapshot_candidates, assign_candidates, swap_at_end.
  kept.
Qed.

Lemma Update_seat order b s :
  seat (fst (Update order b s)) =
    (Block_Hash b, BestBlockHash (chain s), Some b, Height_ (Header b),
     if Height_ (Header b) =? 1 then 0 else IndexOfStr (Producer (Header b)) (BeaconCommittee (committees s))).
Proof.
  unfold Update. pose proof (fun x => Update_rest_seat x order b) as Hrest.
  revert Hrest. generalize (acc ← instruction_loop (mkCollected [] [] false) (Instructions (Body b));
    _ ← update_candidates acc; epoch_phase order (Timestamp (Header b)) (randomFlag acc)).
  intros rest Hrest. unfold mbind, M_bind, update_chain. mrun.
  destruct (last_states _) as [lasts| |]; [|reflexivity..]. by apply Hrest.
Qed.
End State.

(** ** A small chain *)

Section Sample.
#[local] Instance no_stability : StabilityOps unit :=
  {| process_stability := fun _ _ => mret tt; stability_bytes := fun _ => []; empty_stability := tt |}.
#[local] Existing Instance QuickHash.quick_hash.

Definition sample_state : BestStateBeacon unit :=
  mkBestState (mkChain zero_hash zero_hash None ∅ ∅ 1 14 0)
    (mkCommittees ["b1"; "b2"] ["b3"] {[1 := ["a"; "b"]]} {[1 := ["p"; "q"]]})
    (mkCandidates ["old"] [] ["s1"; "s2"] ["c1"]) (mkRandoms 7 0 false) (mkSizes 2 2 2) ∅ tt ∅ ∅.

Definition sample_block (height : Z) (ls : list (list string)) : BeaconBlock :=
  mkBlock "" "" [] "" (mkBody ∅ ls)
    (mkHeader "b1" 1 height 2 1 1000 zero_hash zero_hash zero_hash zero_hash zero_hash zero_hash zero_hash).

Lemma swap_instruction_agrees_witness :
  exists s', swap_instruction ["swap"; "p"; "a"; "shard"; "1"] sample_state = (s', Ok tt) /\
    map_get_list (ShardPendingValidator (committees s')) 1 = ["q"] /\
    map_get_list (ShardCommittee (committees s')) 1 = ["b"; "p"].
Proof.
  destruct (swap_instruction_agrees sample_state 2 1 ["swap"; "p"; "a"; "shard"; "1"] ["q"] ["b"; "p"])
    as (s' & H & Hp & Hc & _); [done|done| | |reflexivity|by exists s'].
  - repeat constructor; discriminate.
  - repeat constructor; discriminate.
Defined.

Lemma candidate_lists_spec_witness :
  candidates (fst (Update (fun l => l) (sample_block 15 [["stake"; "s3,s4"; "shard"]]) sample_state)) =
    mkCandidates ["s1"; "s2"; "s3"; "s4"] ["c1"] [] [].
Proof.
  apply (candidate_lists_spec (fun l => l) (sample_block 15 [["stake"; "s3,s4"; "shard"]]) sample_state).
  - vm_compute. reflexivity.
  - discriminate.
Defined.

Lemma beacon_committee_frame_witness :
  BeaconCommittee (committees (fst (Update (fun l => l) (sample_block 20 []) sample_state))) = ["b1"; "b2"].
Proof.
  apply (beacon_committee_frame (fun l => l) (sample_block 20 []) sample_state).
  - vm_compute. reflexivity.
  - discriminate.
  - constructor.
Defined.
End Sample.
End BeaconState.
