(* ===== verification/BeaconVerify.v ===== *)
(** The checks on a beacon block: against its parent, against the best state, and against
    the best state it leads to (the Verify functions and [GetStakingCandidate] of
    src/blockchain/beaconprocess.go, [ValidateDataB58] of src/cashec/keysetprivacy.go),
    with the shard header and the shard-to-beacon block they look at
    (src/blockchain/shardheader.go, shardblock.go).  The Schnorr signatures are an
    interface. *)

From Stdlib Require Import Ascii String.
From S2P Require Import Prelude GoStr Hash Sha256 Base58 Merkle Keys ShardTx Committee LevelDB HeightPool.
From S2P Require Import ShardToBeaconPool CrossShardPool BeaconState.

#[local] Open Scope string_scope.
#[local] Open Scope list_scope.
#[local] Open Scope Z_scope.

(** [encoding/json] on the values that are stored: [json.Marshal], and what
    [json.Unmarshal] leaves in an empty value, with its error. *)
Class BeaconJson (I : Type) : Type := {
  best_json : BeaconState.BestStateBeacon I -> outcome bytes;
  best_of_json : bytes -> BeaconState.BestStateBeacon I * outcome unit;
  block_json : BeaconState.BeaconBlock -> outcome bytes;
  block_of_json : bytes -> BeaconState.BeaconBlock * outcome unit;
  committee_json : gmap Z (list string) -> outcome bytes;
  committee_of_json : bytes -> option (gmap Z (list string))
}.

Module BeaconVerify.
Import Hashes Merkle Keys Committee BeaconState.

(** ** Shard headers *)

(** [string(b)] of a byte is the UTF-8 encoding of that code point. *)
Definition string_of_byte (b : Z) : string :=
  let char z := String.String (ascii_of_nat (Z.to_nat z)) EmptyString in
  if b <? 128 then char b else char (192 + b / 64) +:+ char (128 + b mod 64).

Record ShardHeader := mkShardHeader {
  ProducerAddress : Keys.PaymentAddress;
  ShardProducer : string;
  ShardID : Z;
  ShardVersion : Z;
  ShardPrevBlockHash : Hash;
  ShardHeight : Z;
  ShardRound : Z;
  ShardEpoch : Z;
  ShardTimestamp : Z;
  TxRoot : Hash;
  ShardTxRoot : Hash;
  CrossOutputCoinRoot : Hash;
  InstructionsRoot : Hash;
  CommitteeRoot : Hash;
  PendingValidatorRoot : Hash;
  CrossShards : bytes;
  ShardBeaconHeight : Z;
  BeaconHash : Hash
}.

Record ShardToBeaconBlock := mkShardToBeacon {
  stb_AggregatedSig : string;
  stb_R : string;
  stb_ValidatorsIdx : list (list Z);
  stb_ProducerSig : string;
  stb_Instructions : list (list string);
  stb_Header : ShardHeader
}.

Definition ShardHeader_String (h : ShardHeader) : string :=
  PaymentAddress_String (ProducerAddress h) +:+ ShardProducer h +:+ string_of_byte (ShardID h) +:+
  Itoa (ShardVersion h) +:+ Hashes.String (ShardPrevBlockHash h) +:+ Itoa (ShardHeight h) +:+
  Itoa (ShardRound h) +:+ Itoa (ShardEpoch h) +:+ Itoa (ShardTimestamp h) +:+
  Hashes.String (TxRoot h) +:+ Hashes.String (ShardTxRoot h) +:+
  Hashes.String (CrossOutputCoinRoot h) +:+ Hashes.String (InstructionsRoot h) +:+
  Hashes.String (CommitteeRoot h) +:+ Hashes.String (PendingValidatorRoot h) +:+
  Hashes.String (BeaconHash h) +:+ Itoa (ShardBeaconHeight h) +:+
  foldr (fun b s => string_of_byte b +:+ s) "" (CrossShards h).

Definition ShardHeader_Hash {sha : Sha256} (h : ShardHeader) : Hash :=
  HashH (bytes_of (ShardHeader_String h)).

#[export] Instance stb_height : BlockHeight ShardToBeaconBlock := fun b => ShardHeight (stb_Header b).
#[export] Instance stb_shard : BlockShard ShardToBeaconBlock := fun b => ShardID (stb_Header b).
#[export] Instance stb_hash {sha : Sha256} : BlockHash ShardToBeaconBlock Hash :=
  fun b => ShardHeader_Hash (stb_Header b).

Abbreviation StbPool := (ShardToBeaconPool.ShardToBeaconPool (B := ShardToBeaconBlock)).

Section Verify.
Context {sha : Sha256} {sigs : Signatures} {I : Type} {stab : StabilityOps I}.

(** [if err := f(); err != nil { return NewBlockChainError(e, ...) }]. *)
Definition or_fail (e : string) (o : outcome unit) : outcome unit :=
  match o with Err _ => Err e | r => r end.

(** [if !b { return NewBlockChainError(e, ...) }]. *)
Definition require (b : bool) (e : string) : outcome unit := if b then Ok tt else Err e.

(** ** Before the update *)

(** [l[i]] of a Go [int]. *)
Definition at_index {A} (l : list A) (i : Z) : outcome A :=
  if i <? 0 then Panic else match l !! Z.to_nat i with None => Panic | Some x => Ok x end.

(** [for i := 0; i < len(shardStates)-2; i++]: the last step is not looked at. *)
Fixpoint ascending (states : list ShardState) : bool :=
  match states with
  | s1 :: ((s2 :: _ :: _) as rest) =>
      (u64 (Height s2 - Height s1) =? 1) && ascending rest
  | _ => true
  end.

(** The pool's block is the one the state names. *)
Definition same_block (blk : ShardToBeaconBlock) (state : ShardState) : bool :=
  (ShardHeight (stb_Header blk) =? Height state) &&
  bool_decide (Hashes.String (ShardHeader_Hash (stb_Header blk)) = Hashes.String (StateHash state)) &&
  bool_decide (CrossShards (stb_Header blk) = CrossShard state).

Definition check_sig (committee : list string) (blk : ShardToBeaconBlock) : outcome unit :=
  CrossShardPool.ValidateAggSignature (stb_ValidatorsIdx blk) committee (stb_AggregatedSig blk)
    (stb_R blk) (ShardHeader_Hash (stb_Header blk)).

(** When the first block's signature fails, a swap is tried; the code takes the first
    result, the remaining pending validators, for the new committee. *)
Definition check_first (committee pending : list string) (size : Z) (blk : ShardToBeaconBlock) :
    outcome unit :=
  match check_sig committee blk with
  | Err _ =>
      r ← SwapValidator pending committee size OFFSET;
      match sw_error r with
      | Some _ => Err "Shard State Error"
      | None => or_fail "Shard State Error" (check_sig (sw_pending r) blk)
      end
  | r => r
  end.

Fixpoint check_sigs (committee : list string) (blks : list ShardToBeaconBlock) : outcome unit :=
  match blks with
  | [] => Ok tt
  | blk :: rest => _ ← or_fail "Shard State Error" (check_sig committee blk); check_sigs committee rest
  end.

Definition check_shard (s : BestStateBeacon I) (shardID : Z) (blks : list ShardToBeaconBlock)
    (states : list ShardState) : outcome unit :=
  if (length blks <? length states)%nat then Err "Shard State Error"
  else
    let blks := take (length states) blks in
    _ ← require (forallb (fun p => same_block (fst p) (snd p)) (zip blks states)) "Shard State Error";
    let committee := map_get_list (ShardCommittee (committees s)) shardID in
    match blks with
    | [] => Ok tt
    | blk :: rest =>
        _ ← check_first committee (map_get_list (ShardPendingValidator (committees s)) shardID)
              (ShardCommitteeSize (sizes s)) blk;
        check_sigs committee rest
    end.

Fixpoint check_shards (s : BestStateBeacon I) (body : gmap Z (list ShardState))
    (l : list (Z * list ShardToBeaconBlock)) : outcome unit :=
  match l with
  | [] => Ok tt
  | (shardID, blks) :: rest =>
      _ ← check_shard s shardID blks (map_get_list body shardID); check_shards s body rest
  end.

(** [parent] is what the database holds of the previous block, decoded; the decoding's
    error is ignored.  The call fills in heights of the pool, which is returned. *)
Definition VerifyPreProcessingBeaconBlock (s : BestStateBeacon I) (parent : outcome BeaconBlock)
    (pool : StbPool) (block : BeaconBlock) (isCommittee : bool) : StbPool * outcome unit :=
  let h := Header block in
  let checks :=
    _ ← or_fail "Producer Error" (ValidateDataB58 (Producer h) (ProducerSig block) (Header_Hash h));
    _ ← (if (length (BeaconCommittee (committees s)) =? 0)%nat then Panic else Ok tt);
    tempProducer ← at_index (BeaconCommittee (committees s))
      (Z.rem (BeaconProposerIdx (chain s) + Round h) (Z.of_nat (length (BeaconCommittee (committees s)))));
    _ ← require (bool_decide (tempProducer = Producer h)) "Producer Error";
    _ ← require (Version h =? VERSION) "Version error";
    parent ← match parent with Err _ => Err "Database Error" | r => r end;
    _ ← require (u64 (Height_ (Header parent) + 1) =? Height_ h) "Block height error";
    _ ← require (negb (negb (Height_ h =? 1) && (Height_ h mod EPOCH =? 1) &&
                       negb (Epoch_ (Header parent) =? u64 (Epoch_ h - 1)))) "Epoch Error";
    _ ← require (Timestamp (Header parent) <? Timestamp h) "Timestamp Error";
    _ ← require (VerifyHashFromShardState (ShardState_ (Body block)) (ShardStateHash h))
          "ShardState Hash Error";
    _ ← require (VerifyHashFromStringArray (concat (Instructions (Body block))) (InstructionHash h))
          "Instruction Hash Error";
    require (forallb (fun p => ascending (snd p)) (map_to_list (ShardState_ (Body block))))
      "Shard State Error" in
  match checks with
  | Ok _ =>
      if isCommittee then
        let r := ShardToBeaconPool.GetValidPendingBlock None pool in
        (fst r, check_shards s (ShardState_ (Body block)) (map_to_list (snd r)))
      else (pool, Ok tt)
  | r => (pool, r)
  end.

(** ** Against the best state *)

(** Of several stake instructions for a role, the last one wins. *)
Fixpoint staking_loop (ls : list (list string)) (beacon shard : list string) :
    outcome (list string * list string) :=
  match ls with
  | [] => Ok (beacon, shard)
  | v :: rest =>
      match v !! 0%nat with
      | None => Panic
      | Some v0 =>
          if decide (v0 = "stake") then
            match v !! 1%nat, v !! 2%nat with
            | Some v1, Some v2 =>
                staking_loop rest (if decide (v2 = "beacon") then Split v1 else beacon)
                  (if decide (v2 = "shard") then Split v1 else shard)
            | _, _ => Panic
            end
          else staking_loop rest beacon shard
      end
  end.

Definition GetStakingCandidate (block : BeaconBlock) : outcome (list string * list string) :=
  staking_loop (Instructions (Body block)) [] [].

Definition check_candidates (s : BestStateBeacon I) (candidates : list string) : outcome unit :=
  if decide (candidates = []) then Ok tt
  else require (bool_decide (GetValidStakers candidates s = candidates)) "Candidate Error".

Definition VerifyBestStateWithBeaconBlock (s : BestStateBeacon I) (block : BeaconBlock)
    (isVerifySig : bool) : outcome unit :=
  let h := Header block in
  let n := length (BeaconCommittee (committees s)) in
  _ ← (if isVerifySig then
         _ ← require (negb ((length (ValidatorsIdx block) <=? n / 2)%nat && (3 <? n)%nat)) "Signature Error";
         or_fail "Signature Error"
           (CrossShardPool.ValidateAggSignature (ValidatorsIdx block) (BeaconCommittee (committees s))
              (AggregatedSig block) (R block) (Block_Hash block))
       else Ok tt);
  _ ← require (u64 (BeaconHeight (chain s) + 1) =? Height_ h) "Block height error";
  _ ← require (bool_decide (BestBlockHash (chain s) = PrevBlockHash h)) "Block height error";
  _ ← require (negb ((Height_ h mod EPOCH =? 1) && negb (u64 (Epoch (chain s) + 1) =? Epoch_ h)))
        "Epoch Error";
  _ ← require (negb (negb (Height_ h mod EPOCH =? 1) && negb (Epoch (chain s) =? Epoch_ h)))
        "Epoch Error";
  stakers ← GetStakingCandidate block;
  _ ← check_candidates s (fst stakers);
  check_candidates s (snd stakers).

(** ** After the update *)

Definition VerifyPostProcessingBeaconBlock (s : BestStateBeacon I) (block : BeaconBlock)
    (snapShotBeaconCommittee : list string) : outcome unit :=
  let h := Header block in let cs := committees s in let c := candidates s in
  producerPubkey ← at_index snapShotBeaconCommittee (BeaconProposerIdx (chain s));
  _ ← or_fail "Signature Error" (ValidateDataB58 producerPubkey (ProducerSig block) (Header_Hash h));
  _ ← require (VerifyHashFromStringArray (BeaconCommittee cs ++ BeaconPendingValidator cs)
                 (ValidatorsRoot h)) "Hash error";
  _ ← require (VerifyHashFromStringArray
                 (CandidateBeaconWaitingForCurrentRandom c ++ CandidateBeaconWaitingForNextRandom c)
                 (BeaconCandidateRoot h)) "Hash error";
  _ ← require (VerifyHashFromStringArray
                 (CandidateShardWaitingForCurrentRandom c ++ CandidateShardWaitingForNextRandom c)
                 (ShardCandidateRoot h)) "Hash error";
  require (VerifyHashFromMapByteString (ShardPendingValidator cs) (ShardCommittee cs)
             (ShardValidatorsRoot h)) "Hash error".
End Verify.
End BeaconVerify.
