(* ===== verification/TxStore.v ===== *)
(** What the node's store keeps of transactions: serial numbers, commitments, output coins,
    serial number derivators, the place of each transaction, fee estimators
    (src/database/lvdb/tx.go) and custom tokens with their outputs
    (src/database/lvdb/customtoken.go).  A list is stored as JSON under a key of its own, and
    every element again under an extension of that key; the JSON of a list of byte strings is
    the interface of Json.v. *)

From Stdlib Require Import Ascii String.
From S2P Require Import Prelude GoStr Hash Sha256 Base58 Modular EC Keys Json LevelDB BeaconVerify.

#[local] Open Scope string_scope.
#[local] Open Scope list_scope.
#[local] Open Scope Z_scope.

(** [json.Marshal] of a [[][]byte] loses nothing: each element is base64. *)
Class ListsJson : Type := {
  lists_json :: Json (list bytes);
  names_json :: Json (list string);
  lists_json_ok l : Forall (Forall in_u8) l -> json_ok l;
  lists_nonempty (l : list bytes) : Marshal l <> ""
}.

Module TxStore.
Import Hashes EC LevelDB Keys.

Definition transactionKeyPrefix : bytes := bytes_of "tx-".
Definition privateKeyPrefix : bytes := bytes_of "prk-".
Definition serialNumbersPrefix : bytes := bytes_of "serinalnumbers-".
Definition commitmentsPrefix : bytes := bytes_of "commitments-".
Definition outcoinsPrefix : bytes := bytes_of "outcoins-".
Definition snderivatorsPrefix : bytes := bytes_of "snderivators-".
Definition feeEstimator : bytes := bytes_of "feeEstimator".
Definition TokenPrefix : bytes := bytes_of "token-".
Definition PrivacyTokenPrefix : bytes := bytes_of "privacy-token-".
Definition TokenPaymentAddressPrefix : bytes := bytes_of "token-paymentaddress-".
Definition tokenInitPrefix : bytes := bytes_of "token-init-".
Definition privacyTokenInitPrefix : bytes := bytes_of "privacy-token-init-".
Definition Spent : bytes := bytes_of "spent".
Definition Unspent : bytes := bytes_of "unspent".
Definition Unreward : bytes := bytes_of "unreward".
Definition rewared : bytes := bytes_of "reward".
Definition bigNumber : Z := 999999999.
Definition bigNumberTx : Z := 999999999.

(** [string(b)]. *)
Definition text (b : bytes) : string :=
  string_of_list_ascii (map (fun z => ascii_of_N (Z.to_N z)) b).

(** [strings.Split(s, Splitter)]: [skip] bytes of a splitter are still to be passed over. *)
Fixpoint split_from (skip : nat) (acc b : bytes) : list bytes :=
  match b with
  | [] => [acc]
  | x :: rest =>
      match skip with
      | S n => split_from n acc rest
      | O => if bool_decide (take 5 b = Splitter) then acc :: split_from 4 [] rest
             else split_from 0 (acc ++ [x]) rest
      end
  end.

Definition SplitBy (b : bytes) : list bytes := split_from 0 [] b.

(** [values[i]]. *)
Definition part (values : list bytes) (i : nat) : outcome bytes :=
  match values !! i with Some v => Ok v | None => Panic end.

(** [n, _ := strconv.Atoi(s)]: an error leaves 0, or the nearest bound. *)
Definition atoi_value (s : string) : Z :=
  match Atoi s with
  | Ok z => z
  | Err e =>
      if decide (e = "value out of range") then
        match s with String.String "-"%char _ => - 2 ^ 63 | _ => 2 ^ 63 - 1 end
      else 0
  | Panic => 0
  end.

Section Ops.
Context {S : Type} {lvdb : LevelDB S} {js : ListsJson} {sha : Sha256}.

(** [db.GetKey(prefix, tokenID)] with the shard appended. *)
Definition GetKey (prefix : bytes) (tokenID : Hash) : bytes := prefix ++ bytes_of (Hashes.String tokenID).
Definition list_key (prefix : bytes) (tokenID : Hash) (shardID : Z) : bytes := GetKey prefix tokenID ++ [shardID].

(** The list in a value; a missing or empty value is a nil list. *)
Definition list_of {A} {jsA : Json (list A)} (v : option bytes) : outcome (list A) :=
  match v with
  | None | Some [] => Ok []
  | Some b => match Unmarshal (text b) with Err _ => Err UnexpectedError | r => r end
  end.

Definition read_list {A} {jsA : Json (list A)} (key : bytes) : M S (list A) := fun s =>
  (s, list_of (lv_content s !! key)).

Definition write_list {A} {jsA : Json (list A)} (key : bytes) (l : list A) : M S unit :=
  Put key (bytes_of (Marshal l)).

(** The bytes of the next index, [0] for the first. *)
Definition new_index (n : nat) : bytes := if (n =? 0)%nat then [0] else Bytes (Z.of_nat n).

(** [_, err := db.Get(key)]: any error means absent. *)
Definition has_key (key : bytes) : M S bool := fun s => (s, Ok (bool_decide (is_Some (lv_content s !! key)))).

Definition clean (prefix : bytes) : M S unit :=
  keys ← iterate prefix;
  mfor (fun key => or_err UnexpectedError (Delete key)) keys.

(** ** Serial numbers *)

Definition StoreSerialNumbers (tokenID : Hash) (serialNumber : bytes) (shardID : Z) : M S unit :=
  let key := list_key serialNumbersPrefix tokenID shardID in
  arrayData ← read_list key;
  _ ← Put (key ++ serialNumber) (new_index (length (arrayData : list bytes)));
  write_list key (arrayData ++ [serialNumber]).

Definition FetchSerialNumbers (tokenID : Hash) (shardID : Z) : M S (list bytes) :=
  read_list (list_key serialNumbersPrefix tokenID shardID).

Definition HasSerialNumber (tokenID : Hash) (serialNumber : bytes) (shardID : Z) : M S bool :=
  has_key (list_key serialNumbersPrefix tokenID shardID ++ serialNumber).

Definition CleanSerialNumbers : M S unit := clean serialNumbersPrefix.

(** ** Output coins *)

Definition outcoins_key (tokenID : Hash) (pubkey : bytes) (shardID : Z) : bytes :=
  list_key outcoinsPrefix tokenID shardID ++ pubkey.

Definition StoreOutputCoins (tokenID : Hash) (pubkey outputcoin : bytes) (shardID : Z) : M S unit :=
  let key := outcoins_key tokenID pubkey shardID in
  arrDatabyPubkey ← read_list key;
  write_list key (arrDatabyPubkey ++ [outputcoin]).

Definition GetOutcoinsByPubkey (tokenID : Hash) (pubkey : bytes) (shardID : Z) : M S (list bytes) :=
  read_list (outcoins_key tokenID pubkey shardID).

(** ** Commitments *)

(** Under one key: the list; under its extensions: the commitment of an index, the index of
    a commitment, the last index, and the indices of a public key. *)
Definition StoreCommitments (tokenID : Hash) (pubkey commitments : bytes) (shardID : Z) : M S unit :=
  let key := list_key commitmentsPrefix tokenID shardID in
  arrData ← read_list key;
  let newIndex := new_index (length (arrData : list bytes)) in
  _ ← Put (key ++ newIndex) commitments;
  _ ← Put (key ++ commitments) newIndex;
  _ ← Put (key ++ bytes_of "len") newIndex;
  arrDatabyPubkey ← read_list (key ++ pubkey);
  _ ← write_list (key ++ pubkey) (arrDatabyPubkey ++ [newIndex]);
  write_list key (arrData ++ [commitments]).

Definition FetchCommitments (tokenID : Hash) (shardID : Z) : M S (list bytes) :=
  read_list (list_key commitmentsPrefix tokenID shardID).

Definition HasCommitment (tokenID : Hash) (commitment : bytes) (shardID : Z) : M S bool :=
  has_key (list_key commitmentsPrefix tokenID shardID ++ commitment).

(** The index 0 has no bytes here. *)
Definition HasCommitmentIndex (tokenID : Hash) (commitmentIndex shardID : Z) : M S bool :=
  _ ← Get (list_key commitmentsPrefix tokenID shardID ++ Bytes commitmentIndex);
  mret true.

Definition GetCommitmentByIndex (tokenID : Hash) (commitmentIndex shardID : Z) : M S bytes :=
  Get (list_key commitmentsPrefix tokenID shardID ++
       if commitmentIndex =? 0 then [0] else Bytes commitmentIndex).

Definition GetCommitmentIndex (tokenID : Hash) (commitment : bytes) (shardID : Z) : M S Z :=
  data ← Get (list_key commitmentsPrefix tokenID shardID ++ commitment);
  mret (EC.SetBytes data).

Definition GetCommitmentLength (tokenID : Hash) (shardID : Z) : M S Z :=
  data ← Get (list_key commitmentsPrefix tokenID shardID ++ bytes_of "len");
  mret (EC.SetBytes data + 1).

Definition GetCommitmentIndexsByPubkey (tokenID : Hash) (pubkey : bytes) (shardID : Z) : M S (list bytes) :=
  read_list (list_key commitmentsPrefix tokenID shardID ++ pubkey).

Definition CleanCommitments : M S unit := clean commitmentsPrefix.

(** ** Serial number derivators *)

(** The list is one of Go strings, which JSON does not carry over when they are not UTF-8. *)
Definition StoreSNDerivators (tokenID : Hash) (data shardID : Z) : M S unit :=
  let key := list_key snderivatorsPrefix tokenID shardID in
  let snderivatorData := Bytes (Z.abs data) in
  s ← get;
  _ ← Put (key ++ snderivatorData) snderivatorData;
  arrData ← lift (snd (read_list key s));
  write_list key (arrData ++ [text snderivatorData]).

Definition FetchSNDerivator (tokenID : Hash) (shardID : Z) : M S (list Z) :=
  arrData ← read_list (list_key snderivatorsPrefix tokenID shardID);
  mret (map (fun data => EC.SetBytes (bytes_of data)) arrData).

Definition HasSNDerivator (tokenID : Hash) (data shardID : Z) : M S bool :=
  has_key (list_key snderivatorsPrefix tokenID shardID ++ Bytes (Z.abs data)).

Definition CleanSNDerivator : M S unit := clean snderivatorsPrefix.

(** ** Fee estimators *)

Definition StoreFeeEstimator (val : bytes) (shardID : Z) : M S unit :=
  or_err UnexpectedError (Put (feeEstimator ++ [shardID]) val).
Definition GetFeeEstimator (shardID : Z) : M S bytes :=
  or_err UnexpectedError (Get (feeEstimator ++ [shardID])).
Definition CleanFeeEstimator : M S unit := clean feeEstimator.

(** ** The place of a transaction *)

Definition transaction_key (txId : Hash) : bytes := transactionKeyPrefix ++ bytes_of (Hashes.String txId).

Definition StoreTransactionIndex (txId blockHash : Hash) (index : Z) : M S unit :=
  Put (transaction_key txId) (bytes_of (Hashes.String blockHash) ++ Splitter ++ bytes_of (Itoa index)).

Definition GetTransactionIndexById (txId : Hash) : M S (Hash * Z) :=
  let key := transaction_key txId in
  _ ← HasValue key;
  res ← or_err UnexpectedError (Get key);
  let reses := SplitBy res in
  r0 ← lift (part reses 0);
  hash ← or_err UnexpectedError (lift (NewHashFromStr (text r0)));
  r1 ← lift (part reses 1);
  index ← or_err UnexpectedError (lift (Atoi (text r1)));
  mret (hash, index).

(** The height and the index count down from a big number, in 32 bits. *)
Definition light_key (privateKey : bytes) (shardID blockHeight txIndex : Z) : bytes :=
  privateKeyPrefix ++ bytes_of (base58_encode privateKey) ++ Splitter ++
  bytes_of (BeaconVerify.string_of_byte shardID) ++ Splitter ++
  le_bytes 4 (u32 (bigNumber - blockHeight)) ++ Splitter ++ le_bytes 4 (u32 (bigNumberTx - txIndex)).

Definition StoreTransactionLightMode (privateKey : bytes) (shardID blockHeight txIndex : Z)
    (unspentTxHash : Hash) (unspentTx : bytes) : M S unit :=
  let key1 := light_key privateKey shardID blockHeight txIndex in
  let key2 := transaction_key unspentTxHash in
  ok ← HasValue key1;
  _ ← fail_if ok BlockExisted;
  ok ← HasValue key2;
  _ ← fail_if ok BlockExisted;
  _ ← or_err UnexpectedError (Put key1 unspentTx);
  or_err UnexpectedError (Put key2 key1).

(** ** Custom tokens *)

Definition StoreCustomToken (tokenID : Hash) (txHash : bytes) : M S unit :=
  Put (GetKey tokenInitPrefix tokenID) txHash.
Definition StorePrivacyCustomToken (tokenID : Hash) (txHash : bytes) : M S unit :=
  Put (GetKey privacyTokenInitPrefix tokenID) txHash.

Definition token_tx_key (prefix : bytes) (tokenID : Hash) (shardID blockHeight txIndex : Z) : bytes :=
  GetKey prefix tokenID ++ [shardID] ++ le_bytes 8 (u64 (bigNumber - blockHeight)) ++
  le_bytes 4 (u32 (bigNumber - txIndex)).

Definition StoreCustomTokenTx (tokenID : Hash) (shardID blockHeight txIndex : Z) (txHash : bytes) : M S unit :=
  Put (token_tx_key TokenPrefix tokenID shardID blockHeight txIndex) txHash.
Definition StorePrivacyCustomTokenTx (tokenID : Hash) (shardID blockHeight txIndex : Z) (txHash : bytes) :
    M S unit :=
  Put (token_tx_key PrivacyTokenPrefix tokenID shardID blockHeight txIndex) txHash.

(** The keys and values an iterator visits. *)
Definition entries (prefix : bytes) : M S (list (bytes * bytes)) :=
  keys ← iterate prefix;
  s ← get;
  mret (omap (fun k => pair k <$> lv_content s !! k) keys).

Definition ListCustomToken : M S (list bytes) :=
  es ← entries tokenInitPrefix; mret (map snd es).
Definition ListPrivacyCustomToken : M S (list bytes) :=
  es ← entries privacyTokenInitPrefix; mret (map snd es).

(** An error of [SetBytes] leaves the zero hash. *)
Definition hash_value (value : bytes) : Hash := match Hashes.SetBytes value with Ok h => h | _ => zero_hash end.

Definition CustomTokenTxs (tokenID : Hash) : M S (list Hash) :=
  es ← entries (GetKey TokenPrefix tokenID); mret (map (fun e => hash_value (snd e)) es).
Definition PrivacyCustomTokenTxs (tokenID : Hash) : M S (list Hash) :=
  es ← entries (GetKey PrivacyTokenPrefix tokenID); mret (map (fun e => hash_value (snd e)) es).

(** ** Outputs of custom tokens *)

Definition token_key (tokenID : Hash) : bytes :=
  TokenPaymentAddressPrefix ++ Splitter ++ bytes_of (Hashes.String tokenID).

Definition address_key (tokenID : Hash) (address : bytes) : bytes :=
  token_key tokenID ++ Splitter ++ bytes_of (base58_encode address).

Definition utxo_key (tokenID : Hash) (address : bytes) (txHash : Hash) (voutIndex : Z) : bytes :=
  address_key tokenID address ++ Splitter ++ bytes_of (Hashes.String txHash) ++ Splitter ++ [u8 voutIndex].

(** The body of a loop over the entries, which panics on a value with fewer parts. *)
Definition fold_entries {A} (f : A -> list bytes -> list bytes -> outcome A) (init : A)
    (es : list (bytes * bytes)) : outcome A :=
  foldl (fun acc e => a ← acc; f a (SplitBy (fst e)) (SplitBy (snd e))) (Ok init) es.

(** The prefix takes the bytes of the hash, where the keys have its text; the order of the
    result is that of a Go map. *)
Definition GetCustomTokenListPaymentAddress (tokenID : Hash) : M S (gset bytes) :=
  es ← entries (TokenPaymentAddressPrefix ++ Splitter ++ tokenID);
  lift (fold_entries (fun acc keys values =>
    v1 ← part values 1;
    if bool_decide (v1 = Unspent) then k2 ← part keys 2; Ok ({[k2]} ∪ acc) else Ok acc) ∅ es).

(** The address is decoded and encoded again; an error leaves no bytes, of which
    [SetBytes] panics. *)
Definition normal_address (key : bytes) : outcome string :=
  addr ← PaymentAddress_SetBytes (match base58_decode (text key) with Ok b => b | _ => [] end);
  Ok (base58_encode (PaymentAddress_Bytes addr)).

Definition add_balance (m : gmap string Z) (address : string) (value : bytes) : gmap string Z :=
  <[address := u64 (default 0 (m !! address) + u64 (atoi_value (text value)))]> m.

Definition GetCustomTokenPaymentAddressesBalance (tokenID : Hash) : M S (gmap string Z) :=
  es ← entries (token_key tokenID);
  lift (fold_entries (fun acc keys values =>
    v1 ← part values 1;
    if bool_decide (v1 = Unspent) then
      k2 ← part keys 2; address ← normal_address k2; v0 ← part values 0; Ok (add_balance acc address v0)
    else Ok acc) ∅ es).

Definition GetCustomTokenPaymentAddressesBalanceUnreward (tokenID : Hash) : M S (gmap string Z) :=
  es ← entries (token_key tokenID);
  lift (fold_entries (fun acc keys values =>
    v1 ← part values 1;
    if bool_decide (v1 = Unspent) then
      v2 ← part values 2;
      if bool_decide (v2 = Unreward) then k2 ← part keys 2; v0 ← part values 0; Ok (add_balance acc (text k2) v0)
      else Ok acc
    else Ok acc) ∅ es).

Definition GetCustomTokenPaymentAddressUTXO (tokenID : Hash) (paymentAddress : bytes) : M S (gmap bytes bytes) :=
  es ← entries (address_key tokenID paymentAddress); mret (list_to_map es).

(** The new value is written without the splitters. *)
Definition UpdateRewardAccountUTXO (tokenID : Hash) (paymentAddress : bytes) (txHash : Hash) (voutIndex : Z) :
    M S unit :=
  let key := utxo_key tokenID paymentAddress txHash voutIndex in
  _ ← HasValue key;
  res ← Get key;
  let reses := SplitBy res in
  r0 ← lift (part reses 0);
  r1 ← lift (part reses 1);
  Put key (r0 ++ r1 ++ rewared).
End Ops.

(** ** Lists under a key *)

Lemma text_bytes s : text (bytes_of s) = s.
Proof.
  unfold text. induction s as [|a s IH]; [done|]. cbn. rewrite N2Z.id, ascii_N_embedding. by rewrite IH.
Qed.

Lemma bytes_value x : 0 <= x -> EC.SetBytes (Bytes x) = x.
Proof.
  intros Hx. unfold EC.SetBytes, Bytes, be_value, Base58.big_bytes. rewrite rev_involutive, le_value_radix.
  apply radix_digits_value; [lia|]. split; [done|]. by apply log2_fuel.
Qed.

Lemma index_value n : EC.SetBytes (new_index n) = Z.of_nat n.
Proof. unfold new_index. destruct (Nat.eqb_spec n 0) as [->|]; [done|]. apply bytes_value. lia. Qed.

Lemma index_inj n m : new_index n = new_index m -> n = m.
Proof. intros E. apply (f_equal EC.SetBytes) in E. rewrite !index_value in E. lia. Qed.

Lemma index_bytes n : Forall in_u8 (new_index n).
Proof.
  unfold new_index. destruct (n =? 0)%nat; [by repeat constructor|]. unfold Bytes, Base58.big_bytes.
  apply Forall_rev. eapply Forall_impl; [apply radix_digits_range; lia|done].
Qed.

Lemma index_length n : Z.of_nat n < 65536 -> (1 <= length (new_index n) <= 2)%nat.
Proof.
  intros Hn. unfold new_index. destruct (Nat.eqb_spec n 0) as [->|]; [simpl; lia|].
  unfold Bytes, Base58.big_bytes. rewrite length_rev. split.
  - destruct (radix_digits 256 _ (Z.of_nat n)) as [|] eqn:E; [|simpl; lia].
    assert (EC.SetBytes (Bytes (Z.of_nat n)) = 0) as H0 by (unfold Bytes, Base58.big_bytes; by rewrite E).
    rewrite bytes_value in H0 by lia. lia.
  - rewrite (digits_fuel 256 _ 2); [apply digits_length|lia| |lia]. split; [lia|]. apply log2_fuel. lia.
Qed.

Section Lists.
Context {S : Type} {lvdb : LevelDB S} {js : ListsJson}.

Definition enc (l : list bytes) : bytes := bytes_of (Marshal l).
(** What is under a key that holds a list. *)
Definition list_value (l : list bytes) : option bytes := match l with [] => None | _ => Some (enc l) end.

Lemma read_list_value (key : bytes) (l : list bytes) s :
  Forall (Forall in_u8) l -> lv_content s !! key = list_value l -> read_list key s = (s, Ok l).
Proof.
  intros Hl E. unfold read_list, list_of. rewrite E. destruct l as [|b l]; [done|]. cbn [list_value default].
  destruct (enc (b :: l)) as [|x e] eqn:Hx.
  - unfold enc in Hx. destruct (Marshal (b :: l)) eqn:Hm; [|done].
    exfalso. by apply (lists_nonempty (b :: l)).
  - rewrite <- Hx. unfold enc. rewrite text_bytes, json_roundtrip; [done|]. by apply lists_json_ok.
Qed.

Lemma raw_put_ok k v s s' u : Put k v s = (s', Ok u) -> lv_content s' = <[k := v]> (lv_content s).
Proof. unfold Put. destruct (lv_Put k v s) eqn:E; intros [= <-]. by apply lv_Put_ok. Qed.

Lemma write_list_ok key (l : list bytes) s s' u :
  write_list key l s = (s', Ok u) -> lv_content s' = <[key := enc l]> (lv_content s).
Proof. apply raw_put_ok. Qed.

Lemma mfor_snoc {A} (f : A -> M S unit) xs x s s' :
  mfor f (xs ++ [x]) s = (s', Ok tt) <-> exists s1, mfor f xs s = (s1, Ok tt) /\ f x s1 = (s', Ok tt).
Proof.
  revert s. induction xs as [|y xs IH]; intros s; cbn [mfor app].
  - mrun. split.
    + destruct (f x s) as [s1 [[]| |]] eqn:E; intros [= <-]. eauto.
    + intros (s1 & [= <-] & ->). done.
  - mrun. destruct (f y s) as [s1 [[]| |]]; [apply IH|..]; (split; [done|by intros (? & [=] & _)]).
Qed.

(** What is under the extensions of a key. *)
Definition under (key : bytes) (s : S) (x : bytes) : option bytes := lv_content s !! (key ++ x).

Lemma under_insert (key : bytes) (m : gmap bytes bytes) (x y v : bytes) :
  (<[key ++ x := v]> m) !! (key ++ y) = if decide (x = y) then Some v else m !! (key ++ y).
Proof.
  destruct (decide (x = y)) as [->|Hne]; [by rewrite lookup_insert_eq|].
  rewrite lookup_insert_ne; [done|]. intros E. by apply app_inv_head in E.
Qed.

Lemma under_insert_nil (key : bytes) (m : gmap bytes bytes) (y v : bytes) :
  (<[key := v]> m) !! (key ++ y) = if decide (y = []) then Some v else m !! (key ++ y).
Proof.
  destruct (decide (y = [])) as [->|Hne]; [by rewrite app_nil_r, lookup_insert_eq|].
  rewrite lookup_insert_ne; [done|]. intros E. apply (f_equal length) in E. rewrite length_app in E.
  destruct y; [done|]. simpl in E. lia.
Qed.

Lemma read_under (key : bytes) (l : list bytes) s :
  Forall (Forall in_u8) l -> under key s [] = list_value l -> read_list key s = (s, Ok l).
Proof. unfold under. rewrite app_nil_r. apply read_list_value. Qed.

(** ** Serial numbers *)

Record numbers (key : bytes) (l : list bytes) (s : S) : Prop := {
  numbers_list : under key s [] = list_value l;
  numbers_has x : x <> [] -> (is_Some (under key s x) <-> x ∈ l)
}.

Lemma store_number tok sh (l : list bytes) (sn : bytes) s s' :
  let key := list_key serialNumbersPrefix tok sh in
  Forall (Forall in_u8) l -> sn <> [] -> numbers key l s ->
  StoreSerialNumbers tok sn sh s = (s', Ok tt) -> numbers key (l ++ [sn]) s'.
Proof.
  intros key Hl Hne [Hlist Hhas] H. unfold StoreSerialNumbers in H. fold key in H. clearbody key.
  apply M_bind_ok in H as (s1 & arr & Hr & H). rewrite (read_under key l) in Hr by done.
  injection Hr as <- <-. apply M_bind_ok in H as (s1 & [] & H1 & H).
  apply raw_put_ok in H1. apply write_list_ok in H. split.
  - unfold under. rewrite H, under_insert_nil. by destruct l.
  - intros x Hx. unfold under. rewrite H, H1, under_insert_nil, under_insert, decide_False by done.
    rewrite elem_of_app, list_elem_of_singleton.
    destruct (decide (sn = x)) as [->|]; [by split; [right|eexists]|]. rewrite (Hhas x Hx).
    split; [by left|by intros [?| ->]].
Qed.

(** The serial numbers of a token on a shard are the set of those that were stored: after
    any sequence of stores that succeed, on a store that had none, the list is read back in
    the order of the stores, and [HasSerialNumber], which is what stops a coin from being
    spent twice, is true of exactly these. *)
Theorem serial_numbers_set (tok : Hash) (sh : Z) (l : list bytes) (s0 s : S) :
  (forall x, lv_content s0 !! (list_key serialNumbersPrefix tok sh ++ x) = None) ->
  Forall (fun sn => sn <> [] /\ Forall in_u8 sn) l ->
  mfor (fun sn => StoreSerialNumbers tok sn sh) l s0 = (s, Ok tt) ->
  FetchSerialNumbers tok sh s = (s, Ok l) /\
  forall sn, sn <> [] -> HasSerialNumber tok sn sh s = (s, Ok (bool_decide (sn ∈ l))).
Proof.
  intros H0 Hl Hrun. assert (numbers (list_key serialNumbersPrefix tok sh) l s) as [Hlist Hhas].
  { revert s Hrun. induction l as [|sn l IH] using rev_ind; intros s Hrun.
    - injection Hrun as <-. split; [apply H0|]. intros x Hx. unfold under. rewrite H0.
      split; [by intros []|by intros ?%not_elem_of_nil].
    - apply Forall_app in Hl as [Hl [[Hne _] _]%Forall_cons]. apply mfor_snoc in Hrun as (s1 & H1 & H).
      eapply store_number; [|done|by apply IH|done]. eapply Forall_impl; [exact Hl|]. by intros ? []. }
  split.
  - apply read_under; [eapply Forall_impl; [exact Hl|]; by intros ? []|done].
  - intros sn Hne. unfold HasSerialNumber, has_key. do 2 f_equal. by apply bool_decide_ext, Hhas.
Qed.

(** ** Commitments *)

(** The indices at which a public key got a commitment, and the first index of one. *)
Definition indices (p : bytes) (log : list (bytes * bytes)) : list bytes :=
  omap (fun '(i, e) => if decide (e.1 = p) then Some (new_index i) else None) (imap pair log).

Definition position (c : bytes) (l : list bytes) : option nat := fst <$> list_find (c =.) l.

Record commits (key : bytes) (log : list (bytes * bytes)) (s : S) : Prop := {
  commits_list : under key s [] = list_value log.*2;
  commits_index i : Z.of_nat i < 65536 -> under key s (new_index i) = log.*2 !! i;
  commits_len : under key s (bytes_of "len") =
    match log with [] => None | _ => Some (new_index (length log - 1)) end;
  commits_has c : length c = 33%nat -> c ∉ log.*1 -> under key s c = new_index <$> position c log.*2;
  commits_key p : length p = 33%nat -> p ∉ log.*2 -> under key s p = list_value (indices p log)
}.

(** Keys and commitments have the length of compressed points, and no bytes are both. *)
Definition commits_ok (log : list (bytes * bytes)) : Prop :=
  Z.of_nat (length log) <= 65536 /\ NoDup log.*2 /\
  Forall (fun e => length e.1 = 33%nat /\ length e.2 = 33%nat /\ Forall in_u8 e.1 /\ Forall in_u8 e.2) log /\
  (forall x, x ∈ log.*1 -> x ∉ log.*2).

Lemma commits_ok_app log log' : commits_ok (log ++ log') -> commits_ok log.
Proof.
  intros (Hlen & Hnd & Hall & Hsep). rewrite length_app in Hlen. rewrite !fmap_app in *. split; [lia|].
  split; [by apply NoDup_app in Hnd as []|]. split; [by apply Forall_app in Hall as []|].
  intros x Hx1 Hx2. apply (Hsep x); apply elem_of_app; by left.
Qed.

Lemma indices_snoc p log e :
  indices p (log ++ [e]) = indices p log ++ (if decide (e.1 = p) then [new_index (length log)] else []).
Proof.
  unfold indices. rewrite imap_app, omap_app. f_equal. cbn. rewrite Nat.add_0_r. by destruct (decide _).
Qed.

Lemma indices_bytes p log : Forall (Forall in_u8) (indices p log).
Proof.
  apply Forall_forall. intros x Hx. unfold indices in Hx. apply list_elem_of_omap in Hx as ([i e] & _ & Hx).
  destruct (decide _); [|done]. injection Hx as <-. apply index_bytes.
Qed.

Lemma position_snoc c d (l : list bytes) :
  d ∉ l -> position c (l ++ [d]) = if decide (d = c) then Some (length l) else position c l.
Proof.
  intros Hd. unfold position. induction l as [|x l IH]; cbn [app list_find length].
  - destruct (decide (d = c)) as [->|]; [by rewrite decide_True|by rewrite decide_False by congruence].
  - apply not_elem_of_cons in Hd as [Hne Hd]. destruct (decide (c = x)) as [->|].
    + by rewrite decide_False.
    + specialize (IH Hd). destruct (list_find (c =.) (l ++ [d])) as [[]|], (list_find (c =.) l) as [[]|];
        destruct (decide (d = c)); cbn in *; congruence.
Qed.

Lemma store_commitment tok sh log (pk c : bytes) s s' :
  let key := list_key commitmentsPrefix tok sh in
  commits_ok (log ++ [(pk, c)]) -> commits key log s ->
  StoreCommitments tok pk c sh s = (s', Ok tt) -> commits key (log ++ [(pk, c)]) s'.
Proof.
  intros key Hok Hlog H. unfold StoreCommitments in H. fold key in H. clearbody key. destruct Hlog as [Hlist Hidx Hln Hhas Hkey].
  pose proof Hok as (Hlen & Hnd & Hall & Hsep). rewrite length_app in Hlen. rewrite !fmap_app in Hnd. setoid_rewrite fmap_app in Hsep. cbn in Hlen, Hnd, Hsep. apply Forall_app in Hall as [Hall [(Hpk & Hc & Bpk & Bc) _]%Forall_cons]. cbn in Hpk, Hc, Bpk, Bc.
  assert (Forall (Forall in_u8) log.*2) as Hb.
  { apply Forall_fmap. eapply Forall_impl; [exact Hall|]. by intros ? (_ & _ & _ & ?). }
  apply M_bind_ok in H as (s1 & arr & Hr & H). rewrite (read_under key log.*2) in Hr by done.
  injection Hr as <- <-. rewrite length_fmap in H. set (ix := new_index (length log)) in *.
  apply M_bind_ok in H as (s1 & [] & H1%raw_put_ok & H).
  apply M_bind_ok in H as (s2 & [] & H2%raw_put_ok & H).
  apply M_bind_ok in H as (s3 & [] & H3%raw_put_ok & H).
  apply NoDup_app in Hnd as (_ & Hnew & _).
  assert (c ∉ log.*2) as Hnc by (intros Hin; apply (Hnew c Hin); by left).
  assert (pk ∉ log.*2 ++ [c]) as Hnp by (apply Hsep; apply elem_of_app; right; by left).
  assert (c ∉ log.*1) as Hcn by (intros Hin; apply (Hsep c); apply elem_of_app; [by left|right; by left]).
  assert (pk <> c) as Hpc by (intros ->; apply Hnp, elem_of_app; right; by left).
  assert (forall x : bytes, length x = 33%nat -> x <> ix /\ x <> bytes_of "len" /\ x <> []) as Hlong.
  { intros x Hx. pose proof (index_length (length log) ltac:(lia)) as Hi. fold ix in Hi.
    split; [|split]; intros ->; simpl in Hx; lia. }
  assert (forall n, Z.of_nat n < 65536 -> new_index n <> bytes_of "len" /\ new_index n <> [] /\
            (forall x : bytes, length x = 33%nat -> x <> new_index n)) as Hshort.
  { intros n Hn. pose proof (index_length n Hn). repeat split; [intros E|intros E|intros x Hx E];
      [rewrite E in *; simpl in *; lia..|rewrite <- E in *; lia]. }
  assert (read_list (key ++ pk) s3 = (s3, Ok (indices pk log))) as Hr3.
  { apply read_list_value; [apply indices_bytes|]. rewrite H3, H2, H1.
    destruct (Hlong pk Hpk) as (? & ? & ?). rewrite !under_insert, !decide_False by congruence.
    apply Hkey; [done|]. intros Hin. apply Hnp, elem_of_app. by left. }
  apply M_bind_ok in H as (s4 & arr & Hr & H). rewrite Hr3 in Hr. injection Hr as <- <-.
  apply M_bind_ok in H as (s4 & [] & H4%write_list_ok & H). apply write_list_ok in H.
  assert (forall x, under key s' x =
    if decide (x = []) then Some (enc (log.*2 ++ [c]))
    else if decide (pk = x) then Some (enc (indices pk log ++ [ix]))
    else if decide (bytes_of "len" = x) then Some ix
    else if decide (c = x) then Some ix
    else if decide (ix = x) then Some c else under key s x) as Hnewmap.
  { intros x. unfold under. by rewrite H, under_insert_nil, H4, under_insert, H3, under_insert, H2, under_insert, H1, under_insert. }
  clear H H1 H2 H3 H4 Hr3. split.
  - rewrite Hnewmap, decide_True by done. rewrite fmap_app. by destruct log.*2.
  - intros i Hi. rewrite fmap_app, Hnewmap. destruct (Hshort i Hi) as (? & ? & Hx).
    rewrite decide_False by done. rewrite decide_False by (by apply Hx). rewrite decide_False by done.
    rewrite decide_False by (by apply Hx). unfold ix. destruct (decide _) as [<-%index_inj|Hne].
    + rewrite lookup_app_r; rewrite length_fmap; [|done]. by rewrite Nat.sub_diag.
    + rewrite Hidx by done. destruct (decide (i < length log)%nat).
      * by rewrite lookup_app_l by by rewrite length_fmap.
      * rewrite (lookup_ge_None_2 log.*2) by (rewrite length_fmap; lia).
        symmetry. apply lookup_ge_None_2. rewrite length_app, length_fmap. cbn.
        assert (i <> length log) by (by intros ->). lia.
  - rewrite Hnewmap. rewrite decide_False by done. rewrite decide_False by (by apply Hlong).
    rewrite decide_True by done. rewrite length_app. cbn. replace (length log + 1 - 1)%nat with (length log) by lia.
    unfold ix. by destruct log.
  - intros x Hx. rewrite !fmap_app, Hnewmap. cbn. intros [Hx1 Hx2%not_elem_of_cons]%not_elem_of_app.
    destruct (Hlong x Hx) as (? & ? & ?), Hx2 as [? _]. rewrite (decide_False (P := x = [])) by done.
    rewrite (decide_False (P := pk = x)), (decide_False (P := bytes_of "len" = x)) by congruence.
    rewrite position_snoc by done.
    rewrite length_fmap. destruct (decide (c = x)); [done|]. rewrite decide_False by congruence. by apply Hhas.
  - intros p Hp. rewrite fmap_app, Hnewmap. cbn [fmap list_fmap snd]. intros [Hp1 Hp2%not_elem_of_cons]%not_elem_of_app.
    destruct (Hlong p Hp) as (? & ? & ?), Hp2 as [? _]. rewrite (decide_False (P := p = [])) by done.
    rewrite indices_snoc. cbn [fst]. destruct (decide (pk = p)) as [->|].
    + fold ix. by destruct (indices p log).
    + rewrite !decide_False by congruence. rewrite app_nil_r. by apply Hkey.
Qed.
End Lists.

Section Queries.
Context {S : Type} {lvdb : LevelDB S} {js : ListsJson} {sha : Sha256}.

Lemma get_under (key x : bytes) s :
  Get (key ++ x) s = (s, match under key s x with Some v => Ok v | None => Err LvDbNotFound end).
Proof. done. Qed.

Lemma has_under (key x : bytes) s : has_key (key ++ x) s = (s, Ok (bool_decide (is_Some (under key s x)))).
Proof. done. Qed.

Lemma commits_stored tok sh log (s0 s : S) :
  (forall x, under (list_key commitmentsPrefix tok sh) s0 x = None) -> commits_ok log ->
  mfor (fun e => StoreCommitments tok e.1 e.2 sh) log s0 = (s, Ok tt) ->
  commits (list_key commitmentsPrefix tok sh) log s.
Proof.
  intros H0. revert s. induction log as [|[pk c] log IH] using rev_ind; intros s Hok Hrun.
  - injection Hrun as <-. split; intros; rewrite H0; [done|by destruct i|done..].
  - apply mfor_snoc in Hrun as (s1 & H1 & H). eapply store_commitment; [done| |done].
    apply IH; [by eapply commits_ok_app|done].
Qed.

Lemma position_lookup c (l : list bytes) i : NoDup l -> l !! i = Some c -> position c l = Some i.
Proof.
  intros Hnd Hi. unfold position. destruct (list_find (c =.) l) as [[j d]|] eqn:E; cbn.
  - apply list_find_Some in E as (Hj & <- & _). f_equal. by eapply NoDup_lookup.
  - apply list_find_None in E. rewrite Forall_forall in E. exfalso. eapply (E c); [|done].
    by eapply list_elem_of_lookup_2.
Qed.

Lemma position_elem c (l : list bytes) : is_Some (position c l) <-> c ∈ l.
Proof.
  unfold position. rewrite fmap_is_Some. split.
  - intros [[j d] (Hj & <- & _)%list_find_Some]. by eapply list_elem_of_lookup_2.
  - intros Hc. by apply (list_find_elem_of _ _ c).
Qed.

Lemma indices_some p (log : list (bytes * bytes)) : is_Some (list_value (indices p log)) <-> p ∈ log.*1.
Proof.
  assert (indices p log <> [] <-> p ∈ log.*1) as H.
  { unfold indices. rewrite list_elem_of_fmap. split.
    - intros Hne. destruct (omap _ _) as [|x l] eqn:E; [done|]. assert (x ∈ omap (fun '(i, e) =>
        if decide (e.1 = p) then Some (new_index i) else None) (imap pair log)) as Hx by (rewrite E; left).
      apply list_elem_of_omap in Hx as ([i e] & Hie & Hd). apply elem_of_lookup_imap in Hie as (j & e' & [= <- <-] & Hj).
      exists e. case_decide; [|done]. split; [done|]. by eapply list_elem_of_lookup_2.
    - intros (e & -> & [i Hi]%list_elem_of_lookup_1) Hnil. assert (new_index i ∈ omap (fun '(i, e') =>
        if decide (e'.1 = e.1) then Some (new_index i) else None) (imap pair log)) as Hx; [|by rewrite Hnil in Hx; apply elem_of_nil in Hx].
      apply list_elem_of_omap. exists (i, e). split; [|by rewrite decide_True]. apply elem_of_lookup_imap. by exists i, e. }
  rewrite <- H. unfold list_value. destruct (indices p log); split; [by intros [? ?]|done|done|by eexists].
Qed.

(** C11. The commitments of a token on a shard are a list in the order of the stores.  After
    any sequence of stores that succeed on a store that had none, with distinct commitments
    none of which is a public key and at most 65536 of them, every query answers as the list
    does: the list, its length, the commitment at an index and the index of a commitment
    (what the decoys of a private payment are drawn by), and the indices that belong to a
    public key.  Membership is true of the commitments, and of the public keys they were
    stored for as well, as both are kept under keys of one space. *)
Theorem commitments_refine (tok : Hash) (sh : Z) (log : list (bytes * bytes)) (s0 s : S) :
  (forall x, lv_content s0 !! (list_key commitmentsPrefix tok sh ++ x) = None) -> commits_ok log ->
  mfor (fun e => StoreCommitments tok e.1 e.2 sh) log s0 = (s, Ok tt) ->
  FetchCommitments tok sh s = (s, Ok log.*2) /\
  (log <> [] -> GetCommitmentLength tok sh s = (s, Ok (Z.of_nat (length log)))) /\
  (forall i c, log.*2 !! i = Some c ->
     GetCommitmentByIndex tok (Z.of_nat i) sh s = (s, Ok c) /\
     GetCommitmentIndex tok c sh s = (s, Ok (Z.of_nat i))) /\
  (forall c, length c = 33%nat ->
     HasCommitment tok c sh s = (s, Ok (bool_decide (c ∈ log.*2 \/ c ∈ log.*1)))) /\
  (forall p, length p = 33%nat -> p ∉ log.*2 ->
     GetCommitmentIndexsByPubkey tok p sh s = (s, Ok (indices p log))).
Proof.
  intros H0 Hok Hrun. destruct (commits_stored _ _ _ _ _ H0 Hok Hrun) as [Hlist Hidx Hln Hhas Hkey].
  destruct Hok as (Hlen & Hnd & Hall & Hsep). split; [|split; [|split; [|split]]].
  - apply read_under; [|done]. apply Forall_fmap. eapply Forall_impl; [exact Hall|]. by intros ? (_ & _ & _ & ?).
  - intros Hne. unfold GetCommitmentLength, mbind, M_bind. rewrite get_under, Hln. destruct log as [|e log]; [done|]. rewrite index_value.
    unfold mret, M_ret. do 2 f_equal. cbn [length]. lia.
  - intros i c Hi. pose proof (lookup_lt_Some _ _ _ Hi) as Hlt. rewrite length_fmap in Hlt. split.
    + assert ((if Z.of_nat i =? 0 then [0] else Bytes (Z.of_nat i)) = new_index i) as E by by destruct i.
      unfold GetCommitmentByIndex. by rewrite E, get_under, Hidx, Hi by lia.
    + unfold GetCommitmentIndex, mbind, M_bind. rewrite get_under. pose proof (list_elem_of_lookup_2 _ _ _ Hi) as Hin.
      assert (length c = 33%nat) as Hc.
      { apply list_elem_of_fmap in Hin as ([p d] & -> & Hin). rewrite Forall_forall in Hall. by apply Hall in Hin as (_ & ? & _). }
      rewrite Hhas; [|done|by intros ?%Hsep]. rewrite (position_lookup _ _ i) by done. cbn. by rewrite index_value.
  - intros c Hc. unfold HasCommitment. rewrite has_under. do 2 f_equal. apply bool_decide_ext. destruct (decide (c ∈ log.*1)) as [Hin|Hn].
    + rewrite Hkey by auto. rewrite indices_some. tauto.
    + rewrite Hhas by done. rewrite fmap_is_Some, position_elem. tauto.
  - intros p Hp Hn. apply read_list_value; [apply indices_bytes|by apply Hkey].
Qed.

(** Public keys and commitments share their keys: once an output of a public key is stored,
    the public key passes for a commitment. *)
Lemma commitment_key_confusion tok sh (pk c : bytes) (s s' : S) :
  pk <> [] -> StoreCommitments tok pk c sh s = (s', Ok tt) -> HasCommitment tok pk sh s' = (s', Ok true).
Proof.
  intros Hpk H. unfold StoreCommitments in H.
  apply M_bind_ok in H as (s1 & arr & [= <- _] & H).
  apply M_bind_ok in H as (s1 & [] & _ & H). apply M_bind_ok in H as (s2 & [] & _ & H).
  apply M_bind_ok in H as (s3 & [] & _ & H). apply M_bind_ok in H as (s4 & a & _ & H).
  apply M_bind_ok in H as (s5 & [] & H4%write_list_ok & H%write_list_ok).
  unfold HasCommitment, has_key. rewrite H, under_insert_nil, decide_False, H4, under_insert, decide_True by done.
  by rewrite bool_decide_true by by eexists.
Qed.
End Queries.
(** ** Concrete stores *)

Section Samples.
#[local] Instance sample_json : ListsJson.
Proof.
  refine {| lists_json := {| json_ok := fun _ => True; Marshal := fun l => String.String "["%char (text_of l);
              Unmarshal := fun s => match s with String.String _ r => of_text r | _ => Err "" end;
              json_roundtrip := fun a _ => of_text_of a |};
            names_json := countable_json |}; done.
Defined.

Lemma run_fst {A B} (p : A * outcome B) b : snd p = Ok b -> p = (fst p, Ok b).
Proof. destruct p. cbn. by intros ->. Qed.

Definition sample_tok : Hash := ConstantID.
Definition sample_log : list (bytes * bytes) :=
  [(replicate 33 2, replicate 33 5); (replicate 33 3, replicate 33 6); (replicate 33 2, replicate 33 7)].
Definition sample_commits : gmap bytes bytes :=
  fst (mfor (fun e => StoreCommitments sample_tok e.1 e.2 0) sample_log (∅ : gmap bytes bytes)).

Lemma commitments_refine_witness :
  FetchCommitments sample_tok 0 sample_commits = (sample_commits, Ok [replicate 33 5; replicate 33 6; replicate 33 7]) /\
  GetCommitmentIndexsByPubkey sample_tok (replicate 33 2) 0 sample_commits = (sample_commits, Ok [[0]; [2]]) /\
  HasCommitment sample_tok (replicate 33 6) 0 sample_commits = (sample_commits, Ok true) /\
  HasCommitment sample_tok (replicate 33 2) 0 sample_commits = (sample_commits, Ok true) /\
  HasCommitment sample_tok (replicate 33 9) 0 sample_commits = (sample_commits, Ok false).
Proof.
  destruct (commitments_refine sample_tok 0 sample_log ∅ sample_commits) as (H1 & _ & _ & H4 & H5).
  - intros x. exact (lookup_empty (M := gmap bytes) (A := bytes) _).
  - split; [vm_compute; congruence|]. split; [apply (bool_decide_eq_true_1 _); vm_compute; reflexivity|].
    split; [apply (bool_decide_eq_true_1 _); vm_compute; reflexivity|].
    intros x Hx. apply (bool_decide_eq_true_1 _). revert x Hx. apply Forall_forall.
    apply Forall_cons. split; [vm_compute; reflexivity|]. apply Forall_cons. split; [vm_compute; reflexivity|].
    apply Forall_cons. split; [vm_compute; reflexivity|]. apply Forall_nil. exact Logic.I.
  - apply run_fst. vm_compute. reflexivity.
  - split; [exact H1|]. split; [apply (H5 (replicate 33 2)); [reflexivity|]; apply (bool_decide_eq_true_1 _); vm_compute; reflexivity|].
    assert (forall c b, length c = 33%nat -> bool_decide (c ∈ sample_log.*2 \/ c ∈ sample_log.*1) = b ->
      HasCommitment sample_tok c 0 sample_commits = (sample_commits, Ok b)) as Hm by (intros c b Hc <-; exact (H4 c Hc)).
    split; [|split]; (apply Hm; [reflexivity|vm_compute; reflexivity]).
Defined.

Definition sample_numbers : gmap bytes bytes :=
  fst (mfor (fun sn => StoreSerialNumbers sample_tok sn 0) [[7]; [8]] (∅ : gmap bytes bytes)).

Lemma serial_numbers_set_witness :
  HasSerialNumber sample_tok [8] 0 sample_numbers = (sample_numbers, Ok true) /\
  HasSerialNumber sample_tok [9] 0 sample_numbers = (sample_numbers, Ok false).
Proof.
  destruct (serial_numbers_set sample_tok 0 [[7]; [8]] ∅ sample_numbers) as [_ H].
  - intros x. exact (lookup_empty (M := gmap bytes) (A := bytes) _).
  - apply (bool_decide_eq_true_1 _). vm_compute. reflexivity.
  - apply run_fst. vm_compute. reflexivity.
  - split; [apply (H [8]); congruence|apply (H [9]); congruence].
Defined.
End Samples.
End TxStore.
