(* ===== verification/Payment.v ===== *)
(** Payment proofs (src/privacy/zeroknowledge): the proofs that a serial number is derived from
    a coin (snnoprivacy.go, snprivacy.go), that one of many commitments opens to zero
    (oneoutofmany.go, with src/privacy/polynomials.go), and the payment that combines them
    (payment.go).  The aggregated range proof is an interface. *)

From Stdlib Require Import Ascii String.
From S2P Require Import Prelude GoStr Hash Sha256 Base58 Modular EC Schnorr Keys ShardTx Coins LevelDB TxStore.

#[local] Open Scope list_scope.
#[local] Open Scope Z_scope.

(** The proof that the values of the outputs, and their sum, are in range. *)
Class RangeProofs : Type := {
  AggregatedRangeProof : Type;
  range_Verify : AggregatedRangeProof -> outcome bool;
  range_Bytes : AggregatedRangeProof -> bytes
}.

Module Payment.
Import Hashes EC Schnorr Coins.

Definition CMRingSize : nat := 8.
Definition CMRingSizeExp : nat := 3.
Definition OneOfManyProofSize : Z := 716.
Definition SNPrivacyProofSize : Z := 326.
Definition SNNoPrivacyProofSize : Z := 196.
Definition Uint64Size : nat := 8.

(** A method of a nil pointer panics. *)
Definition deref {A} (o : option A) : outcome A := match o with Some x => Ok x | None => Panic end.

Section Proofs.
Context {curve : Curve} {sha : Sha256}.

(** A point, or a number, of a fixed width at the front of some bytes. *)
Definition point_at (b : bytes) : outcome (EllipticPoint * bytes) :=
  if (length b <? CompressedPointSize)%nat then Panic
  else p ← decompressed (take CompressedPointSize b); Ok (p, drop CompressedPointSize b).

Definition int_at (b : bytes) : outcome (Z * bytes) :=
  if (length b <? BigIntSize)%nat then Panic else Ok (SetBytes (take BigIntSize b), drop BigIntSize b).

Fixpoint points_at (n : nat) (b : bytes) : outcome (list EllipticPoint * bytes) :=
  match n with
  | O => Ok ([], b)
  | S n => '(p, b) ← point_at b; '(ps, b) ← points_at n b; Ok (p :: ps, b)
  end.

Fixpoint ints_at (n : nat) (b : bytes) : outcome (list Z * bytes) :=
  match n with
  | O => Ok ([], b)
  | S n => '(x, b) ← int_at b; '(xs, b) ← ints_at n b; Ok (x :: xs, b)
  end.

(** The five generators of [privacy.PedCom]. *)
Context (PedCom_G : list EllipticPoint).

Definition gen (i : nat) : outcome EllipticPoint := deref (PedCom_G !! i).
#[local] Abbreviation CommitAtIndex := (CommitAtIndex PedCom_G).

Definition generateChallenge (values : list bytes) : Z :=
  SetBytes (HashB (concat (map Compress PedCom_G) ++ concat values)) mod curve_N.

(** [x.SetBytes(mess)], or the challenge when there is no message. *)
Definition challenge (mess : option bytes) (values : list bytes) : Z :=
  match mess with None => generateChallenge values | Some m => SetBytes m end.

(** ** The serial number of a coin that is known *)

Record SNNoPrivacyStatement := mkSNNo { output : EllipticPoint; vKey : EllipticPoint; input : Z }.
Record SNNoPrivacyWitness := mkSNNoWit { nowit_stmt : SNNoPrivacyStatement; seed : Z }.
Record SNNoPrivacyProof := mkSNNoProof {
  no_stmt : SNNoPrivacyStatement;
  tSeed : EllipticPoint;
  tOutput : EllipticPoint;
  zSeed : Z
}.

(** [eSK] is the random scalar. *)
Definition SNNoPrivacy_Prove (wit : SNNoPrivacyWitness) (eSK : Z) (mess : option bytes) : outcome SNNoPrivacyProof :=
  g ← gen SK;
  let tSK := ScalarMult g eSK in
  let tE := ScalarMult (output (nowit_stmt wit)) eSK in
  let x := challenge mess [Compress tSK; Compress tE] in
  Ok (mkSNNoProof (nowit_stmt wit) tSK tE ((seed wit * x + eSK) mod curve_N)).

Definition SNNoPrivacy_Verify (pro : SNNoPrivacyProof) (mess : option bytes) : outcome bool :=
  let x := challenge mess [Compress (tSeed pro); Compress (tOutput pro)] in
  g ← gen SK;
  if IsEqual (ScalarMult g (zSeed pro)) (Add (ScalarMult (vKey (no_stmt pro)) x) (tSeed pro)) then
    Ok (IsEqual (ScalarMult (output (no_stmt pro)) (zSeed pro + x * input (no_stmt pro)))
          (Add (ScalarMult g x) (tOutput pro)))
  else Ok false.

Definition SNNoPrivacy_Bytes (pro : SNNoPrivacyProof) : bytes :=
  let st := no_stmt pro in
  Compress (output st) ++ Compress (vKey st) ++ AddPaddingBigInt (input st) BigIntSize ++
  Compress (tSeed pro) ++ Compress (tOutput pro) ++ AddPaddingBigInt (zSeed pro) BigIntSize.

(** What is in [pro] stays when there are no bytes; [spare] follows the bytes in their array,
    and is read when they are too few. *)
Definition SNNoPrivacy_SetBytes (b spare : bytes) (pro : SNNoPrivacyProof) : outcome SNNoPrivacyProof :=
  match b with
  | [] => Ok pro
  | _ =>
      let b := b ++ spare in
      '(out, b) ← point_at b; '(vk, b) ← point_at b; '(inp, b) ← int_at b;
      '(ts, b) ← point_at b; '(to, b) ← point_at b; '(zs, b) ← int_at b;
      Ok (mkSNNoProof (mkSNNo out vk inp) ts to zs)
  end.

(** ** The serial number of a coin that is committed to *)

Record SNPrivacyStatement := mkSN { sn : EllipticPoint; comSK : EllipticPoint; comInput : EllipticPoint }.
Record SNPrivacyWitness := mkSNWit { wit_stmt : SNPrivacyStatement; sk : Z; rSK : Z; wit_input : Z; rInput : Z }.
Record SNPrivacyProof := mkSNProof {
  stmt : SNPrivacyStatement;
  tSK : EllipticPoint;
  tInput : EllipticPoint;
  tSN : EllipticPoint;
  zSK : Z;
  zRSK : Z;
  zInput : Z;
  zRInput : Z
}.

(** The random scalars, in the order they are drawn. *)
Record SNDraw := mkSNDraw { eSK : Z; eSND : Z; dSK : Z; dSND : Z }.

Definition SNPrivacy_Prove (wit : SNPrivacyWitness) (d : SNDraw) (mess : option bytes) : outcome SNPrivacyProof :=
  tSeed ← CommitAtIndex (eSK d) (dSK d) SK;
  tInput ← CommitAtIndex (eSND d) (dSND d) SND;
  let tOutput := ScalarMult (sn (wit_stmt wit)) (eSK d + eSND d) in
  let x := challenge mess [Compress tSeed; Compress tInput; Compress tOutput] in
  Ok (mkSNProof (wit_stmt wit) tSeed tInput tOutput
        ((sk wit * x + eSK d) mod curve_N) ((rSK wit * x + dSK d) mod curve_N)
        ((wit_input wit * x + eSND d) mod curve_N) ((rInput wit * x + dSND d) mod curve_N)).

Definition SNPrivacy_Verify (proof : SNPrivacyProof) (mess : option bytes) : outcome bool :=
  let x := challenge mess [Compress (tSK proof); Compress (tInput proof); Compress (tSN proof)] in
  let st := stmt proof in
  leftPoint1 ← CommitAtIndex (zInput proof) (zRInput proof) SND;
  if IsEqual leftPoint1 (Add (ScalarMult (comInput st) x) (tInput proof)) then
    leftPoint2 ← CommitAtIndex (zSK proof) (zRSK proof) SK;
    if IsEqual leftPoint2 (Add (ScalarMult (comSK st) x) (tSK proof)) then
      g ← gen SK;
      Ok (IsEqual (ScalarMult (sn st) (zSK proof + zInput proof)) (Add (ScalarMult g x) (tSN proof)))
    else Ok false
  else Ok false.

Definition SNPrivacy_Bytes (proof : SNPrivacyProof) : bytes :=
  let st := stmt proof in
  Compress (sn st) ++ Compress (comSK st) ++ Compress (comInput st) ++
  Compress (tSK proof) ++ Compress (tInput proof) ++ Compress (tSN proof) ++
  AddPaddingBigInt (zSK proof) BigIntSize ++ AddPaddingBigInt (zRSK proof) BigIntSize ++
  AddPaddingBigInt (zInput proof) BigIntSize ++ AddPaddingBigInt (zRInput proof) BigIntSize.

Definition SNPrivacy_SetBytes (b spare : bytes) (proof : SNPrivacyProof) : outcome SNPrivacyProof :=
  match b with
  | [] => Ok proof
  | _ =>
      let b := b ++ spare in
      '(s, b) ← point_at b; '(ck, b) ← point_at b; '(ci, b) ← point_at b;
      '(tk, b) ← point_at b; '(ti, b) ← point_at b; '(ts, b) ← point_at b;
      '(zk, b) ← int_at b; '(zrk, b) ← int_at b; '(zi, b) ← int_at b; '(zri, b) ← int_at b;
      Ok (mkSNProof (mkSN s ck ci) tk ti ts zk zrk zi zri)
  end.

(** ** One of many commitments opens to zero *)

(** Polynomials from the constant up; [trim] drops zeros at the end, but not the constant. *)
Fixpoint trim (p : list Z) : list Z :=
  match p with
  | [] => []
  | [c] => [c]
  | c :: p' => match trim p' with [0] => [c] | t => c :: t end
  end.

Definition sanitize (p : list Z) : list Z := trim (map (fun c => c mod curve_N) p).

Fixpoint poly_sum (p q : list Z) : list Z :=
  match p, q with
  | [], _ => q
  | _, [] => p
  | a :: p', b :: q' => (a + b) :: poly_sum p' q'
  end.

Definition Poly_Sub (p q : list Z) : list Z := sanitize (poly_sum p (map Z.opp q)).

Fixpoint poly_product (p q : list Z) : list Z :=
  match p with
  | [] => []
  | [a] => map (Z.mul a) q
  | a :: p' => poly_sum (map (Z.mul a) q) (0 :: poly_product p' q)
  end.

Definition Poly_Mul (p q : list Z) : list Z := sanitize (poly_product (sanitize p) (sanitize q)).

(** The factor of one bit of an index: [a + l x], or [x] less it. *)
Definition bit_factor (bit l a : Z) : list Z := if bit =? 0 then Poly_Sub [0; 1] [a; l] else [a; l].

(** The coefficient of the [k]th power in the product over the bits of an index. *)
Definition GetCoefficient (iBinary : bytes) (k : nat) (a l : list Z) : Z :=
  let p := foldr (fun '(bit, (aj, lj)) res => Poly_Mul res (bit_factor bit lj aj)) [1] (zip iBinary (zip a l)) in
  default 0 (p !! k).

Record OneOutOfManyProof := mkOneOf {
  cl : list EllipticPoint;
  ca : list EllipticPoint;
  cb : list EllipticPoint;
  cd : list EllipticPoint;
  f : list Z;
  za : list Z;
  zb : list Z;
  zd : Z
}.

(** The random scalars of one bit. *)
Record RingDraw := mkRingDraw { dr : Z; da : Z; ds : Z; dt : Z; du : Z }.

Definition ring_indices : list nat := seq 0 CMRingSize.
Definition bits_of (i : nat) : bytes := ConvertIntToBinary (Z.of_nat i) CMRingSizeExp.

(** The challenge is chained over the bits. *)
Definition ring_challenge (pr : OneOutOfManyProof) : outcome Z :=
  foldl (fun x j =>
    x ← x;
    l ← deref (cl pr !! j); a ← deref (ca pr !! j); b ← deref (cb pr !! j); d ← deref (cd pr !! j);
    Ok (generateChallenge [AddPaddingBigInt x BigIntSize; Compress l; Compress a; Compress b; Compress d]))
    (Ok 0) (seq 0 CMRingSizeExp).

Definition sum_points (ps : list EllipticPoint) : EllipticPoint := foldl Add infinity ps.

(** [x ^ k] as [big.Int.Exp] with a modulus computes it. *)
Definition power (x : Z) (k : nat) : Z := powmod x (Z.of_nat k) curve_N.

Definition bit_commitment (d : RingDraw) (l : Z) : outcome (EllipticPoint * EllipticPoint * EllipticPoint) :=
  c ← CommitAtIndex l (dr d) SK;
  a ← CommitAtIndex (da d) (ds d) SK;
  b ← CommitAtIndex (l * da d) (dt d) SK;
  Ok (c, a, b).

Definition coefficient_commitment (commitments : list EllipticPoint) (a l : list Z) (k : nat) (u : Z) : outcome EllipticPoint :=
  h ← CommitAtIndex 0 u SK;
  Ok (Add (sum_points (map (fun '(i, c) => ScalarMult c (GetCoefficient (bits_of i) k a l)) (zip ring_indices commitments))) h).

Fixpoint with_index {A B} (g : nat -> A -> outcome B) (k : nat) (l : list A) : outcome (list B) :=
  match l with
  | [] => Ok []
  | x :: l => y ← g k x; ys ← with_index g (S k) l; Ok (y :: ys)
  end.

(** [draws] has one entry for each bit. *)
Definition OneOutOfMany_Prove (commitments : list EllipticPoint) (rand : Z) (indexIsZero : nat) (draws : list RingDraw) :
    outcome OneOutOfManyProof :=
  if negb (length commitments =? CMRingSize)%nat then
    Err "the number of Commitment list's elements must be equal to CMRingSize"%string
  else if (CMRingSize <? indexIsZero)%nat then Err "Index is zero must be Index in list of commitments"%string
  else
    let l := bits_of indexIsZero in
    cs ← with_index (fun j d => bit_commitment d (default 0 (l !! j))) 0 draws;
    cds ← with_index (fun k d => coefficient_commitment commitments (map da draws) l k (du d)) 0 draws;
    let pr := mkOneOf (map (fun c => c.1.1) cs) (map (fun c => c.1.2) cs) (map snd cs) cds [] [] [] 0 in
    x ← ring_challenge pr;
    let f := map (fun '(b, d) => (b * x + da d) mod curve_N) (zip l draws) in
    Ok (mkOneOf (cl pr) (ca pr) (cb pr) (cd pr) f
          (map (fun d => (dr d * x + ds d) mod curve_N) draws)
          (map (fun '(fj, d) => ((x - fj) * dr d + dt d) mod curve_N) (zip f draws))
          ((power x CMRingSizeExp * rand -
             foldl (fun acc '(k, d) => (acc + power x k * du d) mod curve_N) 0 (zip (seq 0 CMRingSizeExp) draws)) mod curve_N)).

(** The exponent of a commitment: the product over the bits of its index. *)
Definition ring_exponent (x : Z) (fs : list Z) (bits : bytes) : Z :=
  foldl (fun exp '(bit, fj) => (exp * (if bit =? 1 then fj else (x - fj) mod curve_N)) mod curve_N) 1 (zip bits fs).

Definition check_bit (x : Z) (pr : OneOutOfManyProof) (i : nat) : outcome bool :=
  l ← deref (cl pr !! i); a ← deref (ca pr !! i);
  fi ← deref (f pr !! i); zai ← deref (za pr !! i);
  rightPoint1 ← CommitAtIndex fi zai SK;
  if IsEqual (Add (ScalarMult l x) a) rightPoint1 then
    b ← deref (cb pr !! i); zbi ← deref (zb pr !! i);
    rightPoint2 ← CommitAtIndex 0 zbi SK;
    Ok (IsEqual (Add (ScalarMult l ((x - fi) mod curve_N)) b) rightPoint2)
  else Ok false.

Fixpoint check_bits (x : Z) (pr : OneOutOfManyProof) (js : list nat) : outcome bool :=
  match js with
  | [] => Ok true
  | i :: js => ok ← check_bit x pr i; if (ok : bool) then check_bits x pr js else Ok false
  end.

Definition OneOutOfMany_Verify (commitments : list EllipticPoint) (pr : OneOutOfManyProof) : outcome bool :=
  if negb (length commitments =? CMRingSize)%nat then Ok false
  else
    x ← ring_challenge pr;
    ok ← check_bits x pr (seq 0 CMRingSizeExp);
    if (ok : bool) then
      let leftPoint3 := sum_points (map (fun '(i, c) => ScalarMult c (ring_exponent x (f pr) (bits_of i))) (zip ring_indices commitments)) in
      let leftPoint32 := sum_points (map (fun '(k, d) => ScalarMult d (curve_N - power x k)) (zip (seq 0 CMRingSizeExp) (cd pr))) in
      rightPoint3 ← CommitAtIndex 0 (zd pr) SK;
      Ok (IsEqual (Add leftPoint3 leftPoint32) rightPoint3)
    else Ok false.

Definition OneOutOfMany_Bytes (pr : OneOutOfManyProof) : bytes :=
  let points ps := concat (map Compress ps) in
  let ints xs := concat (map (fun x => AddPaddingBigInt x BigIntSize) xs) in
  points (cl pr) ++ points (ca pr) ++ points (cb pr) ++ points (cd pr) ++ ints (f pr) ++ ints (za pr) ++ ints (zb pr) ++
  AddPaddingBigInt (zd pr) BigIntSize.

Definition OneOutOfMany_SetBytes (b spare : bytes) (pr : OneOutOfManyProof) : outcome OneOutOfManyProof :=
  match b with
  | [] => Ok pr
  | _ =>
      let b := b ++ spare in
      '(cl, b) ← points_at CMRingSizeExp b; '(ca, b) ← points_at CMRingSizeExp b;
      '(cb, b) ← points_at CMRingSizeExp b; '(cd, b) ← points_at CMRingSizeExp b;
      '(f, b) ← ints_at CMRingSizeExp b; '(za, b) ← ints_at CMRingSizeExp b; '(zb, b) ← ints_at CMRingSizeExp b;
      '(zd, b) ← int_at b;
      Ok (mkOneOf cl ca cb cd f za zb zd)
  end.
End Proofs.

(** ** Payments *)

Section Payment.
Context {curve : Curve} {sha : Sha256} {ranges : RangeProofs} {F : Type}.
Context (PedCom_G : list EllipticPoint).

(** The parts of a payment proof besides the coins. *)
Record ProofParts := mkParts {
  OneOfManyProof : list OneOutOfManyProof;
  SerialNumberProof : list SNPrivacyProof;
  SNNoPrivacyProofs : list SNNoPrivacyProof;
  RangeProof : option AggregatedRangeProof;
  ComOutputValue : list EllipticPoint;
  ComOutputSND : list EllipticPoint;
  ComOutputShardID : list EllipticPoint;
  ComInputSK : option EllipticPoint;
  ComInputValue : list EllipticPoint;
  ComInputSND : list EllipticPoint;
  ComInputShardID : option EllipticPoint;
  CommitmentIndices : list Z
}.

#[export] Instance payment_coin_ops : OutputCoinOps OutputCoin := output_coin_ops ProofParts F.
#[local] Abbreviation PaymentProof := (ShardTx.PaymentProof (C := OutputCoin)).
#[local] Abbreviation proof_InputCoins := ShardTx.proof_InputCoins.
#[local] Abbreviation proof_OutputCoins := ShardTx.proof_OutputCoins.
#[local] Abbreviation proof_rest := ShardTx.proof_rest.
#[local] Abbreviation gen := (gen PedCom_G).

(** A length byte and the bytes. *)
Definition sized (b : bytes) : bytes := u8 (Z.of_nat (length b)) :: b.
Definition counted {A} (bytes_of : A -> bytes) (l : list A) : bytes := u8 (Z.of_nat (length l)) :: concat (map bytes_of l).
Definition compressed_field (p : EllipticPoint) : bytes := Z.of_nat CompressedPointSize :: Compress p.
Definition optional_field (p : option EllipticPoint) : bytes := match p with Some p => compressed_field p | None => [0] end.

(** With privacy the range proof is there, and a nil one panics. *)
Definition PaymentProof_Bytes (proof : PaymentProof) : outcome bytes :=
  let r := proof_rest proof in
  range ← (if (0 <? length (OneOfManyProof r))%nat
           then p ← deref (RangeProof r); Ok (IntToByteArr (Z.of_nat (length (range_Bytes p))) ++ range_Bytes p)
           else Ok [0; 0]);
  Ok (counted (fun p => IntToByteArr OneOfManyProofSize ++ OneOutOfMany_Bytes p) (OneOfManyProof r) ++
      counted (fun p => IntToByteArr SNPrivacyProofSize ++ SNPrivacy_Bytes p) (SerialNumberProof r) ++
      counted (fun p => u8 SNNoPrivacyProofSize :: SNNoPrivacy_Bytes p) (SNNoPrivacyProofs r) ++
      range ++
      counted (fun c => sized (InputCoin_Bytes c)) (proof_InputCoins proof) ++
      counted (fun c => sized (OutputCoin_Bytes c)) (proof_OutputCoins proof) ++
      counted compressed_field (ComOutputValue r) ++ counted compressed_field (ComOutputSND r) ++
      counted compressed_field (ComOutputShardID r) ++ optional_field (ComInputSK r) ++
      counted compressed_field (ComInputValue r) ++ counted compressed_field (ComInputSND r) ++
      optional_field (ComInputShardID r) ++
      concat (map (fun i => AddPaddingBigInt (i64 i) Uint64Size) (CommitmentIndices r))).

(** *** Without privacy *)

(** The commitment to what a coin says of itself; a value is read as a signed number. *)
Definition coin_sum (d : Coin) (shard : Z) : outcome EllipticPoint :=
  pk ← deref (PublicKey d);
  gv ← gen VALUE;
  let cmTmp := Add pk (ScalarMult gv (i64 (Coin_Value d))) in
  snd ← deref (SNDerivator d); gs ← gen SND;
  let cmTmp := Add cmTmp (ScalarMult gs snd) in
  gh ← gen SHARDID;
  let cmTmp := Add cmTmp (ScalarMult gh shard) in
  r ← deref (Randomness d); gr ← gen RAND;
  Ok (Add cmTmp (ScalarMult gr r)).

(** Whether it is the commitment the coin has. *)
Definition commitment_ok (d : Coin) (shard : Z) : outcome bool :=
  cmTmp ← coin_sum d shard;
  cm ← deref (CoinCommitment d);
  Ok (IsEqual cmTmp cm).

(** The inputs: the proof at the same place is verified by itself, and the shard is the last
    byte of the sender's key. *)
Fixpoint check_inputs (pubKey : bytes) (inputs : list InputCoin) (proofs : list SNNoPrivacyProof) (sum : Z) : outcome (option Z) :=
  match inputs with
  | [] => Ok (Some sum)
  | c :: inputs =>
      match proofs with
      | [] => Panic
      | p :: proofs =>
          ok ← SNNoPrivacy_Verify PedCom_G p None;
          if (ok : bool) then
            lastByte ← deref (last pubKey);
            ok ← commitment_ok (input_details c) (SetBytes [lastByte]);
            if (ok : bool) then check_inputs pubKey inputs proofs (u64 (sum + Coin_Value (input_details c))) else Ok None
          else Ok None
      end
  end.

Fixpoint check_outputs (outputs : list OutputCoin) (sum : Z) : outcome (option Z) :=
  match outputs with
  | [] => Ok (Some sum)
  | c :: outputs =>
      let d := CoinDetails c in
      lastByte ← Coin_GetPubKeyLastByte d;
      ok ← commitment_ok d (SetBytes [GetShardIDFromLastByte lastByte]);
      if (ok : bool) then check_outputs outputs (u64 (sum + Coin_Value d)) else Ok None
  end.

Definition Verify_no_privacy (proof : PaymentProof) (pubKey : bytes) (fee : Z) : outcome bool :=
  sumInput ← check_inputs pubKey (proof_InputCoins proof) (SNNoPrivacyProofs (proof_rest proof)) 0;
  match sumInput with
  | None => Ok false
  | Some sumInputValue =>
      sumOutput ← check_outputs (proof_OutputCoins proof) 0;
      match sumOutput with
      | None => Ok false
      | Some sumOutputValue => Ok (sumInputValue =? u64 (sumOutputValue + fee))
      end
  end.

(** *** With privacy *)

Section Ring.
Context {S : Type} {lvdb : LevelDB S}.

(** A failure is noted instead of returned. *)
Definition attempt {A} (m : M S A) : M S (option A) := fun s =>
  match m s with (s', Ok a) => (s', Ok (Some a)) | (s', Err _) => (s', Ok None) | (s', Panic) => (s', Panic) end.

(** The commitments of the ring, less the sum of the input's commitments. *)
Fixpoint ring_commitments (tok : Hash) (sh : Z) (cmInputSum : EllipticPoint) (n : nat) (indices : list Z) :
    M S (option (list EllipticPoint)) :=
  match n with
  | O => mret (Some [])
  | Datatypes.S n =>
      match indices with
      | [] => gopanic
      | index :: indices =>
          r ← attempt (commitmentBytes ← TxStore.GetCommitmentByIndex tok index sh;
                       p ← lift (decompressed commitmentBytes);
                       lift (Sub p cmInputSum));
          match r with
          | None => mret None
          | Some c => rest ← ring_commitments tok sh cmInputSum n indices; mret (cons c <$> rest)
          end
      end
  end.

Definition check_ring_input (tok : Hash) (sh : Z) (r : ProofParts) (i : nat) (p : OneOutOfManyProof) : M S bool :=
  sk ← lift (deref (ComInputSK r));
  v ← lift (deref (ComInputValue r !! i));
  sd ← lift (deref (ComInputSND r !! i));
  h ← lift (deref (ComInputShardID r));
  ring ← ring_commitments tok sh (Add (Add (Add sk v) sd) h) CMRingSize (drop (i * CMRingSize) (CommitmentIndices r));
  match ring with
  | None => mret false
  | Some commitments =>
      ok ← lift (OneOutOfMany_Verify PedCom_G commitments p);
      if (ok : bool) then
        q ← lift (deref (SerialNumberProof r !! i));
        lift (SNPrivacy_Verify PedCom_G q None)
      else mret false
  end.

Fixpoint check_ring_inputs (tok : Hash) (sh : Z) (r : ProofParts) (i : nat) (ps : list OneOutOfManyProof) : M S bool :=
  match ps with
  | [] => mret true
  | p :: ps =>
      ok ← check_ring_input tok sh r i p;
      if (ok : bool) then check_ring_inputs tok sh r (Datatypes.S i) ps else mret false
  end.

Fixpoint check_hidden_outputs (r : ProofParts) (i : nat) (outputs : list OutputCoin) : outcome bool :=
  match outputs with
  | [] => Ok true
  | c :: outputs =>
      pk ← deref (PublicKey (CoinDetails c));
      v ← deref (ComOutputValue r !! i);
      sd ← deref (ComOutputSND r !! i);
      h ← deref (ComOutputShardID r !! i);
      cm ← deref (CoinCommitment (CoinDetails c));
      if IsEqual (Add (Add (Add pk v) sd) h) cm then check_hidden_outputs r (Datatypes.S i) outputs else Ok false
  end.

Definition Verify_privacy (proof : PaymentProof) (fee : Z) (sh : Z) (tok : Hash) : M S bool :=
  let r := proof_rest proof in
  ok ← check_ring_inputs tok sh r 0 (OneOfManyProof r);
  if (ok : bool) then
    ok ← lift (check_hidden_outputs r 0 (proof_OutputCoins proof));
    if (ok : bool) then
      range ← lift (deref (RangeProof r));
      ok ← lift (range_Verify range);
      if (ok : bool) then
        gv ← lift (gen VALUE);
        let comOutputValueSum := sum_points (ComOutputValue r) in
        let comOutputValueSum := if 0 <? fee then Add comOutputValueSum (ScalarMult gv (i64 fee)) else comOutputValueSum in
        mret (IsEqual (sum_points (ComInputValue r)) comOutputValueSum)
      else mret false
    else mret false
  else mret false.

Definition Verify (hasPrivacy : bool) (proof : PaymentProof) (pubKey : bytes) (fee : Z) (sh : Z) (tok : Hash) : M S bool :=
  if hasPrivacy then Verify_privacy proof fee sh tok else lift (Verify_no_privacy proof pubKey fee).
End Ring.
End Payment.

(** ** Completeness of the proofs of serial numbers *)

Section Complete.
Context {curve : Curve} {sha : Sha256}.
Context (PedCom_G : list EllipticPoint) (g h gs : EllipticPoint).
Context (Hg : PedCom_G !! SK = Some g) (Hh : PedCom_G !! RAND = Some h) (Hs : PedCom_G !! SND = Some gs).
Context (Ong : on_curve g) (Onh : on_curve h) (Ons : on_curve gs).

Lemma IsEqual_refl (p : EllipticPoint) : IsEqual p p = true.
Proof using. unfold IsEqual. by rewrite !bool_decide_true. Qed.

Lemma IsEqual_true (p q : EllipticPoint) : IsEqual p q = true -> p = q.
Proof using.
  unfold IsEqual. intros [H1%bool_decide_eq_true H2%bool_decide_eq_true]%andb_prop. by destruct p, q; cbn in *; subst.
Qed.

Lemma challenge_range mess values : (forall m, mess = Some m -> Forall in_u8 m) -> 0 <= challenge PedCom_G mess values.
Proof using.
  intros Hm. destruct mess as [m|]; cbn.
  - apply SetBytes_bound. by apply Hm.
  - apply mod_N_range.
Qed.

(** An answer [(a x + e) mod N] to a challenge opens [p^a] to the power [x] times [p^e]. *)
Lemma answer_point (p : EllipticPoint) a e x :
  on_curve p -> on_curve (ScalarMult p a) -> 0 <= a -> 0 <= e -> 0 <= x ->
  ScalarMult p ((a * x + e) mod curve_N) = Add (ScalarMult (ScalarMult p a) x) (ScalarMult p e).
Proof using.
  intros Hp Hpa Ha He Hx. rewrite ScalarMult_mod by (done || nia). rewrite ScalarMult_plus by (done || nia).
  by rewrite ScalarMult_times.
Qed.

(** The proof that a serial number belongs to a coin that is known is accepted: for a key
    and a derivator whose sum is not a multiple of the order, and the serial number that times
    that sum is the generator, what [Prove] answers to any message, or to its own challenge, is
    accepted by [Verify]. *)
Theorem sn_no_privacy_complete (wit : SNNoPrivacyWitness) (e : Z) (mess : option bytes) :
  (forall m, mess = Some m -> Forall in_u8 m) ->
  0 <= seed wit -> 0 <= input (nowit_stmt wit) -> 0 <= e ->
  vKey (nowit_stmt wit) = ScalarMult g (seed wit) -> on_curve (vKey (nowit_stmt wit)) ->
  on_curve (output (nowit_stmt wit)) ->
  ScalarMult (output (nowit_stmt wit)) (seed wit + input (nowit_stmt wit)) = g ->
  exists pro, SNNoPrivacy_Prove PedCom_G wit e mess = Ok pro /\
    no_stmt pro = nowit_stmt wit /\ SNNoPrivacy_Verify PedCom_G pro mess = Ok true.
Proof using Hg Ong.
  intros Hm Hk Hi He Hv Onv Ono Hout. unfold SNNoPrivacy_Prove, SNNoPrivacy_Verify, gen. rewrite Hg. cbn [deref].
  eexists. split; [reflexivity|]. split; [reflexivity|]. cbn [no_stmt tSeed tOutput zSeed].
  set (x := challenge _ _ _). assert (0 <= x) as Hx by by apply challenge_range.
  cbn. rewrite Hv in *. rewrite answer_point, IsEqual_refl by done. f_equal.
  set (o := output (nowit_stmt wit)) in *. set (d := input (nowit_stmt wit)) in *.
  assert (ScalarMult o ((seed wit * x + e) mod curve_N + x * d) = Add (ScalarMult g x) (ScalarMult o e)) as ->; [|apply IsEqual_refl].
  pose proof (mod_N_range (seed wit * x + e)).
  rewrite <- Hout, ScalarMult_times by (done || (rewrite ?Hout; done) || lia).
  rewrite <- ScalarMult_plus by (done || nia). apply ScalarMult_cong; [done|nia|nia|].
  rewrite Zplus_mod_idemp_l. f_equal. lia.
Qed.

(** A commitment to [a] under [b], opened for a challenge. *)
Lemma answer_commitment (p : EllipticPoint) a b e d x :
  on_curve p -> 0 < a < curve_N -> 0 <= b < curve_N -> 0 <= e -> 0 <= d -> 0 <= x ->
  on_curve (Add (ScalarMult h b) (ScalarMult p a)) ->
  Add (ScalarMult h ((b * x + d) mod curve_N)) (ScalarMult p ((a * x + e) mod curve_N)) =
  Add (ScalarMult (Add (ScalarMult h b) (ScalarMult p a)) x) (Add (ScalarMult h d) (ScalarMult p e)).
Proof using Onh.
  intros Hp Ha Hb He Hd Hx Hon.
  assert (forall q k, on_curve q -> 0 <= k -> valid (ScalarMult q k)) as Hv by auto with curve.
  rewrite (Add_comm (ScalarMult h b)) in Hon |- * by (apply Hv; (done || lia)).
  rewrite commit_times by done. rewrite !ScalarMult_mod, !ScalarMult_plus by (done || nia).
  rewrite (Add_comm (ScalarMult p (a * x)) (ScalarMult h (b * x))) by (apply Hv; (done || nia)).
  rewrite Add_swap by (apply Hv; (done || nia)). done.
Qed.

(** C38. The proof that a serial number belongs to a coin that is only committed to is
    accepted, for keys, derivators and blinding factors below the order. *)
Theorem sn_privacy_complete (wit : SNPrivacyWitness) (d : SNDraw) (mess : option bytes) :
  (forall m, mess = Some m -> Forall in_u8 m) ->
  0 < sk wit < curve_N -> 0 <= rSK wit < curve_N -> 0 < wit_input wit < curve_N -> 0 <= rInput wit < curve_N ->
  0 <= eSK d -> 0 <= eSND d -> 0 <= dSK d -> 0 <= dSND d ->
  CommitAtIndex PedCom_G (sk wit) (rSK wit) SK = Ok (comSK (wit_stmt wit)) -> on_curve (comSK (wit_stmt wit)) ->
  CommitAtIndex PedCom_G (wit_input wit) (rInput wit) SND = Ok (comInput (wit_stmt wit)) -> on_curve (comInput (wit_stmt wit)) ->
  on_curve (sn (wit_stmt wit)) -> ScalarMult (sn (wit_stmt wit)) (sk wit + wit_input wit) = g ->
  exists proof, SNPrivacy_Prove PedCom_G wit d mess = Ok proof /\
    stmt proof = wit_stmt wit /\ SNPrivacy_Verify PedCom_G proof mess = Ok true.
Proof using Hg Hh Hs Ong Onh Ons.
  intros Hm Hk Hrk Hi Hri H1 H2 H3 H4 Ck Onk Ci Oni Onsn Hsn.
  unfold CommitAtIndex in Ck, Ci. rewrite Hg, Hh in Ck. rewrite Hs, Hh in Ci. injection Ck as Ck. injection Ci as Ci.
  unfold SNPrivacy_Prove, SNPrivacy_Verify, gen, CommitAtIndex. rewrite Hg, Hh, Hs.
  eexists. split; [reflexivity|]. split; [reflexivity|]. cbn [stmt tSK tInput tSN zSK zRSK zInput zRInput deref].
  set (x := challenge _ _ _). assert (0 <= x) as Hx by by apply challenge_range.
  rewrite <- Ck in Onk |- *. rewrite <- Ci in Oni |- *. cbn. rewrite !answer_commitment, !IsEqual_refl by done. f_equal.
  set (o := sn (wit_stmt wit)) in *. pose proof (mod_N_range (sk wit * x + eSK d)). pose proof (mod_N_range (wit_input wit * x + eSND d)).
  assert (ScalarMult o ((sk wit * x + eSK d) mod curve_N + (wit_input wit * x + eSND d) mod curve_N) =
          Add (ScalarMult g x) (ScalarMult o (eSK d + eSND d))) as ->; [|apply IsEqual_refl].
  rewrite <- Hsn, ScalarMult_times by (done || (rewrite ?Hsn; done) || lia).
  rewrite <- ScalarMult_plus by (done || nia). apply ScalarMult_cong; [done|nia|nia|].
  rewrite <- Zplus_mod. f_equal. lia.
Qed.
End Complete.

(** ** What a payment is bound to *)

Section Bound.
Context {curve : Curve} {sha : Sha256} {ranges : RangeProofs} {F : Type}.
Context (PedCom_G : list EllipticPoint).
#[local] Hint Extern 0 (OutputCoinOps Coins.OutputCoin) => exact (payment_coin_ops (F := F)) : typeclass_instances.
#[local] Abbreviation PaymentProof := (ShardTx.PaymentProof (C := OutputCoin) (OutputCoinOps0 := payment_coin_ops (F := F))).

(** Two coins that differ in the serial number only. *)
Definition same_but_serial (c c' : InputCoin) : Prop :=
  let d := input_details c in let d' := input_details c' in
  PublicKey d = PublicKey d' /\ CoinCommitment d = CoinCommitment d' /\ SNDerivator d = SNDerivator d' /\
  Randomness d = Randomness d' /\ Coin_Value d = Coin_Value d'.

Lemma commitment_ok_serial c c' shard :
  same_but_serial c c' -> commitment_ok PedCom_G (input_details c) shard = commitment_ok PedCom_G (input_details c') shard.
Proof. intros (E1 & E2 & E3 & E4 & E5). unfold commitment_ok, coin_sum. by rewrite E1, E2, E3, E4, E5. Qed.

Lemma check_inputs_serial pubKey inputs inputs' proofs sum :
  Forall2 same_but_serial inputs inputs' ->
  check_inputs PedCom_G pubKey inputs proofs sum = check_inputs PedCom_G pubKey inputs' proofs sum.
Proof.
  intros H. revert proofs sum. induction H as [|c c' inputs inputs' Hc _ IH]; intros proofs sum; [done|]. cbn.
  destruct proofs as [|p proofs]; [done|]. destruct (SNNoPrivacy_Verify _ p None) as [[]| |]; [|done..]. cbn.
  destruct (deref (last pubKey)); [|done..]. cbn. rewrite (commitment_ok_serial c c') by done.
  destruct (commitment_ok _ _ _) as [[]| |]; [|done..]. cbn. rewrite IH. by destruct Hc as (_ & _ & _ & _ & ->).
Qed.

(** C37. Nothing binds the serial number of an input coin, the mark by which a coin is known to
    be spent: a payment is accepted, or refused, whatever serial numbers its inputs show, so
    that one that is accepted is accepted again with the same coin under another one.  The proofs of the serial numbers are checked
    against the statements they carry; with privacy, the input coins are not looked at. *)
Theorem serial_numbers_unbound {S : Type} {lvdb : LevelDB S} (hasPrivacy : bool) (inputs inputs' : list InputCoin)
    (outputs : list OutputCoin) (parts : ProofParts) (pubKey : bytes) (fee sh : Z) (tok : Hash) (s : S) :
  Forall2 same_but_serial inputs inputs' \/ hasPrivacy = true ->
  Verify (F := F) PedCom_G hasPrivacy (ShardTx.mkProof (C := OutputCoin) inputs outputs parts) pubKey fee sh tok s =
  Verify PedCom_G hasPrivacy (ShardTx.mkProof (C := OutputCoin) inputs' outputs parts) pubKey fee sh tok s.
Proof.
  intros [H| ->]; [|done]. unfold Verify. destruct hasPrivacy; [done|]. unfold Verify_no_privacy. cbn.
  by rewrite (check_inputs_serial pubKey inputs inputs').
Qed.

(** ** Values *)

Definition total (values : list Z) : Z := foldr Z.add 0 values.
Definition input_values (proof : PaymentProof) : list Z :=
  map (fun c => Coin_Value (input_details c)) (ShardTx.proof_InputCoins proof).
Definition output_values (outputs : list OutputCoin) : list Z := map (fun c => Coin_Value (CoinDetails c)) outputs.

Lemma u64_add a b : u64 (u64 a + b) = u64 (a + b).
Proof. unfold u64. by rewrite Zplus_mod_idemp_l. Qed.

Lemma u64_cong a b c : u64 a = u64 b -> u64 (c + a) = u64 (c + b).
Proof. unfold u64. intros E. by rewrite <- (Zplus_mod_idemp_r a), E, Zplus_mod_idemp_r. Qed.

Lemma check_inputs_sum pubKey inputs proofs sum n :
  check_inputs PedCom_G pubKey inputs proofs sum = Ok (Some n) ->
  u64 n = u64 (sum + total (map (fun c => Coin_Value (input_details c)) inputs)).
Proof.
  revert proofs sum. induction inputs as [|c inputs IH]; intros proofs sum; cbn [check_inputs].
  - intros [= ->]. cbn. by rewrite Z.add_0_r.
  - destruct proofs as [|p proofs]; [done|]. destruct (SNNoPrivacy_Verify _ p None) as [[]| |]; [|done..]. cbn.
    destruct (deref (last pubKey)); [|done..]. cbn. destruct (commitment_ok _ _ _) as [[]| |]; [|done..].
    intros ->%IH. rewrite u64_add. f_equal. unfold total. lia.
Qed.

Lemma check_outputs_sum outputs sum n :
  check_outputs PedCom_G outputs sum = Ok (Some n) -> u64 n = u64 (sum + total (output_values outputs)).
Proof.
  revert sum. induction outputs as [|c outputs IH]; intros sum; cbn [check_outputs].
  - intros [= ->]. cbn. by rewrite Z.add_0_r.
  - destruct (Coin_GetPubKeyLastByte _); [|done..]. cbn. destruct (commitment_ok _ _ _) as [[]| |]; [|done..].
    intros ->%IH. rewrite u64_add. f_equal. unfold output_values. cbn [map total foldr]. unfold total. lia.
Qed.

Lemma u64_u64 a : u64 (u64 a) = u64 a.
Proof. unfold u64. by rewrite Zmod_mod. Qed.

(** An output that is committed to in its own shard. *)
Definition committed (c : OutputCoin) : Prop :=
  exists lastByte, Coin_GetPubKeyLastByte (CoinDetails c) = Ok lastByte /\
    commitment_ok PedCom_G (CoinDetails c) (SetBytes [GetShardIDFromLastByte lastByte]) = Ok true.

Lemma check_outputs_ok outputs sum : Forall committed outputs -> u64 sum = sum ->
  check_outputs PedCom_G outputs sum = Ok (Some (u64 (sum + total (output_values outputs)))).
Proof.
  intros H. revert sum. induction H as [|c outputs (b & Hb & Hc) _ IH]; intros sum Hs; cbn [check_outputs].
  - cbn. by rewrite Z.add_0_r, Hs.
  - rewrite Hb. cbn -[SetBytes GetShardIDFromLastByte check_outputs total]. rewrite Hc. cbn -[check_outputs total]. rewrite IH by apply u64_u64. rewrite u64_add. do 3 f_equal. unfold output_values. cbn [map total foldr]. unfold total. lia.
Qed.
End Bound.

(** ** Commitments of coins *)

Section Commitments.
Context {curve : Curve} {sha : Sha256} {ranges : RangeProofs} {F : Type}.
Context (g0 gv gs gh gr : EllipticPoint).
#[local] Abbreviation PedCom_G := [g0; gv; gs; gh; gr].
Context (On0 : on_curve g0) (Onv : on_curve gv) (Ons : on_curve gs) (Onh : on_curve gh) (Onr : on_curve gr).

(** A coin whose fields are scalars, with a key on the curve. *)
Record coin_scalars (c : Coin) (pk : EllipticPoint) (snd r : Z) : Prop := {
  cs_pk : PublicKey c = Some pk;
  cs_on : on_curve pk;
  cs_snd : SNDerivator c = Some snd;
  cs_r : Randomness c = Some r;
  cs_value : 0 <= Coin_Value c;
  cs_snd_pos : 0 <= snd;
  cs_r_pos : 0 <= r
}.

(** What is committed to besides the shard. *)
Definition rest_sum (pk : EllipticPoint) (v snd r : Z) : EllipticPoint :=
  Add (Add (Add pk (ScalarMult gv v)) (ScalarMult gs snd)) (ScalarMult gr r).

Lemma coin_sum_rest (c : Coin) pk snd r shard : coin_scalars c pk snd r -> 0 <= shard ->
  coin_sum PedCom_G c shard = Ok (Add (rest_sum pk (i64 (Coin_Value c)) snd r) (ScalarMult gh shard)).
Proof using On0 Onv Ons Onh Onr.
  intros [E1 Hpk E2 E3 Hv H1 H2] Hshard. unfold coin_sum, gen. rewrite E1, E2, E3. cbn. f_equal.
  assert (valid (ScalarMult gv (i64 (Coin_Value c)))) as Hvv.
  { unfold ScalarMult. replace (curve_ScalarMult gv (Z.abs (i64 (Coin_Value c)))) with (ScalarMult gv (Z.abs (i64 (Coin_Value c))))
      by (unfold ScalarMult; by rewrite Z.abs_idemp). apply ScalarMult_valid; [done|lia]. }
  assert (forall q k, on_curve q -> 0 <= k -> valid (ScalarMult q k)) as Hq by auto with curve.
  unfold rest_sum. rewrite <- !(Add_assoc (Add (Add pk _) _)) by auto with curve. f_equal. apply Add_comm; auto.
Qed.

(** The commitment that [CommitAll] gives a coin. *)
Lemma commit_all_rest (c c' : Coin) pk snd r b :
  coin_scalars c pk snd r -> Coin_GetPubKeyLastByte c = Ok b -> Coin_CommitAll PedCom_G c = Ok c' ->
  0 <= SetBytes [GetShardIDFromLastByte b] ->
  PublicKey c' = PublicKey c /\ SNDerivator c' = SNDerivator c /\ Randomness c' = Randomness c /\ Coin_Value c' = Coin_Value c /\
  CoinCommitment c' = Some (Add (rest_sum pk (Coin_Value c) snd r) (ScalarMult gh (SetBytes [GetShardIDFromLastByte b]))).
Proof using On0 Onv Ons Onh Onr.
  intros [E1 Hpk E2 E3 Hv H1 H2] Hb H Hsh. unfold Coin_CommitAll in H. rewrite Hb in H. cbn -[GetShardIDFromLastByte SetBytes] in H.
  rewrite E1, E2, E3 in H. injection H as <-. cbn -[GetShardIDFromLastByte SetBytes]. rewrite E1, E2, E3. repeat (split; [done|]). f_equal.
  assert (forall q k, on_curve q -> 0 <= k -> valid (ScalarMult q k)) as Hq by auto with curve.
  rewrite (ScalarMult_0 g0) by done. rewrite !Add_infinity_l by auto with curve. unfold rest_sum.
  set (v := ScalarMult gv _). set (s := ScalarMult gs _). set (t := ScalarMult gh _). set (u := ScalarMult gr _).
  assert (valid v /\ valid s /\ valid t /\ valid u) as (Vv & Vs & Vt & Vu) by (repeat split; apply Hq; done).
  assert (valid pk) as Vpk by auto with curve.
  rewrite (Add_comm _ pk) by auto with curve.
  rewrite !Add_assoc by auto with curve. rewrite <- !(Add_assoc (Add (Add pk v) s)) by auto with curve.
  f_equal. apply Add_comm; done.
Qed.

(** The sum of two points determines the second. *)
Lemma Add_cancel p q r : valid p -> valid q -> valid r -> Add p q = Add p r -> q = r.
Proof using.
  intros Hp Hq Hr E. destruct Hp as [->|Hp]; [by rewrite !Add_infinity_l in E|].
  set (n := mkPoint (X p) ((curve_P - Y p) mod curve_P)).
  assert (Add p n = infinity) as Hn by by apply add_inverse.
  assert (valid n) as Vn by by right; apply inverse_on.
  apply (f_equal (Add n)) in E. rewrite !Add_assoc in E by auto with curve.
  rewrite (Add_comm n p) in E by auto with curve. rewrite Hn, !Add_infinity_l in E by done. done.
Qed.

Lemma ScalarMult_inj p a b : on_curve p -> 0 <= a -> 0 <= b -> ScalarMult p a = ScalarMult p b -> a mod curve_N = b mod curve_N.
Proof using.
  intros Hp Ha Hb E. pose proof curve_order. pose proof (mod_N_range a). pose proof (mod_N_range b).
  rewrite <- (ScalarMult_mod p a), <- (ScalarMult_mod p b) in E by done.
  assert (forall x y, 0 <= x <= y -> y < curve_N -> ScalarMult p x = ScalarMult p y -> x = y) as Hle.
  { intros x y Hxy Hy Exy. replace y with (x + (y - x)) in Exy by lia. rewrite ScalarMult_plus in Exy by (done || lia).
    rewrite <- (Add_infinity_r (ScalarMult p x)) in Exy at 1 by (apply ScalarMult_valid; [done|lia]).
    apply Add_cancel in Exy; [|apply ScalarMult_valid; [done|lia]|apply infinity_valid|apply ScalarMult_valid; [done|lia]].
    destruct (decide (y - x = 0)); [lia|]. exfalso.
    assert (on_curve (ScalarMult p (y - x))) as Hon by (apply ScalarMult_on; [done|lia|rewrite Z.mod_small; lia]).
    rewrite <- Exy in Hon. destruct Hon as (_ & _ & Hon). pose proof infinity_off as Hoff. cbn in Hon. congruence. }
  destruct (Z.le_ge_cases (a mod curve_N) (b mod curve_N)); [apply Hle; (done || lia)|symmetry; apply Hle; (done || lia)].
Qed.
End Commitments.

(** ** Balance *)

Section Balance.
Context {curve : Curve} {sha : Sha256} {ranges : RangeProofs} {F : Type}.
Context (g0 gv gs gh gr : EllipticPoint).
#[local] Abbreviation PedCom_G := [g0; gv; gs; gh; gr].
Context (On0 : on_curve g0) (Onv : on_curve gv) (Ons : on_curve gs) (Onh : on_curve gh) (Onr : on_curve gr).
#[local] Hint Extern 0 (OutputCoinOps Coins.OutputCoin) => exact (payment_coin_ops (F := F)) : typeclass_instances.
#[local] Abbreviation PaymentProof := (ShardTx.PaymentProof (C := OutputCoin) (OutputCoinOps0 := payment_coin_ops (F := F))).

Lemma i64_half v : 0 <= v <= 2 ^ 63 -> Z.abs (i64 v) = v.
Proof using. intros Hv. unfold i64. destruct (decide (v = 2 ^ 63)) as [->|]; [done|]. rewrite Z.mod_small; lia. Qed.

Lemma one_byte b : 0 <= SetBytes [GetShardIDFromLastByte b].
Proof using.
  unfold GetShardIDFromLastByte, SetBytes, be_value. change MAX_SHARD_NUMBER with 4. cbn -[Z.modulo].
  pose proof (Z.mod_pos_bound b 4 ltac:(lia)). lia.
Qed.

Lemma commit_all_value (c c' : Coin) : Coin_CommitAll PedCom_G c = Ok c' -> Coin_Value c' = Coin_Value c.
Proof using.
  unfold Coin_CommitAll. destruct (Coin_GetPubKeyLastByte c); [|done..]. cbn.
  destruct (PublicKey c), (SNDerivator c), (Randomness c); try done. by intros [= <-].
Qed.

(** A coin that [CommitAll] completed, of a value that a signed number can take up to its
    sign, is committed to as an output. *)
Lemma committed_all (c c' : Coin) e pk snd r :
  coin_scalars c pk snd r -> Coin_Value c <= 2 ^ 63 -> Coin_CommitAll PedCom_G c = Ok c' ->
  committed PedCom_G (mkOutputCoin c' e).
Proof using On0 Onv Ons Onh Onr.
  intros Hc Hv H. destruct (Coin_GetPubKeyLastByte c) as [b| |] eqn:Hb; [|by unfold Coin_CommitAll in H; rewrite Hb in H..].
  destruct (commit_all_rest g0 gv gs gh gr On0 Onv Ons Onh Onr c c' pk snd r b Hc Hb H (one_byte b)) as (E1 & E2 & E3 & E4 & E5).
  exists b. cbn [CoinDetails]. split; [unfold Coin_GetPubKeyLastByte in *; by rewrite E1|].
  assert (coin_scalars c' pk snd r) as Hc'.
  { destruct Hc. split; [by rewrite E1|done|by rewrite E2|by rewrite E3|by rewrite E4|done|done]. }
  unfold commitment_ok. rewrite (coin_sum_rest g0 gv gs gh gr On0 Onv Ons Onh Onr c' pk snd r) by (done || apply one_byte).
  rewrite E5. cbn -[GetShardIDFromLastByte SetBytes rest_sum]. f_equal.
  replace (rest_sum gv gs gr pk (i64 (Coin_Value c')) snd r) with (rest_sum gv gs gr pk (Coin_Value c) snd r); [apply IsEqual_refl|].
  unfold rest_sum, ScalarMult. rewrite E4, i64_half by (destruct Hc; lia). rewrite (Z.abs_eq (Coin_Value c)) by apply Hc. done.
Qed.

(** C21. A payment without privacy that is accepted pays out, with the fee, what it takes in,
    modulo 2^64 only: when the sums stay below 2^64 the values are conserved.  When they do not,
    coins are made: the payment of any two coins of 2^63, completed by [CommitAll], that spends
    no coin at all and pays no fee, is accepted. *)
Theorem payment_balance (proof : PaymentProof) (pubKey : bytes) (fee : Z) :
  (Verify_no_privacy PedCom_G proof pubKey fee = Ok true ->
   let paid := total (output_values (ShardTx.proof_OutputCoins proof)) + fee in
   u64 (total (input_values proof)) = u64 paid /\
   (in_u64 (total (input_values proof)) -> in_u64 paid -> total (input_values proof) = paid)) /\
  (forall c1 c2 d1 d2 pk1 pk2 snd1 snd2 r1 r2 parts,
     coin_scalars c1 pk1 snd1 r1 -> coin_scalars c2 pk2 snd2 r2 ->
     Coin_Value c1 = 2 ^ 63 -> Coin_Value c2 = 2 ^ 63 ->
     Coin_CommitAll PedCom_G c1 = Ok d1 -> Coin_CommitAll PedCom_G c2 = Ok d2 ->
     Verify_no_privacy (F := F) PedCom_G (ShardTx.mkProof (C := OutputCoin) [] [mkOutputCoin d1 None; mkOutputCoin d2 None] parts)
       pubKey 0 = Ok true).
Proof using On0 Onv Ons Onh Onr.
  split.
  - unfold Verify_no_privacy. destruct (check_inputs _ _ _ _ _) as [[n|]| |] eqn:Hin; [|done..].
    destruct (check_outputs _ _ _) as [[m|]| |] eqn:Hout; [|done..]. intros [= E]. apply Z.eqb_eq in E.
    apply check_inputs_sum in Hin. apply check_outputs_sum in Hout. rewrite Z.add_0_l in Hin, Hout. fold (input_values proof) in Hin.
    assert (u64 (total (input_values proof)) = u64 (total (output_values (ShardTx.proof_OutputCoins proof)) + fee)) as Heq.
    { rewrite <- Hin, E, u64_u64, !(Z.add_comm _ fee). by apply u64_cong. }
    split; [done|]. unfold u64, in_u64 in *. intros H1 H2. rewrite !Z.mod_small in Heq by lia. done.
  - intros c1 c2 d1 d2 pk1 pk2 snd1 snd2 r1 r2 parts H1 H2 V1 V2 E1 E2. unfold Verify_no_privacy. cbn [ShardTx.proof_InputCoins check_inputs].
    pose proof (commit_all_value _ _ E1) as V1'. pose proof (commit_all_value _ _ E2) as V2'. rewrite V1 in V1'. rewrite V2 in V2'.
    pose proof (check_outputs_ok PedCom_G [mkOutputCoin d1 None; mkOutputCoin d2 None] 0) as Hout.
    cbn [mbind outcome_bind ShardTx.proof_OutputCoins]. rewrite Hout.
    + unfold output_values. cbn. rewrite V1', V2'. reflexivity.
    + constructor; [|constructor; [|constructor]].
      * apply (committed_all c1 d1 None pk1 snd1 r1); [done|by rewrite V1|done].
      * apply (committed_all c2 d2 None pk2 snd2 r2); [done|by rewrite V2|done].
    + done.
Qed.

(** A coin that [CommitAll] completed is found to have its commitment, as an input without
    privacy of the owner of its key, only if the last byte [b] of the key is congruent to its
    shard, [b mod 4], modulo the order of the curve: the commitment was made to the shard, and is
    rebuilt from the byte. *)
Theorem own_coin_commitment (c c' : Coin) (pk : EllipticPoint) (snd r b : Z) :
  coin_scalars c pk snd r -> Coin_Value c <= 2 ^ 63 -> 0 <= b < 256 ->
  Coin_GetPubKeyLastByte c = Ok b -> Coin_CommitAll PedCom_G c = Ok c' ->
  commitment_ok PedCom_G c' (SetBytes [b]) = Ok (bool_decide (b mod curve_N = b mod 4 mod curve_N)).
Proof using On0 Onv Ons Onh Onr.
  intros Hc Hv Hrange Hb H.
  destruct (commit_all_rest g0 gv gs gh gr On0 Onv Ons Onh Onr c c' pk snd r b Hc Hb H (one_byte b)) as (E1 & E2 & E3 & E4 & E5).
  assert (coin_scalars c' pk snd r) as Hc'.
  { destruct Hc. split; [by rewrite E1|done|by rewrite E2|by rewrite E3|by rewrite E4|done|done]. }
  assert (SetBytes [b] = b) as Eb by (unfold SetBytes, be_value; cbn; lia).
  assert (SetBytes [GetShardIDFromLastByte b] = b mod 4) as Es.
  { unfold SetBytes, be_value, GetShardIDFromLastByte. change MAX_SHARD_NUMBER with 4. cbn -[Z.modulo]. lia. }
  unfold commitment_ok. rewrite (coin_sum_rest g0 gv gs gh gr On0 Onv Ons Onh Onr c' pk snd r) by (done || (rewrite Eb; lia)).
  rewrite E5, Eb, Es. cbn -[rest_sum]. f_equal.
  assert (rest_sum gv gs gr pk (i64 (Coin_Value c')) snd r = rest_sum gv gs gr pk (Coin_Value c) snd r) as ->.
  { unfold rest_sum, ScalarMult. rewrite E4, i64_half by (destruct Hc; lia). rewrite (Z.abs_eq (Coin_Value c)) by apply Hc. done. }
  pose proof (Z.mod_pos_bound b 4 ltac:(lia)).
  case_bool_decide as Hcong.
  - rewrite (ScalarMult_cong gh b (b mod 4)) by (done || lia). apply IsEqual_refl.
  - destruct (IsEqual _ _) eqn:E; [|done]. exfalso. apply Hcong. apply IsEqual_true in E.
    assert (valid (rest_sum gv gs gr pk (Coin_Value c) snd r)) as Hrest.
    { destruct Hc. unfold rest_sum. auto 10 with curve. }
    apply Add_cancel in E; [|done|apply ScalarMult_valid; [done|lia]..]. apply (ScalarMult_inj gh); (done || lia).
Qed.
End Balance.

(** ** Concrete payments *)

Section Samples.
Import QuickHash SmallCurve.
#[local] Existing Instance quick_hash.
#[local] Instance sample_ranges : RangeProofs :=
  {| AggregatedRangeProof := unit; range_Verify := fun _ => Ok true; range_Bytes := fun _ => [] |}.
#[local] Hint Extern 0 (OutputCoinOps Coins.OutputCoin) => exact (payment_coin_ops (F := unit)) : typeclass_instances.
#[local] Abbreviation gens := Schnorr.sample_generators.

#[local] Ltac on_it := repeat split; vm_compute; (reflexivity || congruence).

(** The key 3 and the derivator 4: 8 is the inverse of their sum. *)
Definition sample_known : SNNoPrivacyWitness :=
  mkSNNoWit (mkSNNo (ScalarMult (mkPoint 1 2) 8) (ScalarMult (mkPoint 1 2) 3) 4) 3.

Lemma sn_no_privacy_complete_witness : exists pro,
  SNNoPrivacy_Prove gens sample_known 5 None = Ok pro /\ no_stmt pro = nowit_stmt sample_known /\
  SNNoPrivacy_Verify gens pro None = Ok true.
Proof.
  apply (sn_no_privacy_complete gens (mkPoint 1 2)).
  - reflexivity.
  - on_it.
  - discriminate.
  - cbn. lia.
  - cbn. lia.
  - lia.
  - vm_compute. reflexivity.
  - on_it.
  - on_it.
  - vm_compute. reflexivity.
Defined.

Definition sample_hidden : SNPrivacyWitness :=
  mkSNWit (mkSN (ScalarMult (mkPoint 1 2) 8) (Add (ScalarMult (mkPoint 6 1) 4) (ScalarMult (mkPoint 1 2) 3))
             (Add (ScalarMult (mkPoint 6 1) 5) (ScalarMult (mkPoint 4 3) 4))) 3 4 4 5.

Lemma sn_privacy_complete_witness : exists proof,
  SNPrivacy_Prove gens sample_hidden (mkSNDraw 1 2 3 4) None = Ok proof /\ stmt proof = wit_stmt sample_hidden /\
  SNPrivacy_Verify gens proof None = Ok true.
Proof.
  apply (sn_privacy_complete gens (mkPoint 1 2) (mkPoint 6 1) (mkPoint 4 3)).
  - reflexivity.
  - reflexivity.
  - reflexivity.
  - on_it.
  - on_it.
  - on_it.
  - discriminate.
  - cbn. lia.
  - cbn. lia.
  - cbn. lia.
  - cbn. lia.
  - cbn. lia.
  - cbn. lia.
  - cbn. lia.
  - cbn. lia.
  - vm_compute. reflexivity.
  - on_it.
  - vm_compute. reflexivity.
  - on_it.
  - on_it.
  - vm_compute. reflexivity.
Defined.

Definition empty_parts : ProofParts := mkParts [] [] [] None [] [] [] None [] [] None [].

(** A coin of the key 3 whose 7 coins pay a fee of 7, shown under a serial number. *)
Definition spender : bytes := Eval vm_compute in Compress (ScalarMult (mkPoint 1 2) 3).
Definition spent_coin (commitment serial : option EllipticPoint) : Coin :=
  mkCoin (Some (ScalarMult (mkPoint 1 2) 3)) commitment (Some 4) serial (Some 3) 7 [].
Definition spent_commitment : option EllipticPoint := Eval vm_compute in
  match coin_sum gens (spent_coin None None) (default 0 (last spender)) with Ok p => Some p | _ => None end.
Definition shown (serial : EllipticPoint) : InputCoin := mkInputCoin (spent_coin spent_commitment (Some serial)).
Definition spending_parts : ProofParts := Eval vm_compute in
  match SNNoPrivacy_Prove gens sample_known 5 None with
  | Ok pro => mkParts [] [] [pro] None [] [] [] None [] [] None []
  | _ => empty_parts
  end.
Definition spending (serial : EllipticPoint) : M (gmap bytes bytes) bool :=
  Verify (F := unit) gens false (ShardTx.mkProof (C := OutputCoin) [shown serial] [] spending_parts) spender 7 0 (replicate 32 0).

(** The payment is accepted with the one serial number, and so with the other. *)
Lemma serial_numbers_unbound_witness : spending (mkPoint 4 3) ∅ = (∅, Ok true) /\ spending (mkPoint 5 2) ∅ = (∅, Ok true).
Proof.
  assert (spending (mkPoint 4 3) ∅ = (∅, Ok true)) as E by (vm_compute; reflexivity). split; [exact E|].
  rewrite <- E. apply (serial_numbers_unbound gens). left. constructor; [|constructor]. repeat split.
Defined.

Definition half_coin : Coin := mkCoin (Some (mkPoint 5 2)) None (Some 9) None (Some 3) (2 ^ 63) [].

Lemma half_scalars : coin_scalars half_coin (mkPoint 5 2) 9 3.
Proof. split; [reflexivity|on_it|reflexivity..|cbn; lia|lia|lia]. Qed.

Definition half_committed : Coin := Eval vm_compute in
  match Coin_CommitAll gens half_coin with Ok c => c | _ => half_coin end.

(** Nothing is spent, and 2^64 is paid out. *)
Lemma payment_balance_witness : 
  Verify_no_privacy (F := unit) gens
    (ShardTx.mkProof (C := OutputCoin) [] [mkOutputCoin half_committed None; mkOutputCoin half_committed None] empty_parts) [1] 0 = Ok true.
Proof.
  refine (proj2 (payment_balance (mkPoint 1 2) (mkPoint 2 1) (mkPoint 4 3) (mkPoint 5 2) (mkPoint 6 1) _ _ _ _ _
    (ShardTx.mkProof (C := OutputCoin) [] [] empty_parts) [1] 0)
    half_coin half_coin half_committed half_committed (mkPoint 5 2) (mkPoint 5 2) 9 9 3 3 empty_parts half_scalars half_scalars _ _ _ _).
  - on_it.
  - on_it.
  - on_it.
  - on_it.
  - on_it.
  - reflexivity.
  - reflexivity.
  - vm_compute. reflexivity.
  - vm_compute. reflexivity.
Defined.

(** The key (5, 2) ends in 5, and belongs to shard 1. *)
Lemma own_coin_commitment_witness : commitment_ok gens half_committed 5 = Ok false.
Proof.
  refine (own_coin_commitment (mkPoint 1 2) (mkPoint 2 1) (mkPoint 4 3) (mkPoint 5 2) (mkPoint 6 1) _ _ _ _ _
    half_coin half_committed (mkPoint 5 2) 9 3 5 half_scalars _ _ _ _).
  - on_it.
  - on_it.
  - on_it.
  - on_it.
  - on_it.
  - cbn. lia.
  - lia.
  - vm_compute. reflexivity.
  - vm_compute. reflexivity.
Defined.
End Samples.
End Payment.
