(* ===== verification/ShardChain.v ===== *)
(** The shard chain's blocks and best state (src/blockchain/shardblock.go, shardbody.go,
    shardbeststate.go), the update of the best state by a block, and the checks of a block
    against the best state and against the state it leads to (src/blockchain/shardprocess.go). *)

From Stdlib Require Import Ascii String.
From S2P Require Import Prelude GoStr Hash Sha256 Base58 Merkle Keys ShardTx Committee LevelDB HeightPool.
From S2P Require Import ShardToBeaconPool CrossShardPool BeaconState BeaconVerify.

#[local] Open Scope string_scope.
#[local] Open Scope list_scope.
#[local] Open Scope Z_scope.

Module ShardChain.
Import Hashes Merkle Keys ShardTx Committee BeaconVerify.
#[local] Abbreviation BeaconBlock := BeaconState.BeaconBlock.

Section Blocks.
Context {C : Type} `{!OutputCoinOps C} {sha : Sha256}.

(** ** Blocks *)

Record ShardBody := mkShardBody {
  body_Instructions : list (list string);
  body_CrossOutputCoin : gmap Z (list (CrossOutputCoinRec (C := C)));
  Transactions : list (Transaction (C := C))
}.

Record ShardBlock := mkShardBlock {
  sb_AggregatedSig : string;
  sb_R : string;
  sb_ValidatorsIdx : list (list Z);
  sb_ProducerSig : string;
  sb_Body : ShardBody;
  sb_Header : ShardHeader
}.

Definition ShardBlock_Hash (b : ShardBlock) : Hash := ShardHeader_Hash (sb_Header b).

#[export] Instance shard_block_height : BlockHeight ShardBlock := fun b => ShardHeight (sb_Header b).
#[export] Instance shard_block_hash : BlockHash ShardBlock Hash := ShardBlock_Hash.

(** A block for one other shard, with the header and the signature of the block it is made
    from. *)
Record FullCrossShardBlock := mkFullCross {
  fc_AggregatedSig : string;
  fc_R : string;
  fc_ValidatorsIdx : list (list Z);
  fc_ProducerSig : string;
  fc_Header : ShardHeader;
  fc_ToShardID : Z;
  fc_MerklePathShard : list Hash;
  fc_CrossOutputCoin : list C;
  fc_CrossTxTokenData : list TxTokenData
}.

Definition FullCross_Hash (b : FullCrossShardBlock) : Hash := ShardHeader_Hash (fc_Header b).

#[export] Instance full_cross_height : BlockHeight FullCrossShardBlock := fun b => ShardHeight (fc_Header b).
#[export] Instance full_cross_shard : BlockShard FullCrossShardBlock := fun b => ShardID (fc_Header b).
#[export] Instance full_cross_hash : BlockHash FullCrossShardBlock Hash := FullCross_Hash.
#[export] Instance full_cross_blk : CrossShardBlk FullCrossShardBlock := {|
  blk_to_shard := fc_ToShardID;
  blk_epoch := fun b => ShardEpoch (fc_Header b);
  blk_agg_sig := fc_AggregatedSig;
  blk_R := fc_R;
  blk_validators_idx := fc_ValidatorsIdx
|}.

(** What [VerifyCrossShardBlockUTXO] looks at. *)
Definition cross_data (b : FullCrossShardBlock) : CrossShardBlock (C := C) :=
  mkCrossShardBlock (BeaconVerify.ShardTxRoot (fc_Header b)) (fc_ToShardID b) (fc_MerklePathShard b)
    (fc_CrossOutputCoin b) (fc_CrossTxTokenData b).

Definition VerifyCrossShardBlock (committees : list string) (b : FullCrossShardBlock) : outcome unit :=
  _ ← or_fail "Signature Error" (CrossShardPool.ValidateAggSignature (fc_ValidatorsIdx b) committees
        (fc_AggregatedSig b) (fc_R b) (FullCross_Hash b));
  ok ← VerifyCrossShardBlockUTXO (cross_data b) (fc_MerklePathShard b);
  require ok "Hash error".

(** The block for a shard: the data of ShardTx.v under the header and the signature. *)
Definition CreateCrossShardBlock (b : ShardBlock) (shardID : Z) : outcome FullCrossShardBlock :=
  d ← ShardTx.CreateCrossShardBlock (Transactions (sb_Body b)) (BeaconVerify.ShardTxRoot (sb_Header b)) shardID;
  Ok (mkFullCross (sb_AggregatedSig b) (sb_R b) [] (sb_ProducerSig b) (sb_Header b) (ToShardID d)
        (MerklePathShard d) (CrossOutputCoin d) (CrossTxTokenData d)).

(** ** The best state *)

Record BestStateShard := mkBestShard {
  BestBlockHash : Hash;
  BestBlock : option ShardBlock;
  BestBeaconHash : Hash;
  BeaconHeight : Z;
  bs_ShardID : Z;
  Epoch : Z;
  bs_ShardHeight : Z;
  ShardCommitteeSize : Z;
  ShardProposerIdx : Z;
  ShardCommittee : list string;
  ShardPendingValidator : list string;
  BestCrossShard : gmap Z Z;
  NumTxns : Z;
  TotalTxns : Z;
  ActiveShards : Z
}.

(** A nil best block is dereferenced. *)
Definition GetBytes (s : BestStateShard) : outcome bytes :=
  match BestBlock s with
  | None => Panic
  | Some block =>
      Ok (BestBlockHash s ++ ShardBlock_Hash block ++ BestBeaconHash s ++ le_bytes 8 (BeaconHeight s) ++ [bs_ShardID s] ++
          le_bytes 8 (Epoch s) ++ le_bytes 8 (bs_ShardHeight s) ++ le_bytes 4 (u32 (ShardCommitteeSize s)) ++
          le_bytes 4 (u32 (ShardProposerIdx s)) ++ concat_bytes (ShardCommittee s) ++
          concat_bytes (ShardPendingValidator s) ++ concat (map (le_bytes 8) (sorted_values (BestCrossShard s))) ++
          le_bytes 8 (NumTxns s) ++ le_bytes 8 (TotalTxns s) ++ le_bytes 4 (u32 (ActiveShards s)))
  end.

Definition BestState_Hash (s : BestStateShard) : outcome Hash := b ← GetBytes s; Ok (HashH b).

Definition GetPubkeyRole (s : BestStateShard) (pubkey : string) (proposerOffset : Z) : string :=
  let found := IndexOfStr pubkey (ShardCommittee s) in
  if -1 <? found then
    let tmpID := Z.rem (ShardProposerIdx s + proposerOffset + 1) (Z.of_nat (length (ShardCommittee s))) in
    if found =? tmpID then "proposer" else "validator"
  else if -1 <? IndexOfStr pubkey (ShardPendingValidator s) then "pending"
  else "".

(** On a best state that was not used before. *)
Definition InitBestStateShard (shardID committeeSize activeShards : Z) : BestStateShard :=
  mkBestShard zero_hash None zero_hash 1 shardID 0 1 committeeSize 0 [] [] ∅ 0 0 activeShards.

(** ** Update *)

Definition set_block (beaconHash : Hash) (proposer : Z) (b : ShardBlock) (s : BestStateShard) : BestStateShard :=
  let h := sb_Header b in
  let n := Z.of_nat (length (Transactions (sb_Body b))) in
  mkBestShard (ShardBlock_Hash b) (Some b) beaconHash (ShardBeaconHeight h) (bs_ShardID s) (ShardEpoch h) (ShardHeight h)
    (ShardCommitteeSize s) proposer (ShardCommittee s) (ShardPendingValidator s)
    (if ShardHeight h =? 1 then ∅ else BestCrossShard s) n (u64 (TotalTxns s + n)) (ActiveShards s).

Definition set_validators (pending committee : list string) (s : BestStateShard) : BestStateShard :=
  mkBestShard (BestBlockHash s) (BestBlock s) (BestBeaconHash s) (BeaconHeight s) (bs_ShardID s) (Epoch s) (bs_ShardHeight s)
    (ShardCommitteeSize s) (ShardProposerIdx s) committee pending (BestCrossShard s) (NumTxns s) (TotalTxns s) (ActiveShards s).

Definition set_cross (m : gmap Z Z) (s : BestStateShard) : BestStateShard :=
  mkBestShard (BestBlockHash s) (BestBlock s) (BestBeaconHash s) (BeaconHeight s) (bs_ShardID s) (Epoch s) (bs_ShardHeight s)
    (ShardCommitteeSize s) (ShardProposerIdx s) (ShardCommittee s) (ShardPendingValidator s) m (NumTxns s) (TotalTxns s)
    (ActiveShards s).

(** [genesis] is the hash of the genesis block of the beacon chain. *)
Definition update_block (genesis : Hash) (b : ShardBlock) : M BestStateShard unit :=
  modify (fun s =>
    let h := sb_Header b in
    set_block (if ShardBeaconHeight h =? 1 then genesis else BeaconHash h)
      (if ShardHeight h =? 1 then 0 else IndexOfStr (ShardProducer h) (ShardCommittee s)) b s).

(** [l[n]]. *)
Definition word (l : list string) (n : nat) : outcome string :=
  match l !! n with None => Panic | Some x => Ok x end.

(** Whether an instruction of the beacon chain assigns validators to the shard; the words
    are read only as far as they are needed. *)
Definition assigns (shardID : Z) (l : list string) : outcome bool :=
  l0 ← word l 0;
  if negb (String.eqb l0 "assign") then Ok false
  else
    l2 ← word l 2;
    if negb (String.eqb l2 "shard") then Ok false
    else l3 ← word l 3; Ok (String.eqb l3 (Itoa shardID)).

Definition assign_step (shardID : Z) (l : list string) : M BestStateShard unit :=
  ok ← lift (assigns shardID l);
  if (ok : bool) then
    l1 ← lift (word l 1);
    modify (fun s => set_validators (ShardPendingValidator s ++ Split l1) (ShardCommittee s) s)
  else mret tt.

(** The lists are assigned before the error is looked at. *)
Definition swap_step (l : list string) : M BestStateShard unit :=
  l0 ← lift (word l 0);
  if negb (String.eqb l0 "swap") then mret tt
  else
    s ← get;
    r ← lift (SwapValidator (ShardPendingValidator s) (ShardCommittee s) (ShardCommitteeSize s) OFFSET);
    _ ← modify (set_validators (sw_pending r) (sw_current r));
    match sw_error r with
    | Some _ => throw "Unexpected error"
    | None =>
        l2 ← lift (word l 2);
        l1 ← lift (word l 1);
        if bool_decide (Split l2 = sw_swapped r) then
          if bool_decide (Split l1 = sw_incoming r) then mret tt else throw "Swap Error"
        else throw "Swap Error"
    end.

(** The last height of each shard; an empty list panics. *)
Definition last_heights (m : gmap Z (list (CrossOutputCoinRec (C := C)))) : outcome (gmap Z Z) :=
  if decide (map_Forall (fun _ l => l <> []) m) then Ok (omap (fun l => CoinBlockHeight <$> last l) m) else Panic.

Definition Update (genesis : Hash) (b : ShardBlock) (beaconBlocks : list BeaconBlock) : M BestStateShard unit :=
  _ ← update_block genesis b;
  _ ← mfor (assign_step (ShardID (sb_Header b)))
        (concat (map (fun bb => BeaconState.Instructions (BeaconState.Body bb)) beaconBlocks));
  _ ← mfor swap_step (body_Instructions (sb_Body b));
  heights ← lift (last_heights (body_CrossOutputCoin (sb_Body b)));
  modify (fun s => set_cross (heights ∪ BestCrossShard s) s).

(** ** Checks against the best state *)

Context {sigs : Signatures}.

(** The result of the check of the combined signature is not looked at. *)
Definition VerifyBestStateWithShardBlock (s : BestStateShard) (b : ShardBlock) (isVerifySig : bool) : outcome unit :=
  let h := sb_Header b in
  let n := length (ShardCommittee s) in
  _ ← (if (n =? 0)%nat then Panic else Ok tt);
  producerPubkey ← at_index (ShardCommittee s) (Z.rem (ShardProposerIdx s + ShardRound h) (Z.of_nat n));
  _ ← or_fail "Signature Error" (ValidateDataB58 producerPubkey (sb_ProducerSig b) (ShardHeader_Hash h));
  _ ← (if isVerifySig then
         require (negb ((length (sb_ValidatorsIdx b) <=? n / 2)%nat && (3 <? n)%nat)) "Signature Error"
       else Ok tt);
  _ ← require (u64 (bs_ShardHeight s + 1) =? ShardHeight h) "Block height error";
  require (BeaconHeight s <=? ShardBeaconHeight h) "Block height error".

Definition VerifyPostProcessingShardBlock (s : BestStateShard) (b : ShardBlock) : outcome unit :=
  let h := sb_Header b in
  _ ← require (VerifyHashFromStringArray (ShardCommittee s) (CommitteeRoot h)) "Hash error";
  require (VerifyHashFromStringArray (ShardPendingValidator s) (PendingValidatorRoot h)) "Hash error".
End Blocks.
Arguments ShardBody C {_}.
Arguments ShardBlock C {_}.
Arguments BestStateShard C {_}.
Arguments FullCrossShardBlock C : clear implicits.
End ShardChain.

(** [encoding/json] on the values of a shard that are stored, as [BeaconJson]. *)
Class ShardJson (C : Type) `{!OutputCoinOps C} : Type := {
  shard_block_json : ShardChain.ShardBlock C -> outcome bytes;
  shard_block_of_json : bytes -> ShardChain.ShardBlock C * outcome unit;
  shard_best_json : ShardChain.BestStateShard C -> outcome bytes;
  shard_best_of_json : bytes -> ShardChain.BestStateShard C * outcome unit
}.
