(* ===== verification/TxView.v ===== *)
(** What a shard block adds to the ledger: the view of its transactions
    (src/blockchain/txviewpoint.go) and its storage, the outputs of custom tokens, the lists
    of tokens and of the coins of a key set (src/blockchain/blockchain.go), on the store of
    TxStore.v. *)

From Stdlib Require Import Ascii String DecimalString.
From S2P Require Import Prelude GoStr Hash Sha256 Base58 Merkle Modular EC Keys ShardTx Coins Json LevelDB.
From S2P Require Import HeightPool BeaconState BeaconVerify TxStore ShardChain.

#[local] Open Scope string_scope.
#[local] Open Scope list_scope.
#[local] Open Scope Z_scope.

Module TxView.
Import Hashes EC LevelDB Keys ShardTx TxStore.
#[local] Abbreviation Coin := Coins.Coin.
#[local] Abbreviation OutputCoin := Coins.OutputCoin.

Definition UnExpectedError : string := "Unexpected error".
Definition CustomTokenInit : Z := 0.
Definition CustomTokenTransfer : Z := 1.

(** [m[k] = append(m[k], x)]. *)
Definition push {A} (k : string) (x : A) (m : gmap string (list A)) : gmap string (list A) :=
  <[k := default [] (m !! k) ++ [x]]> m.

(** [for k, l := range n { m[k] = append(m[k], l...) }]. *)
Definition append_all {A} (m n : gmap string (list A)) : gmap string (list A) :=
  union_with (fun a b => Some (a ++ b)) m n.

Definition sorted_keys {A} (m : gmap string A) : list string :=
  merge_sort (fun a b => Is_true (string_leb a b)) (map_to_list m).*1.

(** A method of a nil point panics. *)
Definition compressed {curve : Curve} (p : option EllipticPoint) : outcome bytes :=
  match p with None => Panic | Some p => Ok (Compress p) end.

Section View.
Context {curve : Curve} {sha : Sha256} {P F : Type}.
#[local] Instance coin_ops : OutputCoinOps OutputCoin := Coins.output_coin_ops P F.
#[local] Abbreviation Transaction := (ShardTx.Transaction (C := OutputCoin)).
#[local] Abbreviation ShardBlock := (ShardChain.ShardBlock OutputCoin).
#[local] Abbreviation PaymentProof := (ShardTx.PaymentProof (C := OutputCoin)).
Context {txhash : TxHash Transaction} {sjson : ShardJson OutputCoin}.
Context {S : Type} {lvdb : LevelDB S} {js : ListsJson}.

(** ** Views *)

(** What a transaction adds under one token. *)
Record CoinView := mkCoins {
  listSerialNumbers : list bytes;
  mapCommitments : gmap string (list bytes);
  mapOutputCoins : gmap string (list OutputCoin);
  mapSnD : gmap string (list Z)
}.

Definition no_coins : CoinView := mkCoins [] ∅ ∅ ∅.

(** The views of the privacy tokens have no tokens of their own. *)
Record TxViewPoint := mkView {
  tokenID : Hash;
  shardID : Z;
  coins : CoinView;
  customTokenTxs : gmap Z (Transaction * TxTokenData);
  privacyCustomTokenViewPoint : gmap Z (Hash * CoinView);
  privacyCustomTokenTxs : gmap Z (Transaction * TxTokenPrivacyData (C := OutputCoin))
}.

Definition NewTxViewPoint (shardID : Z) : TxViewPoint := mkView ConstantID shardID no_coins ∅ ∅ ∅.

(** The serial numbers that the store does not have yet. *)
Fixpoint new_serials (tok : Hash) (sh : Z) (inputs : list Coins.InputCoin) : M S (list bytes) :=
  match inputs with
  | [] => mret []
  | item :: rest =>
      serialNum ← lift (compressed (Coins.SerialNumber (Coins.input_details item)));
      ok ← HasSerialNumber tok serialNum sh;
      l ← new_serials tok sh rest;
      mret (if ok : bool then l else serialNum :: l)
  end.

(** One output coin; the wallet of a light node keeps its own coins only. *)
Definition fetch_output (tok : Hash) (sh : Z) (localWallet : option (bytes -> bool)) (item : OutputCoin)
    (v : CoinView) : M S CoinView :=
  let d := Coins.CoinDetails item in
  commitment ← lift (compressed (Coins.CoinCommitment d));
  pubkey ← lift (compressed (Coins.PublicKey d));
  let pubkeyStr := base58_encode pubkey in
  ok ← HasCommitment tok commitment sh;
  let v := if ok : bool then v
    else mkCoins (listSerialNumbers v) (push pubkeyStr commitment (mapCommitments v))
           (if match localWallet with None => true | Some own => own pubkey end
            then push pubkeyStr item (mapOutputCoins v) else mapOutputCoins v) (mapSnD v) in
  match Coins.SNDerivator d with
  | None => gopanic
  | Some snD =>
      ok ← HasSNDerivator tok snD sh;
      mret (if ok : bool then v
            else mkCoins (listSerialNumbers v) (mapCommitments v) (mapOutputCoins v) (push pubkeyStr snD (mapSnD v)))
  end.

Fixpoint fetch_outputs (tok : Hash) (sh : Z) (localWallet : option (bytes -> bool)) (items : list OutputCoin)
    (v : CoinView) : M S CoinView :=
  match items with
  | [] => mret v
  | item :: rest => v ← fetch_output tok sh localWallet item v; fetch_outputs tok sh localWallet rest v
  end.

Definition processFetchTxViewPoint (sh : Z) (proof : option PaymentProof) (tok : Hash)
    (localWallet : option (bytes -> bool)) : M S CoinView :=
  match proof with
  | None => mret no_coins
  | Some proof =>
      serials ← new_serials tok sh (proof_InputCoins proof);
      fetch_outputs tok sh localWallet (proof_OutputCoins proof) (mkCoins serials ∅ ∅ ∅)
  end.

Definition processFetchCrossOutputViewPoint (sh : Z) (outputCoins : list OutputCoin) (tok : Hash)
    (localWallet : option (bytes -> bool)) : M S CoinView :=
  fetch_outputs tok sh localWallet outputCoins no_coins.

(** ** The view of a block *)

(** What was found is appended to what was accepted; the derivators are appended to the map
    they come from, so that none is ever accepted. *)
Definition accept (v found : CoinView) : CoinView :=
  mkCoins (listSerialNumbers v ++ listSerialNumbers found)
    (append_all (mapCommitments v) (mapCommitments found))
    (append_all (mapOutputCoins v) (mapOutputCoins found)) (mapSnD v).

Definition with_coins (c : CoinView) (view : TxViewPoint) : TxViewPoint :=
  mkView (tokenID view) (shardID view) c (customTokenTxs view) (privacyCustomTokenViewPoint view)
    (privacyCustomTokenTxs view).

Definition fail_fetch {A} (m : M S A) : M S A := or_err UnExpectedError m.

(** The coins of the transaction itself, in any of the types. *)
Definition accept_tx (block_shard : Z) (localWallet : option (bytes -> bool)) (tx : Transaction)
    (view : TxViewPoint) : M S TxViewPoint :=
  found ← fail_fetch (processFetchTxViewPoint block_shard (GetProof tx) ConstantID localWallet);
  mret (with_coins (accept (coins view) found) view).

(** The type assertion [tx.( *transaction.Tx)]. *)
Definition as_normal (tx : Transaction) : outcome unit := match tx with NormalTx _ => Ok tt | _ => Panic end.

Definition fetch_tx (block_shard : Z) (localWallet : option (bytes -> bool)) (indexTx : Z) (tx : Transaction)
    (view : TxViewPoint) : M S TxViewPoint :=
  let typ := GetType tx in
  if bool_decide (typ = TxNormalType \/ typ = TxSalaryType) then
    _ ← lift (as_normal tx);
    accept_tx block_shard localWallet tx view
  else if bool_decide (typ = TxCustomTokenType) then
    data ← lift (as_custom_token tx);
    view ← accept_tx block_shard localWallet tx view;
    mret (mkView (tokenID view) (shardID view) (coins view) (<[indexTx := (tx, data)]> (customTokenTxs view))
            (privacyCustomTokenViewPoint view) (privacyCustomTokenTxs view))
  else if bool_decide (typ = TxCustomTokenPrivacyType) then
    data ← lift (as_custom_token_privacy tx);
    view ← accept_tx block_shard localWallet tx view;
    sub ← fail_fetch (processFetchTxViewPoint block_shard (Proof (TxNormal data)) (privacy_PropertyID data) localWallet);
    mret (mkView (tokenID view) (shardID view) (coins view) (customTokenTxs view)
            (<[indexTx := (privacy_PropertyID data, sub)]> (privacyCustomTokenViewPoint view))
            (<[indexTx := (tx, data)]> (privacyCustomTokenTxs view)))
  else throw UnExpectedError.

Fixpoint fetch_txs (block_shard : Z) (localWallet : option (bytes -> bool)) (indexTx : Z) (txs : list Transaction)
    (view : TxViewPoint) : M S TxViewPoint :=
  match txs with
  | [] => mret view
  | tx :: rest =>
      view ← fetch_tx block_shard localWallet indexTx tx view;
      fetch_txs block_shard localWallet (indexTx + 1) rest view
  end.

(** On a new view, whose maps are empty. *)
Definition fetchTxViewPointFromBlock (block : ShardBlock) (localWallet : option (bytes -> bool))
    (view : TxViewPoint) : M S TxViewPoint :=
  fetch_txs (BeaconVerify.ShardID (ShardChain.sb_Header block)) localWallet 0
    (ShardChain.Transactions (ShardChain.sb_Body block)) view.

Fixpoint fetch_cross (sh : Z) (localWallet : option (bytes -> bool))
    (crossOutputCoins : list (CrossOutputCoinRec (C := OutputCoin))) (v : CoinView) : M S CoinView :=
  match crossOutputCoins with
  | [] => mret v
  | c :: rest =>
      found ← fail_fetch (processFetchCrossOutputViewPoint sh (OutputCoins c) ConstantID localWallet);
      fetch_cross sh localWallet rest (accept v found)
  end.

(** [visit] is the order of the loop over the shards the coins come from. *)
Definition fetchCrossOutputViewPointFromBlock
    (visit : gmap Z (list (CrossOutputCoinRec (C := OutputCoin))) -> list (Z * list (CrossOutputCoinRec (C := OutputCoin))))
    (block : ShardBlock) (localWallet : option (bytes -> bool)) (view : TxViewPoint) : M S TxViewPoint :=
  v ← fetch_cross (BeaconVerify.ShardID (ShardChain.sb_Header block)) localWallet
        (concat (map snd (visit (ShardChain.body_CrossOutputCoin (ShardChain.sb_Body block))))) (coins view);
  mret (with_coins v view).

(** ** Storing a view *)

Definition StoreSerialNumbersFromTxViewPoint (tok : Hash) (sh : Z) (v : CoinView) : M S unit :=
  mfor (fun item1 => StoreSerialNumbers tok item1 sh) (listSerialNumbers v).

(** The keys are those of the commitments. *)
Definition StoreSNDerivatorsFromTxViewPoint (tok : Hash) (sh : Z) (v : CoinView) : M S unit :=
  mfor (fun k => mfor (fun snd => StoreSNDerivators tok snd sh) (default [] (mapSnD v !! k)))
    (sorted_keys (mapCommitments v)).

(** The key a text encodes, when its shard is this one; an empty key panics. *)
Definition own_key (sh : Z) (pubkey : string) : outcome (option bytes) :=
  pubkeyBytes ← base58_decode pubkey;
  match last pubkeyBytes with
  | None => Panic
  | Some lastByte => Ok (if GetShardIDFromLastByte lastByte =? sh then Some pubkeyBytes else None)
  end.

Definition store_own {A} (sh : Z) (f : bytes -> A -> M S unit) (m : gmap string (list A)) : M S unit :=
  mfor (fun k =>
    own ← lift (own_key sh k);
    match own with
    | None => mret tt
    | Some pubkeyBytes => mfor (f pubkeyBytes) (default [] (m !! k))
    end) (sorted_keys m).

Definition StoreCommitmentsFromTxViewPoint (tok : Hash) (viewShard sh : Z) (v : CoinView) : M S unit :=
  _ ← store_own sh (fun pubkeyBytes com => StoreCommitments tok pubkeyBytes com viewShard) (mapCommitments v);
  store_own sh (fun pubkeyBytes outcoin => StoreOutputCoins tok pubkeyBytes (Coins.OutputCoin_Bytes outcoin) sh)
    (mapOutputCoins v).

(** ** Custom tokens *)

(** The value of an unspent output is [{value}-[-]-unspent-[-]-unreward]. *)
Definition spend_vin (tok : Hash) (vin : TxTokenVin) : M S unit :=
  let key := utxo_key tok (PaymentAddress_Bytes (VinAddress vin)) (TxCustomTokenID vin) (VoutIndex vin) in
  _ ← HasValue key;
  value ← Get key;
  let values := SplitBy value in
  v1 ← lift (part values 1);
  _ ← fail_if (negb (bool_decide (v1 = Unspent))) "Double Spend Detected";
  v0 ← lift (part values 0);
  v2 ← lift (part values 2);
  Put key (v0 ++ Splitter ++ Spent ++ Splitter ++ v2).

(** The value is written as a signed number. *)
Definition create_vout (tok txHash : Hash) (index : Z) (vout : TxTokenVout) : M S unit :=
  let key := utxo_key tok (PaymentAddress_Bytes (VoutAddress vout)) txHash index in
  ok ← HasValue key;
  _ ← fail_if ok "UTXO already exist";
  Put key (bytes_of (Itoa (i64 (Value vout))) ++ Splitter ++ Unspent ++ Splitter ++ Unreward).

Fixpoint create_vouts (tok txHash : Hash) (index : Z) (vouts : list TxTokenVout) : M S unit :=
  match vouts with
  | [] => mret tt
  | vout :: rest => _ ← create_vout tok txHash index vout; create_vouts tok txHash (index + 1) rest
  end.

Definition StoreCustomTokenPaymentAddresstHistory (tx : Transaction) (data : TxTokenData) : M S unit :=
  _ ← mfor (spend_vin (PropertyID data)) (Vins data);
  create_vouts (PropertyID data) (tx_hash tx) 0 (default [] (Vouts data)).

Definition GetShardBlockByHash (hash : Hash) : M S ShardBlock :=
  blockBytes ← FetchBlock hash;
  let '(block, err) := shard_block_of_json blockBytes in
  _ ← lift err;
  mret block.

Definition GetShardBlockByHeight (height sh : Z) : M S ShardBlock :=
  hashBlock ← GetBlockByIndex height sh;
  GetShardBlockByHash hashBlock.

(** [l[i]] of a Go [int]. *)
Definition nth_tx (l : list Transaction) (i : Z) : outcome Transaction := BeaconVerify.at_index l i.

(** When the block is not found, it is dereferenced for the log. *)
Definition GetTransactionByHash (txHash : Hash) : M S (Z * Hash * Z * Transaction) :=
  '(blockHash, index) ← or_err UnExpectedError (GetTransactionIndexById txHash);
  block ← (fun s => match GetShardBlockByHash blockHash s with (s', Err _) => (s', Panic) | r => r end);
  tx ← lift (nth_tx (ShardChain.Transactions (ShardChain.sb_Body block)) index);
  mret (BeaconVerify.ShardID (ShardChain.sb_Header block), blockHash, index, tx).

Fixpoint list_tokens {A} (cast : Transaction -> outcome A) (id : A -> Hash) (e : string -> string) (data : list bytes)
    (result : gmap Hash A) : M S (gmap Hash A) :=
  match data with
  | [] => mret result
  | txData :: rest =>
      r ← (fun s => match GetTransactionByHash (hash_value txData) s with (s', Err x) => (s', Err (e x)) | r => r end);
      t ← lift (cast (snd r));
      list_tokens cast id e rest (<[id t := t]> result)
  end.

Definition ListCustomToken : M S (gmap Hash TxTokenData) :=
  data ← TxStore.ListCustomToken;
  list_tokens as_custom_token PropertyID (fun _ => UnExpectedError) data ∅.

Definition ListPrivacyCustomToken : M S (gmap Hash (TxTokenPrivacyData (C := OutputCoin))) :=
  data ← TxStore.ListPrivacyCustomToken;
  list_tokens as_custom_token_privacy privacy_PropertyID (fun x => x) data ∅.

(** The unspent outputs of an address: the transaction, the index and the value. *)
Definition unspent_vout (entry : bytes * bytes) : outcome (option (Hash * Z * Z)) :=
  let keys := SplitBy (fst entry) in let values := SplitBy (snd entry) in
  v1 ← part values 1;
  if bool_decide (v1 = Unspent) then
    k3 ← part keys 3;
    txHash ← NewHashFromStr (text k3);
    k4 ← part keys 4;
    voutIndex ← match k4 with [] => Panic | b :: _ => Ok b end;
    v0 ← part values 0;
    value ← Atoi (text v0);
    Ok (Some (txHash, voutIndex, u64 value))
  else Ok None.

Definition GetUnspentTxCustomTokenVout (visit : gmap bytes bytes -> list (bytes * bytes)) (receiver : PaymentAddress)
    (tok : Hash) : M S (list (Hash * Z * Z)) :=
  data ← GetCustomTokenPaymentAddressUTXO tok (PaymentAddress_Bytes receiver);
  l ← lift (mapM unspent_vout (visit data));
  mret (omap id l).

Definition GetListTokenHolders (tok : Hash) : M S (gmap string Z) := GetCustomTokenPaymentAddressesBalance tok.

(** ** Saving the views of a block *)

(** An error in a token that comes from another shard is dropped; a list of tokens that
    cannot be read panics. *)
Definition store_token_init (tx : Transaction) (data : TxTokenData) : M S unit :=
  if TokenType data =? CustomTokenInit then StoreCustomToken (PropertyID data) (tx_hash tx)
  else if TokenType data =? CustomTokenCrossShard then
    listCustomToken ← (fun s => match ListCustomToken s with (s', Err _) => (s', Panic) | r => r end);
    if decide (is_Some (listCustomToken !! PropertyID data)) then mret tt
    else fun s => match StoreCustomToken (PropertyID data) (tx_hash tx) s with (s', Err _) => (s', Ok tt) | r => r end
  else mret tt.

(** The snapshot of rewards is a field of the configuration. *)
Record Ledger := mkLedger { ledger_db : S; customTokenRewardSnapshot : gmap string Z }.

Definition on_store {A} (m : M S A) : M Ledger A := fun l =>
  let '(d, r) := m (ledger_db l) in (mkLedger d (customTokenRewardSnapshot l), r).

Definition save_custom_token (block : ShardBlock) (entry : Z * (Transaction * TxTokenData)) : M Ledger unit :=
  let '(indexTx, (tx, data)) := entry in
  let h := ShardChain.sb_Header block in
  _ ← on_store (store_token_init tx data);
  _ ← on_store (StoreCustomTokenPaymentAddresstHistory tx data);
  _ ← on_store (StoreCustomTokenTx (PropertyID data) (BeaconVerify.ShardID h) (BeaconVerify.ShardHeight h) indexTx (tx_hash tx));
  if BeaconVerify.ShardHeight h mod 1000 =? 0 then
    snapshot ← on_store (GetCustomTokenPaymentAddressesBalance (PropertyID data));
    modify (fun l => mkLedger (ledger_db l) snapshot)
  else mret tt.

(** The three stores of a view under its token. *)
Definition save_coins (tok : Hash) (sh : Z) (v : CoinView) : M S unit :=
  _ ← StoreSerialNumbersFromTxViewPoint tok sh v;
  _ ← StoreCommitmentsFromTxViewPoint tok sh sh v;
  StoreSNDerivatorsFromTxViewPoint tok sh v.

(** A transaction without an entry would be a nil pointer. *)
Definition save_privacy_token (block : ShardBlock) (view : TxViewPoint) (entry : Z * (Hash * CoinView)) : M S unit :=
  let '(indexTx, (tok, sub)) := entry in
  let h := ShardChain.sb_Header block in
  match privacyCustomTokenTxs view !! indexTx with
  | None => gopanic
  | Some (tx, data) =>
      _ ← (if privacy_Type data =? CustomTokenInit
           then StorePrivacyCustomToken (privacy_PropertyID data) (tx_hash tx) else mret tt);
      _ ← StorePrivacyCustomTokenTx (privacy_PropertyID data) (BeaconVerify.ShardID h) (BeaconVerify.ShardHeight h) indexTx (tx_hash tx);
      save_coins tok (BeaconVerify.ShardID h) sub
  end.

(** The orders of the loops over the two maps of tokens and over the shards. *)
Record TxOrders := mkOrders {
  order_tokens : gmap Z (Transaction * TxTokenData) -> list (Z * (Transaction * TxTokenData));
  order_privacy : gmap Z (Hash * CoinView) -> list (Z * (Hash * CoinView));
  order_cross : gmap Z (list (CrossOutputCoinRec (C := OutputCoin))) -> list (Z * list (CrossOutputCoinRec (C := OutputCoin)))
}.

Definition CreateAndSaveTxViewPointFromBlock (o : TxOrders) (block : ShardBlock) : M Ledger unit :=
  let sh := BeaconVerify.ShardID (ShardChain.sb_Header block) in
  view ← on_store (fetchTxViewPointFromBlock block None (NewTxViewPoint sh));
  _ ← mfor (save_custom_token block) (order_tokens o (customTokenTxs view));
  _ ← on_store (mfor (save_privacy_token block view) (order_privacy o (privacyCustomTokenViewPoint view)));
  on_store (save_coins (tokenID view) sh (coins view)).

(** The error of the fetch is overwritten: what is stored then is the empty view. *)
Definition CreateAndSaveCrossOutputCoinViewPointFromBlock (o : TxOrders) (block : ShardBlock) : M Ledger unit :=
  let sh := BeaconVerify.ShardID (ShardChain.sb_Header block) in
  view ← on_store (fun s => match fetchCrossOutputViewPointFromBlock (order_cross o) block None (NewTxViewPoint sh) s with
                            | (s', Err _) => (s', Ok (NewTxViewPoint sh)) | r => r end);
  _ ← on_store (StoreCommitmentsFromTxViewPoint (tokenID view) sh sh (coins view));
  on_store (StoreSNDerivatorsFromTxViewPoint (tokenID view) sh (coins view)).

(** ** The coins of a key set *)

(** A derivator that makes the sum vanish has no inverse. *)
Definition Derive (g : EllipticPoint) (seed derivator : Z) : outcome EllipticPoint :=
  if IsSafe g then
    if (seed + derivator) mod curve_N =? 0 then Panic
    else Ok (ScalarMult g (powmod (seed + derivator) (curve_N - 2) curve_N))
  else Panic.

Context {aes : Aes} (PedCom_SK : EllipticPoint).

(** With a read-only key the value is decrypted, when it can be. *)
Definition decrypt_with (keySet : KeySet) (out : OutputCoin) : outcome OutputCoin :=
  match Coins.CoinDetailsEncrypted out with
  | None => Ok out
  | Some _ =>
      if (0 <? length (PrivateKey keySet))%nat || (0 <? length (Rk (ReadonlyKey keySet)))%nat then
        match Coins.OutputCoin_Decrypt (Rk (ReadonlyKey keySet)) out with Err _ => Ok out | r => r end
      else Ok out
  end.

Definition set_serial (sn : EllipticPoint) (out : OutputCoin) : OutputCoin :=
  let d := Coins.CoinDetails out in
  Coins.mkOutputCoin
    (Coins.mkCoin (Coins.PublicKey d) (Coins.CoinCommitment d) (Coins.SNDerivator d) (Some sn)
       (Coins.Randomness d) (Coins.Coin_Value d) (Coins.Info d)) (Coins.CoinDetailsEncrypted out).

(** With a private key the coins already spent are left out. *)
Definition DecryptOutputCoinByKey (out : OutputCoin) (keySet : KeySet) (sh : Z) (tok : Hash) : M S (option OutputCoin) :=
  pubkeyCompress ← lift (compressed (Coins.PublicKey (Coins.CoinDetails out)));
  if bool_decide (pubkeyCompress = Pk (KeySet_Address keySet)) then
    result ← lift (decrypt_with keySet out);
    if (0 <? length (PrivateKey keySet))%nat then
      match Coins.SNDerivator (Coins.CoinDetails result) with
      | None => gopanic
      | Some snd =>
          sn ← lift (Derive PedCom_SK (EC.SetBytes (PrivateKey keySet)) snd);
          ok ← HasSerialNumber tok (Compress sn) sh;
          mret (if ok : bool then None else Some (set_serial sn result))
      end
    else mret (Some result)
  else mret None.

(** A coin from its stored bytes, of which an error is dropped; [spare] is the capacity that
    the decoder left. *)
Definition stored_coin (spare : bytes -> bytes) (item : bytes) : outcome OutputCoin :=
  let fresh := Coins.mkOutputCoin Coins.Coin_Init (Some (Coins.mkCipher [] [])) in
  match Coins.OutputCoin_SetBytes item (spare item) fresh with Err _ => Ok fresh | r => r end.

Fixpoint key_coins (keyset : KeySet) (sh : Z) (tok : Hash) (outCoints : list OutputCoin) : M S (list OutputCoin) :=
  match outCoints with
  | [] => mret []
  | out :: rest =>
      pubkeyCompress ← lift (compressed (Coins.PublicKey (Coins.CoinDetails out)));
      r ← (if bool_decide (pubkeyCompress = Pk (KeySet_Address keyset)) then DecryptOutputCoinByKey out keyset sh tok else mret None);
      results ← key_coins keyset sh tok rest;
      mret (match r with None => results | Some out => out :: results end)
  end.

Definition GetListOutputCoinsByKeyset (spare : bytes -> bytes) (keyset : KeySet) (sh : Z) (tok : Hash) :
    M S (list OutputCoin) :=
  outCointsInBytes ← GetOutcoinsByPubkey tok (Pk (KeySet_Address keyset)) sh;
  outCoints ← lift (mapM (stored_coin spare) outCointsInBytes);
  key_coins keyset sh tok outCoints.
End View.

(** ** Steps that only read *)

Section Reads.
Context {S : Type}.

Definition reads {A} (m : M S A) : Prop := forall s, fst (m s) = s.

Lemma reads_bind {A B} (m : M S A) (k : A -> M S B) : reads m -> (forall a, reads (k a)) -> reads (m ≫= k).
Proof.
  intros Hm Hk s. specialize (Hm s). unfold mbind, M_bind. destruct (m s) as [s1 [a| |]]; cbn in *; subst; [apply Hk|done..].
Qed.

Lemma reads_state {A} (m : M S A) s s' r : reads m -> m s = (s', r) -> s' = s.
Proof. intros Hm E. specialize (Hm s). by rewrite E in Hm. Qed.

Lemma reads_ret {A} (a : A) : reads (mret a).
Proof. done. Qed.
Lemma reads_lift {A} (o : outcome A) : reads (lift o).
Proof. done. Qed.
Lemma reads_throw {A} e : reads (throw (A := A) e).
Proof. done. Qed.
Lemma reads_panic {A} : reads (gopanic (A := A)).
Proof. done. Qed.

Lemma reads_or_err {A} e (m : M S A) : reads m -> reads (or_err e m).
Proof. intros Hm s. specialize (Hm s). unfold or_err. by destruct (m s) as [? [| |]]. Qed.

Lemma reads_fail_if b e : reads (fail_if (S := S) b e).
Proof. by destruct b. Qed.
End Reads.

Create HintDb reads.
#[export] Hint Resolve reads_fail_if : reads.

Ltac only_reads :=
  repeat match goal with
  | |- reads (_ ≫= _) => apply reads_bind; [|intros]
  | |- reads (or_err _ _) => apply reads_or_err
  | |- reads (fail_fetch _) => apply reads_or_err
  | |- reads (match ?x with _ => _ end) => destruct x
  | |- reads _ => solve [done | auto with reads]
  end.

Section Facts.
Context {curve : Curve} {sha : Sha256} {P F : Type}.
#[local] Hint Extern 0 (OutputCoinOps Coins.OutputCoin) => exact (coin_ops (P := P) (F := F)) : typeclass_instances.
#[local] Abbreviation Transaction := (ShardTx.Transaction (C := OutputCoin)).
#[local] Abbreviation ShardBlock := (ShardChain.ShardBlock OutputCoin).
#[local] Abbreviation View := (TxViewPoint (P := P) (F := F)).
Context {txhash : TxHash Transaction} {sjson : ShardJson OutputCoin}.
Context {S : Type} {lvdb : LevelDB S} {js : ListsJson}.

(** ** Fetching a view *)

Lemma new_serials_reads tok sh inputs : reads (new_serials (S := S) tok sh inputs).
Proof. induction inputs as [|item inputs IH]; cbn [new_serials]; only_reads. Qed.

Lemma fetch_output_reads tok sh w item v : reads (fetch_output (S := S) tok sh w item v).
Proof. unfold fetch_output. only_reads. Qed.

Lemma fetch_outputs_reads tok sh w items v : reads (fetch_outputs (S := S) tok sh w items v).
Proof.
  revert v. induction items as [|item items IH]; intros v; cbn [fetch_outputs]; only_reads. apply fetch_output_reads.
Qed.
#[local] Hint Resolve new_serials_reads fetch_outputs_reads : reads.

Lemma process_reads sh (proof : option (ShardTx.PaymentProof (C := OutputCoin))) tok w :
  reads (processFetchTxViewPoint (S := S) sh proof tok w).
Proof. unfold processFetchTxViewPoint. only_reads. Qed.
#[local] Hint Resolve process_reads : reads.

Lemma accept_tx_reads bs w (tx : Transaction) (view : View) : reads (accept_tx (S := S) bs w tx view).
Proof. unfold accept_tx. only_reads. Qed.
#[local] Hint Resolve accept_tx_reads : reads.

Lemma fetch_tx_reads bs w i (tx : Transaction) (view : View) : reads (fetch_tx (S := S) bs w i tx view).
Proof. unfold fetch_tx. only_reads. Qed.

Lemma fetch_txs_reads bs w i (txs : list Transaction) (view : View) : reads (fetch_txs (S := S) bs w i txs view).
Proof.
  revert i view. induction txs as [|tx txs IH]; intros i view; cbn [fetch_txs]; only_reads. apply fetch_tx_reads.
Qed.

(** The tokens under which the parts of a view are stored. *)
Definition privacy_tokens (txs : list Transaction) : list Hash :=
  omap (fun tx => match tx with CustomTokenPrivacyTx _ data => Some (privacy_PropertyID data) | _ => None end) txs.

Definition view_ok (txs : list Transaction) (view : View) : Prop :=
  tokenID view = ConstantID /\ mapSnD (coins view) = ∅ /\
  forall i tok sub, privacyCustomTokenViewPoint view !! i = Some (tok, sub) -> tok ∈ privacy_tokens txs.

Lemma new_view_ok sh : view_ok [] (NewTxViewPoint sh).
Proof. split; [done|]. split; [done|]. intros i tok sub. cbn. by rewrite lookup_empty. Qed.

Lemma accept_tx_ok bs w (tx : Transaction) (view : View) (s s' : S) view' :
  accept_tx bs w tx view s = (s', Ok view') -> exists found,
  view' = with_coins (accept (coins view) found) view /\
  processFetchTxViewPoint bs (GetProof tx) ConstantID w s = (s', Ok found).
Proof.
  intros H. apply M_bind_ok in H as (s1 & found & Hf & [= <- <-]). exists found. split; [done|].
  by apply or_err_ok in Hf.
Qed.

Lemma fetch_tx_ok bs w i (tx : Transaction) (view : View) (s s' : S) view' txs :
  view_ok txs view -> fetch_tx bs w i tx view s = (s', Ok view') -> view_ok (txs ++ [tx]) view'.
Proof.
  intros (H1 & H2 & H3) H.
  assert (forall j tok sub, privacyCustomTokenViewPoint view !! j = Some (tok, sub) -> tok ∈ privacy_tokens (txs ++ [tx])) as H3'.
  { intros j tok sub Hj. unfold privacy_tokens. rewrite omap_app. apply elem_of_app. left. by eapply H3. }
  unfold fetch_tx in H. destruct (bool_decide _).
  { apply M_bind_ok in H as (s1 & [] & _ & H). by apply accept_tx_ok in H as (found & -> & _). }
  destruct (bool_decide _).
  { apply M_bind_ok in H as (s1 & data & _ & H). apply M_bind_ok in H as (s2 & view1 & H & [= <- <-]).
    by apply accept_tx_ok in H as (found & -> & _). }
  destruct (bool_decide _); [|done].
  apply M_bind_ok in H as (s1 & data & Hd & H). apply M_bind_ok in H as (s2 & view1 & H & H').
  apply accept_tx_ok in H as (found & -> & _). apply M_bind_ok in H' as (s3 & sub & _ & [= <- <-]).
  split; [done|]. split; [done|]. intros j tok sub'. cbn.
  rewrite lookup_insert_Some. intros [[_ [= <- <-]]|[_ Hj]]; [|by eapply H3'].
  unfold privacy_tokens. rewrite omap_app. apply elem_of_app. right.
  apply lift_ok in Hd as [_ Hd]. destruct tx; try done. injection Hd as ->. cbn. by left.
Qed.

Lemma fetch_txs_ok bs w i (txs : list Transaction) (view : View) (s s' : S) view' txs0 :
  view_ok txs0 view -> fetch_txs bs w i txs view s = (s', Ok view') -> view_ok (txs0 ++ txs) view'.
Proof.
  revert i view s txs0. induction txs as [|tx txs IH]; intros i view s txs0 Hok H; cbn [fetch_txs] in H.
  - injection H as <- <-. by rewrite app_nil_r.
  - apply M_bind_ok in H as (s1 & view1 & H1 & H). replace (txs0 ++ tx :: txs) with ((txs0 ++ [tx]) ++ txs) by by rewrite <- app_assoc.
    eapply IH; [|done]. by eapply fetch_tx_ok.
Qed.
End Facts.

(** ** What the stores leave alone *)

Section Keeps.
Context {S : Type} {lvdb : LevelDB S} {js : ListsJson} {sha : Sha256}.
(** A property of the store that survives writes to good keys, which are all those outside
    the family of the derivators. *)
Context (Q : S -> Prop) (good : bytes -> Prop) (Hput : forall k v, good k -> preserves Q (Put k v))
  (Hgood : forall k, take 3 k <> bytes_of "snd" -> good k).

Definition good_token (tok : Hash) : Prop := forall sh x, good (list_key snderivatorsPrefix tok sh ++ x).

Lemma keeps_or_err {A} e (m : M S A) : preserves Q m -> preserves Q (or_err e m).
Proof. intros Hm s Hs. specialize (Hm s Hs). unfold or_err. by destruct (m s) as [? [| |]]. Qed.

Lemma keeps_reads {A} (m : M S A) : reads m -> preserves Q m.
Proof. intros Hm. by apply preserves_read. Qed.

Lemma keeps_put k v : take 3 k <> bytes_of "snd" -> preserves Q (Put k v).
Proof. intros. by apply Hput, Hgood. Qed.

End Keeps.

Create HintDb keeps.
#[export] Hint Resolve keeps_or_err keeps_put : keeps.

(** The first three bytes of a key of another family. *)
Ltac other_family := let E := fresh in intros E; lazy in E; congruence.

Ltac keeps :=
  repeat match goal with
  | |- preserves _ (_ ≫= _) => apply preserves_bind; [|intros]
  | |- preserves _ (mfor _ _) => apply preserves_mfor; intros
  | |- preserves _ (or_err _ _) => apply keeps_or_err
  | |- preserves _ (write_list _ _) => unfold write_list
  | |- preserves _ (Put _ _) => eapply keeps_put; [eassumption..|other_family]
  | |- preserves _ (match ?x with _ => _ end) => destruct x
  | |- preserves _ (let '(_, _) := ?x in _) => destruct x
  | |- preserves _ _ => solve [apply keeps_reads; only_reads | eauto with keeps]
  end.

Section Stores.
Context {S : Type} {lvdb : LevelDB S} {js : ListsJson} {sha : Sha256}.
Context (Q : S -> Prop) (good : bytes -> Prop) (Hput : forall k v, good k -> preserves Q (Put k v))
  (Hgood : forall k, take 3 k <> bytes_of "snd" -> good k).

Lemma keeps_serials tok sn sh : preserves Q (StoreSerialNumbers tok sn sh).
Proof using Hput Hgood. unfold StoreSerialNumbers. keeps. Qed.

Lemma keeps_commitments tok pk c sh : preserves Q (StoreCommitments tok pk c sh).
Proof using Hput Hgood. unfold StoreCommitments. keeps. Qed.

Lemma keeps_outcoins tok pk c sh : preserves Q (StoreOutputCoins tok pk c sh).
Proof using Hput Hgood. unfold StoreOutputCoins. keeps. Qed.

Lemma keeps_derivators tok snd sh : good_token good tok -> preserves Q (StoreSNDerivators tok snd sh).
Proof using Hput Hgood.
  intros Htok. unfold StoreSNDerivators. apply preserves_get. intros s _.
  apply preserves_bind; [by apply Hput, Htok|]. intros _. apply preserves_bind; [by apply keeps_reads|]. intros arr.
  unfold write_list. apply Hput. rewrite <- (app_nil_r (list_key _ _ _)). apply Htok.
Qed.

Lemma keeps_serials_view tok sh (v : CoinView) : preserves Q (StoreSerialNumbersFromTxViewPoint tok sh v).
Proof using Hput Hgood. apply preserves_mfor. intros. apply keeps_serials. Qed.

Lemma keeps_commitments_view tok vsh sh (v : CoinView) {curve : Curve} :
  preserves Q (StoreCommitmentsFromTxViewPoint tok vsh sh v).
Proof using Hput Hgood.
  unfold StoreCommitmentsFromTxViewPoint, store_own. keeps; [apply keeps_commitments|apply keeps_outcoins].
Qed.

Lemma keeps_derivators_view tok sh (v : CoinView) :
  good_token good tok \/ mapSnD v = ∅ -> preserves Q (StoreSNDerivatorsFromTxViewPoint tok sh v).
Proof using Hput Hgood.
  intros Htok. unfold StoreSNDerivatorsFromTxViewPoint. apply preserves_mfor. intros k.
  destruct Htok as [Htok| ->]; [|by apply keeps_reads]. apply preserves_mfor. intros. by apply keeps_derivators.
Qed.

Lemma keeps_save_coins tok sh (v : CoinView) {curve : Curve} :
  good_token good tok \/ mapSnD v = ∅ -> preserves Q (save_coins tok sh v).
Proof using Hput Hgood.
  intros Htok. unfold save_coins. apply preserves_bind; [apply keeps_serials_view|intros _].
  apply preserves_bind; [apply keeps_commitments_view|intros _]. by apply keeps_derivators_view.
Qed.
End Stores.

Section Saved.
Context {curve : Curve} {sha : Sha256} {P F : Type}.
#[local] Hint Extern 0 (OutputCoinOps Coins.OutputCoin) => exact (coin_ops (P := P) (F := F)) : typeclass_instances.
#[local] Abbreviation Transaction := (ShardTx.Transaction (C := OutputCoin)).
#[local] Abbreviation ShardBlock := (ShardChain.ShardBlock OutputCoin).
Context {txhash : TxHash Transaction} {sjson : ShardJson OutputCoin}.
Context {S : Type} {lvdb : LevelDB S} {js : ListsJson}.
#[local] Abbreviation Ledger := (Ledger (S := S)).
#[local] Abbreviation block_txs b := (ShardChain.Transactions (ShardChain.sb_Body b)).

(** The loops over the maps visit their entries. *)
Definition orders_ok (o : TxOrders (P := P) (F := F)) : Prop :=
  (forall m e, e ∈ order_tokens o m -> m !! fst e = Some (snd e)) /\
  (forall m e, e ∈ order_privacy o m -> m !! fst e = Some (snd e)).

Lemma transaction_by_hash_reads h : reads (GetTransactionByHash (S := S) h).
Proof.
  unfold GetTransactionByHash. apply reads_bind.
  { apply reads_or_err. unfold GetTransactionIndexById. only_reads. }
  intros [bh i]. apply reads_bind; [|intros; only_reads]. intros s.
  assert (reads (GetShardBlockByHash (S := S) bh)) as H.
  { unfold GetShardBlockByHash, FetchBlock. only_reads. }
  specialize (H s). by destruct (GetShardBlockByHash bh s) as [? [| |]].
Qed.

Lemma list_tokens_reads {A} (cast : Transaction -> outcome A) (id : A -> Hash) (e : string -> string) (data : list bytes) (result : gmap Hash A) :
  reads (list_tokens (S := S) cast id e data result).
Proof.
  revert result. induction data as [|x data IH]; intros result; cbn [list_tokens]; [done|].
  apply reads_bind; [|intros; apply reads_bind; [done|intros; apply IH]].
  intros s. pose proof (transaction_by_hash_reads (hash_value x) s) as H. by destruct (GetTransactionByHash _ s) as [? [| |]].
Qed.

Lemma list_custom_reads : reads (ListCustomToken (S := S)).
Proof.
  unfold ListCustomToken. apply reads_bind; [|intros; apply list_tokens_reads].
  unfold TxStore.ListCustomToken, entries, iterate. only_reads.
Qed.

Context (Q : S -> Prop) (good : bytes -> Prop) (Hput : forall k v, good k -> preserves Q (Put k v))
  (Hgood : forall k, take 3 k <> bytes_of "snd" -> good k).
#[local] Abbreviation QL := (fun l : Ledger => Q (ledger_db l)).

Lemma keeps_on_store {A} (m : M S A) : preserves Q m -> preserves QL (on_store m).
Proof using. intros Hm l Hl. unfold on_store. specialize (Hm _ Hl). by destruct (m (ledger_db l)). Qed.

Lemma keeps_token_init (tx : Transaction) data : preserves Q (store_token_init tx data).
Proof using Hput Hgood.
  unfold store_token_init, StoreCustomToken. destruct (_ =? _); [keeps|]. destruct (_ =? _); [|by apply keeps_reads].
  apply preserves_bind.
  - apply keeps_reads. intros s. pose proof (list_custom_reads s) as H. by destruct (ListCustomToken s) as [? [| |]].
  - intros m. destruct (decide _); [by apply keeps_reads|]. intros s Hs.
    assert (preserves Q (Put (GetKey tokenInitPrefix (PropertyID data)) (tx_hash tx))) as Hm by keeps.
    specialize (Hm s Hs). by destruct (Put _ _ s) as [? [| |]].
Qed.

Lemma keeps_history (tx : Transaction) data : preserves Q (StoreCustomTokenPaymentAddresstHistory tx data).
Proof using Hput Hgood.
  unfold StoreCustomTokenPaymentAddresstHistory. apply preserves_bind.
  - apply preserves_mfor. intros vin. unfold spend_vin. keeps.
  - intros _. generalize (default [] (Vouts data)). intros vouts. generalize 0. induction vouts as [|vout vouts IH]; intros i.
    + by apply keeps_reads.
    + cbn [create_vouts]. apply preserves_bind; [|intros; apply IH]. unfold create_vout. keeps.
Qed.

Lemma keeps_custom_token (block : ShardBlock) e : preserves QL (save_custom_token block e).
Proof using Hput Hgood.
  destruct e as [i [tx data]]. unfold save_custom_token. apply preserves_bind; [apply keeps_on_store, keeps_token_init|intros _].
  apply preserves_bind; [apply keeps_on_store, keeps_history|intros _].
  apply preserves_bind; [apply keeps_on_store; unfold StoreCustomTokenTx; keeps|intros _].
  destruct (_ =? 0); [|by intros ? ?]. apply preserves_bind; [|by intros ? ? ?].
  apply keeps_on_store, keeps_reads. unfold GetCustomTokenPaymentAddressesBalance, entries, iterate. only_reads.
Qed.

Lemma keeps_privacy_token (block : ShardBlock) view i tok sub :
  good_token good tok -> preserves Q (save_privacy_token block view (i, (tok, sub))).
Proof using Hput Hgood.
  intros Htok. unfold save_privacy_token. destruct (privacyCustomTokenTxs view !! i) as [[tx data]|]; [|by apply keeps_reads].
  apply preserves_bind; [destruct (_ =? _); [unfold StorePrivacyCustomToken; keeps|by apply keeps_reads]|intros _].
  apply preserves_bind; [unfold StorePrivacyCustomTokenTx; keeps|intros _]. eapply keeps_save_coins; eauto.
Qed.

Lemma preserves_mfor_in {A} (f : A -> M S unit) xs : (forall x, x ∈ xs -> preserves Q (f x)) -> preserves Q (mfor f xs).
Proof using. intros Hf s Hs. apply mfor_invariant; [|done]. intros x s' Hx. by apply Hf. Qed.

Lemma keeps_block o (block : ShardBlock) :
  orders_ok o -> Forall (good_token good) (privacy_tokens (block_txs block)) ->
  preserves QL (CreateAndSaveTxViewPointFromBlock o block).
Proof using Hput Hgood.
  intros [_ Hpriv] Htoks l Hl. unfold CreateAndSaveTxViewPointFromBlock, fetchTxViewPointFromBlock.
  set (sh := BeaconVerify.ShardID (ShardChain.sb_Header block)).
  pose proof (fetch_txs_reads (S := S) sh None 0 (block_txs block) (NewTxViewPoint sh)) as Hread.
  unfold mbind at 1, M_bind at 1, on_store at 1.
  destruct (fetch_txs sh None 0 _ _ (ledger_db l)) as [s1 r] eqn:E. pose proof (reads_state _ _ _ _ Hread E) as ->.
  destruct r as [view| |]; [|done..]. apply (fetch_txs_ok sh None 0 _ _ _ _ _ [] (new_view_ok _)) in E as (Htok & Hsnd & Htoks').
  enough (preserves QL (_ ← mfor (save_custom_token block) (order_tokens o (customTokenTxs view));
      _ ← on_store (mfor (save_privacy_token block view) (order_privacy o (privacyCustomTokenViewPoint view)));
      on_store (save_coins (tokenID view) sh (coins view)))) as Hrest by (apply Hrest; exact Hl).
  apply preserves_bind; [|intros _; apply preserves_bind].
  - apply preserves_mfor. intros e. apply keeps_custom_token.
  - apply keeps_on_store, preserves_mfor_in. intros [i [tok sub]] He. apply keeps_privacy_token.
    rewrite Forall_forall in Htoks. apply Htoks, (Htoks' i tok sub). by apply (Hpriv _ (i, (tok, sub))).
  - intros _. apply keeps_on_store. eapply keeps_save_coins; eauto.
Qed.
End Saved.

(** ** What a block records *)

Section Recorded.
Context {curve : Curve} {sha : Sha256} {P F : Type}.
#[local] Hint Extern 0 (OutputCoinOps Coins.OutputCoin) => exact (coin_ops (P := P) (F := F)) : typeclass_instances.
#[local] Abbreviation Transaction := (ShardTx.Transaction (C := OutputCoin)).
#[local] Abbreviation ShardBlock := (ShardChain.ShardBlock OutputCoin).
#[local] Abbreviation View := (TxViewPoint (P := P) (F := F)).
Context {txhash : TxHash Transaction} {sjson : ShardJson OutputCoin}.
Context {S : Type} {lvdb : LevelDB S} {js : ListsJson}.
#[local] Abbreviation Ledger := (Ledger (S := S)).
#[local] Abbreviation block_txs b := (ShardChain.Transactions (ShardChain.sb_Body b)).
#[local] Abbreviation block_shard b := (BeaconVerify.ShardID (ShardChain.sb_Header b)).

Lemma put_preserves (Q : S -> Prop) k v :
  (forall s s', lv_content s' = <[k := v]> (lv_content s) -> Q s -> Q s') -> preserves Q (Put k v).
Proof.
  intros H s Hs. unfold Put. destruct (lv_Put k v s) eqn:E; [|done]. cbn. eapply H; [by apply lv_Put_ok|done].
Qed.

Lemma token_key_inj prefix tok tok' sh sh' x y :
  hash_ok tok -> hash_ok tok' -> list_key prefix tok sh ++ x = list_key prefix tok' sh' ++ y -> tok = tok'.
Proof.
  intros [L1 R1] [L2 R2] E. unfold list_key, GetKey in E. rewrite <- !app_assoc in E. apply app_inv_head in E.
  apply app_inj_1 in E as [E _].
  - apply bytes_of_inj, hex_encode_inj in E; [|by apply Forall_rev..].
    apply (f_equal (@rev Z)) in E. by rewrite !rev_involutive in E.
  - assert (forall s, length (bytes_of s) = String.length s) as Hl by (induction s; cbn; congruence).
    unfold Hashes.String. rewrite !Hl, !hex_encode_length, !length_rev. congruence.
Qed.

(** C19. Derivators are recorded only where a privacy token of the block has the id: whatever
    the outcome, the views of a block leave every answer of [HasSNDerivator] as it was for each
    token id that no privacy token of the block carries.  So the derivators of the coins that
    the native payments of a block pay out are never recorded by them, and a later coin may
    repeat one: what [processFetchTxViewPoint] finds is appended to the map it was found in and
    not to the accepted one.  Only a privacy token that carries the native id, which nothing
    refuses, has the derivators of its own coins recorded among the native ones. *)
Theorem derivators_never_recorded (o : TxOrders (P := P) (F := F)) (block : ShardBlock) (l : Ledger) (tok : Hash) (d sh : Z) :
  orders_ok o -> hash_ok tok -> Forall hash_ok (privacy_tokens (block_txs block)) -> tok ∉ privacy_tokens (block_txs block) ->
  let s' := ledger_db (fst (CreateAndSaveTxViewPointFromBlock o block l)) in
  snd (HasSNDerivator tok d sh s') = snd (HasSNDerivator tok d sh (ledger_db l)).
Proof.
  intros Ho Htok Htoks Hnot s'.
  set (same := fun s : S => forall sh x, under (list_key snderivatorsPrefix tok sh) s x =
                 under (list_key snderivatorsPrefix tok sh) (ledger_db l) x).
  assert (same s') as Hsame.
  { apply (keeps_block same (fun k => forall sh x, k <> list_key snderivatorsPrefix tok sh ++ x)); [| |done| |done].
    - intros k v Hk. apply put_preserves. intros s1 s2 E Hs sh' x. unfold under. rewrite E, lookup_insert_ne by apply Hk. apply Hs.
    - intros k Hk sh' x ->. apply Hk. reflexivity.
    - apply Forall_forall. intros tok' Hin sh1 x1 sh2 x2 E. rewrite Forall_forall in Htoks.
      apply token_key_inj in E; [subst; done|by apply Htoks|done]. }
  clearbody s'. unfold HasSNDerivator. rewrite !has_under. cbn [snd]. unfold same in Hsame. by rewrite Hsame.
Qed.

(** ** Serial numbers *)

(** The serial number of an input is in the store, or among those of a view. *)
Definition caught (sh : Z) (s : S) (found : list bytes) (tx : Transaction) : Prop :=
  forall proof item, GetProof tx = Some proof -> item ∈ proof_InputCoins proof ->
  exists p, Coins.SerialNumber (Coins.input_details item) = Some p /\
    (is_Some (under (list_key serialNumbersPrefix ConstantID sh) s (Compress p)) \/ Compress p ∈ found).

Lemma new_serials_ok sh inputs (s s' : S) l :
  new_serials ConstantID sh inputs s = (s', Ok l) ->
  forall item, item ∈ inputs -> exists p, Coins.SerialNumber (Coins.input_details item) = Some p /\
    (is_Some (under (list_key serialNumbersPrefix ConstantID sh) s (Compress p)) \/ Compress p ∈ l).
Proof.
  revert l. induction inputs as [|i0 inputs IH]; intros l H item Hin; [by apply elem_of_nil in Hin|].
  cbn [new_serials] in H. apply M_bind_ok in H as (s1 & sn & [-> Hsn]%lift_ok & H).
  apply M_bind_ok in H as (s2 & ok & Hok & H). unfold HasSerialNumber in Hok. rewrite has_under in Hok. injection Hok as <- <-.
  apply M_bind_ok in H as (s3 & l1 & H1 & [= -> <-]).
  assert (l1 ⊆ (if bool_decide (is_Some (under (list_key serialNumbersPrefix ConstantID sh) s sn)) then l1 else sn :: l1)) as Hsub
    by (destruct (bool_decide _); set_solver).
  apply elem_of_cons in Hin as [->|Hin].
  - destruct (Coins.SerialNumber _) as [p|]; [|done]. injection Hsn as <-. exists p. split; [done|].
    case_bool_decide; [by left|right; by left].
  - destruct (IH _ H1 item Hin) as (p & Hp & [?|Hl]); exists p; (split; [done|]); [by left|right]. by apply Hsub.
Qed.

Lemma fetch_outputs_serials tok sh w items v (s s' : S) v' :
  fetch_outputs tok sh w items v s = (s', Ok v') -> listSerialNumbers v' = listSerialNumbers v.
Proof.
  revert v s. induction items as [|item items IH]; intros v s H; cbn [fetch_outputs] in H; [by injection H as _ <-|].
  apply M_bind_ok in H as (s1 & v1 & H1 & H). rewrite (IH _ _ H). clear H IH.
  unfold fetch_output in H1. apply M_bind_ok in H1 as (s2 & c & _ & H1). apply M_bind_ok in H1 as (s3 & pk & _ & H1).
  apply M_bind_ok in H1 as (s4 & ok & _ & H1). destruct (Coins.SNDerivator _); [|done].
  apply M_bind_ok in H1 as (s5 & ok' & _ & [= _ <-]). by destruct ok, ok'.
Qed.

Lemma accept_tx_caught sh w (tx : Transaction) (view : View) (s s' : S) view' :
  accept_tx sh w tx view s = (s', Ok view') ->
  caught sh s (listSerialNumbers (coins view')) tx /\ listSerialNumbers (coins view) ⊆ listSerialNumbers (coins view').
Proof.
  intros (found & -> & H)%accept_tx_ok. cbn. split; [|set_solver]. intros proof item Hp Hin. rewrite Hp in H.
  cbn in H. apply M_bind_ok in H as (s1 & serials & H1 & H). apply fetch_outputs_serials in H. rewrite H. cbn.
  destruct (new_serials_ok _ _ _ _ _ H1 item Hin) as (p & Hsn & [?|?]); exists p; split; try done; [by left|right; set_solver].
Qed.

Lemma fetch_tx_caught sh w i (tx : Transaction) (view : View) (s s' : S) view' :
  fetch_tx sh w i tx view s = (s', Ok view') ->
  caught sh s (listSerialNumbers (coins view')) tx /\ listSerialNumbers (coins view) ⊆ listSerialNumbers (coins view').
Proof.
  intros H. unfold fetch_tx in H. destruct (bool_decide _).
  { apply M_bind_ok in H as (s1 & [] & [-> _]%lift_ok & H). by eapply accept_tx_caught. }
  destruct (bool_decide _).
  { apply M_bind_ok in H as (s1 & data & [-> _]%lift_ok & H). apply M_bind_ok in H as (s2 & view1 & H & [= <- <-]).
    by apply accept_tx_caught in H. }
  destruct (bool_decide _); [|done].
  apply M_bind_ok in H as (s1 & data & [-> _]%lift_ok & H). apply M_bind_ok in H as (s2 & view1 & H & H').
  apply M_bind_ok in H' as (s3 & sub & _ & [= <- <-]). by apply accept_tx_caught in H.
Qed.

Lemma caught_weaken sh s l l' (tx : Transaction) : l ⊆ l' -> caught sh s l tx -> caught sh s l' tx.
Proof.
  intros Hl H proof item Hp Hin. destruct (H proof item Hp Hin) as (p & ? & [?|?]); exists p; split; try done; [by left|right].
  by apply Hl.
Qed.

Lemma fetch_txs_caught sh w i (txs : list Transaction) (view : View) (s s' : S) view' :
  fetch_txs sh w i txs view s = (s', Ok view') ->
  (forall tx, tx ∈ txs -> caught sh s (listSerialNumbers (coins view')) tx) /\
  listSerialNumbers (coins view) ⊆ listSerialNumbers (coins view').
Proof.
  revert i view. induction txs as [|tx txs IH]; intros i view H; cbn [fetch_txs] in H.
  - injection H as <- <-. split; [|done]. by intros ? ?%elem_of_nil.
  - apply M_bind_ok in H as (s1 & view1 & H1 & H). pose proof (reads_state _ _ _ _ (fetch_tx_reads sh w i tx view) H1) as ->.
    apply IH in H as [H Hsub]. apply fetch_tx_caught in H1 as [H1 Hsub1]. split; [|set_solver].
    intros tx' [->|Htx]%elem_of_cons; [by eapply caught_weaken|by apply H].
Qed.

Lemma preserves_run {A} (Q : S -> Prop) (m : M S A) s s' r : preserves Q m -> m s = (s', r) -> Q s -> Q s'.
Proof. intros Hm E Hs. specialize (Hm s Hs). by rewrite E in Hm. Qed.

Definition present (k : bytes) (s : S) : Prop := is_Some (lv_content s !! k).

Lemma put_present k k' v : preserves (present k) (Put k' v).
Proof.
  apply put_preserves. unfold present. intros s s' E Hs. rewrite E. destruct (decide (k' = k)) as [->|Hne].
  - rewrite lookup_insert_eq. by eexists.
  - by rewrite lookup_insert_ne.
Qed.

Lemma stored_serials tok sh l (s s' : S) sn :
  mfor (fun item1 => StoreSerialNumbers tok item1 sh) l s = (s', Ok tt) -> sn ∈ l ->
  present (list_key serialNumbersPrefix tok sh ++ sn) s'.
Proof.
  intros H Hin. apply list_elem_of_split in Hin as (l1 & l2 & ->). revert s H.
  induction l1 as [|x l1 IH]; intros s H; cbn [app mfor] in H.
  - apply M_bind_ok in H as (s1 & [] & H1 & H). assert (present (list_key serialNumbersPrefix tok sh ++ sn) s1) as Hs.
    { unfold StoreSerialNumbers in H1. apply M_bind_ok in H1 as (s2 & arr & _ & H1).
      apply M_bind_ok in H1 as (s3 & [] & Hp%raw_put_ok & Hw).
      eapply preserves_run; [apply put_present|exact Hw|]. unfold present. rewrite Hp, lookup_insert_eq. by eexists. }
    eapply preserves_run; [|exact H|exact Hs]. apply preserves_mfor. intros x. apply (keeps_serials _ (fun _ => True)); [intros; apply put_present|done].
  - apply M_bind_ok in H as (s1 & [] & _ & H). by apply (IH s1).
Qed.

Lemma on_store_ok {A} (m : M S A) (l l' : Ledger) a :
  on_store m l = (l', Ok a) -> m (ledger_db l) = (ledger_db l', Ok a).
Proof. unfold on_store. destruct (m (ledger_db l)) as [d r]. by intros [= <- ->]. Qed.

(** C10. No coin is spent twice across blocks: once the views of a block are stored, the serial
    number of every coin that a transaction of the block spends is recorded for the shard,
    whether it was before or not. *)
Theorem spent_coins_recorded (o : TxOrders (P := P) (F := F)) (block : ShardBlock) (l l' : Ledger) (tx : Transaction)
    (proof : ShardTx.PaymentProof (C := OutputCoin)) (item : Coins.InputCoin) :
  orders_ok o -> CreateAndSaveTxViewPointFromBlock o block l = (l', Ok tt) ->
  tx ∈ block_txs block -> GetProof tx = Some proof -> item ∈ proof_InputCoins proof ->
  exists p, Coins.SerialNumber (Coins.input_details item) = Some p /\
    HasSerialNumber ConstantID (Compress p) (block_shard block) (ledger_db l') = (ledger_db l', Ok true).
Proof.
  intros Ho Hrun Htx Hproof Hitem. pose proof Hrun as Hall.
  apply M_bind_ok in Hrun as (l1 & view & Hf%on_store_ok & Hrun).
  pose proof (fetch_txs_ok _ _ _ _ _ _ _ _ [] (new_view_ok _) Hf) as (Htok & _).
  apply fetch_txs_caught in Hf as [Hcaught _]. destruct (Hcaught tx Htx proof item Hproof Hitem) as (p & Hp & Hin).
  exists p. split; [done|]. unfold HasSerialNumber. rewrite has_under. do 2 f_equal. apply bool_decide_eq_true.
  set (k := list_key serialNumbersPrefix ConstantID (block_shard block) ++ Compress p).
  change (present k (ledger_db l')). destruct Hin as [Hin|Hin].
  - replace l' with (fst (CreateAndSaveTxViewPointFromBlock o block l)) by by rewrite Hall.
    apply (keeps_block (present k) (fun _ => True)); [intros; apply put_present|done|done| |done].
    apply Forall_forall. by intros ? _ ? ?.
  - apply M_bind_ok in Hrun as (l2 & [] & _ & Hrun). apply M_bind_ok in Hrun as (l3 & [] & _ & Hrun%on_store_ok).
    rewrite Htok in Hrun. unfold save_coins in Hrun. apply M_bind_ok in Hrun as (s3 & [] & H1 & Hrun).
    eapply stored_serials in H1; [|exact Hin]. fold k in H1. apply M_bind_ok in Hrun as (s4 & [] & H2 & Hrun).
    eapply preserves_run; [|exact Hrun|eapply preserves_run; [|exact H2|exact H1]].
    + apply (keeps_derivators_view (present k) (fun _ => True)); [intros; apply put_present|done|]. left. by intros ? ?.
    + apply (keeps_commitments_view (present k) (fun _ => True)); [intros; apply put_present|done].
Qed.
End Recorded.

(** ** A concrete block *)

Section Samples.
Import QuickHash SmallCurve.
#[local] Existing Instance quick_hash.
#[local] Existing Instance TxStore.sample_json.
#[local] Instance sample_coin_ops : OutputCoinOps OutputCoin := coin_ops (P := unit) (F := unit).
#[local] Instance sample_txhash : TxHash (ShardTx.Transaction (C := OutputCoin)) := fun _ => replicate 32 4.
#[local] Instance sample_shard_json : ShardJson OutputCoin := {|
  shard_block_json _ := Panic;
  shard_block_of_json _ :=
    (ShardChain.mkShardBlock "" "" [] "" (ShardChain.mkShardBody [] ∅ [])
      (BeaconVerify.mkShardHeader (mkPaymentAddress [] []) "" 0 0 zero_hash 0 0 0 0 zero_hash zero_hash zero_hash zero_hash zero_hash
        zero_hash [] 0 zero_hash), Err "");
  shard_best_json _ := Panic;
  shard_best_of_json _ := (ShardChain.InitBestStateShard 0 1 1, Err "")
|}.

(** A coin that pays 7 to the key (5, 2), from the coin with serial number (4, 3); one
    transaction pays with the native coin, one with a privacy token too. *)
Definition sample_paid : Coin :=
  Coins.mkCoin (Some (mkPoint 5 2)) (Some (mkPoint 2 1)) (Some 9) None (Some 3) 7 [].
Definition sample_spent : Coins.InputCoin :=
  Coins.mkInputCoin (Coins.mkCoin None None None (Some (mkPoint 4 3)) None 7 []).
Definition sample_proof : ShardTx.PaymentProof (C := OutputCoin) :=
  ShardTx.mkProof (C := OutputCoin) [sample_spent] [Coins.mkOutputCoin sample_paid None] tt.
Definition sample_tx (typ : string) : ShardTx.Tx (C := OutputCoin) := ShardTx.mkTx (C := OutputCoin) typ (Some sample_proof) tt.
Definition sample_normal : ShardTx.Transaction (C := OutputCoin) := NormalTx (sample_tx TxNormalType).
Definition sample_privacy : ShardTx.Transaction (C := OutputCoin) :=
  CustomTokenPrivacyTx (sample_tx TxCustomTokenPrivacyType)
    (mkTokenPrivacy (sample_tx TxNormalType) (replicate 32 3) "" "" 0 false 0).
Definition sample_block : ShardChain.ShardBlock OutputCoin :=
  ShardChain.mkShardBlock "" "" [] "" (ShardChain.mkShardBody [] ∅ [sample_normal; sample_privacy])
    (BeaconVerify.mkShardHeader (mkPaymentAddress [] []) "" 1 1 zero_hash 2 1 1 0 zero_hash zero_hash zero_hash zero_hash zero_hash
      zero_hash [] 1 zero_hash).
Definition sample_orders : TxOrders (P := unit) (F := unit) := mkOrders map_to_list map_to_list map_to_list.
Definition sample_ledger : Ledger (S := gmap bytes bytes) := mkLedger ∅ ∅.

Lemma sample_orders_ok : orders_ok sample_orders.
Proof. split; intros m [i x] Hin; by apply elem_of_map_to_list in Hin. Qed.

Definition sample_after : Ledger (S := gmap bytes bytes) :=
  fst (CreateAndSaveTxViewPointFromBlock sample_orders sample_block sample_ledger).

Lemma spent_coins_recorded_witness : exists p, Some (mkPoint 4 3) = Some p /\
  HasSerialNumber ConstantID (Compress p) 1 (ledger_db sample_after) = (ledger_db sample_after, Ok true).
Proof.
  apply (spent_coins_recorded sample_orders sample_block sample_ledger sample_after sample_normal sample_proof sample_spent).
  - apply sample_orders_ok.
  - apply run_fst. vm_compute. reflexivity.
  - left.
  - reflexivity.
  - left.
Defined.

(** The derivator 9 is paid out twice here, and is new afterwards; it is known afterwards where
    a privacy token with the native id pays it out. *)
Definition sample_native : ShardTx.Transaction (C := OutputCoin) :=
  CustomTokenPrivacyTx (sample_tx TxCustomTokenPrivacyType)
    (mkTokenPrivacy (sample_tx TxNormalType) ConstantID "" "" 0 false 0).
Definition sample_native_block : ShardChain.ShardBlock OutputCoin :=
  ShardChain.mkShardBlock "" "" [] "" (ShardChain.mkShardBody [] ∅ [sample_native]) (ShardChain.sb_Header sample_block).

Lemma derivators_never_recorded_witness :
  snd (HasSNDerivator ConstantID 9 1 (ledger_db sample_after)) = Ok false /\
  snd (HasSNDerivator ConstantID 9 1
    (ledger_db (fst (CreateAndSaveTxViewPointFromBlock sample_orders sample_native_block sample_ledger)))) = Ok true.
Proof.
  split; [|vm_compute; reflexivity]. transitivity (snd (HasSNDerivator ConstantID 9 1 (∅ : gmap bytes bytes))); [|vm_compute; reflexivity].
  assert (hash_ok ConstantID) as Hn by (split; [reflexivity|apply (bool_decide_eq_true_1 _); vm_compute; reflexivity]).
  apply (derivators_never_recorded sample_orders sample_block sample_ledger ConstantID 9 1); [apply sample_orders_ok|exact Hn|..].
  - apply Forall_cons. split; [|apply Forall_nil; exact Logic.I].
    split; [reflexivity|apply (bool_decide_eq_true_1 _); vm_compute; reflexivity].
  - apply (bool_decide_eq_true_1 _). vm_compute. reflexivity.
Defined.
End Samples.

(** ** Token outputs *)

Section Outputs.
Context {sha : Sha256} {S : Type} {lvdb : LevelDB S}.

(** Texts without "[" have no splitter in them or across their end. *)
Lemma split_from_app (acc a b : bytes) :
  91 ∉ a -> TxStore.split_from 0 acc (a ++ Splitter ++ b) = (acc ++ a) :: TxStore.split_from 0 [] b.
Proof.
  revert acc. induction a as [|x a IH]; intros acc Ha.
  - rewrite app_nil_r. reflexivity.
  - apply not_elem_of_cons in Ha as [Hx Ha]. cbn [app TxStore.split_from].
    rewrite bool_decide_false; [|].
    + rewrite IH by done. by rewrite <- app_assoc.
    + destruct a as [|y a]; [by intros E; simplify_eq/=|]. apply not_elem_of_cons in Ha as [Hy _].
      intros E. cbn in E. by simplify_eq.
Qed.

Lemma split_from_end (acc a : bytes) : 91 ∉ a -> TxStore.split_from 0 acc a = [acc ++ a].
Proof.
  revert acc. induction a as [|x a IH]; intros acc Ha; [by rewrite app_nil_r|].
  apply not_elem_of_cons in Ha as [Hx Ha]. cbn [TxStore.split_from]. rewrite bool_decide_false.
  - rewrite IH by done. by rewrite <- app_assoc.
  - destruct a as [|y a]; [done|]. apply not_elem_of_cons in Ha as [Hy _]. intros E. cbn in E. by simplify_eq.
Qed.

Lemma itoa_no_bracket z : 91 ∉ bytes_of (Itoa z).
Proof.
  assert (forall d, 91 ∉ bytes_of (DecimalString.NilEmpty.string_of_uint d)) as Hd.
  { intros d. induction d; cbn; rewrite ?not_elem_of_cons; (split || idtac); (done || apply not_elem_of_nil). }
  assert (forall d, 91 ∉ bytes_of (DecimalString.NilZero.string_of_uint d)) as Hz.
  { intros d. destruct d; [cbn; apply not_elem_of_cons; split; [done|apply not_elem_of_nil]|apply Hd..]. }
  rewrite Itoa_unfold. destruct (z <? 0); [|apply Hz]. cbn. apply not_elem_of_cons. split; [done|apply Hz].
Qed.

(** The value kept for an output of [v] coins. *)
Definition output_value (v : Z) (spending reward : bytes) : bytes :=
  bytes_of (Itoa (i64 v)) ++ Splitter ++ spending ++ Splitter ++ reward.

Lemma split_output v (spending reward : bytes) :
  91 ∉ spending -> 91 ∉ reward -> SplitBy (output_value v spending reward) = [bytes_of (Itoa (i64 v)); spending; reward].
Proof.
  intros H1 H2. unfold SplitBy, output_value. rewrite split_from_app by apply itoa_no_bracket.
  rewrite split_from_app by done. by rewrite split_from_end.
Qed.

#[local] Ltac no_bracket := apply (bool_decide_eq_true_1 _); vm_compute; reflexivity.

(** C20. A token output is spent once.  After an output is created, a reference to it is
    accepted and marks it spent, for the amount it was created with; while it is marked, every
    later reference is refused as a double spend, and it cannot be created again.  The update
    that follows a reward forgets the separators of the value, after which a reference, valid
    or not, panics. *)
Theorem token_output_once (tok : Hash) (vin : TxTokenVin) (vout : TxTokenVout) (s s1 : S) :
  VinAddress vin = VoutAddress vout ->
  create_vout tok (TxCustomTokenID vin) (VoutIndex vin) vout s = (s1, Ok tt) ->
  let key := utxo_key tok (PaymentAddress_Bytes (VinAddress vin)) (TxCustomTokenID vin) (VoutIndex vin) in
  let spent := output_value (ShardTx.Value vout) Spent Unreward in
  lv_content s !! key = None /\
  spend_vin tok vin s1 = Put key spent s1 /\
  (forall s2 : S, lv_content s2 !! key = Some spent ->
     spend_vin tok vin s2 = (s2, Err "Double Spend Detected") /\
     create_vout tok (TxCustomTokenID vin) (VoutIndex vin) vout s2 = (s2, Err "UTXO already exist")) /\
  (forall s2 : S, UpdateRewardAccountUTXO tok (PaymentAddress_Bytes (VinAddress vin)) (TxCustomTokenID vin) (VoutIndex vin) s1 = (s2, Ok tt) ->
     spend_vin tok vin s2 = (s2, Panic)).
Proof.
  intros Haddr H key spent. unfold create_vout in *. rewrite <- Haddr in *. fold key in H |- *.
  unfold spend_vin, UpdateRewardAccountUTXO. fold key.
  apply M_bind_ok in H as (s0 & ok & [= <- <-] & H). apply M_bind_ok in H as (s0 & [] & Hf & H).
  case_bool_decide as Hnone; [done|]. injection Hf as <-. apply raw_put_ok in H.
  assert (lv_content s1 !! key = Some (output_value (ShardTx.Value vout) Unspent Unreward)) as Hnew by (rewrite H; apply lookup_insert_eq).
  assert (Hsplit := split_output (ShardTx.Value vout)). repeat split.
  - by apply eq_None_not_Some.
  - unfold mbind, M_bind, HasValue, Get. rewrite Hnew, Hsplit by no_bracket. reflexivity.
  - unfold mbind, M_bind, HasValue, Get. rewrite H0. unfold spent. rewrite Hsplit by no_bracket. reflexivity.
  - unfold mbind, M_bind, HasValue. rewrite H0. reflexivity.
  - intros s2 Hu. unfold mbind, M_bind, HasValue, Get in Hu. rewrite Hnew, Hsplit in Hu by no_bracket. cbn in Hu.
    apply raw_put_ok in Hu. unfold mbind, M_bind, HasValue, Get. rewrite Hu, lookup_insert_eq. unfold SplitBy.
    rewrite split_from_end; [reflexivity|]. rewrite !not_elem_of_app. repeat split; [apply itoa_no_bracket|no_bracket..].
Qed.
End Outputs.

Section OutputSample.
Import QuickHash.
#[local] Existing Instance quick_hash.

Definition sample_vout : TxTokenVout := mkVout 70 (mkPaymentAddress [1] [2]).
Definition sample_vin : TxTokenVin := mkVin (replicate 32 6) 1 "" (mkPaymentAddress [1] [2]).
Definition sample_created : gmap bytes bytes :=
  fst (create_vout ConstantID (replicate 32 6) 1 sample_vout (∅ : gmap bytes bytes)).

Lemma token_output_once_witness : spend_vin ConstantID sample_vin sample_created =
  Put (utxo_key ConstantID (PaymentAddress_Bytes (VinAddress sample_vin)) (replicate 32 6) 1)
    (output_value 70 Spent Unreward) sample_created.
Proof.
  refine (proj1 (proj2 (token_output_once ConstantID sample_vin sample_vout ∅ sample_created _ _))).
  - reflexivity.
  - apply run_fst. vm_compute. reflexivity.
Defined.
End OutputSample.
End TxView.
