(* ===== verification/TxValidate.v ===== *)
(** Transactions and their validation (src/transaction/txprivacy.go, txcustomtoken.go,
    txcustomtokenprivacy.go, txcustomtokenprivacydata.go): the text a transaction is hashed
    from, its size and fee, signatures, double-spending checks against the pool and against
    the chain, sanity, and the validation of the transaction by itself.  The metadata of a
    transaction is an interface, as in the source. *)

From Stdlib Require Import Ascii String.
From S2P Require Import Prelude GoStr Hash Sha256 Base58 Merkle Modular EC Schnorr Keys Wallet ShardTx Coins LevelDB.
From S2P Require Import BeaconVerify TxStore Payment ShardChain TxView.

#[local] Open Scope string_scope.
#[local] Open Scope list_scope.
#[local] Open Scope Z_scope.

(** [metadata.Metadata]: the methods that do not look at the transaction. *)
Class MetadataInfo (MD : Type) : Type := {
  meta_Type : MD -> Z;
  meta_Hash : MD -> Hash;
  meta_ValidateMetadataByItself : MD -> bool;
  meta_CalculateSize : MD -> Z
}.
#[export] Hint Mode MetadataInfo ! : typeclass_instances.

(** The fee, by the transaction it is in. *)
Class MetadataFee (MD T : Type) : Type := meta_CheckTransactionFee : MD -> T -> Z -> outcome bool.
#[export] Hint Mode MetadataFee ! ! : typeclass_instances.

(** Those that the validation of a transaction of type [T] calls on a store [S].  An error is
    [Err]; [ValidateSanityData] returns all three results. *)
Class MetadataOps (MD T S : Type) : Type := {
  meta_ValidateTxWithBlockChain : MD -> T -> Z -> M S bool;
  meta_ValidateSanityData : MD -> T -> M S (bool * bool * option string);
  meta_VerifyMultiSigs : MD -> T -> M S bool
}.
#[export] Hint Mode MetadataOps ! ! ! : typeclass_instances.

Module TxValidate.
Import Hashes EC Schnorr Keys LevelDB ShardTx TxStore TxView.
#[local] Abbreviation Coin := Coins.Coin.
#[local] Abbreviation OutputCoin := Coins.OutputCoin.
#[local] Abbreviation InputCoin := Coins.InputCoin.

Definition TxVersion : Z := 1.
Definition MultiSigsSpendingMeta : Z := 31.
Definition InvalidMeta : Z := 0.

(** The fields of [transaction.Tx] besides its type and its proof. *)
Record TxFields (MD : Type) := mkFields {
  Version : Z;
  LockTime : Z;
  Fee : Z;
  Info : bytes;
  SigPubKey : option bytes;
  Sig : option bytes;
  PubKeyLastByteSender : Z;
  Metadata : option MD
}.
Arguments mkFields {_} _ _ _ _ _ _ _ _.
Arguments Version {_} _.
Arguments LockTime {_} _.
Arguments Fee {_} _.
Arguments Info {_} _.
Arguments SigPubKey {_} _.
Arguments Sig {_} _.
Arguments PubKeyLastByteSender {_} _.
Arguments Metadata {_} _.

(** A loop that stops at the first error. *)
Fixpoint each {A} (f : A -> outcome unit) (l : list A) : outcome unit :=
  match l with [] => Ok tt | x :: l => _ ← f x; each f l end.

(** [(n + 1023) / 1024] is [math.Ceil(float64(n) / 1024)] below 2^53. *)
Definition kilobytes (n : Z) : Z := (n + 1023) / 1024.

Section Validate.
Context {curve : Curve} {sha : Sha256} {ranges : Payment.RangeProofs}.
Context {MD S : Type} {lvdb : LevelDB S} {js : ListsJson}.
Context (PedCom_G : list EllipticPoint).

#[local] Hint Extern 0 (OutputCoinOps Coins.OutputCoin) =>
  exact (Payment.payment_coin_ops (F := TxFields MD)) : typeclass_instances.
#[local] Abbreviation Tx := (ShardTx.Tx (C := OutputCoin)).
#[local] Abbreviation Transaction := (ShardTx.Transaction (C := OutputCoin)).
#[local] Abbreviation PaymentProof := (ShardTx.PaymentProof (C := OutputCoin)).
#[local] Abbreviation TxTokenPrivacyData := (ShardTx.TxTokenPrivacyData (C := OutputCoin)).
Context {metainfo : MetadataInfo MD} {metafee : MetadataFee MD Transaction} {metaops : MetadataOps MD Transaction S}
  {sjson : ShardJson OutputCoin}.

Definition fields (t : Tx) : TxFields MD := tx_rest t.
Definition GetMetadata (tx : Transaction) : option MD := Metadata (fields (base_tx tx)).
Definition GetMetadataType (tx : Transaction) : Z :=
  match GetMetadata tx with Some m => meta_Type m | None => InvalidMeta end.
Definition GetSigPubKey (tx : Transaction) : option bytes := SigPubKey (fields (base_tx tx)).
Definition GetTxFee (tx : Transaction) : Z := Fee (fields (base_tx tx)).
Definition GetSenderAddrLastByte (tx : Transaction) : Z := PubKeyLastByteSender (fields (base_tx tx)).

(** ** Texts and hashes *)

Definition proof_bytes (t : Tx) : outcome (option bytes) :=
  match Proof t with None => Ok None | Some p => b ← Payment.PaymentProof_Bytes p; Ok (Some b) end.

Definition meta_text (m : option MD) : string :=
  match m with Some m => Hashes.String (meta_Hash m) | None => "" end.

(** Neither the type, nor the keys, nor the info are in the text. *)
Definition Tx_String (t : Tx) : outcome string :=
  proof ← proof_bytes t;
  Ok (Itoa (Version (fields t)) +:+ Itoa (LockTime (fields t)) +:+ Itoa (Fee (fields t)) +:+
      match proof with Some b => base58_encode b | None => "" end +:+ meta_text (Metadata (fields t))).

Definition Tx_Hash (t : Tx) : outcome Hash := s ← Tx_String t; Ok (HashH (bytes_of s)).

(** A token without outputs has no hash, and its text panics. *)
Definition TxCustomToken_String (t : Tx) (data : TxTokenData) : outcome string :=
  h ← Tx_Hash t;
  d ← match TokenData_Hash data with Ok d => Ok d | _ => Panic end;
  Ok (Hashes.String h +:+ Hashes.String d +:+ meta_text (Metadata (fields t))).

Definition PrivacyOutput_String (out : OutputCoin) : outcome bytes :=
  pk ← compressed (Coins.PublicKey (Coins.CoinDetails out));
  Ok (pk ++ bytes_of (Itoa (Coins.Coin_Value (Coins.CoinDetails out)))).

Definition PrivacyInput_String (inp : InputCoin) : bytes :=
  let d := Coins.input_details inp in
  match Coins.PublicKey d with Some p => Compress p | None => [] end ++
  (if 0 <? Coins.Coin_Value d then bytes_of (Itoa (Coins.Coin_Value d)) else []).

Definition TxTokenPrivacyData_String (data : TxTokenPrivacyData) : outcome bytes :=
  coins ← match Proof (TxNormal data) with
          | None => Ok []
          | Some p =>
              outs ← mapM PrivacyOutput_String (proof_OutputCoins p);
              Ok (concat outs ++ concat (map PrivacyInput_String (proof_InputCoins p)))
          end;
  Ok (bytes_of (privacy_PropertyName data +:+ privacy_PropertySymbol data +:+ Itoa (privacy_Amount data)) ++ coins).

Definition TxTokenPrivacyData_Hash (data : TxTokenPrivacyData) : outcome Hash :=
  b ← TxTokenPrivacyData_String data; Ok (DoubleHashH b).

Definition TxCustomTokenPrivacy_String (t : Tx) (data : TxTokenPrivacyData) : outcome bytes :=
  h ← Tx_Hash t;
  d ← TxTokenPrivacyData_Hash data;
  Ok (bytes_of (Hashes.String h +:+ Hashes.String d) ++
      match Metadata (fields t) with Some m => meta_Hash m | None => [] end).

Definition Transaction_Hash (tx : Transaction) : outcome Hash :=
  match tx with
  | NormalTx t => Tx_Hash t
  | CustomTokenTx t data => s ← TxCustomToken_String t data; Ok (DoubleHashH (bytes_of s))
  | CustomTokenPrivacyTx t data => b ← TxCustomTokenPrivacy_String t data; Ok (DoubleHashH b)
  end.

Definition Vout_Hash (vout : TxTokenVout) : Hash := HashH (bytes_of (Vout_String vout)).

(** ** Sizes and fees *)

Definition option_length (b : option bytes) : nat := length (default [] b).
Definition meta_size (m : option MD) : Z := match m with Some m => meta_CalculateSize m | None => 0 end.

Definition Tx_ActualSize (t : Tx) : outcome Z :=
  proof ← proof_bytes t;
  Ok (kilobytes (u64 (1 + (Z.of_nat (String.length (Type_ t)) + 1) + 8 + 8 +
        Z.of_nat (option_length (SigPubKey (fields t))) + Z.of_nat (option_length (Sig (fields t))) +
        Z.of_nat (option_length proof) + 1 + Z.of_nat (length (Info (fields t))) + meta_size (Metadata (fields t))))).

Definition vin_size (vin : TxTokenVin) : Z :=
  Z.of_nat (String.length (Signature vin)) + 32 + 4 + Z.of_nat (PaymentAddress_Size (VinAddress vin)).
Definition vout_size (vout : TxTokenVout) : Z := 8 + Z.of_nat (PaymentAddress_Size (VoutAddress vout)).
Definition sum_sizes {A} (f : A -> Z) (l : list A) : Z := foldr (fun x acc => f x + acc) 0 l.

(** Kilobytes of the transaction and bytes of the token; the name is counted twice. *)
Definition GetTxActualSize (tx : Transaction) : outcome Z :=
  match tx with
  | NormalTx t => Tx_ActualSize t
  | CustomTokenTx t data =>
      n ← Tx_ActualSize t;
      let name := Z.of_nat (String.length (PropertyName data)) in
      Ok (u64 (n + name + name + 32 + 4 + sum_sizes vin_size (Vins data) +
               sum_sizes vout_size (default [] (Vouts data)) + meta_size (Metadata (fields t))))
  | CustomTokenPrivacyTx t data =>
      n ← Tx_ActualSize t;
      k ← Tx_ActualSize (TxNormal data);
      Ok (u64 (n + k + Z.of_nat (String.length (privacy_PropertyName data)) +
               Z.of_nat (String.length (privacy_PropertySymbol data)) + 32 + 4 + 8 + meta_size (Metadata (fields t))))
  end.

Definition CheckTxVersion (tx : Transaction) (maxTxVersion : Z) : bool :=
  negb (maxTxVersion <? Version (fields (base_tx tx))).

(** A salary transaction without a proof panics. *)
Definition IsSalaryTx (tx : Transaction) : outcome bool :=
  if String.eqb (GetType tx) TxSalaryType then
    match GetProof tx with None => Panic | Some p => Ok (length (proof_InputCoins p) =? 0)%nat end
  else Ok false.

(** The method of the embedded transaction: the data of a token is not paid for. *)
Definition CheckTransactionFee (tx : Transaction) (minFeePerKbTx : Z) : outcome bool :=
  let t := base_tx tx in
  salary ← IsSalaryTx tx;
  if (salary : bool) then Ok true
  else
    match Metadata (fields t) with
    | Some m => meta_CheckTransactionFee m (NormalTx t) minFeePerKbTx
    | None =>
        size ← Tx_ActualSize t;
        Ok (negb (Fee (fields t) <? u64 (minFeePerKbTx * size)))
    end.

Definition ValidateType (tx : Transaction) : bool :=
  let typ := GetType tx in
  match tx with
  | NormalTx _ => String.eqb typ TxNormalType || String.eqb typ TxSalaryType
  | CustomTokenTx _ _ => String.eqb typ TxCustomTokenType
  | CustomTokenPrivacyTx _ _ => String.eqb typ TxCustomTokenPrivacyType
  end.

Definition IsPrivacy (tx : Transaction) : bool :=
  match tx with
  | CustomTokenTx _ _ => false
  | _ =>
      match GetProof tx with
      | None => false
      | Some p => (0 <? length (Payment.OneOfManyProof (proof_rest p)))%nat
      end
  end.

(** ** Who gives what to whom *)

Definition ListNullifiers (tx : Transaction) : outcome (list bytes) :=
  match GetProof tx with
  | None => Ok []
  | Some p => mapM (fun d => compressed (Coins.SerialNumber (Coins.input_details d))) (proof_InputCoins p)
  end.

(** The amount is added to the first entry of the key. *)
Fixpoint add_receiver (key : bytes) (amount : Z) (l : list (bytes * Z)) : list (bytes * Z) :=
  match l with
  | [] => [(key, amount)]
  | (k, a) :: l => if bool_decide (key = k) then (k, u64 (a + amount)) :: l else (k, a) :: add_receiver key amount l
  end.

Fixpoint receivers_of (coins : list OutputCoin) (acc : list (bytes * Z)) : outcome (list (bytes * Z)) :=
  match coins with
  | [] => Ok acc
  | c :: coins =>
      pk ← compressed (Coins.PublicKey (Coins.CoinDetails c));
      receivers_of coins (add_receiver pk (Coins.Coin_Value (Coins.CoinDetails c)) acc)
  end.

Definition GetReceivers (tx : Transaction) : outcome (list (bytes * Z)) :=
  receivers_of (default [] (tx_outputs tx)) [].

(** How many receivers are not the sender, and the last of them. *)
Definition unique_receiver (sender : bytes) (l : list (bytes * Z)) : bool * bytes * Z :=
  let others := List.filter (fun x => negb (bool_decide (fst x = sender))) l in
  let '(pubkey, amount) := default ([], 0) (last others) in
  ((length others =? 1)%nat, pubkey, amount).

Definition first_input_key (tx : Transaction) : outcome (option bytes) :=
  match GetProof tx with
  | Some p =>
      match proof_InputCoins p with
      | [] => Ok None
      | c :: _ => k ← compressed (Coins.PublicKey (Coins.input_details c)); Ok (Some k)
      end
  | None => Ok None
  end.

Definition GetUniqueReceiver (tx : Transaction) : outcome (bool * bytes * Z) :=
  sender ← first_input_key tx;
  l ← GetReceivers tx;
  Ok (unique_receiver (default [] sender) l).

Definition GetTokenReceivers (tx : Transaction) : list (bytes * Z) :=
  match tx with
  | CustomTokenTx _ data =>
      foldl (fun acc vout => add_receiver (Pk (VoutAddress vout)) (Value vout) acc) [] (default [] (Vouts data))
  | _ => []
  end.

Definition GetTokenUniqueReceiver (tx : Transaction) : bool * bytes * Z :=
  match tx with
  | CustomTokenTx _ _ => unique_receiver (default [] (GetSigPubKey tx)) (GetTokenReceivers tx)
  | _ => (false, [], 0)
  end.

Fixpoint value_to_others (sender : bytes) (coins : list OutputCoin) (acc : Z) : outcome Z :=
  match coins with
  | [] => Ok acc
  | c :: coins =>
      pk ← compressed (Coins.PublicKey (Coins.CoinDetails c));
      value_to_others sender coins
        (if bool_decide (sender = pk) then acc else u64 (acc + Coins.Coin_Value (Coins.CoinDetails c)))
  end.

Definition CalculateTxValue (tx : Transaction) : outcome Z :=
  match tx_outputs tx with
  | None | Some [] => Ok 0
  | Some outs =>
      sender ← first_input_key tx;
      match sender with None => Ok 0 | Some sender => value_to_others sender outs 0 end
  end.

(** ** Double spending *)

Definition double_spend : outcome unit := Err "double spend".

(** [serials] are the lists of the pool, in the order of the loop. *)
Definition validateDoubleSpendTxWithCurrentMempool (t : Tx) (serials : list (list bytes)) : outcome unit :=
  match Proof t with
  | None => Ok tt
  | Some p =>
      each (fun temp1 =>
        each (fun desc =>
          sn ← compressed (Coins.SerialNumber (Coins.input_details desc));
          if bool_decide (sn ∈ temp1) then double_spend else Ok tt) (proof_InputCoins p)) serials
  end.

Definition same_vin (vin item : TxTokenVin) : bool :=
  String.eqb (Hashes.String (TxCustomTokenID vin)) (Hashes.String (TxCustomTokenID item)) && (VoutIndex vin =? VoutIndex item).

Definition validateDoubleSpendCustomTokenOnTx (data : TxTokenData) (txInBlock : Transaction) : outcome unit :=
  temp ← as_custom_token txInBlock;
  if existsb (fun vin => existsb (same_vin vin) (Vins data)) (Vins temp) then Err "Double spend" else Ok tt.

Definition salary_violation : outcome unit :=
  Err "can not receive a salary tx from other node, this is a violation".

Definition normal_mempool (t : Tx) (serials : list (list bytes)) : outcome unit :=
  if String.eqb (Type_ t) TxSalaryType then salary_violation
  else validateDoubleSpendTxWithCurrentMempool t serials.

(** [txsInMem] are the transactions of the pool, in the order of the loop. *)
Definition ValidateTxWithCurrentMempool (tx : Transaction) (serials : list (list bytes)) (txsInMem : list Transaction) :
    outcome unit :=
  match tx with
  | NormalTx t => normal_mempool t serials
  | CustomTokenTx t data =>
      _ ← normal_mempool t serials;
      each (fun txInMem =>
        if String.eqb (GetType txInMem) TxCustomTokenType then validateDoubleSpendCustomTokenOnTx data txInMem
        else Ok tt) txsInMem
  | CustomTokenPrivacyTx t _ => validateDoubleSpendTxWithCurrentMempool t serials
  end.

Fixpoint serials_fresh (inputs : list InputCoin) (sh : Z) : M S unit :=
  match inputs with
  | [] => mret tt
  | c :: inputs =>
      sn ← lift (compressed (Coins.SerialNumber (Coins.input_details c)));
      ok ← Payment.attempt (HasSerialNumber ConstantID sn sh);
      match ok with
      | Some false => serials_fresh inputs sh
      | _ => lift double_spend
      end
  end.

Definition ValidateConstDoubleSpendWithBlockchain (t : Tx) (sh : Z) : M S unit :=
  match Proof t with None => mret tt | Some p => serials_fresh (proof_InputCoins p) sh end.

(** The transactions of a token, by their hashes. *)
Fixpoint token_txs (hashes : list Hash) (result : gmap Hash Transaction) : M S (gmap Hash Transaction) :=
  match hashes with
  | [] => mret result
  | h :: hashes =>
      r ← GetTransactionByHash h;
      k ← lift (Transaction_Hash (snd r));
      token_txs hashes (<[k := snd r]> result)
  end.

Definition GetCustomTokenTxs (tok : Hash) : M S (gmap Hash Transaction) :=
  txHashes ← CustomTokenTxs tok;
  token_txs txHashes ∅.

(** The order of the loop over the transactions of a token. *)
Context (visit : gmap Hash Transaction -> list Transaction).

Definition validateDoubleSpendCustomTokenWithBlockchain (data : TxTokenData) : M S unit :=
  listTxs ← GetCustomTokenTxs (PropertyID data);
  if (size listTxs =? 0)%nat && negb ((TokenType data =? CustomTokenInit) || (TokenType data =? CustomTokenCrossShard))
  then throw "Not exist tx for this"
  else lift (each (validateDoubleSpendCustomTokenOnTx data) (visit listTxs)).

(** When the metadata says so, a normal transaction is not checked any further; a token is
    refused. *)
Definition ValidateTxWithBlockChain (tx : Transaction) (sh : Z) : M S unit :=
  match tx with
  | NormalTx t =>
      if String.eqb (Type_ t) TxSalaryType then mret tt
      else
        isContinued ← match Metadata (fields t) with
                      | Some m => meta_ValidateTxWithBlockChain m tx sh
                      | None => mret true
                      end;
        if (isContinued : bool) then ValidateConstDoubleSpendWithBlockchain t sh else mret tt
  | CustomTokenTx t data =>
      if String.eqb (Type_ t) TxSalaryType then throw "Wrong salary tx"
      else
        isContinued ← match Metadata (fields t) with
                      | Some m => meta_ValidateTxWithBlockChain m tx sh
                      | None => mret true
                      end;
        if (isContinued : bool) then
          _ ← ValidateConstDoubleSpendWithBlockchain t sh;
          validateDoubleSpendCustomTokenWithBlockchain data
        else throw "Unexpected error"
  | CustomTokenPrivacyTx t _ => ValidateConstDoubleSpendWithBlockchain t sh
  end.

(** ** Sanity *)

(** [now] is the time of the node. *)
Definition validateNormalTxSanityData (now : Z) (t : Tx) : bool * option string :=
  if TxVersion <? Version (fields t) then (false, Some "wrong tx version")
  else if now <? LockTime (fields t) then (false, Some "wrong tx locktime")
  else (true, None).

Definition meta_sanity (m : option MD) (tx : Transaction) : M S (bool * bool * option string) :=
  match m with Some m => meta_ValidateSanityData m tx | None => mret (true, true, None) end.

Definition goes_on (r : bool * bool * option string) : bool :=
  let '(isContinued, ok, err) := r in bool_decide (err = None) && ok && isContinued.

Definition Tx_sanity (now : Z) (t : Tx) : M S (bool * option string) :=
  r ← meta_sanity (Metadata (fields t)) (NormalTx t);
  mret (if goes_on r then validateNormalTxSanityData now t else (snd (fst r), snd r)).

(** The error of a token's sanity check is never nil when there is something to report. *)
Definition token_sanity (data : TxTokenData) : bool * option string :=
  let vin_error vin :=
    if (length (Pk (VinAddress vin)) =? 0)%nat then Some "Wrong input transaction"
    else if String.eqb (Signature vin) "" then Some "Wrong signature"
    else if String.eqb (Hashes.String (TxCustomTokenID vin)) (Hashes.String zero_hash) then Some "Wrong input transaction"
    else None in
  let vout_error vout :=
    if (length (Pk (VoutAddress vout)) =? 0)%nat || (Value vout =? 0) then Some "Wrong input transaction" else None in
  match head (omap vin_error (Vins data)) with
  | Some e => (false, Some e)
  | None =>
      match head (omap vout_error (default [] (Vouts data))) with
      | Some e => (false, Some e)
      | None => (true, None)
      end
  end.

Definition ValidateSanityData (now : Z) (tx : Transaction) : M S (bool * option string) :=
  match tx with
  | NormalTx t => Tx_sanity now t
  | CustomTokenTx t data =>
      r ← meta_sanity (Metadata (fields t)) tx;
      if goes_on r then
        '(ok, err) ← Tx_sanity now t;
        mret (if bool_decide (err = None) && ok then token_sanity data else (ok, Some "Unexpected error"))
      else mret (snd (fst r), snd r)
  | CustomTokenPrivacyTx t _ => mret (validateNormalTxSanityData now t)
  end.

(** ** Signatures *)

(** A signature of fewer than 64 bytes panics. *)
Definition verifySigTx (t : Tx) : outcome bool :=
  match Sig (fields t), SigPubKey (fields t) with
  | Some sg, Some pub =>
      match decompressed pub with
      | Err _ => Ok false
      | Panic => Panic
      | Ok PK =>
          verKey ← SchnPubKey_Set PedCom_G PK;
          signature ← Signature_SetBytes sg;
          h ← Tx_Hash t;
          Schnorr.Verify verKey (Some signature) h
      end
  | _, _ => Ok false
  end.

Definition verifyMultiSigsTx (t : Tx) : M S bool :=
  match Metadata (fields t) with
  | None => mret false
  | Some m => if meta_Type m =? MultiSigsSpendingMeta then meta_VerifyMultiSigs m (NormalTx t) else mret false
  end.

(** ** The transaction by itself *)

Definition CheckSNDerivatorExistence (tok : Hash) (snd sh : Z) : M S bool := HasSNDerivator tok snd sh.

(** [false] when a derivator is stored already, or cannot be looked up. *)
Fixpoint derivators_fresh (tok : Hash) (sh : Z) (snds : list Z) : M S bool :=
  match snds with
  | [] => mret true
  | snd :: snds =>
      ok ← Payment.attempt (CheckSNDerivatorExistence tok snd sh);
      match ok with Some false => derivators_fresh tok sh snds | _ => mret false end
  end.

Fixpoint commitments_known (tok : Hash) (sh : Z) (inputs : list InputCoin) : M S bool :=
  match inputs with
  | [] => mret true
  | c :: inputs =>
      cm ← lift (compressed (Coins.CoinCommitment (Coins.input_details c)));
      ok ← Payment.attempt (HasCommitment tok cm sh);
      match ok with Some true => commitments_known tok sh inputs | _ => mret false end
  end.

Definition CheckDuplicateBigIntArray (arr : list Z) : bool := negb (bool_decide (NoDup arr)).

(** The first output coin is read whatever their number. *)
Definition ValidateTxSalary (t : Tx) : M S bool :=
  valid ← lift (verifySigTx t);
  if (valid : bool) then
    match outputs t with
    | Some (c :: _) =>
        let d := Coins.CoinDetails c in
        lastByte ← lift (Coins.Coin_GetPubKeyLastByte d);
        let sh := GetShardIDFromLastByte lastByte in
        sn ← lift (Payment.deref (Coins.SNDerivator d));
        ok ← Payment.attempt (CheckSNDerivatorExistence ConstantID sn sh);
        match ok with
        | Some false => lift (Payment.commitment_ok PedCom_G d (EC.SetBytes [sh]))
        | _ => mret false
        end
    | _ => gopanic
    end
  else mret false.

(** What is checked of a proof: the derivators of its outputs, without privacy the
    commitments of its inputs, and the proof itself. *)
Definition proof_valid (hasPrivacy : bool) (sh : Z) (tok : Hash) (t : Tx) (pub : bytes) (p : PaymentProof) : M S bool :=
  snds ← lift (mapM (fun c => Payment.deref (Coins.SNDerivator (Coins.CoinDetails c))) (proof_OutputCoins p));
  if CheckDuplicateBigIntArray snds then mret false
  else
    fresh ← derivators_fresh tok sh snds;
    if (fresh : bool) then
      known ← (if hasPrivacy then mret true else commitments_known tok sh (proof_InputCoins p));
      if (known : bool) then Payment.Verify PedCom_G hasPrivacy p pub (Fee (fields t)) sh tok else mret false
    else mret false.

Definition Tx_ValidateTransaction (hasPrivacy : bool) (sh : Z) (tok : Hash) (t : Tx) : M S bool :=
  if String.eqb (Type_ t) TxSalaryType then ValidateTxSalary t
  else
    valid ← lift (verifySigTx t);
    if (valid : bool) then
      pub ← lift (Payment.deref (SigPubKey (fields t)));
      reg ← Payment.attempt (GetMultiSigsRegistration pub);
      match reg with
      | None => mret false
      | Some reg =>
          ok ← (if (0 <? length (reg : bytes))%nat then verifyMultiSigsTx t else mret true);
          if (ok : bool) then
            match Proof t with None => mret true | Some p => proof_valid hasPrivacy sh tok t pub p end
          else mret false
      end
    else mret false.

(** The inputs of a token: each is signed with the key it names, over the hash of the
    output it spends. *)
Fixpoint vins_signed (listUtxo : gmap Hash TxTokenData) (vins : list TxTokenVin) : outcome bool :=
  match vins with
  | [] => Ok true
  | vin :: vins =>
      let vouts := match listUtxo !! TxCustomTokenID vin with Some d => default [] (Vouts d) | None => [] end in
      vout ← BeaconVerify.at_index vouts (VoutIndex vin);
      let signature := match base58_decode (Signature vin) with Ok b => b | _ => [] end in
      match KeySet_Verify PedCom_G (mkKeySet [] (VinAddress vin) (mkViewingKey [] [])) (Vout_Hash vout) signature with
      | Ok true => vins_signed listUtxo vins
      | Panic => Panic
      | _ => Ok false
      end
  end.

Definition TxCustomToken_ValidateTransaction (hasPrivacy : bool) (sh : Z) (tok : Hash) (t : Tx) (data : TxTokenData)
    (listUtxo : gmap Hash TxTokenData) : M S bool :=
  ok ← Tx_ValidateTransaction hasPrivacy sh tok t;
  if (ok : bool) then
    if (size listUtxo =? 0)%nat || (length (Vins data) =? 0)%nat then mret false
    else lift (vins_signed listUtxo (Vins data))
  else mret false.

(** The transactions whose outputs are spent; one of another type panics. *)
Fixpoint list_utxo (vins : list TxTokenVin) (data : gmap Hash TxTokenData) : M S (option (gmap Hash TxTokenData)) :=
  match vins with
  | [] => mret (if (size data =? 0)%nat then None else Some data)
  | vin :: vins =>
      r ← Payment.attempt (GetTransactionByHash (TxCustomTokenID vin));
      match r with
      | None => mret None
      | Some r => d ← lift (as_custom_token (snd r)); list_utxo vins (<[TxCustomTokenID vin := d]> data)
      end
  end.

Definition TxCustomTokenPrivacy_ValidateTransaction (hasPrivacy : bool) (sh : Z) (tok : Hash) (t : Tx)
    (data : TxTokenPrivacyData) : M S bool :=
  ok ← Tx_ValidateTransaction hasPrivacy sh tok t;
  if (ok : bool) then
    Tx_ValidateTransaction (negb (privacy_Type data =? CustomTokenInit)) sh (privacy_PropertyID data) (TxNormal data)
  else mret false.

Definition meta_by_itself (t : Tx) : bool :=
  match Metadata (fields t) with Some m => meta_ValidateMetadataByItself m | None => true end.

(** [listUtxo] is what the transaction carried before. *)
Definition token_by_itself (hasPrivacy : bool) (sh : Z) (t : Tx) (data : TxTokenData) (listUtxo : gmap Hash TxTokenData) : M S bool :=
  if TokenType data =? CustomTokenInit then
    ok ← Tx_ValidateTransaction hasPrivacy sh ConstantID t;
    mret (ok && (length (default [] (Vouts data)) =? 1)%nat && (length (Vins data) =? 0)%nat)
  else if TokenType data =? CustomTokenCrossShard then
    ok ← Tx_ValidateTransaction hasPrivacy sh ConstantID t;
    mret (ok && (size listUtxo =? 0)%nat && (length (Vins data) =? 0)%nat)
  else
    utxo ← list_utxo (Vins data) ∅;
    match utxo with
    | None => mret false
    | Some utxo =>
        ok ← TxCustomToken_ValidateTransaction hasPrivacy sh ConstantID t data utxo;
        mret (ok && meta_by_itself t)
    end.

(** A privacy token that is issued is not looked at. *)
Definition ValidateTxByItself (hasPrivacy : bool) (sh : Z) (tx : Transaction) : M S bool :=
  match tx with
  | NormalTx t =>
      ok ← Tx_ValidateTransaction hasPrivacy sh ConstantID t;
      mret (ok && match Metadata (fields t) with Some m => negb hasPrivacy && meta_ValidateMetadataByItself m | None => true end)
  | CustomTokenTx t data => token_by_itself hasPrivacy sh t data ∅
  | CustomTokenPrivacyTx t data =>
      if privacy_Type data =? CustomTokenInit then mret true
      else
        ok ← TxCustomTokenPrivacy_ValidateTransaction hasPrivacy sh ConstantID t data;
        mret (ok && meta_by_itself t)
  end.
End Validate.

(** ** What a valid transaction is *)

Section Facts.
Context {curve : Curve} {sha : Sha256} {ranges : Payment.RangeProofs}.
Context {MD S : Type} {lvdb : LevelDB S} {js : ListsJson}.
Context (PedCom_G : list EllipticPoint).
#[local] Hint Extern 0 (OutputCoinOps Coins.OutputCoin) =>
  exact (Payment.payment_coin_ops (F := TxFields MD)) : typeclass_instances.
#[local] Abbreviation Tx := (ShardTx.Tx (C := OutputCoin)).
#[local] Abbreviation Transaction := (ShardTx.Transaction (C := OutputCoin)).
Context {metainfo : MetadataInfo MD} {metafee : MetadataFee MD Transaction} {metaops : MetadataOps MD Transaction S}
  {sjson : ShardJson OutputCoin}.

Lemma attempt_ok {A} (m : M S A) (s : S) b : m s = (s, Ok b) -> Payment.attempt m s = (s, Ok (Some b)).
Proof using. intros E. unfold Payment.attempt. by rewrite E. Qed.

(** The derivators of a token that the store has. *)
Definition derivator_stored (tok : Hash) (sh snd : Z) (s : S) : bool :=
  match HasSNDerivator tok snd sh s with (_, Ok b) => b | _ => true end.

Definition commitment_stored (tok : Hash) (sh : Z) (cm : bytes) (s : S) : bool :=
  match HasCommitment tok cm sh s with (_, Ok b) => b | _ => false end.

Lemma derivators_fresh_run tok sh snds (s : S) :
  derivators_fresh tok sh snds s = (s, Ok (forallb (fun snd => negb (derivator_stored tok sh snd s)) snds)).
Proof using.
  induction snds as [|snd snds IH]; [done|]. cbn [derivators_fresh forallb].
  unfold CheckSNDerivatorExistence, derivator_stored, HasSNDerivator, has_key, Payment.attempt in *. mrun. cbn.
  case_bool_decide; cbn; [done|]. exact IH.
Qed.

Lemma commitments_known_ok tok sh (inputs : list InputCoin) (s s' : S) :
  commitments_known tok sh inputs s = (s', Ok true) <->
  s' = s /\ Forall (fun c => exists cm, Coins.CoinCommitment (Coins.input_details c) = Some cm /\
                                  commitment_stored tok sh (Compress cm) s = true) inputs.
Proof using.
  induction inputs as [|c inputs IH]; cbn [commitments_known].
  - split; [intros [= <-]; by split|by intros [-> _]].
  - unfold commitment_stored, HasCommitment, has_key, Payment.attempt, compressed, lift in *. mrun.
    destruct (Coins.CoinCommitment _) as [cm|] eqn:E; cbn.
    + case_bool_decide as Hp; cbn.
      * rewrite IH, Forall_cons, E. split; intros [-> H]; (split; [done|]).
        -- split; [|done]. exists cm. split; [done|by rewrite bool_decide_true].
        -- apply H.
      * split; [done|]. intros [_ [(? & [= <-]%(eq_trans (eq_sym E)) & ?%bool_decide_eq_true) _]%Forall_cons]. done.
    + split; [done|]. intros [_ [(? & H & _) _]%Forall_cons]. congruence.
Qed.

Lemma opaque_all (l : list OutputCoin) snds :
  mapM (fun c => Payment.deref (Coins.SNDerivator (Coins.CoinDetails c))) l = Ok snds <->
  Forall2 (fun c snd => Coins.SNDerivator (Coins.CoinDetails c) = Some snd) l snds.
Proof using.
  rewrite mapM_Ok. split; intros H; (eapply Forall2_impl; [exact H|]); cbn; intros c snd; unfold Payment.deref; destruct (Coins.SNDerivator _); congruence.
Qed.

(** The parts of a valid payment. *)
Record payment_checks (hasPrivacy : bool) (sh : Z) (tok : Hash) (t : Tx) (pub : bytes) (s : S)
    (p : ShardTx.PaymentProof (C := OutputCoin)) : Prop := {
  outputs_fresh : exists snds,
    Forall2 (fun c snd => Coins.SNDerivator (Coins.CoinDetails c) = Some snd) (proof_OutputCoins p) snds /\
    NoDup snds /\ Forall (fun snd => derivator_stored tok sh snd s = false) snds;
  inputs_known : hasPrivacy = false ->
    Forall (fun c => exists cm, Coins.CoinCommitment (Coins.input_details c) = Some cm /\
                                commitment_stored tok sh (Compress cm) s = true) (proof_InputCoins p);
  proof_verifies : snd (Payment.Verify PedCom_G hasPrivacy p pub (Fee (fields t)) sh tok s) = Ok true
}.

Lemma forallb_fresh tok sh snds (s : S) :
  forallb (fun snd => negb (derivator_stored tok sh snd s)) snds = true <->
  Forall (fun snd => derivator_stored tok sh snd s = false) snds.
Proof using.
  induction snds as [|snd snds IH]; cbn; [by split; [constructor|]|].
  rewrite andb_true_iff, negb_true_iff, Forall_cons, IH. done.
Qed.

Lemma proof_valid_spec hasPrivacy sh tok (t : Tx) pub p (s : S) :
  snd (proof_valid PedCom_G hasPrivacy sh tok t pub p s) = Ok true <-> payment_checks hasPrivacy sh tok t pub s p.
Proof using.
  split.
  - intros H. destruct (proof_valid PedCom_G hasPrivacy sh tok t pub p s) as [s' r] eqn:E. cbn in H. subst r.
    unfold proof_valid in E.
    apply M_bind_ok in E as (s1 & snds & [-> E1]%lift_ok & E).
    apply opaque_all in E1. unfold CheckDuplicateBigIntArray in E. case_bool_decide as Hnd; cbn in E; [|done].
    apply M_bind_ok in E as (s1 & fresh & E2 & E). rewrite derivators_fresh_run in E2. injection E2 as <- Ef.
    destruct fresh; [|done]. apply forallb_fresh in Ef.
    apply M_bind_ok in E as (s1 & known & E3 & E). destruct known; [|done].
    destruct hasPrivacy.
    + injection E3 as <-. split; [by exists snds|done|by rewrite E].
    + apply commitments_known_ok in E3 as [-> Hk]. split; [by exists snds|done|by rewrite E].
  - intros [(snds & H1 & Hnd & Hf) Hk Hv]. apply opaque_all in H1. apply forallb_fresh in Hf. unfold proof_valid. mrun. rewrite H1.
    unfold CheckDuplicateBigIntArray. rewrite bool_decide_true by done. cbn. rewrite derivators_fresh_run, Hf.
    destruct hasPrivacy; [exact Hv|].
    assert (commitments_known tok sh (proof_InputCoins p) s = (s, Ok true)) as -> by (apply commitments_known_ok; auto).
    exact Hv.
Qed.

(** A key for which several signers are registered. *)
Definition multisig_key (pub : bytes) (s : S) : bool :=
  (0 <? length (default [] (lv_content s !! (multisigsPrefix ++ pub))))%nat.

Lemma verified_has_key (t : Tx) : verifySigTx PedCom_G t = Ok true -> exists pub, SigPubKey (fields t) = Some pub.
Proof using. unfold verifySigTx. destruct (Sig _), (SigPubKey _); eauto; done. Qed.

(** What the validation of a transaction that pays no salary establishes, and all that it
    establishes: the signature verifies under the key in the transaction; if several signers
    are registered for that key, the metadata is a multi-signature one and accepts; the
    derivators of the outputs are distinct and new; without privacy the commitments of the
    inputs are recorded; and the proof verifies with the fee of the transaction. *)
(** C9. Validation of a transaction decides exactly the conjunction of its checks. *)
Theorem validate_transaction_spec (hasPrivacy : bool) (sh : Z) (tok : Hash) (t : Tx) (s : S) :
  Type_ t <> TxSalaryType -> (forall m : MD, reads (S := S) (meta_VerifyMultiSigs m (NormalTx t))) ->
  snd (Tx_ValidateTransaction PedCom_G hasPrivacy sh tok t s) = Ok true <->
  verifySigTx PedCom_G t = Ok true /\
  (multisig_key (default [] (SigPubKey (fields t))) s = true -> exists m, Metadata (fields t) = Some m /\
     meta_Type m = MultiSigsSpendingMeta /\ snd (meta_VerifyMultiSigs m (NormalTx t) s) = Ok true) /\
  (forall p, Proof t = Some p -> payment_checks hasPrivacy sh tok t (default [] (SigPubKey (fields t))) s p).
Proof using.
  intros Htyp Hreads. unfold Tx_ValidateTransaction. destruct (String.eqb_spec (Type_ t) TxSalaryType) as [|_]; [done|].
  unfold lift at 1. mrun. destruct (verifySigTx PedCom_G t) as [[|]| |] eqn:Ev; cbn -[multisig_key Nat.ltb multisigsPrefix]; [|by split; [|intros [? _]]..].
  destruct (verified_has_key t Ev) as [pub Hpub]. rewrite Hpub. cbn -[multisig_key Nat.ltb multisigsPrefix].
  unfold Payment.attempt, GetMultiSigsRegistration. mrun. cbn -[multisig_key Nat.ltb multisigsPrefix].
  change (0 <? length (default [] (lv_content s !! (multisigsPrefix ++ pub))))%nat with (multisig_key pub s).
  assert (forall s1 : S, snd (match Proof t with None => mret true | Some p => proof_valid PedCom_G hasPrivacy sh tok t pub p end s1) = Ok true <->
            forall p, Proof t = Some p -> payment_checks hasPrivacy sh tok t pub s1 p) as Hp.
  { intros s1. destruct (Proof t) as [p|]; [|by split]. rewrite proof_valid_spec. split; [by intros H ? [= <-]|auto]. }
  destruct (multisig_key pub s).
  - unfold verifyMultiSigsTx. destruct (Metadata (fields t)) as [m|].
    2: { split; [done|]. intros (_ & H & _). by destruct (H eq_refl) as (? & ? & _). }
    destruct (Z.eqb_spec (meta_Type m) MultiSigsSpendingMeta) as [Hm|Hm].
    2: { split; [done|]. intros (_ & H & _). by destruct (H eq_refl) as (? & [= <-] & ? & _). }
    pose proof (Hreads m s) as Hs. destruct (meta_VerifyMultiSigs m (NormalTx t) s) as [s1 r] eqn:Em. cbn in Hs. subst s1.
    assert (r = Ok true \/ r <> Ok true) as [->|Hr] by (destruct r as [[]| |]; auto; right; done).
    + rewrite Hp. split; [|by intros (_ & _ & ?)]. intros H. split; [done|]. split; [|done].
      intros _. exists m. by rewrite Em.
    + split; [by destruct r as [[]| |]|]. intros (_ & H & _). destruct (H eq_refl) as (? & [= <-] & _ & H'). by rewrite Em in H'.
  - cbn. rewrite Hp. split; [|by intros (_ & _ & ?)]. intros H. by split.
Qed.

(** *** What a signature covers *)

Lemma append_twice (a b x : string) : (a +:+ b) +:+ x = a +:+ b +:+ x.
Proof using. induction a as [|c a IH]; [done|]. exact (f_equal (String.String c) IH). Qed.

Lemma same_text (t t' : Tx) :
  Version (fields t) = Version (fields t') -> Itoa (LockTime (fields t)) +:+ Itoa (Fee (fields t)) =
    Itoa (LockTime (fields t')) +:+ Itoa (Fee (fields t')) ->
  Proof t = Proof t' -> Metadata (fields t) = Metadata (fields t') -> Tx_String t = Tx_String t'.
Proof using.
  intros Hv Hn Hp Hm. unfold Tx_String, proof_bytes. rewrite Hv, Hp, Hm.
  assert (forall x, Itoa (LockTime (fields t)) +:+ Itoa (Fee (fields t)) +:+ x =
                    Itoa (LockTime (fields t')) +:+ Itoa (Fee (fields t')) +:+ x) as Hx.
  { intros x. by rewrite <- !append_twice, Hn. }
  destruct (Proof t') as [p|]; [destruct (Payment.PaymentProof_Bytes p); [|done..]|]; cbn; by rewrite Hx.
Qed.

Lemma same_hash (t t' : Tx) : Tx_String t = Tx_String t' -> Tx_Hash t = Tx_Hash t'.
Proof using. unfold Tx_Hash. by intros ->. Qed.

Lemma same_validation (hasPrivacy : bool) (sh : Z) (tok : Hash) (t t' : Tx) (s : S) :
  Tx_String t = Tx_String t' -> Sig (fields t) = Sig (fields t') -> SigPubKey (fields t) = SigPubKey (fields t') ->
  Proof t = Proof t' -> Metadata (fields t) = None -> Metadata (fields t') = None -> Fee (fields t) = Fee (fields t') ->
  Type_ t <> TxSalaryType -> Type_ t' <> TxSalaryType ->
  Tx_ValidateTransaction PedCom_G hasPrivacy sh tok t s = Tx_ValidateTransaction PedCom_G hasPrivacy sh tok t' s.
Proof using.
  intros Ht Hs Hk Hp Hm Hm' Hf H1 H2. unfold Tx_ValidateTransaction.
  destruct (String.eqb_spec (Type_ t) TxSalaryType), (String.eqb_spec (Type_ t') TxSalaryType); try done.
  unfold verifySigTx, verifyMultiSigsTx, proof_valid. rewrite Hs, Hk, (same_hash t t' Ht), Hm, Hm', Hp, Hf. done.
Qed.

(** The signature of a transaction covers neither its type, nor its info, nor the byte that
    names the sender's shard, nor the boundary between its lock time and its fee: whoever
    relays it may change them.  Nor does it cover the data of a token: a payment validates as
    the issue of any token, under the same signature. *)
(** C39. Transactions that differ in type, info, sender byte or the boundary of lock time and
    fee have one hash and one signature check, and a signed payment is also a valid issue of
    a token its signer never saw. *)
Theorem signature_scope (t t' : Tx) (data : TxTokenData) (hasPrivacy : bool) (sh : Z) (s : S) :
  Version (fields t) = Version (fields t') ->
  Itoa (LockTime (fields t)) +:+ Itoa (Fee (fields t)) = Itoa (LockTime (fields t')) +:+ Itoa (Fee (fields t')) ->
  Proof t = Proof t' -> Metadata (fields t) = Metadata (fields t') ->
  Sig (fields t) = Sig (fields t') -> SigPubKey (fields t) = SigPubKey (fields t') ->
  Transaction_Hash (NormalTx t) = Transaction_Hash (NormalTx t') /\
  verifySigTx PedCom_G t = verifySigTx PedCom_G t' /\
  (Metadata (fields t) = None -> Fee (fields t) = Fee (fields t') -> Type_ t <> TxSalaryType -> Type_ t' <> TxSalaryType ->
   TokenType data = CustomTokenInit -> length (default [] (Vouts data)) = 1%nat -> Vins data = [] ->
   snd (ValidateTxByItself PedCom_G hasPrivacy sh (CustomTokenTx t' data) s) =
   snd (ValidateTxByItself PedCom_G hasPrivacy sh (NormalTx t) s)).
Proof using.
  intros Hv Hn Hp Hm Hs Hk. pose proof (same_text t t' Hv Hn Hp Hm) as Ht. split; [|split].
  - by apply same_hash.
  - unfold verifySigTx. by rewrite (same_hash t t' Ht), Hs, Hk.
  - intros Hnone Hf H1 H2 Hd Hvo Hvi. unfold ValidateTxByItself, token_by_itself. rewrite Hd, Hvo, Hvi, Hnone. cbn.
    mrun. rewrite (same_validation hasPrivacy sh ConstantID t t' s) by (congruence || done).
    destruct (Tx_ValidateTransaction _ _ _ _ t' s) as [s' [[]| |]]; done.
Qed.

(** *** What the transfer of a token is worth *)

Lemma each_ext {A} (f g : A -> outcome unit) l : (forall x, f x = g x) -> each f l = each g l.
Proof using. intros H. induction l as [|x l IH]; cbn; [done|]. by rewrite H, IH. Qed.

(** A transfer without metadata is checked through what it spends only. *)
(** The values, receivers and number of the outputs of a token transfer are checked
    nowhere but for zero values and empty keys: any other outputs with the same inputs pass the same checks, so that a transfer
    may pay out more than it takes in. *)
Theorem token_outputs_unchecked (visit : gmap Hash Transaction -> list Transaction) (t : Tx) (data data' : TxTokenData)
    (hasPrivacy : bool) (sh : Z) (serials : list (list bytes)) (mem : list Transaction) (s : S) :
  Metadata (fields t) = None -> Vins data = Vins data' -> PropertyID data = PropertyID data' ->
  TokenType data = CustomTokenTransfer -> TokenType data' = CustomTokenTransfer ->
  ValidateTxByItself PedCom_G hasPrivacy sh (CustomTokenTx t data) s = ValidateTxByItself PedCom_G hasPrivacy sh (CustomTokenTx t data') s /\
  ValidateTxWithBlockChain visit (CustomTokenTx t data) sh s = ValidateTxWithBlockChain visit (CustomTokenTx t data') sh s /\
  ValidateTxWithCurrentMempool (CustomTokenTx t data) serials mem = ValidateTxWithCurrentMempool (CustomTokenTx t data') serials mem /\
  (forall min, CheckTransactionFee (CustomTokenTx t data) min = CheckTransactionFee (CustomTokenTx t data') min).
Proof using.
  intros Hm Hv Hid Hd Hd'.
  assert (forall tx : Transaction, validateDoubleSpendCustomTokenOnTx (MD := MD) data tx = validateDoubleSpendCustomTokenOnTx (MD := MD) data' tx) as He.
  { intros tx. unfold validateDoubleSpendCustomTokenOnTx. by rewrite Hv. }
  split; [|split; [|split]].
  - unfold ValidateTxByItself, token_by_itself, TxCustomToken_ValidateTransaction. by rewrite Hd, Hd', Hv.
  - unfold ValidateTxWithBlockChain, validateDoubleSpendCustomTokenWithBlockchain. rewrite Hm, Hid, Hd, Hd'.
    destruct (String.eqb _ _); [done|]. mrun. destruct (ValidateConstDoubleSpendWithBlockchain t sh s) as [s1 [[]| |]]; try done.
    destruct (GetCustomTokenTxs (PropertyID data') s1) as [s2 [l| |]]; try done. by rewrite (each_ext _ _ _ He).
  - unfold ValidateTxWithCurrentMempool. destruct (normal_mempool t serials); try done. cbn.
    apply each_ext. intros tx. by rewrite He.
  - done.
Qed.
End Facts.

(** ** Concrete transactions *)

Section Samples.
Import QuickHash SmallCurve.
#[local] Existing Instance quick_hash.
#[local] Existing Instance TxStore.sample_json.
#[local] Instance sample_ranges : Payment.RangeProofs :=
  {| Payment.AggregatedRangeProof := unit; Payment.range_Verify := fun _ => Ok true; Payment.range_Bytes := fun _ => [] |}.
#[local] Hint Extern 0 (OutputCoinOps Coins.OutputCoin) =>
  exact (Payment.payment_coin_ops (F := TxFields unit)) : typeclass_instances.
#[local] Abbreviation Transaction := (ShardTx.Transaction (C := OutputCoin)).
#[local] Abbreviation gens := Schnorr.sample_generators.
#[local] Abbreviation Store := (gmap bytes bytes).

(** No metadata has a value to do anything with. *)
#[local] Instance sample_info : MetadataInfo unit :=
  {| meta_Type := fun _ => 0; meta_Hash := fun _ => zero_hash; meta_ValidateMetadataByItself := fun _ => true;
     meta_CalculateSize := fun _ => 0 |}.
#[local] Instance sample_fee : MetadataFee unit Transaction := fun _ _ _ => Ok true.
#[local] Instance sample_metadata : MetadataOps unit Transaction Store :=
  {| meta_ValidateTxWithBlockChain := fun _ _ _ => mret true; meta_ValidateSanityData := fun _ _ => mret (true, true, None);
     meta_VerifyMultiSigs := fun _ _ => mret true |}.
(** The issue of 5 of a token to the key 3; every stored block holds it. *)
Definition sample_owner : PaymentAddress := mkPaymentAddress (Compress (ScalarMult (mkPoint 1 2) 3)) [2].
Definition sample_issued : TxTokenVout := mkVout 5 sample_owner.
Definition sample_issue : Transaction :=
  CustomTokenTx (ShardTx.mkTx (C := OutputCoin) TxCustomTokenType None (mkFields 1 0 0 [] None None 0 None))
    (mkTokenData (replicate 32 3) "" "" CustomTokenInit false 5 [] (Some [sample_issued])).
#[local] Instance sample_shard_json : ShardJson OutputCoin := {|
  shard_block_json _ := Panic;
  shard_block_of_json _ :=
    (ShardChain.mkShardBlock "" "" [] "" (ShardChain.mkShardBody [] ∅ [sample_issue])
      (BeaconVerify.mkShardHeader (mkPaymentAddress [] []) "" 0 0 zero_hash 0 0 0 0 zero_hash zero_hash zero_hash zero_hash zero_hash
        zero_hash [] 0 zero_hash), Ok tt);
  shard_best_json _ := Panic;
  shard_best_of_json _ := (ShardChain.InitBestStateShard 0 1 1, Err "")
|}.

Definition no_parts : Payment.ProofParts := Payment.mkParts [] [] [] None [] [] [] None [] [] None [].

(** A coin of no value for the key (5, 2), and a payment of it from nothing. *)
Definition sample_coin : Coin := Eval vm_compute in
  match Coins.Coin_CommitAll gens (Coins.mkCoin (Some (mkPoint 5 2)) None (Some 9) None (Some 3) 0 []) with Ok c => c | _ => Coins.Coin_Init end.
Definition sample_payment : ShardTx.PaymentProof (C := OutputCoin) :=
  ShardTx.mkProof (C := OutputCoin) [] [Coins.mkOutputCoin sample_coin None] no_parts.

Definition sample_fields (lock fee : Z) (sg : bytes) : TxFields unit :=
  mkFields 1 lock fee [] (Some (Compress (ScalarMult (mkPoint 1 2) 3))) (Some sg) 5 None.
Definition sample_tx (typ : string) (proof : option (ShardTx.PaymentProof (C := OutputCoin))) (f : TxFields unit) : ShardTx.Tx (C := OutputCoin) :=
  ShardTx.mkTx (C := OutputCoin) typ proof f.

(** The signature with the key 3, its second half padded with the zero of [Z2]. *)
Definition sign_sample (proof : option (ShardTx.PaymentProof (C := OutputCoin))) (lock fee : Z) : bytes :=
  match Tx_Hash (sample_tx TxNormalType proof (sample_fields lock fee [])), SchnPrivKey_Set gens 3 0 with
  | Ok h, Ok key => match Sign key 5 0 h with Ok sg => Signature_Bytes sg | _ => [] end
  | _, _ => []
  end.

Definition sample_payment_sig : bytes := Eval vm_compute in sign_sample (Some sample_payment) 1551234567 0.

Definition sample_signed : ShardTx.Tx (C := OutputCoin) :=
  sample_tx TxNormalType (Some sample_payment) (sample_fields 1551234567 0 sample_payment_sig).

Lemma validate_transaction_spec_witness :
  snd (Tx_ValidateTransaction gens false 1 ConstantID sample_signed (∅ : Store)) = Ok true /\
  (verifySigTx gens sample_signed = Ok true /\
   (multisig_key (default [] (SigPubKey (fields sample_signed))) (∅ : Store) = true ->
    exists m : unit, Metadata (fields sample_signed) = Some m /\ meta_Type m = MultiSigsSpendingMeta /\
      snd (meta_VerifyMultiSigs m (NormalTx sample_signed) (∅ : Store)) = Ok true) /\
   (forall p, Proof sample_signed = Some p ->
    payment_checks gens false 1 ConstantID sample_signed (default [] (SigPubKey (fields sample_signed))) (∅ : Store) p)).
Proof.
  assert (snd (Tx_ValidateTransaction gens false 1 ConstantID sample_signed (∅ : Store)) = Ok true) as H by (vm_compute; reflexivity).
  split; [exact H|]. apply (validate_transaction_spec gens false 1 ConstantID sample_signed (∅ : Store)).
  - vm_compute. discriminate.
  - intros m s. reflexivity.
  - exact H.
Defined.

Definition sample_sig : bytes := Eval vm_compute in sign_sample None 1551234567 5.

(** A digit moves from the lock time to the fee. *)
Definition sample_moved : ShardTx.Tx (C := OutputCoin) :=
  sample_tx TxCustomTokenType None (mkFields 1 155123456 75 [7] (SigPubKey (fields sample_signed))
    (Some sample_sig) 6 None).
Definition sample_unmoved : ShardTx.Tx (C := OutputCoin) :=
  sample_tx TxNormalType None (sample_fields 1551234567 5 sample_sig).

Lemma signature_scope_witness :
  Transaction_Hash (NormalTx sample_unmoved) = Transaction_Hash (NormalTx sample_moved) /\
  verifySigTx gens sample_unmoved = verifySigTx gens sample_moved /\ verifySigTx gens sample_moved = Ok true.
Proof.
  destruct (signature_scope (S := Store) gens sample_unmoved sample_moved (mkTokenData zero_hash "" "" 0 false 0 [] None) false 0 ∅)
    as (H1 & H2 & _).
  - reflexivity.
  - vm_compute. reflexivity.
  - reflexivity.
  - reflexivity.
  - reflexivity.
  - reflexivity.
  - split; [exact H1|]. split; [exact H2|]. vm_compute. reflexivity.
Defined.

(** The store knows the issue as the transaction 6, 6, ...; the transfer spends its output. *)
Definition sample_store : Store :=
  fst ((_ ← StoreTransactionIndex (replicate 32 6) (replicate 32 7) 0; Put (block_key (replicate 32 7)) [0]) (∅ : Store)).

Definition sample_token_sig : string := Eval vm_compute in
  match SchnPrivKey_Set gens 3 0 with
  | Ok key => match Sign key 5 0 (HashB (Vout_Hash sample_issued)) with Ok sg => base58_encode (Signature_Bytes sg) | _ => "" end
  | _ => ""
  end.

Definition sample_transfer (value : Z) : TxTokenData :=
  mkTokenData (replicate 32 3) "" "" CustomTokenTransfer false 0 [mkVin (replicate 32 6) 0 sample_token_sig sample_owner]
    (Some [mkVout value (mkPaymentAddress [1] [2])]).

(** Of 5, a transfer makes 10^18. *)
Lemma token_outputs_unchecked_witness :
  snd (ValidateTxByItself gens false 1 (CustomTokenTx sample_moved (sample_transfer (10 ^ 18))) sample_store) = Ok true.
Proof.
  destruct (token_outputs_unchecked (S := Store) gens (fun m => (map_to_list m).*2) sample_moved (sample_transfer 5)
    (sample_transfer (10 ^ 18)) false 1 [] [] sample_store) as (H1 & _).
  - reflexivity.
  - reflexivity.
  - reflexivity.
  - reflexivity.
  - reflexivity.
  - rewrite <- H1. vm_compute. reflexivity.
Defined.
End Samples.
End TxValidate.
