(* ===== verification/TxMeta.v ===== *)
(** The metadata of a transaction (src/metadata): the base every kind embeds, the responses
    that blocks carry, the sender's address, the registration of several signers and the
    spending in their name, staking, and the requests to issue and to contract; an instance
    of the interface of TxValidate.v.  The kinds that are not modelled are a parameter. *)

From Stdlib Require Import Ascii String.
From S2P Require Import Prelude GoStr Hash Sha256 Base58 Merkle Modular EC Schnorr Keys Wallet ShardTx Coins Params LevelDB.
From S2P Require Import Committee BeaconVerify TxStore Payment ShardChain TxView TxValidate.

#[local] Open Scope string_scope.
#[local] Open Scope list_scope.
#[local] Open Scope Z_scope.

Module TxMeta.
Import Hashes EC Keys LevelDB ShardTx TxStore TxView TxValidate.
#[local] Abbreviation OutputCoin := Coins.OutputCoin.

Definition ShardStakingMeta : Z := 65.
Definition BeaconStakingMeta : Z := 66.
Definition MultiSigsRegistrationMeta : Z := 30.
Definition IssuingRequestMeta : Z := 22.
Definition ContractingRequestMeta : Z := 24.
Definition STAKE_SHARD_AMOUNT : Z := 1.
Definition STAKE_BEACON_AMOUNT : Z := 2.
Definition BurningAddress : string := "1NHp16Y29xjc1PoXb1qwr65BfVVoHZuCbtTkVyucRzbeydgQHs2wPu5PC1hD".

Record WithSenderAddress := mkSender { sender_Type : Z; SenderAddress : PaymentAddress }.

(** [Refund], [IssuingResponse], [BuyBackResponse], [OracleReward] and [ResponseBase]: the
    transaction that is answered. *)
Record Response := mkResponse { response_Type : Z; RequestedTxID : Hash }.

Record BuySellResponse := mkBuySell {
  bs_Type : Z;
  bs_RequestedTxID : Hash;
  StartSellingAt : Z;
  Maturity : Z;
  BuyBackPrice : Z;
  BondID : bytes
}.

Record ShardBlockSalaryRes := mkSalaryRes { salary_Type : Z; ShardBlockHeight : Z; ProducerAddress : PaymentAddress }.

Record MultiSigsRegistration := mkRegistration {
  registration_Type : Z;
  registered_Address : PaymentAddress;
  SpendableMembers : list bytes
}.

(** The signatures by public key. *)
Record MultiSigsSpending := mkSpending { spending_Type : Z; Signs : gmap bytes bytes }.

Record StakingMetadata := mkStaking { staking_Type : Z }.

Record IssuingRequest := mkIssuing {
  issuing_Type : Z;
  ReceiverAddress : PaymentAddress;
  DepositedAmount : Z;
  AssetType : Hash;
  issuing_CurrencyType : Hash
}.

Record ContractingRequest := mkContracting {
  contracting_Type : Z;
  BurnerAddress : PaymentAddress;
  BurnedConstAmount : Z;
  contracting_CurrencyType : Hash
}.

(** The kinds of metadata; [X] stands for those that are not modelled. *)
Inductive Meta (X : Type) : Type :=
  | Sender (m : WithSenderAddress)
  | Respond (m : Response)
  | BuySell (m : BuySellResponse)
  | SalaryRes (m : ShardBlockSalaryRes)
  | Registration (m : MultiSigsRegistration)
  | Spending (m : MultiSigsSpending)
  | Staking (m : StakingMetadata)
  | Issuing (m : IssuingRequest)
  | Contracting (m : ContractingRequest)
  | Other (x : X).
Arguments Sender {X} m.
Arguments Respond {X} m.
Arguments BuySell {X} m.
Arguments SalaryRes {X} m.
Arguments Registration {X} m.
Arguments Spending {X} m.
Arguments Staking {X} m.
Arguments Issuing {X} m.
Arguments Contracting {X} m.
Arguments Other {X} x.

(** The type that [ParseMetadata] decodes a kind from; [Other] has the remaining ones. *)
Definition parsed_types {X : Type} (m : Meta X) : list Z :=
  match m with
  | Sender _ => [32]
  | Respond _ => [33; 21; 23; 27; 28]
  | BuySell _ => [19]
  | SalaryRes _ => [36]
  | Registration _ => [30]
  | Spending _ => [31]
  | Staking _ => [65; 66]
  | Issuing _ => [22]
  | Contracting _ => [24]
  | Other _ => []
  end.

Definition CentralizedWebsitePubKey : bytes :=
  [3; 36; 133; 3; 185; 44; 62; 112; 196; 239; 49; 190; 100; 172; 50; 147; 196; 154; 105; 211; 203; 57; 242; 110; 34; 126;
   100; 226; 74; 148; 128; 167; 0].

(** What the other kinds and the libraries provide: [json_size] is the length of the JSON of
    a value, [registration_of_json] decodes a registration, [ecdsa_Verify] checks a signature
    of a hash under a key, [None] being what is left when the key does not decompress. *)
Class MetaEnv (X : Type) : Type := {
  json_size : Meta X -> Z;
  registration_of_json : bytes -> outcome MultiSigsRegistration;
  ecdsa_Verify : option EllipticPoint -> Hash -> Z -> Z -> outcome bool
}.

Section Info.
Context {sha : Sha256} {X : Type} {env : MetaEnv X} {other_info : MetadataInfo X}.

Definition Meta_Type (m : Meta X) : Z :=
  match m with
  | Sender m => sender_Type m | Respond m => response_Type m | BuySell m => bs_Type m | SalaryRes m => salary_Type m
  | Registration m => registration_Type m | Spending m => spending_Type m | Staking m => staking_Type m
  | Issuing m => issuing_Type m | Contracting m => contracting_Type m | Other x => meta_Type x
  end.

Definition MetadataBase_Hash (typ : Z) : Hash := DoubleHashH (bytes_of (Itoa typ)).
Definition base_text (typ : Z) : bytes := bytes_of (Hashes.String (MetadataBase_Hash typ)).

Definition WithSenderAddress_Hash (m : WithSenderAddress) : Hash :=
  DoubleHashH (bytes_of (PaymentAddress_String (SenderAddress m)) ++ base_text (sender_Type m)).
Definition Response_Hash (m : Response) : Hash :=
  DoubleHashH (bytes_of (Hashes.String (RequestedTxID m)) ++ base_text (response_Type m)).
Definition BuySellResponse_Hash (m : BuySellResponse) : Hash :=
  DoubleHashH (bytes_of (Hashes.String (bs_RequestedTxID m)) ++ bytes_of (Itoa (StartSellingAt m)) ++
    bytes_of (Itoa (Maturity m)) ++ bytes_of (Itoa (BuyBackPrice m)) ++ BondID m ++ base_text (bs_Type m)).

(** A number turned into a string is a rune. *)
Definition ShardBlockSalaryRes_Hash (m : ShardBlockSalaryRes) : Hash :=
  DoubleHashH (bytes_of (PaymentAddress_String (ProducerAddress m)) ++ Params.rune_bytes (ShardBlockHeight m) ++
    base_text (salary_Type m)).
Definition MultiSigsRegistration_Hash (m : MultiSigsRegistration) : Hash :=
  DoubleHashH (bytes_of (PaymentAddress_String (registered_Address m)) ++ concat (SpendableMembers m) ++
    base_text (registration_Type m)).

(** The signatures are not hashed. *)
Definition MultiSigsSpending_Hash (m : MultiSigsSpending) : Hash := DoubleHashH (base_text (spending_Type m)).
Definition IssuingRequest_Hash (m : IssuingRequest) : Hash :=
  DoubleHashH (bytes_of (PaymentAddress_String (ReceiverAddress m)) ++ bytes_of (Hashes.String (AssetType m)) ++
    bytes_of (Hashes.String (issuing_CurrencyType m)) ++ Params.rune_bytes (DepositedAmount m) ++ base_text (issuing_Type m)).
Definition ContractingRequest_Hash (m : ContractingRequest) : Hash :=
  DoubleHashH (base_text (contracting_Type m) ++ bytes_of (PaymentAddress_String (BurnerAddress m)) ++
    bytes_of (Hashes.String (contracting_CurrencyType m)) ++ Params.rune_bytes (BurnedConstAmount m)).

Definition Meta_Hash (m : Meta X) : Hash :=
  match m with
  | Sender m => WithSenderAddress_Hash m
  | Respond m => Response_Hash m
  | BuySell m => BuySellResponse_Hash m
  | SalaryRes m => ShardBlockSalaryRes_Hash m
  | Registration m => MultiSigsRegistration_Hash m
  | Spending m => MultiSigsSpending_Hash m
  | Staking m => MetadataBase_Hash (staking_Type m)
  | Issuing m => IssuingRequest_Hash m
  | Contracting m => ContractingRequest_Hash m
  | Other x => meta_Hash x
  end.

(** The two kinds for several signers are valid when their type is not theirs. *)
Definition registration_by_itself (m : MultiSigsRegistration) : bool := negb (registration_Type m =? MultiSigsRegistrationMeta).
Definition spending_by_itself (m : MultiSigsSpending) : bool := negb (spending_Type m =? MultiSigsSpendingMeta).
Definition staking_by_itself (m : StakingMetadata) : bool :=
  (staking_Type m =? ShardStakingMeta) || (staking_Type m =? BeaconStakingMeta).
Definition issuing_by_itself (m : IssuingRequest) : bool :=
  let usd := bool_decide (issuing_CurrencyType m = USDAssetID) in
  let eth := bool_decide (issuing_CurrencyType m = ETHAssetID) in
  let dcb := bool_decide (AssetType m = DCBTokenID) in
  (issuing_Type m =? IssuingRequestMeta) && (usd || eth) && (bool_decide (AssetType m = ConstantID) || dcb) && (negb eth || dcb).
Definition contracting_by_itself (m : ContractingRequest) : bool := contracting_Type m =? ContractingRequestMeta.

Definition Meta_ValidateMetadataByItself (m : Meta X) : bool :=
  match m with
  | Sender _ | Respond _ | BuySell _ | SalaryRes _ => true
  | Registration m => registration_by_itself m
  | Spending m => spending_by_itself m
  | Staking m => staking_by_itself m
  | Issuing m => issuing_by_itself m
  | Contracting m => contracting_by_itself m
  | Other x => meta_ValidateMetadataByItself x
  end.

(** The base, which a salary response keeps, has no size. *)
Definition Meta_CalculateSize (m : Meta X) : Z :=
  match m with SalaryRes _ => 0 | Other x => meta_CalculateSize x | _ => json_size m end.

#[export] Instance meta_info : MetadataInfo (Meta X) := {|
  meta_Type := Meta_Type; meta_Hash := Meta_Hash; meta_ValidateMetadataByItself := Meta_ValidateMetadataByItself;
  meta_CalculateSize := Meta_CalculateSize |}.

(** An address that does not decode would be dereferenced. *)
Definition burning_pk : outcome bytes :=
  match Wallet.Base58CheckDeserialize BurningAddress [] with
  | Ok k => Ok (Pk (KeySet_Address (Wallet.Wallet_KeySet k)))
  | _ => Panic
  end.
End Info.

Section Ops.
Context {curve : Curve} {sha : Sha256} {ranges : Payment.RangeProofs} {X S : Type} {lvdb : LevelDB S}.
Context {env : MetaEnv X} {other_info : MetadataInfo X}.
#[local] Hint Extern 0 (OutputCoinOps Coins.OutputCoin) =>
  exact (Payment.payment_coin_ops (F := TxFields (Meta X))) : typeclass_instances.
#[local] Abbreviation Transaction := (ShardTx.Transaction (C := OutputCoin)).
Context {other_fee : MetadataFee X Transaction} {other_ops : MetadataOps X Transaction S}.

(** ** Fees *)

(** The responses pay none. *)
Definition Meta_CheckTransactionFee (m : Meta X) (tx : Transaction) (minFeePerKbTx : Z) : outcome bool :=
  match m with
  | Respond _ | BuySell _ | SalaryRes _ => Ok true
  | Other x => meta_CheckTransactionFee x tx minFeePerKbTx
  | _ => n ← GetTxActualSize tx; Ok (negb (GetTxFee tx <? u64 (minFeePerKbTx * n)))
  end.

#[export] Instance meta_fee : MetadataFee (Meta X) Transaction := Meta_CheckTransactionFee.

(** ** What a transaction does with its coins *)

Definition pays_only (keys : list bytes) (c : OutputCoin) : outcome bool :=
  pk ← compressed (Coins.PublicKey (Coins.CoinDetails c)); Ok (bool_decide (pk ∈ keys)).

Fixpoint all_pay (keys : list bytes) (coins : list OutputCoin) : outcome bool :=
  match coins with
  | [] => Ok true
  | c :: coins => ok ← pays_only keys c; if (ok : bool) then all_pay keys coins else Ok false
  end.

(** Everything goes to the burning address or back to the first sender. *)
Definition IsCoinsBurning (tx : Transaction) : outcome bool :=
  sender ← match tx_outputs tx with None | Some [] => Ok None | _ => first_input_key tx end;
  match sender with
  | None => Ok false
  | Some sender => burn ← burning_pk; all_pay [sender; burn] (default [] (tx_outputs tx))
  end.

(** The tokens that are burnt. *)
Definition GetAmountOfVote (tx : Transaction) : outcome Z :=
  match tx with
  | CustomTokenTx _ data =>
      match default [] (Vouts data) with
      | [] => Ok 0
      | vouts =>
          burn ← burning_pk;
          Ok (foldl (fun sum vout => if bool_decide (Pk (VoutAddress vout) = burn) then u64 (sum + Value vout) else sum) 0 vouts)
      end
  | _ => Err "wrong type of tx"
  end.

(** ** Sanity *)

Definition wrong {S} (e : string) : M S (bool * bool * option string) := mret (false, false, Some e).
Definition no_key (b : bytes) : bool := (length b =? 0)%nat.

Definition registration_sane (m : MultiSigsRegistration) : bool :=
  negb (no_key (Pk (registered_Address m)) || no_key (Tk (registered_Address m)) ||
        (length (SpendableMembers m) =? 0)%nat || existsb no_key (SpendableMembers m)).

Definition spending_sane (m : MultiSigsSpending) : bool :=
  negb ((size (Signs m) =? 0)%nat || existsb (fun '(pk, sign) => no_key pk || no_key sign) (map_to_list (Signs m))).

Definition staking_sane (m : StakingMetadata) (tx : Transaction) : M S (bool * bool * option string) :=
  if IsPrivacy tx then wrong "Staking Transaction Is No Privacy Transaction"
  else
    '(onlyOne, pubkey, amount) ← lift (GetUniqueReceiver tx);
    if negb onlyOne then wrong "Staking Transaction Should Have 1 Output Amount crossponding to 1 Receiver"
    else
      burn ← lift burning_pk;
      if negb (bool_decide (pubkey = burn)) then wrong "Receiver Should be Burning Address"
      else if (staking_Type m =? ShardStakingMeta) && negb (amount =? STAKE_SHARD_AMOUNT) then wrong "Invalid Stake Shard Amount"
      else if (staking_Type m =? BeaconStakingMeta) && negb (amount =? STAKE_BEACON_AMOUNT) then wrong "Invalid Stake Beacon Amount"
      else mret (true, true, None).

Definition contracting_sane (m : ContractingRequest) (tx : Transaction) : M S (bool * bool * option string) :=
  if negb (contracting_Type m =? ContractingRequestMeta) then wrong "Wrong request info's meta type"
  else if no_key (Pk (BurnerAddress m)) then wrong "Wrong request info's burner address"
  else if BurnedConstAmount m =? 0 then wrong "Wrong request info's deposited amount"
  else
    burns ← lift (IsCoinsBurning tx);
    if negb burns then wrong "Must send coin to burning address"
    else
      value ← lift (CalculateTxValue tx);
      if negb (BurnedConstAmount m =? value) then wrong "BurnedConstAmount incorrect"
      else if negb (bool_decide (default [] (GetSigPubKey tx) = Pk (BurnerAddress m))) then wrong "BurnerAddress incorrect"
      else mret (true, true, None).

(** An address without keys is refused without an error. *)
Definition sender_sane (m : WithSenderAddress) : bool * bool * option string :=
  if no_key (Pk (SenderAddress m)) || no_key (Tk (SenderAddress m)) then (false, false, None) else (true, true, None).

Definition salary_sane (m : ShardBlockSalaryRes) : M S (bool * bool * option string) :=
  if no_key (Pk (ProducerAddress m)) || no_key (Tk (ProducerAddress m)) then wrong "Wrong request info's producer address"
  else if ShardBlockHeight m =? 0 then wrong "Wrong request info's shard block height"
  else mret (false, true, None).

Definition issuing_sane (m : IssuingRequest) : M S (bool * bool * option string) :=
  if no_key (Pk (ReceiverAddress m)) then wrong "Wrong request info's receiver address"
  else if DepositedAmount m =? 0 then wrong "Wrong request info's deposited amount"
  else if negb (issuing_Type m =? IssuingRequestMeta) then wrong "Wrong request info's meta type"
  else mret (true, true, None).

Definition Meta_ValidateSanityData (m : Meta X) (tx : Transaction) : M S (bool * bool * option string) :=
  match m with
  | Sender m => mret (sender_sane m)
  | Respond _ | BuySell _ => mret (false, true, None)
  | SalaryRes m => salary_sane m
  | Registration m => if registration_sane m then mret (true, true, None) else wrong "Wrong request info"
  | Spending m => if spending_sane m then mret (true, true, None) else wrong "Wrong request info's signs"
  | Staking m => staking_sane m tx
  | Issuing m => issuing_sane m
  | Contracting m => contracting_sane m tx
  | Other x => meta_ValidateSanityData x tx
  end.

(** ** Against the chain *)

(** The lists of [GetAllCommitteeValidatorCandidate], the committees, the validators and the
    candidates of all shards and of the beacon. *)
Context (stakers : list (list string)).

Definition staking_with_chain (tx : Transaction) : M S bool :=
  let tempStaker := foldl (fun temp l => Committee.GetValidStaker l temp) [base58_encode (default [] (GetSigPubKey tx))] stakers in
  if (length tempStaker =? 0)%nat then throw "Invalid Staker, This pubkey may staked already" else mret true.

(** A key without a registration is looked up without an error, and taken for a registered
    one. *)
Definition registration_with_chain (m : MultiSigsRegistration) : M S bool :=
  r ← Payment.attempt (GetMultiSigsRegistration (Pk (registered_Address m)));
  match r with
  | Some _ => throw "The payment address's public key is already existed."
  | None => throw "Unexpected error"
  end.

Definition spending_with_chain (tx : Transaction) : M S bool :=
  _ ← GetMultiSigsRegistration (default [] (GetSigPubKey tx)); mret true.

Definition issuing_with_chain (tx : Transaction) : M S bool :=
  if bool_decide (default [] (GetSigPubKey tx) = CentralizedWebsitePubKey) then mret true
  else throw "The issuance request must be called by centralized website.".

(** What answers a request is checked in its block, and here not at all. *)
Definition Meta_ValidateTxWithBlockChain (m : Meta X) (tx : Transaction) (sh : Z) : M S bool :=
  match m with
  | Sender _ | Respond _ | BuySell _ | SalaryRes _ => mret false
  | Registration m => registration_with_chain m
  | Spending _ => spending_with_chain tx
  | Staking _ => staking_with_chain tx
  | Issuing _ => issuing_with_chain tx
  | Contracting _ => mret true
  | Other x => meta_ValidateTxWithBlockChain x tx sh
  end.

(** ** Several signers *)

(** A signature of fewer than 64 bytes panics. *)
Definition member_signed (m : MultiSigsSpending) (h : Hash) (pk : bytes) : outcome bool :=
  match Signs m !! pk with
  | None => Ok false
  | Some sign =>
      point ← match decompressed pk with Ok p => Ok (Some p) | Err _ => Ok None | Panic => Panic end;
      if (length sign <? 64)%nat then Panic
      else ecdsa_Verify point h (EC.SetBytes (take 32 sign)) (EC.SetBytes (take 32 (drop 32 sign)))
  end.

Fixpoint count_signed (m : MultiSigsSpending) (h : Hash) (pks : list bytes) : outcome nat :=
  match pks with
  | [] => Ok O
  | pk :: pks =>
      ok ← member_signed m h pk;
      n ← count_signed m h pks;
      Ok (if (ok : bool) then Datatypes.S n else n)
  end.

(** More than half of the members must have signed the hash of the transaction. *)
Definition spending_VerifyMultiSigs (m : MultiSigsSpending) (tx : Transaction) : M S bool :=
  r ← Payment.attempt (GetMultiSigsRegistration (default [] (GetSigPubKey tx)));
  match r with
  | None => mret false
  | Some multiSigsRegBytes =>
      match registration_of_json multiSigsRegBytes with
      | Err _ => mret false
      | Panic => gopanic
      | Ok reg =>
          h ← lift (Transaction_Hash tx);
          verifiedCount ← lift (count_signed m h (SpendableMembers reg));
          mret (length (SpendableMembers reg) / 2 + 1 <=? verifiedCount)%nat
      end
  end.

Definition Meta_VerifyMultiSigs (m : Meta X) (tx : Transaction) : M S bool :=
  match m with
  | Spending m => spending_VerifyMultiSigs m tx
  | Other x => meta_VerifyMultiSigs x tx
  | _ => mret true
  end.

#[export] Instance meta_ops : MetadataOps (Meta X) Transaction S := {|
  meta_ValidateTxWithBlockChain := Meta_ValidateTxWithBlockChain;
  meta_ValidateSanityData := Meta_ValidateSanityData;
  meta_VerifyMultiSigs := Meta_VerifyMultiSigs |}.
End Ops.

(** ** What the metadata of a transaction decides *)

Section Facts.
Context {curve : Curve} {sha : Sha256} {ranges : Payment.RangeProofs} {X S : Type} {lvdb : LevelDB S} {js : ListsJson}.
Context {env : MetaEnv X} {other_info : MetadataInfo X}.
Context (PedCom_G : list EllipticPoint) (stakers : list (list string)).
#[local] Hint Extern 0 (OutputCoinOps Coins.OutputCoin) =>
  exact (Payment.payment_coin_ops (F := TxFields (Meta X))) : typeclass_instances.
#[local] Abbreviation Transaction := (ShardTx.Transaction (C := OutputCoin)).
#[local] Abbreviation Tx := (ShardTx.Tx (C := OutputCoin)).
Context {other_fee : MetadataFee X Transaction} {other_ops : MetadataOps X Transaction S} {sjson : ShardJson OutputCoin}.
#[local] Instance ops : MetadataOps (Meta X) Transaction S := meta_ops stakers.

(** Metadata as [ParseMetadata] makes it. *)
Definition well_typed (m : Meta X) : Prop :=
  match m with
  | Other x => meta_Type x ∉ [MultiSigsSpendingMeta; MultiSigsRegistrationMeta]
  | _ => Meta_Type m ∈ parsed_types m
  end.

Lemma spending_type (m : Meta X) : well_typed m -> Meta_Type m = MultiSigsSpendingMeta -> exists sp, m = Spending sp.
Proof using.
  destruct m; cbn; intros H E; rewrite ?E in H; eauto; exfalso; revert H; apply (bool_decide_unpack _); vm_compute; exact Logic.I.
Qed.

(** The signature check of a transaction is the first thing that can be wrong with it, and
    what it is by itself is the last. *)
Lemma normal_by_itself hasPrivacy sh (t : Tx) (s s' : S) :
  ValidateTxByItself PedCom_G hasPrivacy sh (NormalTx t) s = (s', Ok true) ->
  Tx_ValidateTransaction PedCom_G hasPrivacy sh ConstantID t s = (s', Ok true) /\ meta_by_itself t = true.
Proof using.
  cbn [ValidateTxByItself]. intros (s1 & ok & E & E')%M_bind_ok. injection E' as <- Hok.
  apply andb_true_iff in Hok as [-> Hm]. split; [done|]. unfold meta_by_itself.
  destruct (Metadata (fields t)); [|done]. by apply andb_true_iff in Hm as [_ ?].
Qed.

Lemma registered_meta hasPrivacy sh tok (t : Tx) (s s' : S) :
  Type_ t <> TxSalaryType -> Tx_ValidateTransaction PedCom_G hasPrivacy sh tok t s = (s', Ok true) ->
  multisig_key (default [] (SigPubKey (fields t))) s = true ->
  exists m, Metadata (fields t) = Some m /\ meta_Type m = MultiSigsSpendingMeta.
Proof using.
  intros Htyp. unfold Tx_ValidateTransaction. destruct (String.eqb_spec (Type_ t) TxSalaryType) as [|_]; [done|].
  intros (s1 & valid & [-> Ev]%lift_ok & E)%M_bind_ok. destruct valid; [|done].
  destruct (verified_has_key PedCom_G t Ev) as [pub Hpub]. rewrite Hpub in *. cbn [default].
  apply M_bind_ok in E as (s1 & p & [-> [= <-]]%lift_ok & E).
  apply M_bind_ok in E as (s1 & r & E1 & E). injection E1 as <- <-. unfold multisig_key. intros Hk. change (id pub) with pub in Hk.
  apply M_bind_ok in E as (s1 & ok & E1 & E). destruct ok; [|done].
  destruct (0 <? length _)%nat eqn:Ek in E1; [|discriminate (eq_trans (eq_sym Hk) Ek)].
  unfold verifyMultiSigsTx in E1. destruct (Metadata (fields t)) as [m|]; [|done].
  destruct (Z.eqb_spec (meta_Type m) MultiSigsSpendingMeta); [|done]. eauto.
Qed.

(** No kind of transaction whose metadata is asked whether it is valid by itself can carry the
    metadata of several signers. *)
Lemma locked hasPrivacy sh (t : Tx) (s s1 : S) :
  Type_ t <> TxSalaryType -> (forall m, Metadata (fields t) = Some m -> well_typed m) ->
  multisig_key (default [] (SigPubKey (fields t))) s = true \/ (exists reg, Metadata (fields t) = Some (Registration reg)) ->
  Tx_ValidateTransaction PedCom_G hasPrivacy sh ConstantID t s = (s1, Ok true) -> meta_by_itself t = false.
Proof using.
  intros Htyp Hw Hm Er. unfold meta_by_itself. destruct Hm as [Hk|[reg Hr]].
  - destruct (registered_meta _ _ _ _ _ _ Htyp Er Hk) as (m & Em & Ht). rewrite Em.
    destruct (spending_type m (Hw m Em) Ht) as [sp ->]. cbn in Ht |- *. unfold spending_by_itself. by rewrite Ht.
  - pose proof (Hw _ Hr) as Hin. rewrite Hr. cbn in Hin |- *. apply list_elem_of_singleton in Hin.
    unfold registration_by_itself. by rewrite Hin.
Qed.

Lemma list_utxo_reads vins data : TxView.reads (list_utxo (MD := Meta X) (S := S) vins data).
Proof using.
  revert data. induction vins as [|vin vins IH]; intros data; cbn [list_utxo]; [done|].
  apply TxView.reads_bind.
  - intros s. unfold Payment.attempt. pose proof (TxView.transaction_by_hash_reads (TxCustomTokenID vin) s) as H.
    by destruct (TxView.GetTransactionByHash _ s) as [? [| |]].
  - intros [r|]; [|done]. apply TxView.reads_bind; [done|]. intros d. apply IH.
Qed.

(** What a transfer of a token, of either kind, needs to be valid by itself. *)
Lemma token_by_itself_ok hasPrivacy sh (t : Tx) data (s s' : S) :
  TokenType data <> CustomTokenInit -> TokenType data <> CustomTokenCrossShard ->
  ValidateTxByItself PedCom_G hasPrivacy sh (CustomTokenTx t data) s = (s', Ok true) ->
  exists s1, Tx_ValidateTransaction PedCom_G hasPrivacy sh ConstantID t s = (s1, Ok true) /\ meta_by_itself t = true.
Proof using.
  intros H1%Z.eqb_neq H2%Z.eqb_neq. cbn [ValidateTxByItself]. unfold token_by_itself. rewrite H1, H2.
  intros (s1 & utxo & E & E')%M_bind_ok. pose proof (TxView.reads_state _ _ _ _ (list_utxo_reads _ _) E) as ->.
  destruct utxo as [utxo|]; [|done]. apply M_bind_ok in E' as (s2 & ok & E1 & [= <- Hok]). apply andb_true_iff in Hok as [-> Hm].
  unfold TxCustomToken_ValidateTransaction in E1. apply M_bind_ok in E1 as (s3 & ok & E1 & E2). destruct ok; [|done]. by exists s3.
Qed.

Lemma privacy_by_itself_ok hasPrivacy sh (t : Tx) data (s s' : S) : privacy_Type data <> CustomTokenInit ->
  ValidateTxByItself PedCom_G hasPrivacy sh (CustomTokenPrivacyTx t data) s = (s', Ok true) ->
  exists s1, Tx_ValidateTransaction PedCom_G hasPrivacy sh ConstantID t s = (s1, Ok true) /\ meta_by_itself t = true.
Proof using.
  intros H1%Z.eqb_neq. cbn [ValidateTxByItself]. rewrite H1. intros (s2 & ok & E1 & [= <- Hok])%M_bind_ok.
  apply andb_true_iff in Hok as [-> Hm]. unfold TxCustomTokenPrivacy_ValidateTransaction in E1.
  apply M_bind_ok in E1 as (s3 & ok & E1 & E2). destruct ok; [|done]. by exists s3.
Qed.

(** C40. Nothing is paid or transferred in the name of several signers, and nobody can register
    them: the checks of both kinds of metadata ask for the opposite of their type, and the chain
    refuses a registration in every state.  A payment from a key with registered signers, and a
    payment that registers some, is invalid by itself as a normal transaction and as the native
    part of a transfer of a token or of a privacy token.  The issue of a token is the way out:
    the metadata of its native payment is not asked, so that it is valid as soon as the
    signers' signatures are. *)
Theorem multisig_keys_locked (hasPrivacy : bool) (sh : Z) (t : Tx) (s : S) :
  Type_ t <> TxSalaryType -> (forall m, Metadata (fields t) = Some m -> well_typed m) ->
  multisig_key (default [] (SigPubKey (fields t))) s = true \/ (exists reg, Metadata (fields t) = Some (Registration reg)) ->
  snd (ValidateTxByItself PedCom_G hasPrivacy sh (NormalTx t) s) <> Ok true /\
  (forall data, TokenType data <> CustomTokenInit -> TokenType data <> CustomTokenCrossShard ->
     snd (ValidateTxByItself PedCom_G hasPrivacy sh (CustomTokenTx t data) s) <> Ok true) /\
  (forall data, privacy_Type data <> CustomTokenInit ->
     snd (ValidateTxByItself PedCom_G hasPrivacy sh (CustomTokenPrivacyTx t data) s) <> Ok true) /\
  (forall data out, TokenType data = CustomTokenInit -> Vouts data = Some [out] -> Vins data = [] ->
     ValidateTxByItself PedCom_G hasPrivacy sh (CustomTokenTx t data) s =
       Tx_ValidateTransaction PedCom_G hasPrivacy sh ConstantID t s) /\
  (forall (reg : MultiSigsRegistration) (tx : Transaction) (s' : S), exists e, registration_with_chain (S := S) reg s' = (s', Err e) /\
     Meta_ValidateTxWithBlockChain (X := X) stakers (Registration reg) tx sh s' = (s', Err e)).
Proof using.
  intros Htyp Hw Hm.
  assert (forall m : M S bool, (forall s', m s = (s', Ok true) -> exists s1,
    Tx_ValidateTransaction PedCom_G hasPrivacy sh ConstantID t s = (s1, Ok true) /\ meta_by_itself t = true) ->
    snd (m s) <> Ok true) as Hno.
  { intros m Hms E. destruct (m s) as [s' r] eqn:Er. cbn in E. subst r. destruct (Hms s' eq_refl) as (s1 & E1 & E2).
    by rewrite (locked hasPrivacy sh t s s1 Htyp Hw Hm E1) in E2. }
  split; [|split; [|split; [|split]]].
  - apply Hno. intros s' E%normal_by_itself. by exists s'.
  - intros data H1 H2. apply Hno. intros s' E. by eapply token_by_itself_ok.
  - intros data H1. apply Hno. intros s' E. by eapply privacy_by_itself_ok.
  - intros data out Hd Hvo Hvi. cbn [ValidateTxByItself]. unfold token_by_itself. rewrite Hd, Hvo, Hvi. cbn.
    unfold mbind, M_bind. by destruct (Tx_ValidateTransaction _ _ _ _ t s) as [? [[]| |]].
  - intros reg tx s'. eexists. split; reflexivity.
Qed.

(** *** Double spending *)

(** Two stores that may differ in the serial numbers they record. *)
Definition same_but_serials (s s' : S) : Prop :=
  forall k : bytes, take 3 k <> bytes_of "ser" -> lv_content s !! k = lv_content s' !! k.

Lemma has_key_agrees (s s' : S) (k : bytes) : same_but_serials s s' -> take 3 k <> bytes_of "ser" ->
  bool_decide (is_Some (lv_content s !! k)) = bool_decide (is_Some (lv_content s' !! k)).
Proof using. intros H Hk. by rewrite (H k Hk). Qed.

Lemma derivators_agree (s s' : S) tok sh snd : same_but_serials s s' -> derivator_stored tok sh snd s = derivator_stored tok sh snd s'.
Proof using.
  intros H. unfold derivator_stored, HasSNDerivator, has_key.
  by rewrite (has_key_agrees s s' (list_key snderivatorsPrefix tok sh ++ Bytes (Z.abs snd)) H).
Qed.

Lemma commitments_agree (s s' : S) tok sh (inputs : list Coins.InputCoin) : same_but_serials s s' ->
  snd (commitments_known tok sh inputs s) = snd (commitments_known tok sh inputs s').
Proof using.
  intros H. induction inputs as [|c inputs IH]; [done|]. cbn [commitments_known]. mrun.
  destruct (compressed _) as [cm| |]; [|done..].
  unfold Payment.attempt, HasCommitment, has_key in *.
  rewrite (has_key_agrees s s' (list_key commitmentsPrefix tok sh ++ cm) H) by discriminate. case_bool_decide; [exact IH|done].
Qed.

Lemma proof_valid_agrees (s s' : S) sh tok (t : Tx) pub p : same_but_serials s s' ->
  snd (proof_valid PedCom_G false sh tok t pub p s) = snd (proof_valid PedCom_G false sh tok t pub p s').
Proof using.
  intros H. unfold proof_valid. mrun. destruct (mapM _ _) as [snds| |]; [|done..].
  destruct (CheckDuplicateBigIntArray snds); [done|]. rewrite !derivators_fresh_run.
  assert (forall f g : Z -> bool, (forall x, f x = g x) -> forallb f snds = forallb g snds) as Hext.
  { intros f g Hfg. induction snds as [|x l IH]; cbn; [done|]. by rewrite Hfg, IH. }
  rewrite (Hext _ (fun snd => negb (derivator_stored tok sh snd s'))) by (intros x; f_equal; by apply derivators_agree).
  destruct (forallb _ snds); [|done].
  pose proof (commitments_agree s s' tok sh (proof_InputCoins p) H) as E.
  destruct (commitments_known _ _ _ s) as [s1 [[]| |]], (commitments_known _ _ _ s') as [s2 [[]| |]]; cbn in E; try congruence; done.
Qed.

Lemma sender_by_itself (s s' : S) sh (t : Tx) m : same_but_serials s s' -> Type_ t <> TxSalaryType ->
  Metadata (fields t) = Some (Sender m) ->
  snd (ValidateTxByItself PedCom_G false sh (NormalTx t) s) = snd (ValidateTxByItself PedCom_G false sh (NormalTx t) s').
Proof using.
  intros H Htyp Hm. cbn [ValidateTxByItself]. rewrite Hm.
  enough (snd (Tx_ValidateTransaction PedCom_G false sh ConstantID t s) = snd (Tx_ValidateTransaction PedCom_G false sh ConstantID t s')) as E.
  { mrun. destruct (Tx_ValidateTransaction _ _ _ _ _ s), (Tx_ValidateTransaction _ _ _ _ _ s'). cbn in E. rewrite E. by destruct o0. }
  unfold Tx_ValidateTransaction. destruct (String.eqb_spec (Type_ t) TxSalaryType) as [|_]; [done|]. mrun.
  destruct (verifySigTx PedCom_G t) as [[|]| |]; [|done..]. destruct (Payment.deref _) as [pub| |]; [|done..].
  unfold Payment.attempt, GetMultiSigsRegistration, verifyMultiSigsTx. cbv beta iota. rewrite Hm.
  match goal with |- context [@lookup ?A ?B ?C ?D ?k (lv_content s)] =>
    assert (@lookup A B C D k (lv_content s) = @lookup A B C D k (lv_content s')) as -> by (apply H; discriminate) end.
  destruct (_ <? _)%nat.
  - destruct (_ =? _); [|done]. cbn. destruct (Proof t); [by apply proof_valid_agrees|done].
  - cbn. destruct (Proof t); [by apply proof_valid_agrees|done].
Qed.

Lemma has_serial_run tok sn sh (s : S) : exists b, HasSerialNumber tok sn sh s = (s, Ok b).
Proof using. unfold HasSerialNumber, has_key. eauto. Qed.

(** A coin whose serial number is recorded is refused to a transaction without metadata. *)
Lemma spent_input_refused (inputs : list Coins.InputCoin) c sn sh (s : S) :
  c ∈ inputs -> Forall (fun c => is_Some (Coins.SerialNumber (Coins.input_details c))) inputs ->
  Coins.SerialNumber (Coins.input_details c) = Some sn -> snd (HasSerialNumber ConstantID (Compress sn) sh s) = Ok true ->
  exists e, snd (serials_fresh inputs sh s) = Err e.
Proof using.
  intros Hin Hall Hsn Hrec. induction Hall as [|c' inputs [p Hp] _ IH]; [by apply elem_of_nil in Hin|].
  cbn [serials_fresh]. mrun. rewrite Hp. cbn [compressed]. unfold Payment.attempt.
  destruct (has_serial_run ConstantID (Compress p) sh s) as [b Eb]. rewrite Eb. cbv beta iota.
  apply elem_of_cons in Hin as [->|Hin].
  - rewrite Hp in Hsn. injection Hsn as ->. rewrite Eb in Hrec. injection Hrec as ->. eauto.
  - destruct b; [eauto|]. auto.
Qed.

(** The chain refuses a coin that is spent to a transaction without metadata, but not to one
    that names its sender's address, and no other check looks at serial numbers that are
    recorded: what was valid before the coin was spent is valid after. *)
(** C18. A transaction that names its sender's address may spend a coin again: its validation
    does not depend on the serial numbers that the chain has recorded. *)
Theorem spent_coin_spent_again (visit : gmap Hash Transaction -> list Transaction) (t t0 : Tx) m sh (s s' : S)
    (p : ShardTx.PaymentProof (C := OutputCoin)) c sn :
  Type_ t = TxNormalType -> Metadata (fields t) = Some (Sender m) ->
  Proof t = Some p -> Proof t0 = Some p -> Type_ t0 = TxNormalType -> Metadata (fields t0) = None ->
  c ∈ proof_InputCoins p -> Forall (fun c => is_Some (Coins.SerialNumber (Coins.input_details c))) (proof_InputCoins p) ->
  Coins.SerialNumber (Coins.input_details c) = Some sn ->
  same_but_serials s s' -> snd (HasSerialNumber ConstantID (Compress sn) sh s') = Ok true ->
  (exists e, snd (ValidateTxWithBlockChain visit (NormalTx t0) sh s') = Err e) /\
  ValidateTxWithBlockChain visit (NormalTx t) sh s' = (s', Ok tt) /\
  snd (ValidateTxByItself PedCom_G false sh (NormalTx t) s') = snd (ValidateTxByItself PedCom_G false sh (NormalTx t) s).
Proof using.
  intros Htyp Hm Hp Hp0 Htyp0 Hm0 Hin Hall Hsn Hs Hrec. split; [|split].
  - cbn [ValidateTxWithBlockChain]. rewrite Htyp0, Hm0. unfold ValidateConstDoubleSpendWithBlockchain. rewrite Hp0.
    cbn. by eapply spent_input_refused.
  - cbn [ValidateTxWithBlockChain]. rewrite Htyp, Hm. done.
  - symmetry. apply (sender_by_itself s s' sh t m); [done|by rewrite Htyp|done].
Qed.
End Facts.

(** ** Concrete metadata *)

Section Samples.
Import QuickHash SmallCurve.
#[local] Existing Instance quick_hash.
#[local] Existing Instance TxStore.sample_json.
#[local] Existing Instance TxValidate.sample_ranges.
#[local] Hint Extern 0 (OutputCoinOps Coins.OutputCoin) =>
  exact (Payment.payment_coin_ops (F := TxFields (Meta unit))) : typeclass_instances.
#[local] Abbreviation Transaction := (ShardTx.Transaction (C := OutputCoin)).
#[local] Abbreviation Tx := (ShardTx.Tx (C := OutputCoin)).
#[local] Abbreviation gens := Schnorr.sample_generators.
#[local] Abbreviation Store := (gmap bytes bytes).

#[local] Instance sample_env : MetaEnv unit :=
  {| json_size := fun _ => 0; registration_of_json := fun b => Ok (mkRegistration 30 (mkPaymentAddress [1] [2]) [b]);
     ecdsa_Verify := fun point _ r _ => Ok (bool_decide (is_Some point) && (r =? EC.SetBytes (replicate 32 1))) |}.
#[local] Instance sample_info : MetadataInfo unit :=
  {| meta_Type := fun _ => 0; meta_Hash := fun _ => zero_hash; meta_ValidateMetadataByItself := fun _ => true;
     meta_CalculateSize := fun _ => 0 |}.
#[local] Instance sample_fee : MetadataFee unit Transaction := fun _ _ _ => Ok true.
#[local] Instance sample_metadata : MetadataOps unit Transaction Store :=
  {| meta_ValidateTxWithBlockChain := fun _ _ _ => mret true; meta_ValidateSanityData := fun _ _ => mret (true, true, None);
     meta_VerifyMultiSigs := fun _ _ => mret true |}.
#[local] Instance sample_shard_json : ShardJson OutputCoin := {|
  shard_block_json _ := Panic;
  shard_block_of_json _ :=
    (ShardChain.mkShardBlock "" "" [] "" (ShardChain.mkShardBody [] ∅ [])
      (BeaconVerify.mkShardHeader (mkPaymentAddress [] []) "" 0 0 zero_hash 0 0 0 0 zero_hash zero_hash zero_hash zero_hash zero_hash
        zero_hash [] 0 zero_hash), Err "");
  shard_best_json _ := Panic;
  shard_best_of_json _ := (ShardChain.InitBestStateShard 0 1 1, Err "")
|}.

Definition sample_key : bytes := Eval vm_compute in Compress (ScalarMult (mkPoint 1 2) 3).
Definition tx_with (proof : option (ShardTx.PaymentProof (C := OutputCoin))) (m : option (Meta unit)) (sg : bytes) : Tx :=
  ShardTx.mkTx (C := OutputCoin) TxNormalType proof (mkFields 1 1551234567 0 [] (Some sample_key) (Some sg) 5 m).
Definition sign_with_3 (proof : option (ShardTx.PaymentProof (C := OutputCoin))) (m : option (Meta unit)) : bytes :=
  match Tx_Hash (tx_with proof m []), Schnorr.SchnPrivKey_Set gens 3 0 with
  | Ok h, Ok key => match Schnorr.Sign key 5 0 h with Ok sg => Schnorr.Signature_Bytes sg | _ => [] end
  | _, _ => []
  end.

(** A key with one registered signer, and a spending by it, alone and with the issue of a token. *)
Definition sample_registered : Store := {[ multisigsPrefix ++ sample_key := sample_key ]}.
Definition sample_spending : Meta unit := Spending (mkSpending 31 {[ sample_key := replicate 64 1 ]}).
Definition sample_spending_sig : bytes := Eval vm_compute in sign_with_3 None (Some sample_spending).
Definition sample_locked : Tx := tx_with None (Some sample_spending) sample_spending_sig.
Definition sample_issued : TxTokenData :=
  mkTokenData zero_hash "" "" CustomTokenInit false 5 [] (Some [mkVout 5 (mkPaymentAddress [1] [2])]).

Lemma multisig_keys_locked_witness :
  snd (ValidateTxByItself (metaops := ops (S := Store) []) gens false 1 (NormalTx sample_locked) sample_registered) <> Ok true /\
  snd (ValidateTxByItself (metaops := ops (S := Store) []) gens false 1 (CustomTokenTx sample_locked sample_issued) sample_registered) = Ok true.
Proof.
  destruct (multisig_keys_locked gens [] false 1 sample_locked sample_registered) as (H1 & _ & _ & H2 & _).
  - discriminate.
  - intros m [= <-]. cbn. left.
  - left. vm_compute. reflexivity.
  - split; [exact H1|]. rewrite (H2 sample_issued (mkVout 5 (mkPaymentAddress [1] [2])) eq_refl eq_refl eq_refl). vm_compute. reflexivity.
Defined.

(** A coin of the key 3 without value, that is spent. *)
Definition sample_coin_data : Coins.Coin :=
  Coins.mkCoin (Some (ScalarMult (mkPoint 1 2) 3)) None (Some 4) (Some (mkPoint 4 3)) (Some 3) 0 [].
Definition sample_commitment : EllipticPoint := Eval vm_compute in
  match Payment.coin_sum gens sample_coin_data (default 0 (last sample_key)) with Ok p => p | _ => infinity end.
Definition sample_input : Coins.InputCoin :=
  Coins.mkInputCoin (Coins.mkCoin (Some (ScalarMult (mkPoint 1 2) 3)) (Some sample_commitment) (Some 4) (Some (mkPoint 4 3)) (Some 3) 0 []).
Definition sample_parts : Payment.ProofParts := Eval vm_compute in
  match Payment.SNNoPrivacy_Prove gens Payment.sample_known 5 None with
  | Ok pro => Payment.mkParts [] [] [pro] None [] [] [] None [] [] None []
  | _ => Payment.mkParts [] [] [] None [] [] [] None [] [] None []
  end.
Definition sample_payment : ShardTx.PaymentProof (C := OutputCoin) :=
  ShardTx.mkProof (C := OutputCoin) [sample_input] [Coins.mkOutputCoin TxValidate.sample_coin None] sample_parts.
Definition sample_sender : Meta unit := Sender (mkSender 32 (mkPaymentAddress [1] [2])).
Definition sample_payment_sig : bytes := Eval vm_compute in sign_with_3 (Some sample_payment) (Some sample_sender).

Definition sample_before : Store := {[ list_key commitmentsPrefix ConstantID 1 ++ Compress sample_commitment := [0] ]}.
Definition sample_spent_key : bytes := list_key serialNumbersPrefix ConstantID 1 ++ Compress (mkPoint 4 3).
Definition sample_after : Store := <[sample_spent_key := [0]]> sample_before.

Lemma spent_coin_spent_again_witness :
  snd (ValidateTxByItself (metaops := ops (S := Store) []) gens false 1
         (NormalTx (tx_with (Some sample_payment) (Some sample_sender) sample_payment_sig)) sample_after) = Ok true /\
  ValidateTxWithBlockChain (metaops := ops (S := Store) []) (fun m => (map_to_list m).*2)
    (NormalTx (tx_with (Some sample_payment) (Some sample_sender) sample_payment_sig)) 1 sample_after = (sample_after, Ok tt) /\
  (exists e, snd (ValidateTxWithBlockChain (metaops := ops (S := Store) []) (fun m => (map_to_list m).*2)
    (NormalTx (tx_with (Some sample_payment) None [])) 1 sample_after) = Err e).
Proof.
  destruct (spent_coin_spent_again gens [] (fun m => (map_to_list m).*2) (tx_with (Some sample_payment) (Some sample_sender) sample_payment_sig)
    (tx_with (Some sample_payment) None []) (mkSender 32 (mkPaymentAddress [1] [2])) 1 sample_before sample_after
    sample_payment sample_input (mkPoint 4 3)) as (H1 & H2 & H3).
  - reflexivity.
  - reflexivity.
  - reflexivity.
  - reflexivity.
  - reflexivity.
  - reflexivity.
  - left.
  - repeat constructor. by eexists.
  - reflexivity.
  - intros k Hk. unfold lv_content, memory_store, sample_after. rewrite lookup_insert_ne; [done|]. intros <-. by apply Hk.
  - vm_compute. reflexivity.
  - split; [|exact (conj H2 H1)]. rewrite H3. vm_compute. reflexivity.
Defined.
End Samples.
End TxMeta.
