(* ===== verification/TxPool.v ===== *)
(** The pool of transactions (src/mempool/mempool.go) and the check of a new block's
    transactions against a pool of its own (src/blockchain/shardprocess.go): acceptance,
    removal, the serial numbers, output coins, candidates and tokens that the pool keeps. *)

From Stdlib Require Import Ascii String.
From S2P Require Import Prelude GoStr Hash Sha256 Base58 Merkle Modular EC Schnorr Keys ShardTx Coins LevelDB.
From S2P Require Import Committee BeaconVerify TxStore Payment ShardChain TxView TxValidate TxMeta.

#[local] Open Scope string_scope.
#[local] Open Scope list_scope.
#[local] Open Scope Z_scope.

Module TxPool.
Import Hashes EC Keys LevelDB BeaconVerify ShardTx TxStore TxView TxValidate.
#[local] Abbreviation OutputCoin := Coins.OutputCoin.

Definition MaxVersion : Z := 1.

Section Pool.
Context {curve : Curve} {sha : Sha256} {ranges : Payment.RangeProofs}.
Context {MD S : Type} {lvdb : LevelDB S} {js : ListsJson}.
Context (PedCom_G : list EllipticPoint).
#[local] Hint Extern 0 (OutputCoinOps Coins.OutputCoin) =>
  exact (Payment.payment_coin_ops (F := TxFields MD)) : typeclass_instances.
#[local] Abbreviation Transaction := (ShardTx.Transaction (C := OutputCoin)).
Context {metainfo : MetadataInfo MD} {metafee : MetadataFee MD Transaction} {metaops : MetadataOps MD Transaction S}
  {sjson : ShardJson OutputCoin}.

(** ** State *)

(** [StartingPriority] is always 1; the time of arrival is not kept. *)
Record TxDesc := mkDesc { Desc_Tx : Transaction; Desc_Height : Z; Desc_Fee : Z }.

(** [coinHashHPool] has the value [true] everywhere. *)
Record TxPool := mkPool {
  pool : gmap Hash TxDesc;
  poolSerialNumbers : gmap Hash (list bytes);
  txCoinHashHPool : gmap Hash (list Hash);
  coinHashHPool : gset Hash;
  candidateList : list string;
  tokenIDList : list string
}.

Definition Init : TxPool := mkPool ∅ ∅ ∅ ∅ [] [].

(** The pool and the store of the chain. *)
Record Node := mkNode { node_pool : TxPool; node_db : S }.

Definition on_pool {A} (m : M TxPool A) : M Node A := fun n =>
  let '(p, r) := m (node_pool n) in (mkNode p (node_db n), r).
Definition on_db {A} (m : M S A) : M Node A := fun n =>
  let '(d, r) := m (node_db n) in (mkNode (node_pool n) d, r).

(** What the pool asks the chain for besides the store, and the orders of the loops over its
    maps: the height of a shard's best block, if there is one, the fee, the time. *)
Record Env := mkEnv {
  best_height : Z -> option Z;
  FeePerKbTx : Z;
  now : Z;
  visit_serials : gmap Hash (list bytes) -> list (list bytes);
  visit_pool : gmap Hash TxDesc -> list TxDesc;
  visit_txs : gmap Hash Transaction -> list Transaction
}.

Definition set_pool (m : gmap Hash TxDesc) (p : TxPool) : TxPool :=
  mkPool m (poolSerialNumbers p) (txCoinHashHPool p) (coinHashHPool p) (candidateList p) (tokenIDList p).
Definition set_serials (m : gmap Hash (list bytes)) (p : TxPool) : TxPool :=
  mkPool (pool p) m (txCoinHashHPool p) (coinHashHPool p) (candidateList p) (tokenIDList p).
Definition set_coins (m : gmap Hash (list Hash)) (u : gset Hash) (p : TxPool) : TxPool :=
  mkPool (pool p) (poolSerialNumbers p) m u (candidateList p) (tokenIDList p).
Definition set_candidates (l : list string) (p : TxPool) : TxPool :=
  mkPool (pool p) (poolSerialNumbers p) (txCoinHashHPool p) (coinHashHPool p) l (tokenIDList p).
Definition set_tokens (l : list string) (p : TxPool) : TxPool :=
  mkPool (pool p) (poolSerialNumbers p) (txCoinHashHPool p) (coinHashHPool p) (candidateList p) l.

Definition isTxInPool (p : TxPool) (h : Hash) : bool := bool_decide (is_Some (pool p !! h)).

(** ** Output coins in use *)

Definition PrePoolTxCoinHashH (h : Hash) (coinHashHs : list Hash) : M TxPool unit :=
  modify (fun p => set_coins (<[h := coinHashHs]> (txCoinHashHPool p)) (coinHashHPool p) p).

Definition AddTxCoinHashH (h : Hash) : M TxPool unit :=
  modify (fun p => match txCoinHashHPool p !! h with
                   | Some inCoinHs => set_coins (txCoinHashHPool p) (list_to_set inCoinHs ∪ coinHashHPool p) p
                   | None => p
                   end).

Definition ValidateCoinHashH (coinHashH : Hash) (p : TxPool) : outcome unit :=
  if bool_decide (coinHashH ∈ coinHashHPool p) then Err "Coin is in used" else Ok tt.

Definition RemoveTxCoinHashH (h : Hash) : M TxPool unit :=
  modify (fun p => match txCoinHashHPool p !! h with
                   | Some coinHashHs => set_coins (delete h (txCoinHashHPool p)) (coinHashHPool p ∖ list_to_set coinHashHs) p
                   | None => p
                   end).

(** ** Candidates and tokens *)

Definition AddCandiateToList (candidate : string) : M TxPool unit :=
  modify (fun p => set_candidates (candidateList p ++ [candidate]) p).
Definition AddTokenIDToList (tokenID : string) : M TxPool unit :=
  modify (fun p => set_tokens (tokenIDList p ++ [tokenID]) p).

(** What is kept is what is in the argument and not in the list. *)
Definition RemoveCandidateList (candidate : list string) : M TxPool unit :=
  modify (fun p => set_candidates (List.filter (fun v => negb (existsb (String.eqb v) (candidateList p))) candidate) p).
Definition RemoveTokenIDList (tokenID : list string) : M TxPool unit :=
  modify (fun p => set_tokens (List.filter (fun v => negb (existsb (String.eqb v) (tokenIDList p))) tokenID) p).

(** ** Acceptance *)

Definition is_staking (tx : Transaction) : bool :=
  match GetMetadata tx with
  | Some m => (meta_Type m =? TxMeta.ShardStakingMeta) || (meta_Type m =? TxMeta.BeaconStakingMeta)
  | None => false
  end.

Definition staker_key (tx : Transaction) : string := base58_encode (default [] (GetSigPubKey tx)).

(** The identifier of the token that a transaction of the token type issues. *)
Definition issued_token (tx : Transaction) : outcome (option string) :=
  if String.eqb (GetType tx) TxCustomTokenType then
    data ← as_custom_token tx;
    Ok (if TokenType data =? CustomTokenInit then Some (Hashes.String (PropertyID data)) else None)
  else Ok None.

(** No estimator of fees is configured. *)
Definition addTx (tx : Transaction) (height fee : Z) : M TxPool TxDesc :=
  let txD := mkDesc tx height fee in
  h ← lift (Transaction_Hash tx);
  _ ← modify (fun p => set_pool (<[h := txD]> (pool p)) p);
  sns ← lift (ListNullifiers tx);
  _ ← modify (fun p => set_serials (<[h := sns]> (poolSerialNumbers p)) p);
  _ ← AddTxCoinHashH h;
  _ ← (if is_staking tx then AddCandiateToList (staker_key tx) else mret tt);
  tok ← lift (issued_token tx);
  _ ← match tok with Some id => AddTokenIDToList id | None => mret tt end;
  mret txD.

(** A wrong type panics for what is not a normal transaction. *)
Definition check_type (tx : Transaction) : outcome unit :=
  if ValidateType tx then Ok tt else match tx with NormalTx _ => Err "wrong tx type" | _ => Panic end.

(** A refusal without an error is dereferenced. *)
Definition check_sanity (r : bool * option string) : outcome unit :=
  match r with (true, _) => Ok tt | (false, Some e) => Err e | (false, None) => Panic end.

Definition check_token (p : TxPool) (tx : Transaction) : outcome unit :=
  tok ← issued_token tx;
  match tok with
  | Some id => require (negb (existsb (String.eqb id) (tokenIDList p))) "Init Transaction of this Token is in pool already"
  | None => Ok tt
  end.

Definition check_staker (p : TxPool) (tx : Transaction) : outcome unit :=
  require (negb (is_staking tx && bool_decide (Committee.GetValidStaker (candidateList p) [staker_key tx] = [])))
    "This public key already stake and still in pool".

(** The checks before those that read the store. *)
Definition check_policy (e : Env) (p : TxPool) (tx : Transaction) : outcome (Hash * Z * Z) :=
  h ← Transaction_Hash tx;
  _ ← require (negb (isTxInPool p h)) "already have transaction";
  let sh := GetShardIDFromLastByte (GetSenderAddrLastByte tx) in
  bestHeight ← Payment.deref (best_height e sh);
  _ ← require (CheckTxVersion tx MaxVersion) "version is invalid";
  ok ← CheckTransactionFee tx (FeePerKbTx e);
  _ ← require ok "under the required amount";
  _ ← check_type tx;
  _ ← ValidateTxWithCurrentMempool tx (visit_serials e (poolSerialNumbers p)) (map Desc_Tx (visit_pool e (pool p)));
  Ok (h, sh, bestHeight).

Definition maybeAcceptTransaction (e : Env) (tx : Transaction) : M Node (Hash * TxDesc) :=
  n ← get;
  '(h, sh, bestHeight) ← lift (check_policy e (node_pool n) tx);
  r ← on_db (ValidateSanityData (now e) tx);
  _ ← lift (check_sanity r);
  validated ← on_db (ValidateTxByItself PedCom_G (IsPrivacy tx) sh tx);
  _ ← lift (require validated "invalid tx");
  _ ← on_db (ValidateTxWithBlockChain (visit_txs e) tx sh);
  _ ← lift (check_token (node_pool n) tx);
  salary ← lift (IsSalaryTx tx);
  _ ← lift (require (negb salary) "salary tx");
  _ ← lift (check_staker (node_pool n) tx);
  txD ← on_pool (addTx tx bestHeight (GetTxFee tx));
  mret (h, txD).

Definition MaybeAcceptTransaction (e : Env) (tx : Transaction) : M Node (Hash * TxDesc) := maybeAcceptTransaction e tx.

(** The description that came with an error is nil, and its field is taken before the error
    is returned. *)
Definition MaybeAcceptTransactionForBlockProducing (e : Env) (tx : Transaction) : M Node TxDesc := fun n =>
  match maybeAcceptTransaction e tx n with
  | (n, Ok (_, txDesc)) => (n, Ok txDesc)
  | (n, _) => (n, Panic)
  end.

(** ** Removal *)

(** The serial numbers stay. *)
Definition removeTx (tx : Transaction) : M TxPool unit :=
  h ← lift (Transaction_Hash tx);
  p ← get;
  if isTxInPool p h then modify (fun p => set_pool (delete h (pool p)) p) else throw "not exist tx in pool".

(** The error is returned after the coins are released. *)
Definition RemoveTx (tx : Transaction) : M TxPool unit :=
  h ← lift (Transaction_Hash tx);
  r ← (fun p => match removeTx tx p with (p, Panic) => (p, Panic) | (p, r) => (p, Ok r) end);
  _ ← RemoveTxCoinHashH h;
  lift r.

(** Everything is forgotten. *)
Definition EmptyPool : M TxPool bool := fun p => (Init, Ok true).

(** ** Questions *)

Definition GetTx (h : Hash) (p : TxPool) : outcome Transaction :=
  match pool p !! h with Some d => Ok (Desc_Tx d) | None => Err "transaction is not in the pool" end.
Definition MiningDescs (e : Env) (p : TxPool) : list TxDesc := visit_pool e (pool p).
Definition Count (p : TxPool) : nat := size (pool p).
Definition HaveTransaction (h : Hash) (p : TxPool) : bool := isTxInPool p h.
Definition Size (e : Env) (p : TxPool) : outcome Z :=
  sizes ← mapM (fun d => GetTxActualSize (Desc_Tx d)) (visit_pool e (pool p));
  Ok (foldl (fun size n => u64 (size + n)) 0 sizes).
Definition MaxFee (e : Env) (p : TxPool) : Z :=
  foldl (fun fee d => if fee <? Desc_Fee d then Desc_Fee d else fee) 0 (visit_pool e (pool p)).
Definition ListTxs (e : Env) (p : TxPool) : outcome (list string) :=
  hs ← mapM (fun d => Transaction_Hash (Desc_Tx d)) (visit_pool e (pool p));
  Ok (map Hashes.String hs).

(** ** The transactions of a new block *)

(** How many are accepted; those that pay salaries are counted and not looked at. *)
Fixpoint accept_block (e : Env) (txs : list Transaction) (index salaryCount : nat) : M Node (nat * nat) :=
  match txs with
  | [] => mret (index, salaryCount)
  | tx :: txs =>
      salary ← lift (IsSalaryTx tx);
      if (salary : bool) then accept_block e txs index (Datatypes.S salaryCount)
      else
        _ ← MaybeAcceptTransactionForBlockProducing e tx;
        accept_block e txs (Datatypes.S index) salaryCount
  end.

(** On the temporary pool, which is emptied before and after. *)
Definition VerifyTransactionFromNewBlock (e : Env) (txs : list Transaction) : M Node unit :=
  _ ← on_pool EmptyPool;
  '(index, salaryCount) ← accept_block e txs 0 0;
  _ ← on_pool EmptyPool;
  if (index =? length txs - salaryCount)%nat then mret tt
  else throw "Some Transactions in new Block maybe invalid".

(** ** Steps of the pool *)

(** The loops over the serial numbers reach all of them. *)
Definition visits_all (e : Env) : Prop :=
  forall m h l, m !! h = Some l -> l ∈ visit_serials e m.

(** What the node does with its pool: transactions that are taken in or refused, removed,
    coins and lists that other parts report, and a pool that is emptied. *)
Inductive pool_step : TxPool -> TxPool -> Prop :=
| step_accept e tx n n' r : visits_all e -> maybeAcceptTransaction e tx n = (n', r) -> r <> Panic ->
    pool_step (node_pool n) (node_pool n')
| step_remove tx p p' r : RemoveTx tx p = (p', r) -> r <> Panic -> pool_step p p'
| step_prepare h coins p : pool_step p (fst (PrePoolTxCoinHashH h coins p))
| step_add_coins h p : pool_step p (fst (AddTxCoinHashH h p))
| step_release h p : pool_step p (fst (RemoveTxCoinHashH h p))
| step_candidate c p : pool_step p (fst (AddCandiateToList c p))
| step_token id p : pool_step p (fst (AddTokenIDToList id p))
| step_drop_candidates l p : pool_step p (fst (RemoveCandidateList l p))
| step_drop_tokens l p : pool_step p (fst (RemoveTokenIDList l p))
| step_empty p : pool_step p (fst (EmptyPool p)).

(** Every entry is under its hash, its serial numbers are kept, and no two entries spend
    the same coin. *)
Record pool_ok (p : TxPool) : Prop := {
  entry_hash h d : pool p !! h = Some d -> Transaction_Hash (Desc_Tx d) = Ok h;
  entry_serials h d : pool p !! h = Some d ->
    exists sns, poolSerialNumbers p !! h = Some sns /\ ListNullifiers (Desc_Tx d) = Ok sns;
  entries_disjoint h1 h2 d1 d2 l1 l2 sn : h1 <> h2 -> pool p !! h1 = Some d1 -> pool p !! h2 = Some d2 ->
    poolSerialNumbers p !! h1 = Some l1 -> poolSerialNumbers p !! h2 = Some l2 -> sn ∈ l1 -> sn ∉ l2
}.

(** Only the two maps matter. *)
Lemma pool_ok_frame p p' :
  pool p' = pool p -> poolSerialNumbers p' = poolSerialNumbers p -> pool_ok p -> pool_ok p'.
Proof using. intros E1 E2 [H1 H2 H3]. split; rewrite E1, ?E2; [exact H1|exact H2|exact H3]. Qed.

Lemma on_db_ok {A} (m : M S A) n n' a : on_db m n = (n', Ok a) -> node_pool n' = node_pool n.
Proof using. unfold on_db. destruct (m (node_db n)) as [d r]. by intros [= <- _]. Qed.

Lemma addTx_shape tx height fee h p p' r :
  Transaction_Hash tx = Ok h -> addTx tx height fee p = (p', r) -> r <> Panic ->
  exists sns, ListNullifiers tx = Ok sns /\ r = Ok (mkDesc tx height fee) /\
    pool p' = <[h := mkDesc tx height fee]> (pool p) /\ poolSerialNumbers p' = <[h := sns]> (poolSerialNumbers p).
Proof using.
  intros Hh E Hr. unfold addTx in E. cbv beta iota delta [mbind M_bind mret M_ret get put modify lift throw gopanic] in E. rewrite Hh in E. cbn in E.
  assert (forall er, ListNullifiers tx <> Err er) as Hl.
  { intros er. unfold ListNullifiers. destruct (GetProof tx) as [q|]; [|done]. generalize (proof_InputCoins q).
    induction l as [|x l IH]; [done|]. cbn. unfold compressed at 1. destruct (Coins.SerialNumber _); [|done].
    cbn. by destruct (mapM _ l). }
  destruct (ListNullifiers tx) as [sns|er|]; [|by destruct (Hl er)|by injection E as <- <-]. exists sns.
  assert (forall er, issued_token tx <> Err er) as Ht.
  { intros er. unfold issued_token. destruct (String.eqb _ _); [|done]. by destruct tx. }
  unfold AddTxCoinHashH, AddCandiateToList, AddTokenIDToList in E. cbv beta iota delta [mbind M_bind mret M_ret get put modify lift throw gopanic] in E.
  destruct (txCoinHashHPool p !! h) eqn:Ec; cbn in E;
    destruct (is_staking tx); cbn in E; destruct (issued_token tx) as [[id|]|er|]; cbn in E;
    try (by destruct (Ht er)); injection E as <- <-; done.
Qed.

(** What leaves the pool alone. *)
Definition keeps {A} (m : M Node A) : Prop := forall n, node_pool (fst (m n)) = node_pool n.

Lemma keeps_db {A} (m : M S A) : keeps (on_db m).
Proof using. intros n. unfold on_db. by destruct (m (node_db n)). Qed.

Lemma keeps_lift {A} (o : outcome A) : keeps (lift o).
Proof using. done. Qed.

Lemma keeps_step {A B} (m : M Node A) (f : A -> M Node B) p n n' r : keeps m -> node_pool n = p ->
  (m ≫= f) n = (n', r) -> r <> Panic ->
  ((exists er, r = Err er) /\ node_pool n' = p) \/
  exists n1 a, m n = (n1, Ok a) /\ node_pool n1 = p /\ f a n1 = (n', r).
Proof using.
  intros Hm Hp E Hr. specialize (Hm n). unfold mbind, M_bind in E. destruct (m n) as [n1 [a|er|]]; cbn in *.
  - right. exists n1, a. by rewrite Hm.
  - injection E as <- <-. left. split; [eauto|by rewrite Hm].
  - by injection E as <- <-.
Qed.

Local Ltac keep := match goal with
  | E : (_ ≫= _) ?m = (_, ?r), Hp : node_pool ?m = _, Hr : ?r <> Panic |- _ =>
      unshelve epose proof (keeps_step _ _ _ _ _ _ _ Hp E Hr) as [?|(? & ? & ? & ? & ?)];
        [first [apply keeps_db | apply keeps_lift]|by left|]; clear E Hp
  end.

Lemma policy_hash e p tx h sh bh : check_policy e p tx = Ok (h, sh, bh) -> Transaction_Hash tx = Ok h /\ isTxInPool p h = false.
Proof using.
  unfold check_policy. destruct (Transaction_Hash tx) as [h0| |]; [|done..]. cbn.
  destruct (isTxInPool p h0) eqn:Ei; [done|]. cbn.
  destruct (best_height e _); cbn; [|done]. destruct (CheckTxVersion _ _); cbn; [|done].
  destruct (CheckTransactionFee _ _) as [[|]| |]; cbn; try done.
  destruct (check_type _); cbn; try done. destruct (ValidateTxWithCurrentMempool _ _ _); cbn; try done. by intros [= -> _ _].
Qed.

Lemma policy_fresh e p tx h sh bh : check_policy e p tx = Ok (h, sh, bh) ->
  ValidateTxWithCurrentMempool tx (visit_serials e (poolSerialNumbers p)) (map Desc_Tx (visit_pool e (pool p))) = Ok tt.
Proof using.
  unfold check_policy. destruct (Transaction_Hash tx) as [h0| |]; [|done..]. cbn.
  destruct (isTxInPool p h0) eqn:Ei; [done|]. cbn.
  destruct (best_height e _); cbn; [|done]. destruct (CheckTxVersion _ _); cbn; [|done].
  destruct (CheckTransactionFee _ _) as [[|]| |]; cbn; try done.
  destruct (check_type _); cbn; try done. destruct (ValidateTxWithCurrentMempool _ _ _) as [[]| |]; cbn; done.
Qed.

(** A transaction that is refused leaves the pool as it is; one that is taken in is the new
    entry of its hash. *)
Lemma accept_shape e tx n n' r :
  maybeAcceptTransaction e tx n = (n', r) -> r <> Panic ->
  ((exists er, r = Err er) /\ node_pool n' = node_pool n) \/
  exists h sh bh sns, check_policy e (node_pool n) tx = Ok (h, sh, bh) /\ ListNullifiers tx = Ok sns /\
    r = Ok (h, mkDesc tx bh (GetTxFee tx)) /\
    pool (node_pool n') = <[h := mkDesc tx bh (GetTxFee tx)]> (pool (node_pool n)) /\
    poolSerialNumbers (node_pool n') = <[h := sns]> (poolSerialNumbers (node_pool n)).
Proof using.
  intros E Hr. unfold maybeAcceptTransaction in E. pose proof (eq_refl (node_pool n)) as Hp.
  unshelve epose proof (keeps_step get _ _ _ _ _ _ Hp E Hr) as [H|(? & ? & [= <- <-] & _ & E1)]; [done|by left|]. clear E.
  keep. match goal with H : lift _ _ = _ |- _ => apply lift_ok in H as [-> Hpol] end.
  match goal with x : _ * _ * _ |- _ => destruct x as [[h sh] bh] end. repeat keep.
  destruct (policy_hash _ _ _ _ _ _ Hpol) as [Hh _].
  match goal with E1 : (_ ≫= _) ?m = _, H : node_pool ?m = _ |- _ => rename E1 into E, H into Hp; set (n1 := m) in * end.
  unfold on_pool in E. cbv beta iota delta [mbind M_bind] in E.
  destruct (addTx tx bh (GetTxFee tx) (node_pool n1)) as [p' r'] eqn:Ea. cbv beta iota in E.
  assert (r' <> Panic) as Hr' by (intros ->; by injection E as <- <-).
  destruct (addTx_shape _ _ _ _ _ _ _ Hh Ea Hr') as (sns & Hs & -> & H11 & H12). injection E as <- <-.
  right. exists h, sh, bh, sns. cbn. by rewrite H11, H12, Hp.
Qed.

Lemma each_elem {A} (f : A -> outcome unit) l x : each f l = Ok tt -> x ∈ l -> f x = Ok tt.
Proof using.
  induction l as [|y l IH]; cbn; [by intros _ ?%elem_of_nil|].
  destruct (f y) as [[]| |] eqn:E; [|done..]. cbn. intros H [->|Hx]%elem_of_cons; [done|by apply IH].
Qed.

Lemma mempool_fresh (tx : Transaction) serials mem sns l sn :
  ValidateTxWithCurrentMempool tx serials mem = Ok tt -> ListNullifiers tx = Ok sns ->
  l ∈ serials -> sn ∈ sns -> sn ∉ l.
Proof using.
  intros Hv Hn Hl Hsn Hin.
  assert (validateDoubleSpendTxWithCurrentMempool (base_tx tx) serials = Ok tt) as Hd.
  { destruct tx as [t|t data|t data]; cbn in *; [..|done]; unfold normal_mempool in Hv; destruct (String.eqb _ _); try done.
    by destruct (validateDoubleSpendTxWithCurrentMempool t serials) as [[]| |]. }
  unfold validateDoubleSpendTxWithCurrentMempool in Hd. unfold ListNullifiers, GetProof in Hn.
  destruct (Proof (base_tx tx)) as [q|]; [|injection Hn as <-; by apply elem_of_nil in Hsn].
  apply mapM_Ok in Hn. apply (each_elem _ _ l) in Hd; [|done].
  apply list_elem_of_lookup in Hsn as [i Hi]. destruct (Forall2_lookup_r _ _ _ _ _ Hn Hi) as (c & Hc & E).
  apply (each_elem _ _ c) in Hd; [|by eapply list_elem_of_lookup_2].
  cbn in Hd, E. rewrite E in Hd. cbn in Hd. by rewrite bool_decide_true in Hd.
Qed.

Lemma accept_keeps_ok e tx n n' r :
  visits_all e -> maybeAcceptTransaction e tx n = (n', r) -> r <> Panic -> pool_ok (node_pool n) -> pool_ok (node_pool n').
Proof using.
  intros Hv E Hr Hok. destruct (accept_shape _ _ _ _ _ E Hr) as [[_ ->]|(h & sh & bh & sns & Hp & Hs & _ & H1 & H2)]; [done|].
  destruct (policy_hash _ _ _ _ _ _ Hp) as [Hh Hnew]. apply policy_fresh in Hp.
  assert (pool (node_pool n) !! h = None) as Hnone.
  { apply bool_decide_eq_false in Hnew. by apply eq_None_not_Some. }
  destruct Hok as [O1 O2 O3].
  assert (forall h' d l sn, h <> h' -> pool (node_pool n) !! h' = Some d -> poolSerialNumbers (node_pool n) !! h' = Some l ->
            sn ∈ sns -> sn ∉ l) as Hnew'.
  { intros h' d l sn Hne Hd Hl Hsn. eapply mempool_fresh; [exact Hp|exact Hs| |exact Hsn]. by eapply Hv. }
  split.
  - intros h' d. rewrite H1, lookup_insert_Some. intros [[<- <-]|[_ Hd]]; [done|by apply O1].
  - intros h' d. rewrite H1, H2, lookup_insert_Some. intros [[<- <-]|[Hne Hd]]; [rewrite lookup_insert_eq; by exists sns|].
    rewrite lookup_insert_ne by done. by apply O2.
  - intros h1 h2 d1 d2 l1 l2 sn Hne. rewrite H1, H2, !lookup_insert_Some.
    intros [[<- <-]|[Hn1 Hd1]] [[<- <-]|[Hn2 Hd2]] [[? <-]|[? Hl1]] [[? <-]|[? Hl2]] Hsn; try done.
    + by eapply Hnew'.
    + intros Hin. by eapply (Hnew' h1).
    + by eapply (O3 h1 h2).
Qed.

Lemma pool_ok_init : pool_ok Init.
Proof using. split; intros *; cbn; rewrite ?lookup_empty; done. Qed.

Lemma remove_shape tx p p' r : RemoveTx tx p = (p', r) -> r <> Panic ->
  poolSerialNumbers p' = poolSerialNumbers p /\ (forall h d, pool p' !! h = Some d -> pool p !! h = Some d) /\
  (forall h, Transaction_Hash tx = Ok h -> pool p' !! h = None).
Proof using.
  intros E Hr. unfold RemoveTx, removeTx, RemoveTxCoinHashH in E.
  cbv beta iota delta [mbind M_bind mret M_ret get put modify lift throw gopanic] in E.
  destruct (Transaction_Hash tx) as [h| |]; [|by injection E as <- <-|by injection E as <- <-].
  destruct (isTxInPool p h) eqn:Ei; cbn in E.
  - destruct (txCoinHashHPool p !! h); cbn in E; injection E as <- <-; cbn;
      (split; [done|]; split; [by intros h' d [? ?]%lookup_delete_Some|]; intros h' [= <-]; apply lookup_delete_eq).
  - apply bool_decide_eq_false, eq_None_not_Some in Ei.
    destruct (txCoinHashHPool p !! h); cbn in E; injection E as <- <-; cbn; (split; [done|]; split; [done|]; by intros h' [= <-]).
Qed.

Lemma pool_step_ok p p' : pool_step p p' -> pool_ok p -> pool_ok p'.
Proof using.
  intros Hs Hok. destruct Hs as [e tx n n' r Hv E Hr|tx p p' r E Hr|h coins p|h p|h p|c p|id p|l p|l p|p].
  - by eapply accept_keeps_ok.
  - destruct (remove_shape _ _ _ _ E Hr) as (Hs & Hsub & _). destruct Hok as [O1 O2 O3]. split.
    + intros h d Hd. apply O1. by apply Hsub.
    + intros h d Hd. rewrite Hs. apply O2. by apply Hsub.
    + intros h1 h2 d1 d2 l1 l2 sn Hne H1 H2. rewrite Hs. apply (O3 h1 h2 d1 d2); [done|by apply Hsub..].
  - by apply (pool_ok_frame p).
  - cbn. destruct (txCoinHashHPool p !! h); [by apply (pool_ok_frame p)|done].
  - cbn. destruct (txCoinHashHPool p !! h); [by apply (pool_ok_frame p)|done].
  - by apply (pool_ok_frame p).
  - by apply (pool_ok_frame p).
  - by apply (pool_ok_frame p).
  - by apply (pool_ok_frame p).
  - apply pool_ok_init.
Qed.

(** Whatever is asked of a pool, in whatever order. *)
(** C7. A pool is well formed at all times: every transaction is under its own hash, its
    serial numbers are those that are kept for it, and no two transactions of the pool spend
    the same coin of the native currency. *)
Theorem pool_well_formed (p : TxPool) : rtc pool_step Init p -> pool_ok p.
Proof using.
  intros H. remember Init as p0 eqn:E. assert (pool_ok p0) as H0 by (subst; apply pool_ok_init). clear E.
  induction H as [|p0 p1 p2 Hs _ IH]; [done|]. apply IH. by eapply pool_step_ok.
Qed.

(** ** Removal *)

(** A transaction that spends a coin of a list that the pool keeps is never taken in. *)
Lemma kept_serial_refused e tx n h l sns sn x :
  visits_all e -> poolSerialNumbers (node_pool n) !! h = Some l -> sn ∈ l -> ListNullifiers tx = Ok sns -> sn ∈ sns ->
  snd (maybeAcceptTransaction e tx n) <> Ok x.
Proof using.
  intros Hv Hl Hsn Hs Hin H. destruct (maybeAcceptTransaction e tx n) as [n' r] eqn:E. cbn in H. subst r.
  destruct (accept_shape _ _ _ _ _ E) as [[[? ?] _]|(h' & sh & bh & sns' & Hp & Hs' & _)]; [done..|].
  rewrite Hs in Hs'. injection Hs' as <-. apply policy_fresh in Hp.
  eapply (mempool_fresh _ _ _ _ l sn Hp Hs); [by eapply Hv|done..].
Qed.

(** The serial numbers of a transaction stay in the pool when the transaction leaves it. *)
(** Once a transaction that spends a coin has been taken in and removed, neither it nor
    any other transaction that spends the coin is taken in again: the pool answers with the
    serial numbers that nobody removed. *)
Theorem removed_tx_never_returns (e e' : Env) (tx tx' : Transaction) (n n1 : Node) h d p2 r sns sns' sn db x :
  visits_all e' -> maybeAcceptTransaction e tx n = (n1, Ok (h, d)) -> RemoveTx tx (node_pool n1) = (p2, r) -> r <> Panic ->
  ListNullifiers tx = Ok sns -> sn ∈ sns -> ListNullifiers tx' = Ok sns' -> sn ∈ sns' ->
  isTxInPool p2 h = false /\ snd (maybeAcceptTransaction e' tx' (mkNode p2 db)) <> Ok x.
Proof using.
  intros Hv E Er Hr Hs Hsn Hs' Hsn'.
  destruct (accept_shape _ _ _ _ _ E) as [[[? ?] _]|(h' & sh & bh & sns1 & Hp & Hs1 & [= <- <-] & H1 & H2)]; [done..|].
  rewrite Hs in Hs1. injection Hs1 as <-.
  destruct (remove_shape _ _ _ _ Er Hr) as (Hk & _ & Hgone). destruct (policy_hash _ _ _ _ _ _ Hp) as [Hh _]. split.
  - unfold isTxInPool. rewrite (Hgone h Hh). done.
  - eapply (kept_serial_refused _ _ _ h sns); [done| |exact Hsn|exact Hs'|done].
    cbn. rewrite Hk, H2. apply lookup_insert_eq.
Qed.

Lemma kept_filter (l argument : list string) c :
  c ∈ List.filter (fun v => negb (existsb (String.eqb v) l)) argument <-> c ∈ argument /\ c ∉ l.
Proof using.
  rewrite !list_elem_of_In, filter_In. rewrite negb_true_iff, <- not_true_iff_false, existsb_exists.
  split; intros [H1 H2]; (split; [done|]); intros H; apply H2.
  - exists c. rewrite String.eqb_refl. by split.
  - by destruct H as (x & Hx & ->%String.eqb_eq).
Qed.

(** Removing candidates keeps of the argument what is not in the list, and nothing of the
    list; likewise for the identifiers of tokens. *)
(** After candidates are removed, the list holds the candidates that were asked to be
    removed and were not in it: what was in the list is gone, asked or not, so that a staker
    whose transaction is still in the pool may stake again, and a stranger to the list is
    refused. *)
Theorem remove_lists_inverted (p : TxPool) (l : list string) (c : string) :
  (c ∈ candidateList (fst (RemoveCandidateList l p)) <-> c ∈ l /\ c ∉ candidateList p) /\
  (c ∈ tokenIDList (fst (RemoveTokenIDList l p)) <-> c ∈ l /\ c ∉ tokenIDList p).
Proof using. split; apply kept_filter. Qed.

(** ** A new block *)

Lemma salary_answers (tx : Transaction) er : IsSalaryTx tx <> Err er.
Proof using. unfold IsSalaryTx. destruct (String.eqb _ _); [|done]. by destruct (GetProof tx). Qed.

(** The transactions that pay no salary are taken in one after the other. *)
Fixpoint all_accepted (e : Env) (txs : list Transaction) (n : Node) : bool :=
  match txs with
  | [] => true
  | tx :: txs =>
      match IsSalaryTx tx with
      | Ok true => all_accepted e txs n
      | Ok false => match maybeAcceptTransaction e tx n with (n', Ok _) => all_accepted e txs n' | _ => false end
      | _ => false
      end
  end.

Lemma accept_block_spec e txs index salaryCount n :
  (all_accepted e txs n = true /\ exists i c,
     snd (accept_block e txs index salaryCount n) = Ok (i, c) /\ (i + c = index + salaryCount + length txs)%nat /\ (index <= i)%nat) \/
  (all_accepted e txs n = false /\ snd (accept_block e txs index salaryCount n) = Panic).
Proof using.
  revert index salaryCount n. induction txs as [|tx txs IH]; intros index salaryCount n; cbn [accept_block all_accepted].
  - left. split; [done|]. exists index, salaryCount. cbn. split; [done|lia].
  - mrun. pose proof (salary_answers tx) as Hsal. destruct (IsSalaryTx tx) as [[|]|er|]; [..|by destruct (Hsal er)|by right].
    + destruct (IH index (Datatypes.S salaryCount) n) as [(Ha & i & c & Hr & Hc & Hi)|[Ha Hr]]; [left|right]; split; try done.
      exists i, c. split; [exact Hr|]. cbn. lia.
    + unfold MaybeAcceptTransactionForBlockProducing. destruct (maybeAcceptTransaction e tx n) as [n1 [[h d]|er|]]; [|by right..].
      destruct (IH (Datatypes.S index) salaryCount n1) as [(Ha & i & c & Hr & Hc & Hi)|[Ha Hr]]; [left|right]; split; try done.
      exists i, c. split; [exact Hr|]. cbn. lia.
Qed.

(** A transaction that the pool refuses is dereferenced before its error is returned. *)
(** C8. The check of a new block's transactions never answers with an error: it accepts when
    each transaction that pays no salary is taken in by an empty pool after those before it,
    and a block with any other transaction brings the node down; when it accepts, the pool is
    empty again. *)
Theorem new_block_refusal_panics (e : Env) (txs : list Transaction) (n : Node) :
  let accepted := all_accepted e txs (mkNode Init (node_db n)) in
  snd (VerifyTransactionFromNewBlock e txs n) = (if accepted then Ok tt else Panic) /\
  (accepted = true -> node_pool (fst (VerifyTransactionFromNewBlock e txs n)) = Init).
Proof using.
  cbv zeta. unfold VerifyTransactionFromNewBlock, on_pool, EmptyPool. mrun. cbn [fst snd].
  destruct (accept_block_spec e txs 0 0 (mkNode Init (node_db n))) as [(Ha & i & c & Hr & Hc & Hi)|[Ha Hr]]; rewrite Ha;
    destruct (accept_block e txs 0 0 (mkNode Init (node_db n))) as [n1 r] eqn:E; cbn in Hr; subst r; [|done].
  replace (length txs - c)%nat with i by lia. rewrite Nat.eqb_refl. done.
Qed.

(** ** Tokens with privacy *)

(** The issue of a token is not looked at: neither the signature, nor the proof of the payment
    that comes with it, nor what it pays out. *)
(** C6. The issue of a privacy token that names no input coin is taken in whatever its native
    output coins are worth and whoever signed it: version, lock time, type and fee are all
    that is checked. *)
Theorem issue_unchecked (e : Env) (t : Tx) (data : TxTokenPrivacyData) (n : Node) h bh size :
  privacy_Type data = CustomTokenInit -> Type_ t = TxCustomTokenPrivacyType -> Metadata (fields t) = None ->
  (forall p, Proof t = Some p -> proof_InputCoins p = []) ->
  Version (fields t) <= 1 -> LockTime (fields t) <= now e ->
  Tx_ActualSize t = Ok size -> u64 (FeePerKbTx e * size) <= Fee (fields t) ->
  Transaction_Hash (CustomTokenPrivacyTx t data) = Ok h -> pool (node_pool n) !! h = None ->
  best_height e (GetShardIDFromLastByte (PubKeyLastByteSender (fields t))) = Some bh ->
  exists n', maybeAcceptTransaction e (CustomTokenPrivacyTx t data) n =
               (n', Ok (h, mkDesc (CustomTokenPrivacyTx t data) bh (Fee (fields t)))) /\
    pool (node_pool n') !! h = Some (mkDesc (CustomTokenPrivacyTx t data) bh (Fee (fields t))) /\ node_db n' = node_db n.
Proof using.
  intros Hi Ht Hm Hin Hv Hl Hsz Hfee Hh Hnew Hbest. set (tx := CustomTokenPrivacyTx t data) in *.
  assert (IsSalaryTx tx = Ok false) as Hsal by (unfold IsSalaryTx, GetType; cbn; by rewrite Ht).
  assert (check_policy e (node_pool n) tx = Ok (h, GetShardIDFromLastByte (PubKeyLastByteSender (fields t)), bh)) as Hpol.
  { unfold check_policy. rewrite Hh. cbn -[u64 GetShardIDFromLastByte]. unfold isTxInPool. rewrite Hnew. cbn -[u64 GetShardIDFromLastByte].
    change (GetSenderAddrLastByte tx) with (PubKeyLastByteSender (fields t)). rewrite Hbest. cbn -[u64 GetShardIDFromLastByte]. change (CheckTxVersion tx MaxVersion) with (negb (MaxVersion <? Version (fields t))).
    replace (MaxVersion <? Version (fields t)) with false by (symmetry; apply Z.ltb_ge; unfold MaxVersion; lia). cbn -[u64 GetShardIDFromLastByte].
    unfold CheckTransactionFee. rewrite Hsal. cbn -[u64 GetShardIDFromLastByte]. rewrite Hm, Hsz. cbn -[u64 GetShardIDFromLastByte].
    replace (Fee (fields t) <? u64 (FeePerKbTx e * size)) with false by (symmetry; apply Z.ltb_ge; lia). cbn.
    unfold check_type, ValidateType, GetType. cbn. rewrite Ht. cbn. unfold validateDoubleSpendTxWithCurrentMempool.
    destruct (Proof t) as [p|] eqn:Ep; [|done]. rewrite (Hin p eq_refl).
    cbn. induction (visit_serials e _) as [|x l IH]; [done|]. cbn. exact IH. }
  assert (forall s : S, ValidateSanityData (now e) tx s = (s, Ok (true, None))) as Hsane.
  { intros s. cbn. unfold validateNormalTxSanityData, TxVersion. cmp. done. }
  assert (ListNullifiers tx = Ok []) as Hnull.
  { unfold ListNullifiers, GetProof. cbn. destruct (Proof t) as [p|]; [by rewrite (Hin p eq_refl)|done]. }
  assert (forall s : S, ValidateTxWithBlockChain (visit_txs e) tx (GetShardIDFromLastByte (PubKeyLastByteSender (fields t))) s = (s, Ok tt)) as Hbc.
  { intros s. cbn. unfold ValidateConstDoubleSpendWithBlockchain. destruct (Proof t) as [p|]; [by rewrite (Hin p eq_refl)|done]. }
  unfold maybeAcceptTransaction. mrun. rewrite Hpol. unfold on_db. rewrite (Hsane (node_db n)). cbn [check_sanity ValidateTxByItself tx].
  rewrite Hi. cbn -[tx maybeAcceptTransaction GetShardIDFromLastByte ValidateTxWithBlockChain addTx check_token check_staker]. fold tx.
  rewrite Hbc.
  assert (issued_token tx = Ok None) as Htok by (unfold issued_token, GetType; cbn; by rewrite Ht).
  assert (is_staking tx = false) as Hst by (unfold is_staking, GetMetadata; cbn; by rewrite Hm).
  assert (exists p', addTx tx bh (GetTxFee tx) (node_pool n) = (p', Ok (mkDesc tx bh (GetTxFee tx)))) as [p' Ea].
  { unfold addTx. mrun. rewrite Hh, Hnull, Hst, Htok. unfold AddTxCoinHashH. mrun. cbn. by destruct (txCoinHashHPool _ !! h); eexists. }
  destruct (addTx_shape _ _ _ _ _ _ _ Hh Ea) as (sns & _ & _ & Hp' & _); [done|].
  unfold check_token, check_staker. rewrite Htok, Hst, Hsal. cbn -[tx addTx]. unfold on_pool. cbn -[tx addTx]. rewrite Ea.
  eexists. split; [reflexivity|]. cbn -[tx]. rewrite Hp'. split; [apply lookup_insert_eq|done].
Qed.

(** *** Serial numbers of tokens *)

(** The keys of the serial numbers of a token. *)
Definition serial_key_of (tok : Hash) (k : bytes) : Prop := exists sh x, k = list_key serialNumbersPrefix tok sh ++ x.

(** Stores that agree on every other key. *)
Definition agree_but (tok : Hash) (s s' : S) : Prop :=
  forall k, ~ serial_key_of tok k -> lv_content s !! k = lv_content s' !! k.

(** What answers the same on stores that agree, and leaves them in agreement. *)
Definition heedless {A} (tok : Hash) (m : M S A) : Prop := forall s s', agree_but tok s s' ->
  snd (m s) = snd (m s') /\ agree_but tok (fst (m s)) (fst (m s')).

Lemma heedless_bind {A B} tok (m : M S A) (f : A -> M S B) : heedless tok m -> (forall a, heedless tok (f a)) -> heedless tok (m ≫= f).
Proof using.
  intros Hm Hf s s' H. destruct (Hm s s' H) as [Hr Hs]. unfold mbind, M_bind.
  destruct (m s) as [s1 r], (m s') as [s1' r']. cbn in Hr, Hs. subst r'. destruct r; [by apply Hf|done..].
Qed.
Lemma heedless_ret {A} tok (a : A) : heedless tok (mret a).
Proof using. done. Qed.
Lemma heedless_lift {A} tok (o : outcome A) : heedless tok (lift o).
Proof using. done. Qed.
Lemma heedless_throw {A} tok e : heedless tok (throw (A := A) e).
Proof using. done. Qed.
Lemma heedless_panic {A} tok : heedless tok (gopanic (A := A)).
Proof using. done. Qed.

Lemma heedless_attempt {A} tok (m : M S A) : heedless tok m -> heedless tok (Payment.attempt m).
Proof using.
  intros Hm s s' H. destruct (Hm s s' H) as [Hr Hs]. unfold Payment.attempt.
  destruct (m s) as [s1 r], (m s') as [s1' r']. cbn in Hr, Hs. subst r'. by destruct r.
Qed.

Lemma heedless_has_key tok k : ~ serial_key_of tok k -> heedless tok (has_key k).
Proof using. intros Hk s s' H. unfold has_key. cbn. by rewrite (H k Hk). Qed.

(** The keys that validation reads. *)
Lemma other_key tok (k : bytes) : take 3 k <> bytes_of "ser" -> ~ serial_key_of tok k.
Proof using. intros Hk (sh & x & ->). by apply Hk. Qed.

Lemma native_key tok sh (sn : bytes) : hash_ok tok -> tok <> ConstantID ->
  ~ serial_key_of tok (list_key serialNumbersPrefix ConstantID sh ++ sn).
Proof using.
  intros Ht Hne (sh' & x & E). apply Hne. symmetry. eapply token_key_inj; [|done|done].
  apply token_id_ok. by vm_compute.
Qed.

Lemma heedless_derivator tok tok' snd sh : heedless tok (HasSNDerivator tok' snd sh).
Proof using. apply heedless_has_key, other_key. done. Qed.
Lemma heedless_commitment tok tok' cm sh : heedless tok (HasCommitment tok' cm sh).
Proof using. apply heedless_has_key, other_key. done. Qed.

Lemma heedless_by_index tok tok' i sh : heedless tok (GetCommitmentByIndex tok' i sh).
Proof using.
  intros s s' H. unfold GetCommitmentByIndex, Get.
  match goal with |- context [@lookup ?A ?B ?C ?D ?k (lv_content s)] =>
    assert (@lookup A B C D k (lv_content s) = @lookup A B C D k (lv_content s')) as -> by (apply H, other_key; done) end.
  by destruct (_ !! _).
Qed.

Lemma heedless_registration tok pub : heedless tok (GetMultiSigsRegistration pub).
Proof using.
  intros s s' H. unfold GetMultiSigsRegistration.
  match goal with |- context [@lookup ?A ?B ?C ?D ?k (lv_content s)] =>
    assert (@lookup A B C D k (lv_content s) = @lookup A B C D k (lv_content s')) as -> by (apply H, other_key; done) end.
  done.
Qed.

Lemma heedless_native tok sn sh : hash_ok tok -> tok <> ConstantID -> heedless tok (HasSerialNumber ConstantID sn sh).
Proof using. intros H1 H2. by apply heedless_has_key, native_key. Qed.

Create HintDb heedless.
#[local] Hint Resolve heedless_derivator heedless_commitment heedless_by_index heedless_registration heedless_native : heedless.

Local Ltac heedless_run :=
  repeat match goal with
  | |- heedless _ (_ ≫= _) => apply heedless_bind; [|intros]
  | |- heedless _ (Payment.attempt _) => apply heedless_attempt
  | |- heedless _ (match ?x with _ => _ end) => destruct x
  | |- heedless _ _ => solve [apply heedless_ret | apply heedless_lift | apply heedless_throw | apply heedless_panic | auto with heedless]
  end.

Lemma heedless_ring tok tok' sh p n l : heedless tok (Payment.ring_commitments tok' sh p n l).
Proof using. revert l. induction n as [|n IH]; intros l; cbn [Payment.ring_commitments]; heedless_run. Qed.
#[local] Hint Resolve heedless_ring : heedless.

Lemma heedless_ring_inputs tok tok' sh r i ps : heedless tok (Payment.check_ring_inputs PedCom_G tok' sh r i ps).
Proof using.
  revert i. induction ps as [|p ps IH]; intros i; cbn [Payment.check_ring_inputs]; [done|]. unfold Payment.check_ring_input. heedless_run.
Qed.
#[local] Hint Resolve heedless_ring_inputs : heedless.

Lemma heedless_verify tok hasPrivacy (p : ShardTx.PaymentProof (C := OutputCoin)) pub fee sh tok' :
  heedless tok (Payment.Verify PedCom_G hasPrivacy p pub fee sh tok').
Proof using. unfold Payment.Verify, Payment.Verify_privacy. cbv zeta. heedless_run. Qed.
#[local] Hint Resolve heedless_verify : heedless.

Lemma heedless_fresh tok tok' sh snds : heedless tok (derivators_fresh tok' sh snds).
Proof using. induction snds as [|x snds IH]; cbn [derivators_fresh]; [done|]. unfold CheckSNDerivatorExistence. heedless_run. Qed.
Lemma heedless_known tok tok' sh inputs : heedless tok (commitments_known tok' sh inputs).
Proof using. induction inputs as [|x inputs IH]; cbn [commitments_known]; heedless_run. Qed.
#[local] Hint Resolve heedless_fresh heedless_known : heedless.

Lemma heedless_validate tok hasPrivacy sh tok' (t : ShardTx.Tx (C := OutputCoin)) :
  (forall (m : MD), heedless tok (meta_VerifyMultiSigs m (NormalTx t))) ->
  heedless tok (Tx_ValidateTransaction PedCom_G hasPrivacy sh tok' t).
Proof using.
  intros Hm. unfold Tx_ValidateTransaction, ValidateTxSalary, CheckSNDerivatorExistence, verifyMultiSigsTx, proof_valid.
  cbv zeta. heedless_run.
Qed.

(** The same for a node: the pools are equal. *)
Definition node_heedless {A} (tok : Hash) (m : M Node A) : Prop := forall n n',
  node_pool n = node_pool n' -> agree_but tok (node_db n) (node_db n') ->
  snd (m n) = snd (m n') /\ node_pool (fst (m n)) = node_pool (fst (m n')) /\ agree_but tok (node_db (fst (m n))) (node_db (fst (m n'))).

Lemma node_heedless_bind {A B} tok (m : M Node A) (f : A -> M Node B) :
  node_heedless tok m -> (forall a, node_heedless tok (f a)) -> node_heedless tok (m ≫= f).
Proof using.
  intros Hm Hf n n' Hp H. destruct (Hm n n' Hp H) as (Hr & Hp1 & Hs). unfold mbind, M_bind.
  destruct (m n) as [s1 r], (m n') as [s1' r']. cbn in Hr, Hp1, Hs. subst r'. destruct r; [by apply Hf|done..].
Qed.
Lemma node_heedless_lift {A} tok (o : outcome A) : node_heedless tok (lift o).
Proof using. done. Qed.
Lemma node_heedless_ret {A} tok (a : A) : node_heedless tok (mret a).
Proof using. done. Qed.
Lemma node_heedless_pool {A} tok (m : M TxPool A) : node_heedless tok (on_pool m).
Proof using. intros n n' Hp H. unfold on_pool. rewrite Hp. by destruct (m (node_pool n')). Qed.
Lemma node_heedless_db {A} tok (m : M S A) : heedless tok m -> node_heedless tok (on_db m).
Proof using.
  intros Hm n n' Hp H. destruct (Hm _ _ H) as [Hr Hs]. unfold on_db.
  destruct (m (node_db n)), (m (node_db n')). cbn in *. by rewrite Hr.
Qed.

Lemma node_heedless_get {B} tok (f : Node -> M Node B) :
  (forall n n', node_pool n = node_pool n' -> f n = f n') -> (forall n, node_heedless tok (f n)) -> node_heedless tok (get ≫= f).
Proof using. intros Hf Hb n n' Hp H. unfold mbind, M_bind, get. rewrite (Hf n n' Hp). by apply Hb. Qed.

Lemma heedless_serials tok sh inputs : hash_ok tok -> tok <> ConstantID -> heedless tok (serials_fresh inputs sh).
Proof using. intros H1 H2. induction inputs as [|c inputs IH]; cbn [serials_fresh]; heedless_run. Qed.

Lemma stored_serials_agree tok sh l (s s' : S) :
  mfor (fun sn => StoreSerialNumbers tok sn sh) l s = (s', Ok tt) -> agree_but tok s s'.
Proof using.
  revert s. induction l as [|sn l IH]; intros s; [by intros [= <-]|].
  intros (s1 & [] & H & Hl)%M_bind_ok k Hk. rewrite <- (IH _ Hl k Hk). clear IH Hl.
  unfold StoreSerialNumbers in H. apply M_bind_ok in H as (s2 & arr & Hr & H). injection Hr as <- _.
  apply M_bind_ok in H as (s2 & [] & H1%raw_put_ok & H2%raw_put_ok). rewrite H2, H1.
  rewrite !lookup_insert_ne; [done|..]; intros <-; apply Hk.
  - by eexists sh, sn.
  - exists sh, []. by rewrite app_nil_r.
Qed.

(** The serial numbers of the native payment are looked up when a privacy token is
    transferred; those of the token are not, neither in the pool nor in the chain. *)
(** C5. A coin of a privacy token can be spent again: when the chain records the serial
    numbers of a token, the same transfer of it is still taken in, with the same answer, and
    transfers of the same coins of a token do not exclude one another in the pool. *)
Theorem token_coin_spent_again (e : Env) (t : ShardTx.Tx (C := OutputCoin)) (data data' : TxTokenPrivacyData) (n : Node) sh sns s' serials mem :
  let tok := privacy_PropertyID data in let tx := CustomTokenPrivacyTx t data in
  hash_ok tok -> tok <> ConstantID ->
  (forall m u, heedless tok (meta_VerifyMultiSigs (S := S) (m : MD) (NormalTx (C := OutputCoin) u))) ->
  mfor (fun sn => StoreSerialNumbers tok sn sh) sns (node_db n) = (s', Ok tt) ->
  snd (maybeAcceptTransaction e tx (mkNode (node_pool n) s')) = snd (maybeAcceptTransaction e tx n) /\
  ValidateTxWithCurrentMempool tx serials mem = ValidateTxWithCurrentMempool (CustomTokenPrivacyTx t data') serials mem.
Proof using.
  intros tok tx Hok Hne Hm Hs. split; [|done]. apply stored_serials_agree in Hs.
  enough (node_heedless tok (maybeAcceptTransaction e tx)) as H by (symmetry; by apply (H n (mkNode (node_pool n) s'))).
  unfold maybeAcceptTransaction. apply node_heedless_get; [by intros n1 n2 ->|]. intros n0.
  assert (forall sh, heedless tok (ValidateSanityData (now e) tx)) as Hsane by (intros; by cbn).
  assert (forall b sh, heedless tok (ValidateTxByItself PedCom_G b sh tx)) as Hself.
  { intros b sh1. cbn [ValidateTxByItself tx]. unfold TxCustomTokenPrivacy_ValidateTransaction.
    pose proof (fun h sh tok' u => heedless_validate tok h sh tok' u (fun m => Hm m u)) as Hv. heedless_run. }
  assert (forall sh, heedless tok (ValidateTxWithBlockChain (visit_txs e) tx sh)) as Hchain.
  { intros sh1. cbn [ValidateTxWithBlockChain tx]. unfold ValidateConstDoubleSpendWithBlockchain.
    destruct (Proof t); [by apply heedless_serials|done]. }
  repeat match goal with
  | |- node_heedless _ (_ ≫= _) => apply node_heedless_bind; [|intros]
  | |- node_heedless _ (match ?x with _ => _ end) => destruct x
  | |- node_heedless _ _ => solve [apply node_heedless_ret | apply node_heedless_lift | apply node_heedless_pool | apply node_heedless_db; auto]
  end.
Qed.
End Pool.

(** ** A concrete pool *)

Section Samples.
Import QuickHash SmallCurve.
#[local] Existing Instance quick_hash.
#[local] Existing Instance TxStore.sample_json.
#[local] Existing Instance TxValidate.sample_ranges.
#[local] Existing Instance TxValidate.sample_info.
#[local] Existing Instance TxValidate.sample_fee.
#[local] Existing Instance TxValidate.sample_metadata.
#[local] Existing Instance TxValidate.sample_shard_json.
#[local] Hint Extern 0 (OutputCoinOps Coins.OutputCoin) =>
  exact (Payment.payment_coin_ops (F := TxFields unit)) : typeclass_instances.
#[local] Abbreviation Transaction := (ShardTx.Transaction (C := OutputCoin)).
#[local] Abbreviation Proof_ := (ShardTx.PaymentProof (C := OutputCoin)).
#[local] Abbreviation gens := Schnorr.sample_generators.
#[local] Abbreviation Store := (gmap bytes bytes).

Definition sample_env : Env (MD := unit) :=
  mkEnv (fun _ => Some 9) 0 1600000000 (fun m => (map_to_list m).*2) (fun m => (map_to_list m).*2) (fun m => (map_to_list m).*2).

Lemma sample_visits : visits_all sample_env.
Proof. intros m h l H. cbn. apply list_elem_of_fmap. exists (h, l). split; [done|]. by apply elem_of_map_to_list. Qed.

Definition sample_node : Node (MD := unit) (S := Store) := mkNode Init ∅.

(** A million for the key (5, 2), out of nothing, and without a signature. *)
Definition sample_million : Coins.OutputCoin :=
  Coins.mkOutputCoin (Coins.mkCoin (Some (mkPoint 5 2)) (Some (mkPoint 4 3)) (Some 9) None (Some 3) 1000000 []) None.
Definition sample_pays : Proof_ := ShardTx.mkProof (C := OutputCoin) [] [sample_million] TxValidate.no_parts.
Definition sample_unsigned (p : Proof_) : ShardTx.Tx (C := OutputCoin) :=
  TxValidate.sample_tx TxCustomTokenPrivacyType (Some p) (mkFields 1 1551234567 0 [] None None 5 None).
Definition sample_token (kind : Z) (t : ShardTx.Tx (C := OutputCoin)) : TxTokenPrivacyData (C := OutputCoin) :=
  ShardTx.mkTokenPrivacy (C := OutputCoin) t (replicate 32 7) "t" "T" kind false 1.
Definition sample_issue : Transaction :=
  CustomTokenPrivacyTx (sample_unsigned sample_pays) (sample_token CustomTokenInit (sample_unsigned sample_pays)).

Definition sample_issue_hash : Hash := Eval vm_compute in match Transaction_Hash sample_issue with Ok h => h | _ => [] end.
Definition sample_issue_size : Z := Eval vm_compute in match Tx_ActualSize (sample_unsigned sample_pays) with Ok n => n | _ => 0 end.

Lemma issue_unchecked_witness :
  exists n', maybeAcceptTransaction gens sample_env sample_issue sample_node = (n', Ok (sample_issue_hash, mkDesc sample_issue 9 0)) /\
    pool (node_pool n') !! sample_issue_hash = Some (mkDesc sample_issue 9 0) /\ node_db n' = ∅.
Proof.
  apply (issue_unchecked gens sample_env (sample_unsigned sample_pays) (sample_token CustomTokenInit (sample_unsigned sample_pays))
           sample_node sample_issue_hash 9 sample_issue_size); try reflexivity.
  - intros p [= <-]. reflexivity.
  - vm_compute. discriminate.
Defined.

(** An issue that names a coin it spends. *)
Definition sample_spends : Proof_ := ShardTx.mkProof (C := OutputCoin) [TxMeta.sample_input] [sample_million] TxValidate.no_parts.
Definition sample_spend : Transaction :=
  CustomTokenPrivacyTx (sample_unsigned sample_spends) (sample_token CustomTokenInit (sample_unsigned sample_spends)).
Definition sample_run : Node (MD := unit) (S := Store) * outcome (Hash * TxDesc (MD := unit)) :=
  maybeAcceptTransaction gens sample_env sample_spend sample_node.

Lemma run_pair {A B} (p : A * B) b : snd p = b -> p = (fst p, b).
Proof. destruct p. by intros <-. Qed.

(** Evaluation need not look at the types. *)
Lemma answered {A} (o : outcome A) : match o with Ok _ => true | _ => false end = true -> exists a, o = Ok a.
Proof. destruct o; [eauto|done..]. Qed.

Lemma sample_run_ok : exists h d, sample_run = (fst sample_run, Ok (h, d)).
Proof.
  destruct (answered (snd sample_run)) as [[h d] E]; [vm_compute; reflexivity|].
  exists h, d. by apply run_pair.
Qed.

Lemma removed_tx_never_returns_witness :
  exists h, forall x, isTxInPool (fst (RemoveTx sample_spend (node_pool (fst sample_run)))) h = false /\
    snd (maybeAcceptTransaction gens sample_env sample_spend
      (mkNode (fst (RemoveTx sample_spend (node_pool (fst sample_run)))) (∅ : Store))) <> Ok x.
Proof.
  destruct sample_run_ok as (h & d & E). exists h. intros x.
  apply (removed_tx_never_returns gens sample_env sample_env sample_spend sample_spend sample_node (fst sample_run)
    h d _ (Ok tt) [Compress (mkPoint 4 3)] [Compress (mkPoint 4 3)] (Compress (mkPoint 4 3)) ∅ x sample_visits E).
  - apply run_pair. vm_compute. reflexivity.
  - discriminate.
  - vm_compute. reflexivity.
  - apply list_elem_of_here.
  - vm_compute. reflexivity.
  - apply list_elem_of_here.
Defined.

Lemma pool_well_formed_witness : pool_ok (node_pool (fst sample_run)).
Proof.
  apply (pool_well_formed (S := Store) gens). apply rtc_once.
  destruct sample_run_ok as (h & d & E).
  apply (step_accept gens sample_env sample_spend sample_node (fst sample_run) _ sample_visits E). discriminate.
Defined.

(** A transfer of a token whose coin is spent: the native payment is empty, and both are
    signed with the key 3. *)
Definition sample_parts : Payment.ProofParts :=
  Payment.mkParts [] [] [] (Some tt) [] [] [] None [] [] None [].
Definition sample_token_proof : Proof_ := ShardTx.mkProof (C := OutputCoin) [TxMeta.sample_input] [] sample_parts.
Definition sign_typed (proof : option Proof_) : bytes := TxValidate.sign_sample proof 1551234567 0.
Definition sample_token_sig : bytes := Eval vm_compute in sign_typed (Some sample_token_proof).
Definition sample_empty_sig : bytes := Eval vm_compute in sign_typed None.
Definition sample_token_tx : ShardTx.Tx (C := OutputCoin) :=
  TxValidate.sample_tx TxNormalType (Some sample_token_proof) (TxValidate.sample_fields 1551234567 0 sample_token_sig).
Definition sample_native : ShardTx.Tx (C := OutputCoin) :=
  TxValidate.sample_tx TxCustomTokenPrivacyType None (TxValidate.sample_fields 1551234567 0 sample_empty_sig).
Definition sample_transfer : Transaction :=
  CustomTokenPrivacyTx sample_native (sample_token CustomTokenTransfer sample_token_tx).
Definition sample_recorded : Store := fst (mfor (fun sn => StoreSerialNumbers (replicate 32 7) sn 1) [Compress (mkPoint 4 3)] (∅ : Store)).

Lemma token_coin_spent_again_witness :
  (exists r, snd (maybeAcceptTransaction gens sample_env sample_transfer (mkNode Init sample_recorded)) = Ok r) /\
  snd (HasSerialNumber (replicate 32 7) (Compress (mkPoint 4 3)) 1 sample_recorded) = Ok true.
Proof.
  split; [|vm_compute; reflexivity].
  destruct (token_coin_spent_again gens sample_env sample_native (sample_token CustomTokenTransfer sample_token_tx)
    (sample_token CustomTokenTransfer sample_token_tx) sample_node 1 [Compress (mkPoint 4 3)] sample_recorded [] []) as [H _].
  - split; [reflexivity|]. cbn. by repeat constructor.
  - discriminate.
  - intros m u s s' H. split; [reflexivity|exact H].
  - apply run_pair. vm_compute. reflexivity.
  - destruct (answered (snd (maybeAcceptTransaction gens sample_env sample_transfer sample_node))) as [r E].
    + vm_compute. reflexivity.
    + exists r. exact (eq_trans H E).
Defined.

Lemma remove_lists_witness :
  candidateList (fst (RemoveCandidateList (MD := unit) ["b"; "c"] (set_candidates ["a"; "b"] Init))) = ["c"].
Proof. reflexivity. Qed.

(** A block with a transaction that the pool takes in twice. *)
Lemma new_block_refusal_panics_witness :
  snd (VerifyTransactionFromNewBlock gens sample_env [sample_issue] sample_node) = Ok tt /\
  snd (VerifyTransactionFromNewBlock gens sample_env [sample_issue; sample_issue] sample_node) = Panic.
Proof.
  split.
  - rewrite (proj1 (new_block_refusal_panics gens sample_env [sample_issue] sample_node)). vm_compute. reflexivity.
  - rewrite (proj1 (new_block_refusal_panics gens sample_env [sample_issue; sample_issue] sample_node)). vm_compute. reflexivity.
Defined.
End Samples.
End TxPool.
