(* ===== verification/BeaconProducer.v ===== *)
(** Making a beacon block (src/blockchain/beaconproducer.go) and its acceptance by the
    checks of BeaconVerify.v.  The instructions built from those of the shard blocks
    (src/blockchain/stability.go) are an interface, implemented in StabilityProducer.v, and so
    is the JSON copy of the best state; the orders in which Go visits maps are arguments. *)

From Stdlib Require Import Ascii String.
From S2P Require Import Prelude GoStr Hash Sha256 Base58 Merkle Keys ShardTx Committee HeightPool.
From S2P Require Import ShardToBeaconPool BeaconState BeaconVerify.

#[local] Open Scope string_scope.
#[local] Open Scope list_scope.
#[local] Open Scope Z_scope.

(** [buildStabilityInstructions], with the values accumulated over the shard blocks. *)
Class InstructionBuilder (I A : Type) : Type := {
  no_values : A;
  build_instructions :
    Z -> list (list string) -> BeaconState.BestStateBeacon I -> A -> outcome (list (list string) * A)
}.
#[export] Hint Mode InstructionBuilder ! - : typeclass_instances.

Module BeaconProducer.
Import Hashes Merkle Keys Committee BeaconState BeaconVerify.

(** ** Instructions of the shards *)

(** [strings] of a stake instruction, by role. *)
Definition getStakeValidatorArrayString (v : list string) : outcome (list string * list string) :=
  match v !! 0%nat with
  | None => Panic
  | Some v0 =>
      if decide (v0 = "stake") then
        match v !! 1%nat, v !! 2%nat with
        | Some v1, Some v2 =>
            Ok (if decide (v2 = "beacon") then Split v1 else [],
                if decide (v2 = "shard") then Split v1 else [])
        | _, _ => Panic
        end
      else Ok ([], [])
  end.

(** The valid new stakers of one shard block: for shards and for the beacon. *)
Definition valid_stakers {I : Type} (best : BestStateBeacon I) (acc : list string * list string)
    (staker : list string) : outcome (list string * list string) :=
  let '(stakeShard, stakeBeacon) := acc in
  r ← getStakeValidatorArrayString staker;
  let '(newBeaconCandidate, newShardCandidate) := r in
  let assignShard := bool_decide (newBeaconCandidate = []) in
  let tempStaker := if assignShard then newShardCandidate else newBeaconCandidate in
  let tempStaker := GetValidStakers tempStaker best in
  let tempStaker := GetValidStaker stakeShard tempStaker in
  let tempStaker := GetValidStaker stakeBeacon tempStaker in
  Ok (if assignShard then (stakeShard ++ tempStaker, stakeBeacon)
      else (stakeShard, stakeBeacon ++ tempStaker)).

Fixpoint all_stakers {I : Type} (best : BestStateBeacon I) (acc : list string * list string)
    (stakers : list (list string)) : outcome (list string * list string) :=
  match stakers with
  | [] => Ok acc
  | staker :: rest => acc ← valid_stakers best acc staker; all_stakers best acc rest
  end.

(** The stake instructions for the beacon block. *)
Definition stake_instructions (stakeShard stakeBeacon : list string) : list (list string) :=
  (if decide (stakeShard = []) then [] else [["stake"; Join stakeShard; "shard"]]) ++
  (if decide (stakeBeacon = []) then [] else [["stake"; Join stakeBeacon; "beacon"]]).

(** A swap instruction counts when it is for this shard. *)
Definition keep_swap (shardID : Z) (swap : list string) : outcome bool :=
  match swap !! 3%nat with
  | None => Panic
  | Some s3 =>
      if decide (s3 = "shard") then
        match swap !! 4%nat with
        | None => Panic
        | Some s4 => Ok (match Atoi s4 with Ok temp => u8 temp =? shardID | _ => false end)
        end
      else Ok false
  end.

Fixpoint keep_swaps (shardID : Z) (swaps : list (list string)) : outcome (list (list string)) :=
  match swaps with
  | [] => Ok []
  | swap :: rest =>
      b ← keep_swap shardID swap; l ← keep_swaps shardID rest;
      Ok (if b : bool then swap :: l else l)
  end.

Definition with_action (action : string) (ls : list (list string)) : outcome (list (list string)) :=
  if decide ([] ∈ ls) then Panic else Ok (List.filter (fun l => bool_decide (l !! 0%nat = Some action)) ls).

(** The states, stake, swap and stability instructions collected. *)
Record ShardInfo := mkShardInfo {
  si_states : gmap Z (list ShardState);
  si_stakers : list (list string);
  si_swaps : gmap Z (list (list string));
  si_stability : list (list string)
}.

Definition append_at {A} (k : Z) (l : list A) (m : gmap Z (list A)) : gmap Z (list A) :=
  match l with [] => m | _ => <[k := map_get_list m k ++ l]> m end.

Section Producer.
Context {sha : Sha256} {sigs : Signatures} {I : Type} {stab : StabilityOps I} {eqI : EqDecision I}
  {json : BeaconJson I} {A : Type} {builder : InstructionBuilder I A}.

(** The loop that decides how many blocks of a shard to take: the swap instructions of a
    block taken must be for its shard. *)
Definition swap_ok (shardID : Z) (l : list string) : outcome unit :=
  match l !! 0%nat with
  | None => Panic
  | Some l0 =>
      if decide (l0 = "swap") then
        match l !! 3%nat with
        | None => Panic
        | Some l3 =>
            if decide (l3 = "shard") then
              match l !! 4%nat with
              | Some l4 => if decide (l4 = Itoa shardID) then Ok tt else Panic
              | None => Panic
              end
            else Panic
        end
      else Ok tt
  end.

Fixpoint swaps_ok (shardID : Z) (ls : list (list string)) : outcome unit :=
  match ls with
  | [] => Ok tt
  | l :: rest => _ ← swap_ok shardID l; swaps_ok shardID rest
  end.

Fixpoint take_blocks (best : BestStateBeacon I) (shardID : Z) (index totalBlock : nat)
    (blks : list ShardToBeaconBlock) (acc : list (list string) * A) :
    outcome (nat * (list (list string) * A)) :=
  match blks with
  | [] => Ok (totalBlock, acc)
  | blk :: rest =>
      match check_sig (map_get_list (ShardCommittee (committees best)) shardID) blk with
      | Ok _ =>
          match build_instructions shardID (stb_Instructions blk) best (snd acc) with
          | Ok (built, values) =>
              _ ← swaps_ok shardID (stb_Instructions blk);
              take_blocks best shardID (S index) index rest (fst acc ++ built, values)
          | _ => Panic
          end
      | Err _ => Ok (totalBlock, acc)
      | Panic => Panic
      end
  end.

Definition shard_state (blk : ShardToBeaconBlock) : ShardState :=
  mkShardState (ShardHeight (stb_Header blk)) (ShardHeader_Hash (stb_Header blk))
    (CrossShards (stb_Header blk)).

(** [chainBest] is the node's best state, which the filter of stakers looks at. *)
Definition add_block (chainBest : BestStateBeacon I) (shardID : Z) (blk : ShardToBeaconBlock)
    (info : ShardInfo) : outcome ShardInfo :=
  stakers ← with_action "stake" (stb_Instructions blk);
  swaps ← with_action "swap" (stb_Instructions blk);
  s ← all_stakers chainBest ([], []) stakers;
  kept ← keep_swaps shardID swaps;
  Ok (mkShardInfo (append_at shardID [shard_state blk] (si_states info))
        (si_stakers info ++ stake_instructions (fst s) (snd s))
        (append_at shardID kept (si_swaps info)) (si_stability info)).

Fixpoint add_blocks (chainBest : BestStateBeacon I) (shardID : Z) (blks : list ShardToBeaconBlock)
    (info : ShardInfo) : outcome ShardInfo :=
  match blks with
  | [] => Ok info
  | blk :: rest => info ← add_block chainBest shardID blk info; add_blocks chainBest shardID rest info
  end.

Fixpoint shard_loop (best chainBest : BestStateBeacon I) (entries : list (Z * list ShardToBeaconBlock))
    (info : ShardInfo) (values : A) : outcome ShardInfo :=
  match entries with
  | [] => Ok info
  | (shardID, blks) :: rest =>
      r ← take_blocks best shardID 0 0 blks (si_stability info, values);
      let '(totalBlock, (stability, values)) := r in
      if (length blks <? totalBlock + 1)%nat then Panic
      else
        info ← add_blocks chainBest shardID (take (totalBlock + 1) blks)
                 (mkShardInfo (si_states info) (si_stakers info) (si_swaps info) stability);
        shard_loop best chainBest rest info values
  end.

(** [entries] is what the pool offers, in the order the map is visited. *)
Definition GetShardState (best chainBest : BestStateBeacon I)
    (entries : list (Z * list ShardToBeaconBlock)) : outcome ShardInfo :=
  shard_loop best chainBest entries (mkShardInfo ∅ [] ∅ []) (no_values (I := I)).

(** ** Instructions of the beacon *)

(** In the order random, nonce, bitcoin time, nonce, time; the nonce is a constant. *)
Definition generateRandomInstruction (timestamp : Z) : list string * Z :=
  (["random"; "1000"; Itoa (i64 (timestamp + 1)); "1000"; Itoa timestamp], 1000).

Definition beacon_swap (best : BestStateBeacon I) : outcome (list (list string)) :=
  let cs := committees best in
  r ← SwapValidator (BeaconPendingValidator cs) (BeaconCommittee cs) (BeaconCommitteeSize (sizes best)) OFFSET;
  Ok (if decide (sw_swapped r = [] /\ sw_incoming r = []) then []
      else [["swap"; Join (sw_incoming r); Join (sw_swapped r); "beacon"]]).

(** [visit] and [visit'] list the entries of the swap and assignment maps. *)
Definition GenerateInstruction
    (visit : gmap Z (list (list string)) -> list (Z * list (list string)))
    (visit' : gmap Z (list string) -> list (Z * list string))
    (best : BestStateBeacon I) (height : Z) (info : ShardInfo) (shardCandidates : list string) :
    outcome (list (list string)) :=
  swapBeacon ← (if height mod EPOCH =? 0 then beacon_swap best else Ok []);
  let instructions :=
    si_stability info ++ concat (visit (si_swaps info)).*2 ++ swapBeacon ++ si_stakers info in
  let timestamp := CurrentRandomTimeStamp (randoms best) in
  if (RANDOM_TIME <? height mod EPOCH) && negb (IsGetRandomNumber (randoms best)) &&
     (timestamp <? i64 (timestamp + 1))
  then
    let '(randomInstruction, rand) := generateRandomInstruction timestamp in
    assigned ← AssignValidator shardCandidates rand (ActiveShards (sizes best));
    Ok (instructions ++ [randomInstruction] ++
        map (fun '(shardID, candidates) => ["assign"; Join candidates; "shard"; Itoa shardID])
          (visit' assigned))
  else Ok instructions.

(** ** The block *)

Definition draft (best : BestStateBeacon I) (producer : string) (proposerOffset now : Z)
    (instructions : list (list string)) (states : gmap Z (list ShardState)) : BeaconBlock :=
  let height := u64 (BeaconHeight (chain best) + 1) in
  mkBlock "" "" [] "" (mkBody states instructions)
    (mkHeader producer VERSION height
       (if height mod EPOCH =? 1 then u64 (Epoch (chain best) + 1) else Epoch (chain best))
       (i64 (proposerOffset + 1)) now (BestBlockHash (chain best))
       zero_hash zero_hash zero_hash zero_hash zero_hash zero_hash).

(** The roots of the state the block leads to. *)
Definition seal (s : BestStateBeacon I) (b : BeaconBlock) : outcome BeaconBlock :=
  let h := Header b in let cs := committees s in let c := candidates s in
  vr ← GenerateHashFromStringArray (BeaconCommittee cs ++ BeaconPendingValidator cs);
  bcr ← GenerateHashFromStringArray
          (CandidateBeaconWaitingForCurrentRandom c ++ CandidateBeaconWaitingForNextRandom c);
  scr ← GenerateHashFromStringArray
          (CandidateShardWaitingForCurrentRandom c ++ CandidateShardWaitingForNextRandom c);
  svr ← GenerateHashFromMapByteString (ShardPendingValidator cs) (ShardCommittee cs);
  ssh ← GenerateHashFromShardState (ShardState_ (Body b));
  ih ← GenerateHashFromStringArray (concat (Instructions (Body b)));
  Ok (mkBlock "" "" [] "" (Body b)
        (mkHeader (Producer h) (Version h) (Height_ h) (Epoch_ h) (Round h) (Timestamp h)
           (PrevBlockHash h) vr bcr scr svr ssh ih)).

Definition sign_block (privateKey : bytes) (b : BeaconBlock) : outcome BeaconBlock :=
  sg ← sig_sign privateKey (Header_Hash (Header b));
  Ok (mkBlock (AggregatedSig b) (R b) (ValidatorsIdx b) (base58_encode sg) (Body b) (Header b)).

(** The orders in which the maps of one run are visited. *)
Record Orders := mkOrders {
  order_pool : gmap Z (list ShardToBeaconBlock) -> list (Z * list ShardToBeaconBlock);
  order_swaps : gmap Z (list (list string)) -> list (Z * list (list string));
  order_assigned : gmap Z (list string) -> list (Z * list string);
  order_shuffle : list string -> list string
}.

(** The copy of the best state, with the candidates of the original. *)
Definition working_copy (best : BestStateBeacon I) : outcome (BestStateBeacon I) :=
  tempMarshal ← best_json best;
  let '(copy, err) := best_of_json tempMarshal in
  _ ← err;
  let copy := set_candidates (candidates best) copy in
  if decide (copy = zero_state) then Panic else Ok copy.

(** Everything up to the signature: the block sealed with the state the update left, whose
    error is not looked at.  (The heights the call fills in the pool are not returned.) *)
Definition make_block (o : Orders) (best : BestStateBeacon I) (pool : StbPool) (pk : bytes)
    (proposerOffset : Z) (shardsToBeacon : option (gmap Z Z)) (now : Z) : outcome BeaconBlock :=
  copy ← working_copy best;
  let entries := order_pool o (snd (ShardToBeaconPool.GetValidPendingBlock shardsToBeacon pool)) in
  info ← GetShardState copy best entries;
  let height := u64 (BeaconHeight (chain copy) + 1) in
  instructions ← GenerateInstruction (order_swaps o) (order_assigned o) copy height info
                   (CandidateShardWaitingForCurrentRandom (candidates copy));
  let b := draft copy (base58_encode pk) proposerOffset now instructions (si_states info) in
  match Update (order_shuffle o) b copy with
  | (_, Panic) => Panic
  | (updated, _) => seal updated b
  end.

Definition NewBlockBeacon (o : Orders) (best : BestStateBeacon I) (pool : StbPool) (pk privateKey : bytes)
    (proposerOffset : Z) (shardsToBeacon : option (gmap Z Z)) (now : Z) : outcome BeaconBlock :=
  b ← make_block o best pool pk proposerOffset shardsToBeacon now;
  sign_block privateKey b.
End Producer.
End BeaconProducer.
