(* ===== verification/BeaconInsert.v ===== *)
(** Accepting a beacon block: the check before a committee member signs it and its
    insertion into the node ([VerifyPreSignBeaconBlock] and [InsertBeaconBlock] of
    src/blockchain/beaconprocess.go, [processBeaconOnlyInstructions] of
    src/blockchain/stabilitybeaconprocess.go).  The node is the best state, the store of
    LevelDB.v and the pools of the other files.  The update of a constitution is an
    interface, implemented in Voting.v. *)

From S2P Require Import Prelude GoStr Hash Sha256 Merkle Keys ShardTx Committee LevelDB Loan HeightPool.
From S2P Require Import BeaconPool ShardToBeaconPool CrossShardPool BeaconState BeaconVerify.
From S2P Require Import BeaconProducer.

#[local] Open Scope string_scope.
#[local] Open Scope list_scope.
#[local] Open Scope Z_scope.

(** The bank's fund inside the [StabilityInfo], and what an instruction that updates a
    constitution does to the store [D] and the best state. *)
Class ConstitutionOps (D I : Type) : Type := {
  bank_fund : I -> Z;
  set_bank_fund : Z -> I -> I;
  update_constitution : list string -> M (D * BeaconState.BestStateBeacon I) unit;
  bank_fund_set z i : bank_fund (set_bank_fund z i) = z
}.

Module BeaconInsert.
Import Hashes Merkle Keys Committee BeaconState BeaconVerify.

(** The errors of src/blockchain/error.go met here. *)
Definition BeaconError : string := "Beacon Error".
Definition DuplicateBlockErr : string := "Duplicate Block Error".
Definition UnmashallJsonBlockError : string := "Unmarshall json block is failed".

(** The types of the instructions that only the beacon chain handles. *)
Definition LoanWithdrawMeta : string := Itoa 3.
Definition LoanPaymentMeta : string := Itoa 5.
Definition UpdateDCBConstitutionIns : string := Itoa 107.
Definition UpdateGOVConstitutionIns : string := Itoa 108.

Section Node.
Context {sha : Sha256} {sigs : Signatures} {I : Type} {stab : StabilityOps I} {eqI : EqDecision I}
  {json : BeaconJson I} {D : Type} {lvdb : LevelDB D} {loans : LoanJson} {const : ConstitutionOps D I}.
Context {CB : Type} `{!BlockHeight CB} `{!BlockShard CB} `{!CrossShardBlk CB}
  {CH : Type} `{!BlockHash CB CH}.

#[export] Instance beacon_block_height : BlockHeight BeaconBlock := fun b => Height_ (Header b).

(** The pools of [blockchain.config]; the last map is the [BestCrossShard] of the best
    state of each shard. *)
Record Node := mkNode {
  Beacon : BestStateBeacon I;
  DataBase : D;
  BeaconPool_ : BeaconPool.BeaconPool (B := BeaconBlock);
  ShardToBeaconPool_ : StbPool;
  CrossShardPool_ : gmap Z (CrossShardPool.CrossShardPool_v2 (B := CB));
  BestCrossShard : gmap Z (gmap Z Z)
}.

Definition set_beacon (s : BestStateBeacon I) (n : Node) : Node :=
  mkNode s (DataBase n) (BeaconPool_ n) (ShardToBeaconPool_ n) (CrossShardPool_ n) (BestCrossShard n).
Definition set_db (d : D) (n : Node) : Node :=
  mkNode (Beacon n) d (BeaconPool_ n) (ShardToBeaconPool_ n) (CrossShardPool_ n) (BestCrossShard n).
Definition set_s2b (p : StbPool) (n : Node) : Node :=
  mkNode (Beacon n) (DataBase n) (BeaconPool_ n) p (CrossShardPool_ n) (BestCrossShard n).
Definition set_crosspools (p : gmap Z (CrossShardPool.CrossShardPool_v2 (B := CB))) (n : Node) : Node :=
  mkNode (Beacon n) (DataBase n) (BeaconPool_ n) (ShardToBeaconPool_ n) p (BestCrossShard n).

Definition on_db {A} (m : M D A) : M Node A := fun n =>
  let '(d, r) := m (DataBase n) in (set_db d n, r).
Definition on_beacon {A} (m : M (BestStateBeacon I) A) : M Node A := fun n =>
  let '(s, r) := m (Beacon n) in (set_beacon s n, r).

(** A call whose error is not looked at. *)
Definition ignore {S A} (m : M S A) : M S unit := fun s =>
  match m s with (s', Panic) => (s', Panic) | (s', _) => (s', Ok tt) end.

(** What the database holds of a block, decoded. *)
Definition stored_block (h : Hash) (d : D) : outcome BeaconBlock :=
  match snd (LevelDB.FetchBeaconBlock h d) with
  | Ok b => Ok (fst (block_of_json b))
  | Err e => Err e
  | Panic => Panic
  end.

Definition VerifyPreProcessing (block : BeaconBlock) (isCommittee : bool) : M Node unit := fun n =>
  let '(p, r) := VerifyPreProcessingBeaconBlock (Beacon n)
    (stored_block (PrevBlockHash (Header block)) (DataBase n)) (ShardToBeaconPool_ n) block isCommittee in
  (set_s2b p n, r).

(** ** Before signing *)

(** The copy is made only when the block continues the best state; the error of the
    decoding is dropped. *)
Definition matching_state (block : BeaconBlock) (s : BestStateBeacon I) : outcome (BestStateBeacon I) :=
  beaconBestState ←
    (if decide (Hashes.String (BestBlockHash (chain s)) = Hashes.String (PrevBlockHash (Header block))) then
       match best_json s with
       | Ok tempMarshal => Ok (fst (best_of_json tempMarshal))
       | Err _ => Err UnmashallJsonBlockError
       | Panic => Panic
       end
     else Ok zero_state);
  if decide (beaconBestState = zero_state) then Err BeaconError else Ok beaconBestState.

(** The checks on the copy; [order] is that of the shuffle's map. *)
Definition verify_copy (order : list string -> list string) (block : BeaconBlock)
    (beaconBestState : BestStateBeacon I) : outcome unit :=
  _ ← VerifyBestStateWithBeaconBlock beaconBestState block false;
  let snapShotBeaconCommittee := BeaconCommittee (committees beaconBestState) in
  let '(beaconBestState, r) := Update order block beaconBestState in
  _ ← r;
  VerifyPostProcessingBeaconBlock beaconBestState block snapShotBeaconCommittee.

Definition VerifyPreSignBeaconBlock (order : list string -> list string) (block : BeaconBlock)
    (isCommittee : bool) : M Node unit :=
  _ ← VerifyPreProcessing block isCommittee;
  n ← get;
  beaconBestState ← lift (matching_state block (Beacon n));
  lift (verify_copy order block beaconBestState).

(** ** Insertion *)

(** Where the pool of a shard looks up the links. *)
Definition cross_db (d : D) : CrossShardPool.CrossShardDb := {|
  CrossShardPool.FetchCrossShardNextHeight := fun fromShard toShard startHeight =>
    snd (LevelDB.FetchCrossShardNextHeight fromShard toShard startHeight d);
  CrossShardPool.FetchCommitteeByEpoch := fun epoch => snd (LevelDB.FetchCommitteeByEpoch epoch d);
  CrossShardPool.UnmarshalCommittee := committee_of_json
|}.

(** The last height linked from one shard to another. *)
Definition last_link (s : BestStateBeacon I) (fromShard toShard : Z) : Z :=
  map_get (default ∅ (LastCrossShardState s !! fromShard)) toShard.

Definition set_last_link (fromShard toShard height : Z) (s : BestStateBeacon I) : BestStateBeacon I :=
  set_cross (<[fromShard := <[toShard := height]> (default ∅ (LastCrossShardState s !! fromShard))]>
               (LastCrossShardState s)) s.

(** One destination of one shard block: the link from the last height to this one, and an
    open link from this one. *)
Definition store_link (fromShard waitHeight toShard : Z) : M Node unit :=
  if fromShard =? toShard then mret tt
  else
    n ← get;
    let lastHeight := last_link (Beacon n) fromShard toShard in
    _ ← on_db (ignore (LevelDB.StoreCrossShardNextHeight fromShard toShard lastHeight waitHeight));
    _ ← on_db (ignore (LevelDB.StoreCrossShardNextHeight fromShard toShard waitHeight 0));
    modify (fun n => set_beacon (set_last_link fromShard toShard waitHeight (Beacon n)) n).

Definition store_links (fromShard : Z) (shardBlock : ShardState) : M Node unit :=
  mfor (store_link fromShard (Height shardBlock)) (CrossShard shardBlock).

(** [CrossShardPool[fromShard].UpdatePool()]: of the shard the blocks come from. *)
Definition update_cross_pool (fromShard : Z) : M Node unit := fun n =>
  match CrossShardPool_ n !! fromShard with
  | None => (n, Panic)
  | Some p =>
      (set_crosspools (<[fromShard := CrossShardPool.UpdatePool (cross_db (DataBase n))
          (default ∅ (BestCrossShard n !! fromShard)) p]> (CrossShardPool_ n)) n, Ok tt)
  end.

Definition shard_links (entry : Z * list ShardState) : M Node unit :=
  _ ← mfor (store_links (fst entry)) (snd entry);
  update_cross_pool (fst entry).

(** The fund is a field of the best state. *)
Definition on_bank (m : M (Loan.Bank D) unit) : M Node unit := fun n =>
  let s := Beacon n in
  let '(b, r) := m (Loan.mkBank (DataBase n) (bank_fund (D := D) (StabilityInfo s))) in
  (set_db (Loan.bank_db b)
     (set_beacon (set_stability (Params s)
        (set_bank_fund (D := D) (Loan.BankFund b) (StabilityInfo s)) s) n), r).

Definition on_constitution (m : M (D * BestStateBeacon I) unit) : M Node unit := fun n =>
  let '((d, s), r) := m (DataBase n, Beacon n) in (set_db d (set_beacon s n), r).

(** An update of a constitution ends the loop. *)
Fixpoint beacon_instructions (insts : list (list string)) : M Node unit :=
  match insts with
  | [] => mret tt
  | inst :: rest =>
      match inst !! 0%nat with
      | None => gopanic
      | Some i0 =>
          n ← get;
          let beaconHeight := BeaconHeight (chain (Beacon n)) in
          if decide (i0 = LoanWithdrawMeta) then
            _ ← on_bank (Loan.processLoanWithdrawInstruction inst beaconHeight);
            beacon_instructions rest
          else if decide (i0 = LoanPaymentMeta) then
            _ ← on_bank (Loan.processLoanPaymentInstruction inst beaconHeight);
            beacon_instructions rest
          else if decide (i0 = UpdateDCBConstitutionIns \/ i0 = UpdateGOVConstitutionIns) then
            on_constitution (update_constitution inst)
          else beacon_instructions rest
      end
  end.

Definition processBeaconOnlyInstructions (block : BeaconBlock) : M Node unit :=
  beacon_instructions (Instructions (Body block)).

(** The store after the update. *)
Definition store_state (block : BeaconBlock) (s : BestStateBeacon I) : M D unit :=
  let h := Header block in
  let hash := Block_Hash block in
  _ ← LevelDB.StoreBeaconBestState (LevelDB.mkStored None (best_json s));
  _ ← LevelDB.StoreBeaconBlock (LevelDB.mkStored (Some hash) (block_json block));
  _ ← LevelDB.StoreBeaconBlockIndex hash (Height_ h);
  _ ← mfor (fun entry => mfor (fun state =>
        ignore (LevelDB.StoreAcceptedShardToBeacon (fst entry) (Height_ h) (StateHash state))) (snd entry))
      (map_to_list (ShardState_ (Body block)));
  res ← LevelDB.HasCommitteeByEpoch (Epoch_ h);
  if res : bool then mret tt
  else LevelDB.StoreCommitteeByEpoch (Epoch_ h)
         (LevelDB.mkStored None (committee_json (ShardCommittee (committees s)))).

(** The best state is changed in place, and stays changed when a later step fails. *)
Definition insert_state (order : list string -> list string) (block : BeaconBlock) : M Node unit :=
  n ← get;
  _ ← (if decide (Hashes.String (BestBlockHash (chain (Beacon n))) =
                  Hashes.String (PrevBlockHash (Header block)))
       then mret tt else throw BeaconError);
  _ ← lift (VerifyBestStateWithBeaconBlock (Beacon n) block true);
  let snapShotBeaconCommittee := BeaconCommittee (committees (Beacon n)) in
  _ ← on_beacon (Update order block);
  n ← get;
  lift (VerifyPostProcessingBeaconBlock (Beacon n) block snapShotBeaconCommittee).

(** The pools follow the best state; the shard-to-beacon pool clamps the heights of the
    map it is given, which is the best state's own. *)
Definition settle (n : Node) : Node :=
  let c := chain (Beacon n) in
  let '(p, heights) := ShardToBeaconPool.SetShardState (BestShardHeight c) (ShardToBeaconPool_ n) in
  mkNode (set_chain (mkChain (BestBlockHash c) (PrevBestBlockHash c) (BestBlock c) (BestShardHash c)
                       heights (Epoch c) (BeaconHeight c) (BeaconProposerIdx c)) (Beacon n))
    (DataBase n) (BeaconPool.SetBeaconState (BeaconHeight c) (BeaconPool_ n)) p
    (CrossShardPool_ n) (BestCrossShard n).

(** [visit] is the order of the loop over the shard states. *)
Definition InsertBeaconBlock (order : list string -> list string)
    (visit : gmap Z (list ShardState) -> list (Z * list ShardState))
    (block : BeaconBlock) (isCommittee : bool) : M Node unit :=
  isExist ← on_db (LevelDB.HasBeaconBlock (Block_Hash block));
  _ ← (if isExist : bool then throw DuplicateBlockErr else mret tt);
  _ ← VerifyPreProcessing block isCommittee;
  _ ← insert_state order block;
  n ← get;
  _ ← on_db (store_state block (Beacon n));
  _ ← mfor shard_links (visit (ShardState_ (Body block)));
  _ ← processBeaconOnlyInstructions block;
  modify settle.
End Node.

Section Links.
Context {sha : Sha256} {sigs : Signatures} {I : Type} {stab : StabilityOps I} {eqI : EqDecision I}
  {json : BeaconJson I} {D : Type} {lvdb : LevelDB D} {loans : LoanJson} {const : ConstitutionOps D I}.
Context {CB : Type} `{!BlockHeight CB} `{!BlockShard CB} `{!CrossShardBlk CB}
  {CH : Type} `{!BlockHash CB CH}.
#[local] Abbreviation Node := (Node (I := I) (D := D) (CB := CB)).

(** ** The chain of links

    The heights at which a shard addressed another one, as a receiver finds them by
    following the links. *)
Fixpoint follow (fuel : nat) (d : D) (fromShard toShard h : Z) : list Z :=
  match fuel with
  | O => []
  | S fuel =>
      let w := CrossShardPool.getNextCrossShardHeight (cross_db d) fromShard toShard h in
      if w =? 0 then [] else w :: follow fuel d fromShard toShard w
  end.

(** The heights of the blocks of [fromShard] in [entries] that address [toShard]. *)
Definition addressed (toShard : Z) (states : list ShardState) : list Z :=
  map Height (filter (fun state => toShard ∈ CrossShard state) states).

Definition addressed_in (fromShard toShard : Z) (entries : list (Z * list ShardState)) : list Z :=
  concat (map (fun entry => if decide (fst entry = fromShard) then addressed toShard (snd entry) else [])
            entries).

Fixpoint chained (next : Z -> Z) (h : Z) (hs : list Z) : Prop :=
  match hs with
  | [] => next h = 0
  | h1 :: hs => next h = h1 /\ chained next h1 hs
  end.

Fixpoint last_of (h : Z) (hs : list Z) : Z :=
  match hs with [] => h | h1 :: hs => last_of h1 hs end.

(** From [h0] on, the links lead through [hs] and end there. *)
Definition tracks (fromShard toShard h0 : Z) (hs : list Z) (n : Node) : Prop :=
  last_link (Beacon n) fromShard toShard = last_of h0 hs /\
  chained (CrossShardPool.getNextCrossShardHeight (cross_db (DataBase n)) fromShard toShard) h0 hs.

Lemma chained_follow d fromShard toShard fuel h hs :
  chained (CrossShardPool.getNextCrossShardHeight (cross_db d) fromShard toShard) h hs ->
  Forall (fun h => h <> 0) hs -> (length hs < fuel)%nat -> follow fuel d fromShard toShard h = hs.
Proof.
  revert h hs. induction fuel as [|fuel IH]; intros h hs Hc Hz Hlen; [lia|].
  destruct hs as [|h1 hs]; cbn [chained] in Hc; cbn [follow].
  - by rewrite Hc.
  - destruct Hc as [-> Hc]. apply Forall_cons in Hz as [Hz Hzs].
    rewrite (proj2 (Z.eqb_neq _ _) Hz). f_equal. apply IH; [done..|cbn [length] in Hlen; lia].
Qed.

(** What storing the two links at [w] does to the successors. *)
Definition relink (next : Z -> Z) (last w : Z) : Z -> Z :=
  fun h => if h =? w then 0 else if h =? last then w else next h.

Lemma chained_ext (next next' : Z -> Z) h hs :
  Forall (fun x => next' x = next x) (h :: hs) -> chained next h hs -> chained next' h hs.
Proof.
  revert h. induction hs as [|h1 hs IH]; intros h E; cbn [chained]; apply Forall_cons in E as [E Es].
  - by rewrite E.
  - rewrite E. intros [H Hc]. split; [done|]. by apply IH.
Qed.

Lemma last_of_mem h hs : last_of h hs ∈ h :: hs.
Proof.
  revert h. induction hs as [|h1 hs IH]; intros h; cbn [last_of]; [left|]. right. apply IH.
Qed.

Lemma last_of_app h hs w : last_of h (hs ++ [w]) = w.
Proof. revert h. induction hs as [|h1 hs IH]; intros h; cbn [last_of app]; [done|apply IH]. Qed.

Lemma chained_extend next h hs w :
  StronglySorted Z.lt (h :: hs ++ [w]) -> chained next h hs ->
  chained (relink next (last_of h hs) w) h (hs ++ [w]).
Proof.
  unfold relink. revert h. induction hs as [|h1 hs IH]; intros h Hs Hc; cbn [app chained last_of].
  - apply StronglySorted_inv in Hs as [_ Hh]. apply Forall_cons in Hh as [Hh _].
    rewrite (proj2 (Z.eqb_neq h w)), !Z.eqb_refl by lia. done.
  - apply StronglySorted_inv in Hs as [Hs Hh]. destruct Hc as [Hn Hc].
    rewrite Forall_forall in Hh.
    assert (h < w) by (apply Hh; apply elem_of_app; right; left).
    assert (h < last_of h1 hs) by (apply Hh; apply elem_of_app; left; apply last_of_mem).
    rewrite (proj2 (Z.eqb_neq h w)), (proj2 (Z.eqb_neq h (last_of h1 hs))) by lia. eauto.
Qed.

(** The same height a second time changes nothing. *)
Lemma chained_again next h hs :
  StronglySorted Z.lt (h :: hs) -> chained next h hs ->
  chained (relink next (last_of h hs) (last_of h hs)) h hs.
Proof.
  unfold relink. revert h. induction hs as [|h1 hs IH]; intros h Hs Hc; cbn [chained last_of].
  - by rewrite Z.eqb_refl.
  - apply StronglySorted_inv in Hs as [Hs Hh]. destruct Hc as [Hn Hc]. rewrite Forall_forall in Hh.
    assert (h < last_of h1 hs) by (apply Hh; apply last_of_mem).
    rewrite (proj2 (Z.eqb_neq h (last_of h1 hs))) by lia. eauto.
Qed.

Context (reliable : forall k v d, is_Some (lv_Put (S := D) k v d)).

Lemma store_height f t c w (d : D) :
  in_u64 c -> in_u64 w ->
  exists d', ignore (LevelDB.StoreCrossShardNextHeight f t c w) d = (d', Ok tt) /\
    forall f' t' c', in_u64 c' ->
      CrossShardPool.getNextCrossShardHeight (cross_db d') f' t' c' =
        if decide ((f', t', c') = (f, t, c)) then w
        else CrossShardPool.getNextCrossShardHeight (cross_db d) f' t' c'.
Proof.
  intros Hc Hw. unfold ignore.
  destruct (LevelDB.StoreCrossShardNextHeight f t c w d) as [d' r] eqn:E.
  assert (r = Ok tt) as ->.
  { unfold LevelDB.StoreCrossShardNextHeight, LevelDB.or_err, LevelDB.Put in E.
    destruct (reliable (LevelDB.next_height_key f t c) (le_bytes 8 w) d) as [d1 H1]. rewrite H1 in E.
    by injection E. }
  exists d'. split; [done|]. intros f' t' c' Hc'. unfold CrossShardPool.getNextCrossShardHeight, cross_db; cbn.
  destruct (LevelDB.next_height_stored d d' f t c w Hc Hw E) as [H1 H2].
  destruct (decide _) as [[= -> -> ->]|Hne]; [by rewrite H1|]. by rewrite H2.
Qed.

(** A link stored for two shards. *)
Lemma store_link_spec f w t (n : Node) :
  f <> t -> in_u64 w -> in_u64 (last_link (Beacon n) f t) ->
  exists n', store_link f w t n = (n', Ok tt) /\
    (forall f' t', last_link (Beacon n') f' t' =
       if decide ((f', t') = (f, t)) then w else last_link (Beacon n) f' t') /\
    (forall f' t' c, in_u64 c ->
       CrossShardPool.getNextCrossShardHeight (cross_db (DataBase n')) f' t' c =
         if decide ((f', t') = (f, t))
         then relink (CrossShardPool.getNextCrossShardHeight (cross_db (DataBase n)) f t)
                (last_link (Beacon n) f t) w c
         else CrossShardPool.getNextCrossShardHeight (cross_db (DataBase n)) f' t' c).
Proof.
  intros Hft Hw Hl. unfold store_link. rewrite (proj2 (Z.eqb_neq _ _) Hft).
  destruct (store_height f t (last_link (Beacon n) f t) w (DataBase n) Hl Hw) as (d1 & E1 & H1).
  destruct (store_height f t w 0 d1 Hw) as (d2 & E2 & H2); [by_compute|].
  eexists. split.
  { unfold mbind, M_bind, get, modify, on_db. rewrite E1. cbn [DataBase set_db]. rewrite E2. reflexivity. }
  cbn [Beacon DataBase set_beacon set_db]. split.
  - intros f' t'. unfold last_link, set_last_link. cbn [LastCrossShardState set_cross].
    unfold map_get. destruct (decide (f' = f)) as [->|Hf].
    + rewrite lookup_insert_eq. cbn [default from_option id]. destruct (decide (t' = t)) as [->|Ht].
      * rewrite lookup_insert_eq. by rewrite decide_True.
      * rewrite lookup_insert_ne by done. by rewrite decide_False by congruence.
    + rewrite lookup_insert_ne by done. by rewrite decide_False by congruence.
  - intros f' t' c Hc. rewrite H2 by done. rewrite H1 by done. unfold relink.
    destruct (decide ((f', t') = (f, t))) as [[= -> ->]|Hne].
    + destruct (decide ((f, t, c) = _)) as [[= ->]|Hcw]; [by rewrite Z.eqb_refl|].
      rewrite (proj2 (Z.eqb_neq c w)) by congruence.
      destruct (decide ((f, t, c) = _)) as [[= ->]|Hcl]; [by rewrite Z.eqb_refl|].
      by rewrite (proj2 (Z.eqb_neq c _)) by congruence.
    + rewrite !decide_False by congruence. done.
Qed.

(** Every link in the best state is a height. *)
Definition links_ok (n : Node) : Prop := forall f t, in_u64 (last_link (Beacon n) f t).

Lemma store_link_run f w t (n n' : Node) : store_link f w t n = (n', Ok tt) -> f = t -> n' = n.
Proof. unfold store_link. intros H ->. rewrite Z.eqb_refl in H. by injection H as <-. Qed.

Section Tracks.
Context (from to h0 : Z) (Hne : from <> to).

Definition sorted_heights (hs : list Z) : Prop := StronglySorted Z.lt (h0 :: hs) /\ Forall in_u64 (h0 :: hs).

Lemma sorted_heights_app hs hs' : sorted_heights (hs ++ hs') -> sorted_heights hs.
Proof.
  unfold sorted_heights. rewrite !app_comm_cons. intros [H1 H2]. apply Forall_app in H2 as [H2 _].
  split; [by apply StronglySorted_app_1_l in H1|done].
Qed.

(** A link of other shards, and a link of these ones. *)
Lemma store_link_tracks f w t hs (n n' : Node) :
  store_link f w t n = (n', Ok tt) -> in_u64 w -> links_ok n -> sorted_heights hs ->
  tracks from to h0 hs n ->
  links_ok n' /\
  ((f, t) <> (from, to) -> tracks from to h0 hs n') /\
  ((f, t) = (from, to) -> sorted_heights (hs ++ [w]) -> tracks from to h0 (hs ++ [w]) n') /\
  ((f, t) = (from, to) -> w = last_of h0 hs -> tracks from to h0 hs n').
Proof.
  intros E Hw Hok [Hs Hu] [Hl Hc]. destruct (decide (f = t)) as [Hft|Hft].
  { apply store_link_run in E as ->; [|done]. split; [done|]. split; [done|]. split; congruence. }
  destruct (store_link_spec f w t n Hft Hw (Hok f t)) as (n1 & E1 & Hl1 & Hg1).
  rewrite E in E1. injection E1 as <-. split.
  { intros f' t'. rewrite Hl1. by destruct (decide _). }
  assert ((f, t) = (from, to) -> forall hs', last_of h0 hs' = w -> Forall in_u64 (h0 :: hs') ->
    chained (relink (CrossShardPool.getNextCrossShardHeight (cross_db (DataBase n)) from to)
      (last_of h0 hs) w) h0 hs' -> tracks from to h0 hs' n') as Hthese.
  { intros [= -> ->] hs' Hw' Hu' Hc'. split; [by rewrite Hl1, decide_True|].
    eapply chained_ext; [|exact Hc']. eapply Forall_impl; [exact Hu'|].
    intros x Hx. cbn. rewrite Hg1, decide_True, Hl by done. done. }
  split; [|split].
  - intros Hne'. split; [by rewrite Hl1, decide_False|]. eapply chained_ext; [|exact Hc].
    eapply Forall_impl; [exact Hu|]. intros x Hx. cbn. by rewrite Hg1, decide_False.
  - intros Heq [Hs' Hu']. apply Hthese; [done|apply last_of_app|done|by apply chained_extend].
  - intros Heq Hlast. apply Hthese; [done..|]. rewrite Hlast. by apply chained_again.
Qed.

Lemma store_link_loop_again cs hs w (n n' : Node) :
  mfor (store_link from w) cs n = (n', Ok tt) -> in_u64 w -> links_ok n -> sorted_heights hs ->
  last_of h0 hs = w -> tracks from to h0 hs n -> links_ok n' /\ tracks from to h0 hs n'.
Proof.
  intros H Hw Hok Hs Hl. revert n Hok H. induction cs as [|t cs IH]; intros n Hok H Ht.
  - by injection H as <-.
  - cbn [mfor] in H. apply M_bind_ok in H as (n1 & [] & H1 & H).
    destruct (store_link_tracks from w t hs n n1 H1 Hw Hok Hs Ht) as (Hok1 & Ho & _ & Ha).
    apply (IH n1); [done..|]. destruct (decide (t = to)) as [->|]; [by apply Ha|apply Ho; congruence].
Qed.

(** [w] when the list names [to]. *)
Definition if_addressed (cs : bytes) (w : Z) : list Z := if decide (to ∈ cs) then [w] else [].

Lemma if_addressed_other t cs w : t <> to -> if_addressed (t :: cs) w = if_addressed cs w.
Proof.
  intros Ht. unfold if_addressed. apply decide_ext. split; [|by right].
  intros [Heq|?]%elem_of_cons; [congruence|done].
Qed.

Lemma store_link_loop cs hs w (n n' : Node) :
  mfor (store_link from w) cs n = (n', Ok tt) -> in_u64 w -> links_ok n ->
  sorted_heights (hs ++ if_addressed cs w) -> tracks from to h0 hs n ->
  links_ok n' /\ tracks from to h0 (hs ++ if_addressed cs w) n'.
Proof.
  intros H Hw. revert n H. induction cs as [|t cs IH]; intros n H Hok Hs Ht.
  - injection H as <-. cbn. by rewrite app_nil_r.
  - cbn [mfor] in H. apply M_bind_ok in H as (n1 & [] & H1 & H).
    destruct (store_link_tracks from w t hs n n1 H1 Hw Hok (sorted_heights_app _ _ Hs) Ht)
      as (Hok1 & Ho & He & _).
    destruct (decide (t = to)) as [->|Hto].
    + unfold if_addressed in *. rewrite decide_True in Hs |- * by left.
      eapply store_link_loop_again; [done..|apply last_of_app|]. by apply He.
    + rewrite if_addressed_other in Hs |- * by done. apply (IH n1); [done..|apply Ho; congruence].
Qed.

Lemma store_link_loop_other f cs hs w (n n' : Node) :
  f <> from -> mfor (store_link f w) cs n = (n', Ok tt) -> in_u64 w -> links_ok n ->
  sorted_heights hs -> tracks from to h0 hs n -> links_ok n' /\ tracks from to h0 hs n'.
Proof.
  intros Hf H Hw Hok Hs. revert n Hok H. induction cs as [|t cs IH]; intros n Hok H Ht.
  - by injection H as <-.
  - cbn [mfor] in H. apply M_bind_ok in H as (n1 & [] & H1 & H).
    destruct (store_link_tracks f w t hs n n1 H1 Hw Hok Hs Ht) as (Hok1 & Ho & _).
    apply (IH n1); [done..|apply Ho; congruence].
Qed.

Lemma addressed_cons state states :
  addressed to (state :: states) = if_addressed (CrossShard state) (Height state) ++ addressed to states.
Proof. unfold addressed, if_addressed. rewrite filter_cons. by destruct (decide _). Qed.

Lemma store_links_loop states hs (n n' : Node) :
  mfor (store_links from) states n = (n', Ok tt) -> Forall (fun st => in_u64 (Height st)) states ->
  links_ok n -> sorted_heights (hs ++ addressed to states) -> tracks from to h0 hs n ->
  links_ok n' /\ tracks from to h0 (hs ++ addressed to states) n'.
Proof.
  intros H Hst. revert hs n H. induction Hst as [|st states Hst _ IH]; intros hs n H Hok Hs Ht.
  - injection H as <-. cbn. by rewrite app_nil_r.
  - cbn [mfor] in H. apply M_bind_ok in H as (n1 & [] & H1 & H).
    rewrite addressed_cons, app_assoc in Hs |- *.
    destruct (store_link_loop _ hs _ n n1 H1 Hst Hok (sorted_heights_app _ _ Hs) Ht) as [Hok1 Ht1].
    by apply (IH _ n1).
Qed.

Lemma store_links_loop_other f states hs (n n' : Node) :
  f <> from -> mfor (store_links f) states n = (n', Ok tt) ->
  Forall (fun st => in_u64 (Height st)) states ->
  links_ok n -> sorted_heights hs -> tracks from to h0 hs n ->
  links_ok n' /\ tracks from to h0 hs n'.
Proof.
  intros Hf H Hst. revert n H. induction Hst as [|st states Hst _ IH]; intros n H Hok Hs Ht.
  - by injection H as <-.
  - cbn [mfor] in H. apply M_bind_ok in H as (n1 & [] & H1 & H).
    destruct (store_link_loop_other f _ hs _ n n1 Hf H1 Hst Hok Hs Ht) as [Hok1 Ht1].
    by apply (IH n1).
Qed.

Lemma shard_links_loop entries hs (n n' : Node) :
  mfor shard_links entries n = (n', Ok tt) ->
  Forall (fun entry => Forall (fun st => in_u64 (Height st)) (snd entry)) entries ->
  links_ok n -> sorted_heights (hs ++ addressed_in from to entries) -> tracks from to h0 hs n ->
  links_ok n' /\ tracks from to h0 (hs ++ addressed_in from to entries) n'.
Proof.
  intros H Hst. revert hs n H. induction Hst as [|[f states] entries Hst _ IH]; intros hs n H Hok Hs Ht.
  - injection H as <-. cbn. by rewrite app_nil_r.
  - cbn [mfor] in H. apply M_bind_ok in H as (n2 & [] & H1 & H).
    apply M_bind_ok in H1 as (n1 & [] & H1 & H2).
    assert (Beacon n2 = Beacon n1 /\ DataBase n2 = DataBase n1) as [EB ED].
    { unfold update_cross_pool in H2. destruct (_ !! _); [|done]. by injection H2 as <-. }
    assert (forall hs, links_ok n1 /\ tracks from to h0 hs n1 -> links_ok n2 /\ tracks from to h0 hs n2) as Hsame.
    { unfold links_ok, tracks. by rewrite EB, ED. }
    unfold addressed_in in Hs |- *. cbn [map concat fst snd] in Hs, H1, Hst |- *.
    rewrite app_assoc in Hs |- *. destruct (decide (f = from)) as [->|Hf].
    + destruct (Hsame _ (store_links_loop _ hs n n1 H1 Hst Hok (sorted_heights_app _ _ Hs) Ht)) as [Hok2 Ht2].
      by apply (IH _ n2).
    + rewrite app_nil_r in Hs |- *.
      destruct (Hsame _ (store_links_loop_other f _ hs n n1 Hf H1 Hst Hok (sorted_heights_app _ _ Hs) Ht))
        as [Hok2 Ht2]. by apply (IH _ n2).
Qed.
End Tracks.

(** C2. The links a beacon block stores extend, for any two shards, the chain of heights at
    which the first addressed the second by the new heights in order: a receiver that
    follows the links from the start of the chain meets exactly those heights. *)
Theorem cross_links_followed (from to h0 : Z) (hs : list Z)
    (entries : list (Z * list ShardState)) (n n' : Node) :
  from <> to -> links_ok n -> tracks from to h0 hs n ->
  mfor shard_links entries n = (n', Ok tt) ->
  Forall (fun entry => Forall (fun st => in_u64 (Height st)) (snd entry)) entries ->
  let hs' := hs ++ addressed_in from to entries in
  sorted_heights h0 hs' ->
  links_ok n' /\ tracks from to h0 hs' n' /\
  forall fuel, (length hs' < fuel)%nat -> follow fuel (DataBase n') from to h0 = hs'.
Proof.
  intros Hne Hok Ht H Hst hs' Hs.
  destruct (shard_links_loop from to h0 Hne entries hs n n' H Hst Hok Hs Ht) as [Hok' Ht'].
  split; [done|]. split; [done|]. intros fuel Hfuel. apply chained_follow; [apply Ht'| |done].
  destruct Hs as [Hs Hu]. apply StronglySorted_inv in Hs as [_ Hs].
  apply Forall_cons in Hu as [Hu _]. eapply Forall_impl; [exact Hs|]. unfold in_u64 in Hu. cbn. lia.
Qed.
End Links.
Section Stored.
Context {sha : Sha256} {sigs : Signatures} {I : Type} {stab : StabilityOps I} {eqI : EqDecision I}
  {json : BeaconJson I} {D : Type} {lvdb : LevelDB D} {loans : LoanJson} {const : ConstitutionOps D I}.
Context {CB : Type} `{!BlockHeight CB} `{!BlockShard CB} `{!CrossShardBlk CB}
  {CH : Type} `{!BlockHash CB CH}.
#[local] Abbreviation Node := (Node (I := I) (D := D) (CB := CB)).

(** ** What is left of the best state in the store *)

Section Text.
Context (text : bytes).

Definition holds_text (d : D) : Prop := lv_content d !! LevelDB.beaconBestBlockkey = Some text.

Lemma holds_put e k v : k <> LevelDB.beaconBestBlockkey ->
  preserves holds_text (LevelDB.or_err e (LevelDB.Put k v)).
Proof.
  intros Hk d Hd. unfold LevelDB.or_err, LevelDB.Put. destruct (lv_Put k v d) as [d'|] eqn:E; [|exact Hd].
  cbn. unfold holds_text. rewrite (lv_Put_ok _ _ _ _ E). by rewrite lookup_insert_ne.
Qed.

Lemma holds_ignore {A} (m : M D A) : preserves holds_text m -> preserves holds_text (ignore m).
Proof. intros Hm d Hd. specialize (Hm d Hd). unfold ignore. by destruct (m d) as [d' [| |]]. Qed.

Lemma holds_or_err {A} e (m : M D A) : preserves holds_text m -> preserves holds_text (LevelDB.or_err e m).
Proof. intros Hm d Hd. specialize (Hm d Hd). unfold LevelDB.or_err. by destruct (m d) as [d' [| |]]. Qed.

(** Keys that differ from the key of the best state in the first six bytes. *)
Ltac other_key :=
  let E := fresh in intros E; apply (f_equal (take 6)) in E; vm_compute in E; discriminate E.

Ltac keep :=
  repeat lazymatch goal with
  | |- preserves _ (LevelDB.or_err _ (LevelDB.Put _ _)) => apply holds_put; other_key
  | |- preserves _ (LevelDB.or_err _ _) => apply holds_or_err
  | |- preserves _ (ignore _) => apply holds_ignore
  | |- preserves _ (_ ≫= _) => apply preserves_bind; [|intros ?]
  | |- preserves _ (mfor _ _) => apply preserves_mfor; intros ?
  | |- preserves _ (if ?b then _ else _) => destruct b
  | |- preserves _ (match ?x with _ => _ end) => destruct x
  | |- _ => apply preserves_read; intros ?; reflexivity
  end.

Lemma holds_rest block (s : BestStateBeacon I) s1 :
  preserves holds_text
    (_ ← LevelDB.StoreBeaconBlock (LevelDB.mkStored (Some (Block_Hash block)) s1);
     _ ← LevelDB.StoreBeaconBlockIndex (Block_Hash block) (Height_ (Header block));
     _ ← mfor (fun entry => mfor (fun state =>
           ignore (LevelDB.StoreAcceptedShardToBeacon (fst entry) (Height_ (Header block)) (StateHash state)))
           (snd entry)) (map_to_list (ShardState_ (Body block)));
     res ← LevelDB.HasCommitteeByEpoch (Epoch_ (Header block));
     if res : bool then mret tt
     else LevelDB.StoreCommitteeByEpoch (Epoch_ (Header block))
            (LevelDB.mkStored None (committee_json (ShardCommittee (committees s))))).
Proof.
  generalize (Block_Hash block), (Height_ (Header block)), (Epoch_ (Header block)). intros hash h e.
  unfold LevelDB.StoreBeaconBlock, LevelDB.store_block, LevelDB.fail_if, LevelDB.StoreBeaconBlockIndex,
    LevelDB.StoreAcceptedShardToBeacon, LevelDB.StoreCommitteeByEpoch. cbn [LevelDB.st_hash LevelDB.st_json].
  keep.
Qed.
(** The same of the node's store. *)
Definition node_holds (n : Node) : Prop := holds_text (DataBase n).

Lemma node_on_db {A} (m : M D A) : preserves holds_text m -> preserves node_holds (on_db m).
Proof. intros Hm n Hn. specialize (Hm _ Hn). unfold on_db. by destruct (m (DataBase n)). Qed.

Definition bank_holds (b : Loan.Bank D) : Prop := holds_text (Loan.bank_db b).

Lemma bank_on_db {A} (m : M D A) : preserves holds_text m -> preserves bank_holds (Loan.on_db m).
Proof. intros Hm b Hb. specialize (Hm _ Hb). unfold Loan.on_db. by destruct (m (Loan.bank_db b)). Qed.

Lemma node_on_bank (m : M (Loan.Bank D) unit) : preserves bank_holds m -> preserves node_holds (on_bank m).
Proof.
  intros Hm n Hn. unfold on_bank. set (b0 := Loan.mkBank (DataBase n) _).
  specialize (Hm b0 Hn). by destruct (m b0).
Qed.

Ltac keep_node :=
  repeat lazymatch goal with
  | |- preserves node_holds (on_db _) => apply node_on_db; keep
  | |- preserves node_holds (on_bank _) => apply node_on_bank
  | |- preserves bank_holds (Loan.on_db _) => apply bank_on_db; keep
  | |- preserves _ (_ ≫= _) => apply preserves_bind; [|intros ?]
  | |- preserves _ (mfor _ _) => apply preserves_mfor; intros ?
  | |- preserves _ (if ?b then _ else _) => destruct b
  | |- preserves _ (match ?x with _ => _ end) => destruct x
  | |- preserves _ (modify _) => intros ? Hholds; exact Hholds
  | |- preserves _ (Loan.add_fund _) => intros ? Hholds; exact Hholds
  | |- _ => apply preserves_read; intros ?; reflexivity
  end.

Lemma node_shard_links entry : preserves node_holds (shard_links entry).
Proof.
  unfold shard_links. apply preserves_bind; [|intros ?].
  - unfold store_links, store_link, LevelDB.StoreCrossShardNextHeight. keep_node.
  - intros n Hn. unfold update_cross_pool. by destruct (_ !! _).
Qed.

(** A block without an update of a constitution. *)
Definition no_constitution (insts : list (list string)) : Prop :=
  Forall (fun inst => inst !! 0%nat <> Some UpdateDCBConstitutionIns /\
                      inst !! 0%nat <> Some UpdateGOVConstitutionIns) insts.

Lemma node_instructions insts : no_constitution insts -> preserves node_holds (beacon_instructions insts).
Proof.
  induction 1 as [|inst insts [H1 H2] _ IH]; [by apply preserves_read|]. cbn [beacon_instructions].
  destruct (inst !! 0%nat) as [i0|]; [|by apply preserves_read].
  apply preserves_bind; [by apply preserves_read|intros n].
  destruct (decide _); [|destruct (decide _); [|destruct (decide _) as [[->| ->]|]; [congruence..|exact IH]]].
  - apply preserves_bind; [|intros _; exact IH]. unfold Loan.processLoanWithdrawInstruction, LevelDB.StoreLoanPayment.
    keep_node.
  - apply preserves_bind; [|intros _; exact IH]. unfold Loan.processLoanPaymentInstruction, Loan.processLoanPayment,
      LevelDB.StoreLoanPayment, LevelDB.GetLoanPayment. keep_node.
Qed.
End Text.

Lemma store_state_text block (s : BestStateBeacon I) (d d' : D) :
  store_state block s d = (d', Ok tt) -> exists text, best_json s = Ok text /\ holds_text text d'.
Proof.
  unfold store_state. intros H. apply M_bind_ok in H as (d1 & [] & H1 & H).
  apply M_bind_ok in H1 as (d0 & text & H0%LevelDB.or_err_ok%lift_ok & H1). destruct H0 as [-> Htext].
  exists text. split; [done|].
  assert (holds_text text d1) as Hd1.
  { unfold holds_text. rewrite (LevelDB.put_ok _ _ _ _ _ H1). by rewrite lookup_insert_eq. }
  pose proof (holds_rest text block s (block_json block) d1 Hd1) as Hx. cbv zeta in H. rewrite H in Hx.
  exact Hx.
Qed.

(** What a successful insertion went through. *)
Lemma InsertBeaconBlock_ok order visit block isCommittee (n n' : Node) :
  InsertBeaconBlock order visit block isCommittee n = (n', Ok tt) ->
  exists n1 n2 n3 n4 n5,
    VerifyPreProcessing block isCommittee n = (n1, Ok tt) /\
    insert_state order block n1 = (n2, Ok tt) /\
    on_db (store_state block (Beacon n2)) n2 = (n3, Ok tt) /\
    mfor shard_links (visit (ShardState_ (Body block))) n3 = (n4, Ok tt) /\
    processBeaconOnlyInstructions block n4 = (n5, Ok tt) /\ n' = settle n5.
Proof.
  intros H. apply M_bind_ok in H as (n0 & isExist & H0 & H).
  assert (n0 = n) as ->.
  { revert H0. unfold on_db, LevelDB.HasBeaconBlock, LevelDB.HasValue. mrun. intros [= <- _]. by destruct n. }
  apply M_bind_ok in H as (nx & [] & Hx & H).
  assert (nx = n) as -> by (by destruct isExist; [|injection Hx as <-]).
  apply M_bind_ok in H as (n1 & [] & H1 & H). apply M_bind_ok in H as (n2 & [] & H2 & H).
  apply M_bind_ok in H as (ny & sy & [= <- <-] & H).
  apply M_bind_ok in H as (n3 & [] & H3 & H). apply M_bind_ok in H as (n4 & [] & H4 & H).
  apply M_bind_ok in H as (n5 & [] & H5 & [= <-]). by exists n1, n2, n3, n4, n5.
Qed.
Lemma insert_state_links order block (n n' : Node) :
  insert_state order block n = (n', Ok tt) ->
  LastCrossShardState (Beacon n') = LastCrossShardState (Beacon n) /\ DataBase n' = DataBase n.
Proof.
  intros H. apply M_bind_ok in H as (? & n0 & [= <- <-] & H).
  apply M_bind_ok in H as (n1 & [] & H1 & H).
  assert (n1 = n) as -> by (destruct (decide _); [by injection H1 as <-|done]).
  apply M_bind_ok in H as (n2 & [] & [-> _]%lift_ok & H).
  apply M_bind_ok in H as (n3 & [] & H3 & H).
  apply M_bind_ok in H as (n4 & n5 & [= <- <-] & [-> _]%lift_ok).
  unfold on_beacon in H3. pose proof (Update_cross _ order block (Beacon n) eq_refl) as Hc.
  destruct (Update order block (Beacon n)) as [s r]. injection H3 as <- ->. done.
Qed.

Lemma pre_processing_frame block isCommittee (n n' : Node) r :
  VerifyPreProcessing block isCommittee n = (n', r) -> Beacon n' = Beacon n /\ DataBase n' = DataBase n.
Proof.
  unfold VerifyPreProcessing. destruct (VerifyPreProcessingBeaconBlock _ _ _ _ _) as [p r'].
  by intros [= <- _].
Qed.

(** C24. The best state is written to the store before the links of the block are recorded
    in it: after an insertion the stored best state still has the last heights from
    before the block, so a node that restarts from it links the next block over the
    heights of this one. *)
Theorem stored_state_lacks_links (reliable : forall k v d, is_Some (lv_Put (S := D) k v d))
    order visit (block : BeaconBlock) isCommittee (n n' : Node) :
  InsertBeaconBlock order visit block isCommittee n = (n', Ok tt) ->
  no_constitution (Instructions (Body block)) ->
  exists text s1, snd (LevelDB.FetchBeaconBestState (DataBase n')) = Ok text /\
    best_json s1 = Ok text /\ LastCrossShardState s1 = LastCrossShardState (Beacon n) /\
    forall from to w, from <> to -> in_u64 w -> in_u64 (last_link (Beacon n) from to) ->
      w <> last_link (Beacon n) from to ->
      exists n2, store_link from w to (set_beacon s1 n') = (n2, Ok tt) /\
        CrossShardPool.getNextCrossShardHeight (cross_db (DataBase n2)) from to
          (last_link (Beacon n) from to) = w.
Proof.
  intros H Hno. apply InsertBeaconBlock_ok in H as (n1 & n2 & n3 & n4 & n5 & H1 & H2 & H3 & H4 & H5 & ->).
  apply pre_processing_frame in H1 as [HB1 _]. apply insert_state_links in H2 as [HB2 _].
  unfold on_db in H3. destruct (store_state block (Beacon n2) (DataBase n2)) as [d3 r3] eqn:E3.
  injection H3 as <- ->. apply store_state_text in E3 as (text & Htext & Hd3).
  assert (node_holds text (set_db d3 n2)) as Hn3 by exact Hd3.
  pose proof (preserves_mfor (node_holds text) shard_links (visit (ShardState_ (Body block)))
    (node_shard_links text) _ Hn3) as Hn4.
  rewrite H4 in Hn4. cbn [fst] in Hn4. pose proof (node_instructions text _ Hno _ Hn4) as Hn5.
  unfold processBeaconOnlyInstructions in H5. rewrite H5 in Hn5.
  assert (node_holds text (settle n5)) as Hn'.
  { unfold settle. by destruct (ShardToBeaconPool.SetShardState _ _). }
  exists text, (Beacon n2). split.
  { unfold LevelDB.FetchBeaconBestState. rewrite LevelDB.get_or_err. unfold node_holds, holds_text in Hn'.
    by rewrite Hn'. }
  split; [done|]. split; [congruence|]. intros from to w Hft Hw Hl Hwl.
  assert (forall s : BestStateBeacon I, LastCrossShardState s = LastCrossShardState (Beacon n) ->
    last_link s from to = last_link (Beacon n) from to) as Hlast by (intros s E; unfold last_link; by rewrite E).
  assert (last_link (Beacon n2) from to = last_link (Beacon n) from to) as Hl2 by (apply Hlast; congruence).
  destruct (store_link_spec reliable from w to (set_beacon (Beacon n2) (settle n5)) Hft Hw) as (n6 & E6 & _ & Hg).
  { cbn. by rewrite Hl2. }
  exists n6. split; [done|]. rewrite Hg by done. rewrite decide_True by done. unfold relink. cbn. rewrite Hl2.
  by rewrite (proj2 (Z.eqb_neq _ w)), Z.eqb_refl by congruence.
Qed.

(** What a block goes through up to its update. *)
Lemma insert_refused order visit (block : BeaconBlock) isCommittee (n n1 n2 : Node) e :
  snd (LevelDB.HasBeaconBlock (Block_Hash block) (DataBase n)) = Ok false ->
  VerifyPreProcessing block isCommittee n = (n1, Ok tt) ->
  insert_state order block n1 = (n2, Err e) ->
  InsertBeaconBlock order visit block isCommittee n = (n2, Err e).
Proof.
  intros H0 H1 H2. unfold InsertBeaconBlock. unfold mbind at 1, M_bind at 1.
  replace (on_db (LevelDB.HasBeaconBlock (Block_Hash block)) n) with (n, Ok false).
  2:{ unfold on_db. assert (fst (LevelDB.HasBeaconBlock (Block_Hash block) (DataBase n)) = DataBase n) as Hd by done.
      destruct (LevelDB.HasBeaconBlock _ _) as [d r]. cbn in Hd, H0. subst. by destruct n. }
  unfold mbind at 1, M_bind at 1. unfold mret, M_ret. unfold mbind at 1, M_bind at 1. rewrite H1.
  unfold mbind at 1, M_bind at 1. by rewrite H2.
Qed.

(** C25. When a block passes the checks before the update but not those after it, its
    insertion fails and yet leaves the updated best state behind, with nothing in the
    store: from then on the node refuses every other block on the old chain. *)
Theorem failed_insert_moves_state order visit (block : BeaconBlock) isCommittee (n n1 : Node) s e :
  snd (LevelDB.HasBeaconBlock (Block_Hash block) (DataBase n)) = Ok false ->
  VerifyPreProcessing block isCommittee n = (n1, Ok tt) ->
  BestBlockHash (chain (Beacon n)) = PrevBlockHash (Header block) ->
  VerifyBestStateWithBeaconBlock (Beacon n) block true = Ok tt ->
  Update order block (Beacon n) = (s, Ok tt) ->
  VerifyPostProcessingBeaconBlock s block (BeaconCommittee (committees (Beacon n))) = Err e ->
  exists n', InsertBeaconBlock order visit block isCommittee n = (n', Err e) /\
    Beacon n' = s /\ BestBlockHash (chain s) = Block_Hash block /\ DataBase n' = DataBase n /\
    forall order' visit' block' isCommittee',
      PrevBlockHash (Header block') = PrevBlockHash (Header block) ->
      hash_ok (PrevBlockHash (Header block)) -> PrevBlockHash (Header block) <> Block_Hash block ->
      is_ok (snd (InsertBeaconBlock order' visit' block' isCommittee' n')) = false.
Proof.
  intros H0 H1 Hprev Hbest Hup Hpost. pose proof (pre_processing_frame _ _ _ _ _ H1) as [HB1 HD1].
  assert (insert_state order block n1 = (set_beacon s n1, Err e)) as H2.
  { unfold insert_state, on_beacon. mrun. rewrite HB1, Hprev, decide_True by done.
    rewrite Hbest, HB1, Hup. cbn. by rewrite Hpost. }
  exists (set_beacon s n1). split; [by eapply insert_refused|]. split; [done|].
  pose proof (Update_seat order block (Beacon n)) as Hs. rewrite Hup in Hs. injection Hs as Hs _ _ _ _.
  split; [done|]. split; [done|].
  intros order' visit' block' isCommittee' Hprev' Hok Hne.
  destruct (InsertBeaconBlock order' visit' block' isCommittee' (set_beacon s n1)) as [n' [[]| |]] eqn:E; [|done..].
  apply InsertBeaconBlock_ok in E as (m1 & m2 & m3 & m4 & m5 & E1 & E2 & _).
  apply pre_processing_frame in E1 as [EB1 _].
  apply M_bind_ok in E2 as (? & m0 & [= <- <-] & E2). apply M_bind_ok in E2 as (? & [] & E2 & _).
  rewrite EB1 in E2. cbn in E2. rewrite Hs, Hprev' in E2. destruct (decide _) as [Heq|]; [|done].
  exfalso. apply Hne. symmetry. apply String_inj; [apply DoubleHashH_ok|done|done].
Qed.
End Stored.

(** ** A small node *)

#[local] Existing Instance QuickHash.quick_hash.

(** A signature that repeats the data. *)
#[local] Instance echo_signatures : Signatures.
Proof.
  refine {| sig_key := fun _ => True; sig_public := map u8; sig_sign := fun _ data => Ok (map u8 data);
            sig_verify := fun _ data sg => Ok (bool_decide (map u8 data = sg)) |}.
  - intros sk data sg _ [= <-]. by rewrite bool_decide_true.
  - intros sk. apply Forall_fmap, Forall_true. intros z. apply u8_range.
  - intros sk data sg _ [= <-]. apply Forall_fmap, Forall_true. intros z. apply u8_range.
Defined.

(** The stability information is the bank's fund only. *)
#[local] Instance fund_stability : StabilityOps Z :=
  {| process_stability := fun _ _ => mret tt; stability_bytes := le_bytes 8; empty_stability := 0 |}.

#[local] Instance fund_constitution : ConstitutionOps (gmap bytes bytes) Z.
Proof.
  refine {| bank_fund := fun i => i; set_bank_fund := fun z _ => z;
            update_constitution := fun _ => throw "no constitution" |}. done.
Defined.

#[local] Instance no_loans : LoanJson :=
  {| json_LoanPaymentAction := fun _ => Err "no loan"; json_LoanWithdrawAction := fun _ => Err "no loan" |}.

Definition sample_key : bytes := [2; 7; 1; 8].
Definition sample_pk : string := base58_encode sample_key.

Definition sample_best : BestStateBeacon Z :=
  mkBestState (mkChain zero_hash zero_hash None ∅ ∅ 1 4 0)
    (mkCommittees [sample_pk; "v2"] [] {[1 := ["a"; "b"]; 2 := ["c"]]} ∅)
    (mkCandidates [] [] ["s1"] []) (mkRandoms 7 0 false) (mkSizes 2 2 2) ∅ 100 ∅ {[1 := {[2 := 3]}]}.

Definition sample_parent : BeaconBlock :=
  mkBlock "" "" [] "" (mkBody ∅ [])
    (mkHeader sample_pk 1 4 1 1 900 zero_hash zero_hash zero_hash zero_hash zero_hash zero_hash zero_hash).

#[local] Instance sample_json : BeaconJson Z :=
  {| best_json := fun s => Ok [BeaconHeight (chain s)];
     best_of_json := fun _ => (sample_best, Ok tt);
     block_json := fun _ => Ok []; block_of_json := fun _ => (sample_parent, Ok tt);
     committee_json := fun _ => Ok []; committee_of_json := fun _ => None |}.

(** A block of the producer with the given shard states. *)
Definition sample_states : list ShardState :=
  [mkShardState 5 zero_hash [2]; mkShardState 6 zero_hash [2; 3]].
Definition sample_body : gmap Z (list ShardState) := {[1 := sample_states]}.

Definition sample_draft (states : gmap Z (list ShardState)) : BeaconBlock :=
  BeaconProducer.draft sample_best sample_pk 1 1000 [["stake"; "s2"; "shard"]] states.

Definition sealed (s : BestStateBeacon Z) (states : gmap Z (list ShardState)) : BeaconBlock :=
  match BeaconProducer.seal s (sample_draft states) ≫= BeaconProducer.sign_block sample_key with
  | Ok b => b
  | _ => sample_draft states
  end.

Definition sample_block : BeaconBlock :=
  sealed (fst (Update (fun l => l) (sample_draft sample_body) sample_best)) sample_body.

(** The roots of the state before the update. *)
Definition wrong_block : BeaconBlock := sealed sample_best sample_body.

#[local] Instance unit_height : BlockHeight Z := fun z => z.

Definition sample_node : Node (I := Z) (D := gmap bytes bytes) (CB := Z) :=
  mkNode sample_best {[LevelDB.block_key zero_hash := []]} (BeaconPool.newBeaconPool)
    ShardToBeaconPool.newPool {[1 := CrossShardPool.newCrossShardPool 1]} ∅.

Lemma sample_links_ok : links_ok sample_node.
Proof.
  intros f t. unfold last_link, sample_node, sample_best, map_get. cbn [Beacon LastCrossShardState].
  destruct (decide (f = 1)) as [->|]; [|by rewrite lookup_singleton_ne].
  rewrite lookup_singleton_eq. cbn [default from_option id]. destruct (decide (t = 2)) as [->|].
  - rewrite lookup_singleton_eq. by_compute.
  - by rewrite lookup_singleton_ne.
Qed.

Definition after_links : Node (I := Z) (D := gmap bytes bytes) (CB := Z) :=
  fst (mfor shard_links [(1, sample_states)] sample_node).

Lemma cross_links_followed_witness : follow 3 (DataBase after_links) 1 2 3 = [5; 6].
Proof.
  destruct (cross_links_followed (CB := Z) (fun k v d => ltac:(by eexists)) 1 2 3 [] [(1, sample_states)]
    sample_node after_links) as (_ & _ & H).
  - done.
  - apply sample_links_ok.
  - vm_compute. done.
  - vm_compute. reflexivity.
  - repeat constructor; by_compute.
  - split; [repeat constructor|by_range].
  - apply (H 3%nat). vm_compute. lia.
Defined.

Definition id_order : list string -> list string := fun l => l.

(** The node after the insertion, and after the refused one. *)
Definition inserted : Node (I := Z) (D := gmap bytes bytes) (CB := Z) :=
  Eval vm_compute in fst (InsertBeaconBlock id_order map_to_list sample_block false sample_node).

Lemma stored_state_lacks_links_witness :
  exists text s1, snd (LevelDB.FetchBeaconBestState (DataBase inserted)) = Ok text /\
    best_json s1 = Ok text /\ LastCrossShardState s1 = {[1 := {[2 := 3]}]}.
Proof.
  destruct (stored_state_lacks_links (CB := Z) (fun k v d => ltac:(by eexists)) id_order map_to_list sample_block
    false sample_node inserted) as (text & s1 & H1 & H2 & H3 & _).
  - vm_compute. reflexivity.
  - vm_compute. repeat constructor; discriminate.
  - exists text, s1. exact (conj H1 (conj H2 H3)).
Defined.

(** The state that [wrong_block] leads to. *)
Definition moved : BestStateBeacon Z := Eval vm_compute in fst (Update id_order wrong_block sample_best).

Lemma failed_insert_moves_state_witness :
  exists n', InsertBeaconBlock id_order map_to_list wrong_block false sample_node = (n', Err "Hash error") /\
    BestBlockHash (chain (Beacon n')) = Block_Hash wrong_block.
Proof.
  destruct (failed_insert_moves_state (CB := Z) id_order map_to_list wrong_block false sample_node sample_node
    moved "Hash error") as (n' & H1 & H2 & H3 & _).
  - vm_compute. reflexivity.
  - vm_compute. reflexivity.
  - reflexivity.
  - vm_compute. reflexivity.
  - vm_compute. reflexivity.
  - vm_compute. reflexivity.
  - exists n'. split; [exact H1|]. rewrite H2. exact H3.
Defined.
End BeaconInsert.
