(* ===== verification/Stability.v ===== *)
(** The stability of the currency: the funds, the bonds and tokens on sale, the reserves, the
    crowd sales, loans, dividends and boards of the beacon chain, and what the instructions of
    a beacon block do to them (src/blockchain: stabilitybeaconprocess.go, dcbbeacondata.go,
    governor.go, constitution.go, vote.go, beaconbeststate.go, with the records of
    bondsfromgov.go, reserve.go and salary.go): the instance of the interface of BeaconState.v.
    How the instructions are made is in StabilityProducer.v, the votes are in Voting.v.  A nil
    map and a map without entries are one map here: the JSON of a best state without parameters
    yields a nil one, and Go panics when an instruction writes the first entry into it. *)

From Stdlib Require Import Ascii String.
From S2P Require Import Prelude GoStr Hash Sha256 Modular EC Keys Json Params Committee BeaconState BeaconVerify BeaconProducer.
From S2P Require Import LevelDB ShardTx TxStore TxMeta.

#[local] Open Scope string_scope.
#[local] Open Scope list_scope.
#[local] Open Scope Z_scope.

Module Stability.
Import Hashes Keys Params BeaconState BeaconVerify TxMeta.

(** ** Base64 *)

Definition base64_value (a : ascii) : option Z :=
  let n := Z.of_N (Ascii.N_of_ascii a) in
  if (65 <=? n) && (n <=? 90) then Some (n - 65)
  else if (97 <=? n) && (n <=? 122) then Some (n - 71)
  else if (48 <=? n) && (n <=? 57) then Some (n + 4)
  else if n =? 43 then Some 62 else if n =? 47 then Some 63 else None.

(** Four letters make three bytes; the last four may end in padding. *)
Fixpoint base64_groups (l : list ascii) : option bytes :=
  match l with
  | [] => Some []
  | a :: b :: c :: d :: rest =>
      x ← base64_value a; y ← base64_value b;
      if Ascii.eqb c "="%char then
        if Ascii.eqb d "="%char && bool_decide (rest = []) then Some [x * 4 + y / 16] else None
      else
        z ← base64_value c;
        if Ascii.eqb d "="%char then if bool_decide (rest = []) then Some [x * 4 + y / 16; y mod 16 * 16 + z / 4] else None
        else
          w ← base64_value d;
          tail ← base64_groups rest;
          Some (x * 4 + y / 16 :: y mod 16 * 16 + z / 4 :: z mod 4 * 64 + w :: tail)
  | _ => None
  end.

Definition line_break (a : ascii) : bool := Ascii.eqb a (Ascii.ascii_of_nat 10) || Ascii.eqb a (Ascii.ascii_of_nat 13).

(** [base64.StdEncoding.DecodeString]; line breaks are skipped. *)
Definition base64_decode (s : string) : outcome bytes :=
  match base64_groups (List.filter (fun a => negb (line_break a)) (String.list_ascii_of_string s)) with
  | Some b => Ok b
  | None => Err "illegal base64 data"
  end.

(** ** The boards and their constitutions *)

Definition DurationOfDCBBoard : Z := 6.
Definition DurationOfGOVBoard : Z := 1000.

Record ConstitutionInfo := mkConstitutionInfo {
  ConstitutionIndex : Z;
  StartedBlockHeight : Z;
  const_ExecuteDuration : Z;
  const_Explanation : string;
  const_Voter : Voter
}.
Record GOVConstitution := mkGOVConstitution {
  gov_Info : ConstitutionInfo; CurrentGOVNationalWelfare : Z; GOVParams_ : GOVParams
}.
Record DCBConstitution := mkDCBConstitution {
  dcb_Info : ConstitutionInfo; CurrentDCBNationalWelfare : Z; DCBParams_ : DCBParams
}.
Record GovernorInfo := mkGovernor {
  BoardIndex : Z;
  StartedBlock : Z;
  EndBlock : Z;
  BoardPaymentAddress : list PaymentAddress;
  StartAmountToken : Z
}.

(** [StabilityInfo] of the best state.  Its pointers are into itself only, and each change of
    what they point to is a change of it. *)
Record Info := mkInfo {
  SalaryFund : Z;
  BankFund : Z;
  GOVConstitution_ : GOVConstitution;
  DCBConstitution_ : DCBConstitution;
  DCBGovernor : GovernorInfo;
  GOVGovernor : GovernorInfo;
  Oracle_ : Oracle
}.

Definition set_salary (z : Z) (i : Info) : Info :=
  mkInfo z (BankFund i) (GOVConstitution_ i) (DCBConstitution_ i) (DCBGovernor i) (GOVGovernor i) (Oracle_ i).
Definition set_bank (z : Z) (i : Info) : Info :=
  mkInfo (SalaryFund i) z (GOVConstitution_ i) (DCBConstitution_ i) (DCBGovernor i) (GOVGovernor i) (Oracle_ i).
Definition set_gov (p : GOVParams) (i : Info) : Info :=
  mkInfo (SalaryFund i) (BankFund i) (mkGOVConstitution (gov_Info (GOVConstitution_ i)) (CurrentGOVNationalWelfare (GOVConstitution_ i)) p)
    (DCBConstitution_ i) (DCBGovernor i) (GOVGovernor i) (Oracle_ i).
Definition set_dcb_constitution (c : DCBConstitution) (i : Info) : Info :=
  mkInfo (SalaryFund i) (BankFund i) (GOVConstitution_ i) c (DCBGovernor i) (GOVGovernor i) (Oracle_ i).
Definition set_dcb (p : DCBParams) (i : Info) : Info :=
  set_dcb_constitution (mkDCBConstitution (dcb_Info (DCBConstitution_ i)) (CurrentDCBNationalWelfare (DCBConstitution_ i)) p) i.
Definition set_boards (d g : GovernorInfo) (i : Info) : Info :=
  mkInfo (SalaryFund i) (BankFund i) (GOVConstitution_ i) (DCBConstitution_ i) d g (Oracle_ i).

Definition gov_params (i : Info) : GOVParams := GOVParams_ (GOVConstitution_ i).
Definition dcb_params (i : Info) : DCBParams := DCBParams_ (DCBConstitution_ i).

(** ** What the instructions carry *)

Record BuySellRequest := mkBuySellRequest { bsr_PaymentAddress : PaymentAddress; bsr_TokenID : Hash; bsr_Amount : Z; BuyPrice : Z; bsr_Type : Z }.
Record BuySellReqAction := mkBuySellAction { bs_TxReqID : Hash; bs_Meta : BuySellRequest }.
Record BuyBackRequest := mkBuyBackRequest { bbr_PaymentAddress : PaymentAddress; bbr_Amount : Z; bbr_TokenID : Hash; bbr_Type : Z }.

(** The two metadata are pointers. *)
Record BuyBackReqAction := mkBuyBackAction {
  bb_TxReqID : Hash; BuyBacReqkMeta : option BuyBackRequest; PrevMeta : option BuySellResponse
}.
Record BuyBackInfo := mkBuyBackInfo {
  bbi_PaymentAddress : PaymentAddress; bbi_BuyBackPrice : Z; bbi_Value : Z; bbi_RequestedTxID : Hash; bbi_TokenID : Hash
}.
Record IssuingReqAction := mkIssuingAction { iss_TxReqID : Hash; ReceiverShardID : Z; iss_Meta : IssuingRequest }.
Record IssuingInfo := mkIssuingInfo {
  iss_ReceiverAddress : PaymentAddress; iss_Amount : Z; iss_RequestedTxID : Hash; iss_TokenID : Hash; iss_CurrencyType : Hash
}.
Record ContractingReqAction := mkContractingAction { con_TxReqID : Hash; con_Meta : ContractingRequest }.
Record ContractingInfo := mkContractingInfo {
  con_BurnerAddress : PaymentAddress; con_Burned : Z; RedeemAmount : Z; con_RequestedTxID : Hash; con_CurrencyType : Hash
}.
Record ShardBlockSalaryInfo := mkSalaryInfo {
  ShardBlockSalary : Z; ShardBlockFee : Z; PayToAddress : option PaymentAddress; si_ShardBlockHeight : Z
}.
Record LoanRequestAction := mkLoanRequest { lr_LoanID : bytes; lr_TxID : option Hash }.
Record LoanResponseAction := mkLoanResponse { lp_LoanID : bytes; lp_Sender : bytes; lp_Response : Z }.
Record LoanRespData := mkLoanResp { SenderPubkey : bytes; resp_Response : Z }.
Record DividendSubmit := mkDividend { div_TokenID : option Hash; DividendID : Z; TotalTokenAmount : Z; div_ShardID : Z }.
Record CrowdsalePaymentInstruction := mkCrowdsalePayment {
  cp_PaymentAddress : PaymentAddress; cp_Amount : Z; cp_AssetID : Hash; cp_SaleID : bytes; SentAmount : Z; UpdateSale : bool
}.
Record CrowdsaleRequestAction := mkCrowdsaleRequest {
  cr_SaleID : bytes; PriceLimit : Z; LimitSell : bool; cr_PaymentAddress : PaymentAddress; cr_SentAmount : Z
}.
Record AcceptBoardIns := mkAcceptBoard { ins_BoardPaymentAddress : list PaymentAddress; ins_StartAmountToken : Z }.
Record UpdateDCBIns := mkUpdateDCB { upd_SubmitProposalInfo : SubmitProposalInfo; upd_DCBParams : DCBParams; upd_Voter : Voter }.

Record UpdateGOVIns := mkUpdateGOV { upg_SubmitProposalInfo : SubmitProposalInfo; upg_GOVParams : GOVParams; upg_Voter : Voter }.

(** The JSON of these records, and the gob of the whole.  The instructions of a shard for a new
    constitution and those of the beacon that update it have the same fields.  [BuyGOVTokenReqAction] has other names for the same fields,
    hence a decoder of its own. *)
Class StabilityJson : Type := {
  buysell_json :: Json BuySellReqAction;
  buygov_of_json : string -> outcome BuySellReqAction;
  buyback_json :: Json BuyBackReqAction;
  buyback_info_json :: Json BuyBackInfo;
  issuing_json :: Json IssuingReqAction;
  issuing_info_json :: Json IssuingInfo;
  contracting_json :: Json ContractingReqAction;
  contracting_info_json :: Json ContractingInfo;
  salary_json :: Json ShardBlockSalaryInfo;
  loan_request_json :: Json LoanRequestAction;
  loan_response_json :: Json LoanResponseAction;
  loan_data_json :: Json (list LoanRespData);
  dividend_json :: Json DividendSubmit;
  dividend_amounts_json :: Json (list Z);
  sale_json :: Json SaleData;
  crowdsale_payment_json :: Json CrowdsalePaymentInstruction;
  crowdsale_request_json :: Json CrowdsaleRequestAction;
  board_json :: Json AcceptBoardIns;
  update_dcb_json :: Json UpdateDCBIns;
  update_gov_json :: Json UpdateGOVIns;
  selling_bonds_json :: Json (option SellingBonds);
  info_gob : Info -> bytes
}.

(** ** Types of instructions *)

Definition LoanRequestMeta : Z := 1.
Definition LoanResponseMeta : Z := 2.
Definition LoanWithdrawMeta : Z := 3.
Definition LoanPaymentMeta : Z := 5.
Definition DividendSubmitMeta : Z := 6.
Definition CrowdsaleRequestMeta : Z := 8.
Definition CrowdsalePaymentMeta : Z := 9.
Definition BuyFromGOVRequestMeta : Z := 18.
Definition BuyBackRequestMeta : Z := 20.
Definition BuyGOVTokenRequestMeta : Z := 34.
Definition ShardBlockSalaryRequestMeta : Z := 35.
Definition SealedLv1Or2VoteProposalIns : Z := 100.
Definition SealedLv3VoteProposalIns : Z := 101.
Definition NormalVoteProposalFromSealerIns : Z := 102.
Definition NormalVoteProposalFromOwnerIns : Z := 103.
Definition PunishDecryptIns : Z := 104.
Definition NewDCBConstitutionIns : Z := 105.
Definition NewGOVConstitutionIns : Z := 106.
Definition UpdateDCBConstitutionIns : Z := 107.
Definition UpdateGOVConstitutionIns : Z := 108.
Definition VoteDCBBoardIns : Z := 109.
Definition VoteGOVBoardIns : Z := 110.
Definition AcceptDCBBoardIns : Z := 112.
Definition AcceptGOVBoardIns : Z := 114.
Definition BeaconOnly : Z := -2.

(** ** Keys and values of the parameters *)

Definition dataSep : string := "-".
Definition getLoanRequestKeyBeacon (loanID : bytes) : string := "loanID-" +:+ TxStore.text loanID.
Definition getLoanResponseKeyBeacon (loanID : bytes) : string := "loanResp-" +:+ TxStore.text loanID.
Definition getSaleDataKeyBeacon (saleID : bytes) : string := "sale-" +:+ TxStore.text saleID.
Definition getDCBDividendKeyBeacon : string := "divDCB".
Definition getGOVDividendKeyBeacon : string := "divGOV".

(** The shard is turned into a string as a rune. *)
Definition getDividendSubmitKeyBeacon (shardID dividendID : Z) (tokenID : Hash) : string :=
  "divSub" +:+ TxStore.text (rune_bytes shardID) +:+ Itoa dividendID +:+ Hashes.String tokenID.
Definition parseDividendSubmitValueBeacon (value : string) : Z :=
  match ParseUint value with Ok z => z | Err "value out of range" => 2 ^ 64 - 1 | _ => 0 end.
Definition getDividendAggregatedKeyBeacon (dividendID : Z) (tokenID : Hash) : string :=
  "divAgg" +:+ Itoa dividendID +:+ Hashes.String tokenID.
Definition getDividendAggregatedValueBeacon (totalTokenAmount cstToPayout : Z) : string :=
  Itoa totalTokenAmount +:+ dataSep +:+ Itoa cstToPayout.

Section Process.
Context {json : StabilityJson}.
#[local] Abbreviation State := (gmap string string * Info)%type.

Definition params_of (s : State) : gmap string string := fst s.
Definition update_info (f : Info -> Info) : M State unit := modify (fun s => (fst s, f (snd s))).
Definition put_param (k v : string) : M State unit := modify (fun s => (<[k := v]> (fst s), snd s)).
Definition field (inst : list string) (i : Z) : M State string := lift (at_index inst i).

(** ** Initial values *)

(** A value that does not parse is stored all the same: 0, or the largest one. *)
Definition parsed_value (s : string) : Z :=
  match ParseUint s with Ok z => z | Err "value out of range" => 2 ^ 64 - 1 | _ => 0 end.
Definition set_gov_number (name : string) (z : Z) (p : GOVParams) : GOVParams :=
  if String.eqb name "salaryPerTx" then mkGOVParams z (BasicSalary p) (FeePerKbTx p) (SellingBonds_ p) (SellingGOVTokens_ p) (RefundInfo_ p) (OracleNetwork_ p)
  else if String.eqb name "basicSalary" then mkGOVParams (SalaryPerTx p) z (FeePerKbTx p) (SellingBonds_ p) (SellingGOVTokens_ p) (RefundInfo_ p) (OracleNetwork_ p)
  else mkGOVParams (SalaryPerTx p) (BasicSalary p) z (SellingBonds_ p) (SellingGOVTokens_ p) (RefundInfo_ p) (OracleNetwork_ p).

Definition process_init (inst : list string) : M State unit :=
  name ← field inst 1;
  if String.eqb name "salaryFund" then
    v ← field inst 2;
    _ ← update_info (set_salary (parsed_value v));
    _ ← lift (ParseUint v); mret tt
  else if bool_decide (name ∈ ["salaryPerTx"; "basicSalary"; "feePerTxKb"]) then
    v ← field inst 2;
    _ ← update_info (fun i => set_gov (set_gov_number name (parsed_value v) (gov_params i)) i);
    _ ← lift (ParseUint v); mret tt
  else mret tt.

(** ** Salaries, reserves, sales *)

Definition processSalaryUpdateInstruction (inst : list string) : M State unit :=
  str ← field inst 3;
  salary ← lift (Unmarshal (A := ShardBlockSalaryInfo) str);
  instType ← field inst 2;
  if String.eqb instType "fundNotEnough" then update_info (fun i => set_salary (u64 (SalaryFund i + ShardBlockFee salary)) i)
  else
    _ ← update_info (fun i => set_salary (u64 (SalaryFund i - ShardBlockSalary salary)) i);
    update_info (fun i => set_salary (u64 (SalaryFund i + ShardBlockFee salary)) i).

Definition with_raise (m : gmap Hash (option RaiseReserveData)) (p : DCBParams) : DCBParams :=
  mkDCBParams (ListSaleData p) (MinLoanResponseRequire p) (MinCMBApprovalRequire p) (LateWithdrawResponseFine p) m (SpendReserve p)
    (DividendAmount p) (ListLoanParams p).
Definition with_spend (m : gmap Hash (option SpendReserveData)) (p : DCBParams) : DCBParams :=
  mkDCBParams (ListSaleData p) (MinLoanResponseRequire p) (MinCMBApprovalRequire p) (LateWithdrawResponseFine p) (RaiseReserve p) m
    (DividendAmount p) (ListLoanParams p).

Definition processContractingReqInstruction (inst : list string) : M State unit :=
  instType ← field inst 2;
  if String.eqb instType "refund" then mret tt
  else
    str ← field inst 3;
    cInfo ← lift (Unmarshal (A := ContractingInfo) str);
    if bool_decide (con_CurrencyType cInfo = USDAssetID) then mret tt
    else
      s ← get;
      match SpendReserve (dcb_params (snd s)) !! con_CurrencyType cInfo with
      | None => mret tt
      | Some None => gopanic
      | Some (Some r) =>
          update_info (fun i => set_dcb (with_spend (<[con_CurrencyType cInfo :=
            Some (mkSpendReserveData (sr_EndBlock r) (ReserveMinPrice r) (u64 (sr_Amount r - con_Burned cInfo)))]> (SpendReserve (dcb_params i)))
            (dcb_params i)) i)
      end.

Definition processIssuingReqInstruction (inst : list string) : M State unit :=
  instType ← field inst 2;
  if String.eqb instType "refund" then mret tt
  else
    str ← field inst 3;
    iInfo ← lift (Unmarshal (A := IssuingInfo) str);
    s ← get;
    match RaiseReserve (dcb_params (snd s)) !! iss_CurrencyType iInfo with
    | None => mret tt
    | Some None => gopanic
    | Some (Some r) =>
        update_info (fun i => set_dcb (with_raise (<[iss_CurrencyType iInfo :=
          Some (mkRaiseReserveData (rr_EndBlock r) (u64 (rr_Amount r - iss_Amount iInfo)))]> (RaiseReserve (dcb_params i)))
          (dcb_params i)) i)
    end.

Definition sell_gov_tokens (n : Z) (p : GOVParams) : GOVParams :=
  mkGOVParams (SalaryPerTx p) (BasicSalary p) (FeePerKbTx p) (SellingBonds_ p)
    (option_map (fun t => mkSellingGOVTokens (sg_TotalIssue t) (u64 (GOVTokensToSell t - n)) (GOVTokenPrice t) (sg_StartSellingAt t) (sg_SellingWithin t))
       (SellingGOVTokens_ p)) (RefundInfo_ p) (OracleNetwork_ p).
Definition sell_bonds (n : Z) (p : GOVParams) : GOVParams :=
  mkGOVParams (SalaryPerTx p) (BasicSalary p) (FeePerKbTx p)
    (option_map (fun b => mkSellingBonds (BondName b) (BondSymbol b) (sb_TotalIssue b) (u64 (BondsToSell b - n)) (BondPrice b) (sb_Maturity b)
       (Params.BuyBackPrice b) (sb_StartSellingAt b) (sb_SellingWithin b)) (SellingBonds_ p)) (SellingGOVTokens_ p) (RefundInfo_ p) (OracleNetwork_ p).

(** The amount on sale is behind a pointer; the fund that is raised is that of a copy. *)
Definition processBuyGOVTokenReqInstruction (inst : list string) : M State unit :=
  instType ← field inst 2;
  if String.eqb instType "refund" then mret tt
  else
    contentStr ← field inst 3;
    contentBytes ← lift (base64_decode contentStr);
    action ← lift (buygov_of_json (TxStore.text contentBytes));
    update_info (fun i => set_gov (sell_gov_tokens (bsr_Amount (bs_Meta action)) (gov_params i)) i).

Definition processBuyFromGOVReqInstruction (inst : list string) : M State unit :=
  instType ← field inst 2;
  if String.eqb instType "refund" then mret tt
  else
    contentStr ← field inst 3;
    contentBytes ← lift (base64_decode contentStr);
    action ← lift (Unmarshal (A := BuySellReqAction) (TxStore.text contentBytes));
    update_info (fun i => set_gov (sell_bonds (bsr_Amount (bs_Meta action)) (gov_params i)) i).

(** Price and amount are added. *)
Definition processBuyBackReqInstruction (inst : list string) : M State unit :=
  instType ← field inst 2;
  if String.eqb instType "refund" then mret tt
  else
    str ← field inst 3;
    info ← lift (Unmarshal (A := BuyBackInfo) str);
    update_info (fun i => set_salary (u64 (SalaryFund i - u64 (bbi_Value info + bbi_BuyBackPrice info))) i).

(** ** Loans *)

Definition processLoanRequestInstruction (inst : list string) : M State unit :=
  str ← field inst 2;
  action ← lift (Unmarshal (A := LoanRequestAction) str);
  let key := getLoanRequestKeyBeacon (lr_LoanID action) in
  s ← get;
  if bool_decide (is_Some (params_of s !! key)) then throw "LoanID already existed"
  else
    txHash ← lift (match lr_TxID action with Some h => Ok h | None => Panic end);
    put_param key (Hashes.String txHash).

Definition parseLoanResponseValueBeacon (value : option string) : outcome (list LoanRespData) :=
  match value with Some v => Unmarshal v | None => Ok [] end.

Definition processLoanResponseInstruction (inst : list string) : M State unit :=
  str ← field inst 2;
  action ← lift (Unmarshal (A := LoanResponseAction) str);
  s ← get;
  if negb (bool_decide (is_Some (params_of s !! getLoanRequestKeyBeacon (lp_LoanID action)))) then throw "LoanID not existed"
  else
    let key := getLoanResponseKeyBeacon (lp_LoanID action) in
    lrds ← lift (parseLoanResponseValueBeacon (params_of s !! key));
    if existsb (fun r => bool_decide (SenderPubkey r = lp_Sender action)) lrds then throw "Sender already responded"
    else put_param key (Marshal (lrds ++ [mkLoanResp (lp_Sender action) (lp_Response action)])).

(** ** Dividends *)

Definition parseDividendValueBeacon (value : option string) : outcome (list Z) :=
  match value with Some v => Unmarshal v | None => Ok [] end.

(** The number of the latest proposal, and its amount. *)
Definition GetLatestDividendProposal (forDCB : bool) (s : State) : outcome (Z * Z) :=
  match params_of s !! (if forDCB then getDCBDividendKeyBeacon else getGOVDividendKeyBeacon) with
  | None => Ok (0, 0)
  | Some v =>
      match Unmarshal (A := list Z) v with
      | Ok (_ :: _ as l) => Ok (Z.of_nat (length l), default 0 (last l))
      | Panic => Panic
      | _ => Ok (0, 0)
      end
  end.

(** The loop over the shards, whose counter is a byte: it comes back to 0 after 255. [Some]
    is a loop that ends, [None] one that is still running after [fuel] rounds. *)
Fixpoint dividend_loop (fuel : nat) (i dividendID : Z) (tokenID : Hash) (p : gmap string string) (total : Z) : option (option Z) :=
  match fuel with
  | O => None
  | Datatypes.S fuel =>
      if i <=? 255 then
        match p !! getDividendSubmitKeyBeacon i dividendID tokenID with
        | Some v => dividend_loop fuel (u8 (i + 1)) dividendID tokenID p (u64 (total + parseDividendSubmitValueBeacon v))
        | None => Some None
        end
      else Some (Some total)
  end.

(** What the code does once the loop has ended with a total. *)
Definition aggregate_dividend (ds : DividendSubmit) (tok : Hash) (total : Z) : M State unit :=
  s ← get;
  let forDCB := bool_decide (tok = DCBTokenID) in
  latest ← lift (GetLatestDividendProposal forDCB s);
  let fund := if forDCB then BankFund (snd s) else SalaryFund (snd s) in
  let cstToPayout := if fund <? snd latest then fund else snd latest in
  _ ← put_param (getDividendAggregatedKeyBeacon (DividendID ds) tok) (getDividendAggregatedValueBeacon total cstToPayout);
  update_info (fun i => if forDCB then set_bank (u64 (BankFund i - cstToPayout)) i else set_salary (u64 (SalaryFund i - cstToPayout)) i).

(** A loop that runs on is a node that hangs, which is written as a panic. *)
Definition processDividendSubmitInstruction (inst : list string) : M State unit :=
  str ← field inst 2;
  ds ← lift (Unmarshal (A := DividendSubmit) str);
  tok ← lift (match div_TokenID ds with Some h => Ok h | None => Panic end);
  _ ← put_param (getDividendSubmitKeyBeacon (div_ShardID ds) (DividendID ds) tok) (Itoa (TotalTokenAmount ds));
  s ← get;
  match dividend_loop 257 0 (DividendID ds) tok (params_of s) 0 with
  | Some None => mret tt
  | Some (Some total) => aggregate_dividend ds tok total
  | None => gopanic
  end.

(** ** Crowd sales *)

Definition GetSaleData (saleID : bytes) (p : gmap string string) : outcome SaleData :=
  match p !! getSaleDataKeyBeacon saleID with Some v => Unmarshal v | None => Err "SaleID not exist" end.

Definition sale_less (sent paid : Z) (d : SaleData) : SaleData :=
  mkSaleData (SaleID d) (sd_EndBlock d) (BuyingAsset d) (u64 (BuyingAmount d - sent)) (DefaultBuyPrice d)
    (SellingAsset d) (u64 (SellingAmount d - paid)) (DefaultSellPrice d).

Definition processCrowdsalePaymentInstruction (inst : list string) : M State unit :=
  str ← field inst 2;
  payment ← lift (Unmarshal (A := CrowdsalePaymentInstruction) str);
  if UpdateSale payment then
    s ← get;
    saleData ← lift (GetSaleData (cp_SaleID payment) (params_of s));
    put_param (getSaleDataKeyBeacon (cp_SaleID payment)) (Marshal (sale_less (SentAmount payment) (cp_Amount payment) saleData))
  else mret tt.

(** ** Boards and constitutions *)

Definition new_board (height duration : Z) (ins : AcceptBoardIns) (g : GovernorInfo) : GovernorInfo :=
  mkGovernor (u32 (BoardIndex g + 1)) height (u64 (height + duration)) (ins_BoardPaymentAddress ins) (ins_StartAmountToken ins).
Definition UpdateDCBBoard (height : Z) (ins : AcceptBoardIns) : M State unit :=
  update_info (fun i => set_boards (new_board height DurationOfDCBBoard ins (DCBGovernor i)) (GOVGovernor i) i).
Definition UpdateGOVBoard (height : Z) (ins : AcceptBoardIns) : M State unit :=
  update_info (fun i => set_boards (DCBGovernor i) (new_board height DurationOfGOVBoard ins (GOVGovernor i)) i).

Fixpoint store_sales (sales : list SaleData) (p : gmap string string) : gmap string string :=
  match sales with
  | [] => p
  | d :: sales =>
      let key := getSaleDataKeyBeacon (SaleID d) in
      store_sales sales (if bool_decide (is_Some (p !! key)) then p else <[key := Marshal d]> p)
  end.

Definition GetOracleDCBNationalWelfare : Z := 1234.

Definition processUpdateDCBProposalInstruction (height : Z) (ins : UpdateDCBIns) : M State unit :=
  _ ← update_info (fun i => set_dcb_constitution
        (mkDCBConstitution
          (mkConstitutionInfo (u32 (ConstitutionIndex (dcb_Info (DCBConstitution_ i)) + 1)) height
            (spi_ExecuteDuration (upd_SubmitProposalInfo ins)) (spi_Explanation (upd_SubmitProposalInfo ins)) (upd_Voter ins))
          GetOracleDCBNationalWelfare (upd_DCBParams ins)) i);
  _ ← modify (fun s => (store_sales (ListSaleData (upd_DCBParams ins)) (fst s), snd s));
  if 0 <? DividendAmount (upd_DCBParams ins) then
    s ← get;
    amounts ← lift (parseDividendValueBeacon (params_of s !! getDCBDividendKeyBeacon));
    put_param getDCBDividendKeyBeacon (Marshal (amounts ++ [DividendAmount (upd_DCBParams ins)]))
  else mret tt.

Definition processUpdateGOVProposalInstruction (ins : UpdateGOVIns) : M State unit := gopanic.

(** ** The dispatch on the type *)

Definition accept_board (f : AcceptBoardIns -> M State unit) (inst : list string) : M State unit :=
  str ← field inst 2; ins ← lift (Unmarshal (A := AcceptBoardIns) str); f ins.

Definition processStabilityInstruction (height : Z) (inst : list string) : M State unit :=
  action ← field inst 0;
  if String.eqb action "init" then process_init inst
  else if (length inst <? 2)%nat then mret tt
  else
    let isn n := String.eqb action (Itoa n) in
    if isn LoanRequestMeta then processLoanRequestInstruction inst
    else if isn LoanResponseMeta then processLoanResponseInstruction inst
    else if isn AcceptDCBBoardIns then accept_board (UpdateDCBBoard height) inst
    else if isn AcceptGOVBoardIns then accept_board (UpdateGOVBoard height) inst
    else if isn DividendSubmitMeta then processDividendSubmitInstruction inst
    else if isn CrowdsalePaymentMeta then processCrowdsalePaymentInstruction inst
    else if isn BuyFromGOVRequestMeta then processBuyFromGOVReqInstruction inst
    else if isn BuyBackRequestMeta then processBuyBackReqInstruction inst
    else if isn BuyGOVTokenRequestMeta then processBuyGOVTokenReqInstruction inst
    else if isn IssuingRequestMeta then processIssuingReqInstruction inst
    else if isn ContractingRequestMeta then processContractingReqInstruction inst
    else if isn ShardBlockSalaryRequestMeta then processSalaryUpdateInstruction inst
    else mret tt.

Definition zero_constitution : ConstitutionInfo := mkConstitutionInfo 0 0 0 "" (mkVoter (mkPaymentAddress [] []) 0).
Definition zero_governor : GovernorInfo := mkGovernor 0 0 0 [] 0.
Definition zero_info : Info :=
  mkInfo 0 0 (mkGOVConstitution zero_constitution 0 (mkGOVParams 0 0 0 None None None None))
    (mkDCBConstitution zero_constitution 0 (mkDCBParams [] 0 0 0 ∅ ∅ 0 [])) zero_governor zero_governor (mkOracle ∅ 0 0 0 0 0).

#[export] Instance stability_ops : StabilityOps Info :=
  {| process_stability := processStabilityInstruction; stability_bytes := info_gob; empty_stability := zero_info |}.
End Process.

Lemma at_index_ok {A} (l : list A) (i : Z) x : l !! Z.to_nat i = Some x -> 0 <= i -> at_index l i = Ok x.
Proof. intros Hl Hi. unfold at_index. cmp. by rewrite Hl. Qed.

(** ** Dividends *)

Definition all_submitted (dividendID : Z) (tok : Hash) (p : gmap string string) : bool :=
  bool_decide (Forall (fun i => is_Some (p !! getDividendSubmitKeyBeacon i dividendID tok)) (seqZ 0 256)).

Lemma dividend_loop_runs_on dividendID tok p : all_submitted dividendID tok p = true ->
  forall fuel i total, in_u8 i -> dividend_loop fuel i dividendID tok p total = None.
Proof.
  intros Hall%bool_decide_eq_true. rewrite Forall_forall in Hall.
  induction fuel as [|fuel IH]; intros i total Hi; [done|]. cbn [dividend_loop].
  unfold in_u8 in Hi. cmp. destruct (Hall i) as [v ->]; [apply elem_of_seqZ; lia|]. apply IH, u8_range.
Qed.

(** The loop reaches every shard, from whatever shard it starts. *)
Lemma dividend_loop_stops dividendID tok p j : in_u8 j -> p !! getDividendSubmitKeyBeacon j dividendID tok = None ->
  forall (d : nat) i fuel total, in_u8 i -> u8 (i + Z.of_nat d) = j -> (d < fuel)%nat ->
  dividend_loop fuel i dividendID tok p total = Some None.
Proof.
  intros Hj Hn. induction d as [|d IH]; intros i [|fuel] total Hi Hd Hf; try lia; cbn [dividend_loop].
  - replace i with j by (rewrite <- Hd; rewrite Z.add_0_r; by apply u8_id). rewrite Hn. unfold in_u8 in Hj. by cmp.
  - unfold in_u8 in Hi. cmp. destruct (p !! getDividendSubmitKeyBeacon i _ _) as [v|]; [|done]. apply IH; [apply u8_range| |lia].
    rewrite <- Hd. unfold u8. rewrite Zplus_mod_idemp_l. f_equal. lia.
Qed.

Lemma dividend_loop_result dividendID tok p total :
  dividend_loop 257 0 dividendID tok p total = if all_submitted dividendID tok p then None else Some None.
Proof.
  destruct (all_submitted _ _ _) eqn:E; [by apply dividend_loop_runs_on|].
  apply bool_decide_eq_false, not_Forall_Exists, Exists_exists in E as (j & Hj & Hn); [|solve_decision].
  apply elem_of_seqZ in Hj. apply eq_None_not_Some in Hn.
  apply (dividend_loop_stops _ _ _ j) with (d := Z.to_nat j); [unfold in_u8; lia|done|done| |lia].
  rewrite Z.add_0_l, Z2Nat.id by lia. apply u8_id. unfold in_u8. lia.
Qed.

Section Theorems.
Context {json : StabilityJson}.
#[local] Abbreviation State := (gmap string string * Info)%type.

Definition submitted (ds : DividendSubmit) (tok : Hash) (p : gmap string string) : gmap string string :=
  <[getDividendSubmitKeyBeacon (div_ShardID ds) (DividendID ds) tok := Itoa (TotalTokenAmount ds)]> p.

(** C17. A dividend is never paid.  The submission of a shard is recorded and changes nothing
    else: the funds stay and no total is stored.  While a shard is missing the instruction
    returns; once the 256 shards have submitted, the loop over them, whose counter is a byte,
    never ends. *)
Theorem dividends_never_paid (inst : list string) (str : string) (ds : DividendSubmit) (tok : Hash) (s : State) :
  inst !! 2%nat = Some str -> Unmarshal str = Ok ds -> div_TokenID ds = Some tok ->
  let p := submitted ds tok (params_of s) in
  processDividendSubmitInstruction inst s =
    ((p, snd s), if all_submitted (DividendID ds) tok p then Panic else Ok tt) /\
  (all_submitted (DividendID ds) tok p = true ->
   forall fuel, dividend_loop fuel 0 (DividendID ds) tok p 0 = None).
Proof using.
  intros Hi Hu Ht p. split.
  2: { intros Hall fuel. apply dividend_loop_runs_on; [done|]. unfold in_u8. lia. }
  unfold processDividendSubmitInstruction, field. rewrite (at_index_ok inst 2 str) by done. mrun. rewrite Hu, Ht.
  unfold put_param. mrun. cbn [fst snd params_of]. fold p. rewrite dividend_loop_result.
  by destruct (all_submitted _ _ _).
Qed.
End Theorems.

(** ** Concrete codecs *)

(** Codecs on which instructions are evaluated: dividends, purchases, purchases back and the
    salaries of blocks.  The other records have none. *)
Module Codec.

Definition no_codec {A : Type} : Json A.
Proof. refine {| json_ok := fun _ => False; Marshal := fun _ => ""; Unmarshal := fun _ => Err "no codec" |}. done. Defined.

(** A codec through a countable type of the same values. *)
Definition codec_via {A B : Type} `{Countable B} (f : A -> B) (g : B -> A) (Hfg : forall a, g (f a) = a) : Json A.
Proof.
  refine {| json_ok := fun _ => True; Marshal := fun a => text_of (f a); Unmarshal := fun s => b ← of_text s; Ok (g b) |}.
  intros a _. rewrite of_text_of. cbn. by rewrite Hfg.
Defined.

Definition addr_parts (a : PaymentAddress) : bytes * bytes := (Pk a, Tk a).
Definition parts_addr (p : bytes * bytes) : PaymentAddress := mkPaymentAddress (fst p) (snd p).

Definition dividend_codec : Json DividendSubmit :=
  codec_via (fun d => (div_TokenID d, DividendID d, TotalTokenAmount d, div_ShardID d)) (fun '(a, b, c, d) => mkDividend a b c d)
    (fun d => match d with mkDividend _ _ _ _ => eq_refl end).

Definition request_codec : Json BuySellReqAction :=
  codec_via (fun r => let m := bs_Meta r in (bs_TxReqID r, addr_parts (bsr_PaymentAddress m), (bsr_TokenID m, bsr_Amount m, BuyPrice m, bsr_Type m)))
    (fun '(t, a, (i, n, p, k)) => mkBuySellAction t (mkBuySellRequest (parts_addr a) i n p k))
    (fun r => match r with mkBuySellAction _ (mkBuySellRequest (mkPaymentAddress _ _) _ _ _ _) => eq_refl end).

Definition buyback_codec : Json BuyBackInfo :=
  codec_via (fun r => (addr_parts (bbi_PaymentAddress r), bbi_BuyBackPrice r, bbi_Value r, bbi_RequestedTxID r, bbi_TokenID r))
    (fun '(a, p, v, t, k) => mkBuyBackInfo (parts_addr a) p v t k)
    (fun r => match r with mkBuyBackInfo (mkPaymentAddress _ _) _ _ _ _ => eq_refl end).

Definition salary_codec : Json ShardBlockSalaryInfo :=
  codec_via (fun r => (ShardBlockSalary r, ShardBlockFee r, option_map addr_parts (PayToAddress r), si_ShardBlockHeight r))
    (fun '(s, f, a, h) => mkSalaryInfo s f (option_map parts_addr a) h)
    (fun r => match r with mkSalaryInfo _ _ (Some (mkPaymentAddress _ _)) _ => eq_refl | mkSalaryInfo _ _ None _ => eq_refl end).

#[export] Instance codecs : StabilityJson := {|
  buysell_json := request_codec; buygov_of_json := fun s => Unmarshal (Json := request_codec) s;
  buyback_json := no_codec; buyback_info_json := buyback_codec; issuing_json := no_codec; issuing_info_json := no_codec;
  contracting_json := no_codec; contracting_info_json := no_codec; salary_json := salary_codec; loan_request_json := no_codec;
  loan_response_json := no_codec; loan_data_json := no_codec; dividend_json := dividend_codec; dividend_amounts_json := no_codec;
  sale_json := no_codec; crowdsale_payment_json := no_codec; crowdsale_request_json := no_codec; board_json := no_codec;
  update_dcb_json := no_codec; update_gov_json := no_codec; selling_bonds_json := no_codec; info_gob := fun _ => [] |}.
End Codec.

Section Witnesses.
Import Codec.

Definition sample_dividend : DividendSubmit := mkDividend (Some DCBTokenID) 1 1000 255.
Definition all_but_last : gmap string string :=
  list_to_map (map (fun i => (getDividendSubmitKeyBeacon i 1 DCBTokenID, "7")) (seqZ 0 255)).

(** The last of the shards submits. *)
Lemma dividends_never_paid_witness :
  processDividendSubmitInstruction [Itoa 6; Itoa (-2); Marshal sample_dividend] (all_but_last, zero_info) =
    ((submitted sample_dividend DCBTokenID all_but_last, zero_info), Panic) /\
  dividend_loop 4000 0 1 DCBTokenID (submitted sample_dividend DCBTokenID all_but_last) 0 = None.
Proof.
  assert (all_submitted 1 DCBTokenID (submitted sample_dividend DCBTokenID all_but_last) = true) as Hall by (vm_compute; reflexivity).
  destruct (dividends_never_paid [Itoa 6; Itoa (-2); Marshal sample_dividend] (Marshal sample_dividend) sample_dividend DCBTokenID
    (all_but_last, zero_info)) as [H1 H2]; [reflexivity|vm_compute; reflexivity|reflexivity|].
  split; [|exact (H2 Hall 4000%nat)]. rewrite H1. change (DividendID sample_dividend) with 1.
  change (params_of (all_but_last, zero_info)) with all_but_last. rewrite Hall. reflexivity.
Defined.
End Witnesses.
End Stability.
