(* ===== verification/Voting.v ===== *)
(** Votes for the boards and for their constitutions: the records of the store
    (src/database/lvdb: vote.go, parsekeyvote.go, sendvotetoken.go), the instructions that
    carry votes (src/metadata/fromshardins) and those the beacon chain answers with
    (src/metadata/frombeaconins), the change of a board at the end of its term and the
    phases of the encrypted vote (src/blockchain: vote.go, constitution.go, governor.go,
    stability.go, blockchain.go).  What the chain finds of a transaction is an interface. *)

From Stdlib Require Import Ascii String.
From S2P Require Import Prelude GoStr Hash Keys Json Params Committee BeaconState BeaconVerify LevelDB BeaconInsert Stability.

#[local] Open Scope string_scope.
#[local] Open Scope list_scope.
#[local] Open Scope Z_scope.

Module Voting.
Import Hashes Keys Params LevelDB Stability.

Definition i32 (z : Z) : Z := (z + 2 ^ 31) mod 2 ^ 32 - 2 ^ 31.

(** ** Boards *)

Definition DCBBoard : Z := 0.
Definition GOVBoard : Z := 1.
Definition NumberOfGovernors : Z := 3.
Definition EncryptionOnePhraseDuration : Z := 5.
Definition RewardProposalSubmitter : Z := 500.
Definition BasePercentage : Z := 10000.
Definition PercentageBoardSalary : Z := 5.
Definition SumOfVoteDCBToken : Z := 100000000.
Definition ThresholdRatioOfCrisis : Z := 9000.
Definition PubKeyLength : nat := 33.
Definition PaymentAddressLength : nat := 66.

Definition Lv3EncryptionFlag : Z := 0.
Definition Lv2EncryptionFlag : Z := 1.
Definition Lv1EncryptionFlag : Z := 2.
Definition NormalEncryptionFlag : Z := 3.

(** ** Keys (parsekeyvote.go) *)

Definition voteBoardSumPrefix : bytes := bytes_of "votesumboard-".
Definition voteBoardCountPrefix : bytes := bytes_of "votecountboard-".
Definition voteBoardListPrefix : bytes := bytes_of "votelistboard-".
Definition VoteTokenAmountPrefix : bytes := bytes_of "votetokenamount-".
Definition threePhraseCryptoOwnerPrefix : bytes := bytes_of "threephrasecryptoownerprefix-".
Definition threePhraseCryptoSealerPrefix : bytes := bytes_of "threephrasecryptosealerprefix-".
Definition threePhraseVoteValuePrefix : bytes := bytes_of "threephrasevotevalueprefix-".
Definition winningVoterPrefix : bytes := bytes_of "winningvoterprefix-".
Definition encryptFlagPrefix : bytes := bytes_of "encryptFlagPrefix".
Definition encryptionLastBlockHeightPrefix : bytes := bytes_of "encryptionlastblockheightprefix".

Definition GetKeyFromVariadic (args : list bytes) : bytes := concat args.

Fixpoint slices (key : bytes) (lengths : list nat) : list bytes :=
  match lengths with
  | [] => []
  | n :: lengths => take n key :: slices (drop n key) lengths
  end.
Definition ParseKeyToSlice (key : bytes) (lengths : list nat) : outcome (list bytes) :=
  if (length key =? sum_list lengths)%nat then Ok (slices key lengths) else Err "key and length of args not match".

Definition addr_bytes (a : option PaymentAddress) : bytes :=
  match a with Some a => PaymentAddress_Bytes a | None => [] end.
Definition board_key (prefix : bytes) (boardType boardIndex : Z) (rest : list bytes) : bytes :=
  GetKeyFromVariadic (prefix :: [boardType] :: Uint32ToBytes boardIndex :: rest).

Definition GetKeyVoteBoardSum (boardType boardIndex : Z) (candidate : option PaymentAddress) : bytes :=
  board_key voteBoardSumPrefix boardType boardIndex [addr_bytes candidate].
Definition GetKeyVoteBoardCount (boardType boardIndex : Z) (candidate : PaymentAddress) : bytes :=
  board_key voteBoardCountPrefix boardType boardIndex [PaymentAddress_Bytes candidate].
Definition GetKeyVoteBoardList (boardType boardIndex : Z) (candidate voter : option PaymentAddress) : bytes :=
  board_key voteBoardListPrefix boardType boardIndex [addr_bytes candidate; addr_bytes voter].
Definition GetKeyVoteTokenAmount (boardType boardIndex : Z) (addr : PaymentAddress) : bytes :=
  board_key VoteTokenAmountPrefix boardType boardIndex [PaymentAddress_Bytes addr].
Definition tx_bytes (txId : option Hash) : bytes := match txId with Some h => h | None => [] end.
Definition GetKeyThreePhraseCryptoOwner (boardType constitutionIndex : Z) (txId : option Hash) : bytes :=
  board_key threePhraseCryptoOwnerPrefix boardType constitutionIndex [tx_bytes txId].
Definition GetKeyThreePhraseCryptoSealer (boardType constitutionIndex : Z) (txId : option Hash) : bytes :=
  board_key threePhraseCryptoSealerPrefix boardType constitutionIndex [tx_bytes txId].
Definition GetKeyThreePhraseVoteValue (boardType constitutionIndex : Z) (txId : option Hash) : bytes :=
  board_key threePhraseVoteValuePrefix boardType constitutionIndex [tx_bytes txId].
Definition GetKeyWinningVoter (boardType constitutionIndex : Z) : bytes := board_key winningVoterPrefix boardType constitutionIndex [].
Definition GetKeyEncryptFlag (boardType : Z) : bytes := GetKeyFromVariadic [encryptFlagPrefix; [boardType]].
Definition GetKeyEncryptionLastBlockHeight (boardType : Z) : bytes := GetKeyFromVariadic [encryptionLastBlockHeightPrefix; [boardType]].

(** The elements of a key that follow its prefix: board type, index and what remains. *)
Definition board_elements (prefix key : bytes) (rest : list nat) : outcome (Z * Z * list bytes) :=
  elements ← ParseKeyToSlice key (length prefix :: 1%nat :: 4%nat :: rest);
  match elements with
  | _ :: (t :: _) :: idx :: rest => i ← BytesToUint32 idx; Ok (t, i, rest)
  | _ => Panic
  end.

Definition ParseKeyVoteBoardSum (key : bytes) : outcome (Z * Z * PaymentAddress) :=
  r ← board_elements voteBoardSumPrefix key [PaymentAddressLength];
  match snd r with a :: _ => addr ← NewPaymentAddressFromByte a; Ok (fst r, addr) | [] => Panic end.

(** Candidate and voter are taken to be of 33 bytes each. *)
Definition ParseKeyVoteBoardList (key : bytes) : outcome (Z * Z * bytes * PaymentAddress) :=
  r ← board_elements voteBoardListPrefix key [PubKeyLength; PubKeyLength];
  match snd r with
  | c :: v :: _ => addr ← NewPaymentAddressFromByte v; Ok (fst r, c, addr)
  | _ => Panic
  end.

(** The last part is read as a hash, unless the key is not as long as a part of 33 bytes
    would make the last part alone: then it has to be empty. *)
Definition CheckLength (key : bytes) (lengths : list nat) : bool :=
  negb (length key =? default 0 (last lengths))%nat.
Definition ParseKeyThreePhraseCryptoSealer (key : bytes) : outcome (Z * Z * option Hash) :=
  let n := if CheckLength key [length threePhraseCryptoSealerPrefix; 1%nat; 4%nat; PubKeyLength] then 0%nat else PubKeyLength in
  r ← board_elements threePhraseCryptoSealerPrefix key [n];
  match snd r with
  | [] :: _ => Ok (fst r, None)
  | d :: _ => h ← NewHash d; Ok (fst r, Some h)
  | [] => Panic
  end.

(** ** Instructions *)

Record VoteProposalData := mkVoteProposal { ProposalTxID : Hash; vp_AmountOfVote : Z; vp_ConstitutionIndex : Z }.
Definition VoteProposalData_ToBytes (d : VoteProposalData) : bytes :=
  ProposalTxID d ++ Uint32ToBytes (u32 (vp_AmountOfVote d)) ++ Uint32ToBytes (vp_ConstitutionIndex d).

(** A slice that is too short panics; so does a hash of the wrong length, which is nil. *)
Definition NewVoteProposalDataFromBytes (b : bytes) : outcome VoteProposalData :=
  if (length b <? 8)%nat then Panic
  else
    let n := (length b - 8)%nat in
    match NewHash (take n b) with
    | Ok h =>
        amount ← BytesToUint32 (drop n b); idx ← BytesToUint32 (drop (n + 4) b);
        Ok (mkVoteProposal h (i32 amount) idx)
    | _ => Panic
    end.

(** What a shard sends: a vote for a candidate, a sealed vote, an opened vote. *)
Record VoteBoardIns := mkVoteBoard {
  vb_BoardType : Z; CandidatePaymentAddress : PaymentAddress; VoterPaymentAddress : PaymentAddress;
  vb_BoardIndex : Z; vb_AmountOfVote : Z
}.
Record SealedVoteIns := mkSealedVote { sv_BoardType : Z; sv_Lv3TxID : Hash }.
Record NormalVoteIns := mkNormalVote { nv_BoardType : Z; nv_Lv3TxID : Hash; VoteProposal : VoteProposalData }.

(** What the beacon answers. *)
Record SendInitVote := mkSendInit { si_Amount : Z; ReceiverPaymentAddress : PaymentAddress }.
Record SendBackVote := mkSendBack { sb_PaymentAddress : PaymentAddress; sb_Amount : Z; PropertyID : Hash }.
Record AcceptProposalIns := mkAcceptProposal { ap_BoardType : Z; ap_TxID : Hash; ap_Voter : Voter; ap_ShardID : Z }.

Inductive InstructionFromBeacon : Type :=
  | AcceptBoard (boardType : Z) (ins : AcceptBoardIns)
  | SendInitVoteToken (boardType : Z) (ins : SendInitVote)
  | SendBackTokenVoteFail (ins : SendBackVote)
  | ShareRewardOldBoard (chair voter : PaymentAddress) (boardType amountOfCoin amountOfToken : Z)
  | AcceptProposal (ins : AcceptProposalIns)
  | PunishDecrypt (boardType : Z) (addr : PaymentAddress)
  | RewardProposalSubmitterIns (receiver : PaymentAddress) (amount : Z)
  | RewardProposalWinnerIns (addr : PaymentAddress) (prize : Z)
  | SetEncryptionLastBlockIns (boardType height : Z)
  | SetEncryptionFlagIns (boardType flag : Z).

Class VotingJson : Type := {
  vote_board_json :: Json VoteBoardIns;
  sealed_vote_json :: Json SealedVoteIns;
  normal_vote_json :: Json NormalVoteIns;
  send_init_json :: Json SendInitVote;
  send_back_json :: Json SendBackVote;
  accept_proposal_json :: Json AcceptProposalIns
}.

Definition SendInitDCBVoteTokenMeta : Z := 45.
Definition SendInitGOVVoteTokenMeta : Z := 46.
Definition ShareRewardOldDCBBoardMeta : Z := 60.
Definition ShareRewardOldGOVBoardMeta : Z := 61.
Definition SendBackTokenVoteFailMeta : Z := 64.
Definition AcceptDCBProposalIns : Z := 111.
Definition AcceptGOVProposalIns : Z := 113.

Definition GetShardIDFromPaymentAddressBytes (a : PaymentAddress) : outcome Z :=
  match last (Pk a) with Some b => Ok (GetShardIDFromLastByte b) | None => Panic end.

Section Format.
Context {json : StabilityJson} {vjson : VotingJson}.

Definition by_board {A} (boardType : Z) (dcb gov : A) : A := if boardType =? DCBBoard then dcb else gov.

(** The fields of [TxShareRewardOldBoardMetadataIns] are not exported: its JSON is empty.  The
    last five kinds are not implemented. *)
Definition GetStringFormat (ins : InstructionFromBeacon) : outcome (list string) :=
  match ins with
  | AcceptBoard b ins => Ok [Itoa (by_board b AcceptDCBBoardIns AcceptGOVBoardIns); Itoa (-1); Marshal ins]
  | SendInitVoteToken b ins =>
      shardID ← GetShardIDFromPaymentAddressBytes (ReceiverPaymentAddress ins);
      Ok [Itoa (by_board b SendInitDCBVoteTokenMeta SendInitGOVVoteTokenMeta); Itoa shardID; Marshal ins]
  | SendBackTokenVoteFail ins =>
      shardID ← GetShardIDFromPaymentAddressBytes (sb_PaymentAddress ins);
      Ok [Itoa SendBackTokenVoteFailMeta; Itoa shardID; Marshal ins]
  | ShareRewardOldBoard _ voter b _ _ =>
      shardID ← GetShardIDFromPaymentAddressBytes voter;
      Ok [Itoa (by_board b ShareRewardOldDCBBoardMeta ShareRewardOldGOVBoardMeta); Itoa shardID; "{}"]
  | AcceptProposal ins =>
      Ok [Itoa (by_board (ap_BoardType ins) AcceptDCBProposalIns AcceptGOVProposalIns); Itoa (ap_ShardID ins); Marshal ins]
  | _ => Panic
  end.

Fixpoint string_formats (l : list InstructionFromBeacon) : outcome (list (list string)) :=
  match l with
  | [] => Ok []
  | ins :: l => s ← GetStringFormat ins; rest ← string_formats l; Ok (s :: rest)
  end.
End Format.

(** ** The records of the store (vote.go) *)

Section Store.
Context {S : Type} {lvdb : LevelDB S}.

Definition ignoring {A} (m : M S A) : M S unit := fun s =>
  match m s with (s', Panic) => (s', Panic) | (s', _) => (s', Ok tt) end.
(** [v, err := ...; if err != nil { v = d }]. *)
Definition or_default {A} (d : A) (m : M S A) : M S A := fun s =>
  match m s with (s', Err _) => (s', Ok d) | r => r end.
Definition or_fail {A} (o : outcome A) : outcome A := match o with Err _ => Panic | o => o end.

Definition AddVoteBoard (boardType boardIndex : Z) (voter candidate : PaymentAddress) (amount : Z) : M S unit :=
  let key := GetKeyVoteBoardSum boardType boardIndex (Some candidate) in
  currentVoteInBytes ← or_default (Uint64ToBytes 0) (Get key);
  currentVote ← lift (BytesToUint64 currentVoteInBytes);
  _ ← or_err UnexpectedError (Put key (Uint64ToBytes (u64 (currentVote + amount))));
  let key := GetKeyVoteBoardCount boardType boardIndex candidate in
  currentCountInBytes ← or_default (Uint32ToBytes 0) (Get key);
  currentCount ← lift (BytesToUint32 currentCountInBytes);
  _ ← or_err UnexpectedError (Put key (Uint32ToBytes (u32 (currentCount + 1))));
  let key := GetKeyVoteBoardList boardType boardIndex (Some candidate) (Some voter) in
  oldAmountInByte ← or_default (Uint64ToBytes 0) (Get key);
  oldAmount ← lift (BytesToUint64 oldAmountInByte);
  Put key (Uint64ToBytes (u64 (oldAmount + amount))).

Record CandidateElement := mkCandidate { cand_PaymentAddress : PaymentAddress; VoteAmount : Z; NumberOfVote : Z }.

(** [bytes.Compare(a, b) == -1] is [bytes_greater b a]. *)
Definition candidate_less (a b : CandidateElement) : bool :=
  (VoteAmount a <? VoteAmount b) ||
  ((VoteAmount a =? VoteAmount b) && (NumberOfVote a <? NumberOfVote b)) ||
  ((VoteAmount a =? VoteAmount b) && (NumberOfVote a =? NumberOfVote b) &&
   bytes_greater (PaymentAddress_Bytes (cand_PaymentAddress b)) (PaymentAddress_Bytes (cand_PaymentAddress a))).

(** [sort.Sort]: the order is total on candidates of different addresses. *)
Fixpoint insert_candidate (c : CandidateElement) (l : list CandidateElement) : list CandidateElement :=
  match l with
  | [] => [c]
  | d :: l' => if candidate_less d c then d :: insert_candidate c l' else c :: l
  end.
Definition sort_candidates (l : list CandidateElement) : list CandidateElement := foldr insert_candidate [] l.

(** The address is used before the error is looked at. *)
Fixpoint read_candidates (boardType boardIndex : Z) (keys : list bytes) : M S (list CandidateElement) :=
  match keys with
  | [] => mret []
  | key :: keys =>
      r ← lift (or_fail (ParseKeyVoteBoardSum key));
      countValue ← Get (GetKeyVoteBoardCount boardType boardIndex (snd r));
      v ← Get key;
      value ← lift (BytesToUint64 v);
      count ← lift (BytesToUint32 countValue);
      rest ← read_candidates boardType boardIndex keys;
      mret (mkCandidate (snd r) value count :: rest)
  end.

Definition GetTopMostVoteGovernor (boardType boardIndex : Z) : M S (list CandidateElement) :=
  keys ← iterate (GetKeyVoteBoardSum boardType boardIndex None);
  candidates ← read_candidates boardType boardIndex keys;
  let sorted := sort_candidates candidates in
  if Z.of_nat (length sorted) <? NumberOfGovernors then throw "not enough Candidate"
  else mret (drop (length sorted - Z.to_nat NumberOfGovernors) sorted).

Definition AddVoteLv3ProposalDB (boardType constitutionIndex : Z) (txID : Hash) : M S unit :=
  let keySealer := GetKeyThreePhraseCryptoSealer boardType constitutionIndex (Some txID) in
  ok ← HasValue keySealer;
  _ ← fail_if ok "duplicate txid";
  _ ← ignoring (Put keySealer (Uint32ToBytes 0));
  let keyOwner := GetKeyThreePhraseCryptoOwner boardType constitutionIndex (Some txID) in
  ok ← HasValue keyOwner;
  _ ← fail_if ok "duplicate txid";
  ignoring (Put keyOwner (Uint32ToBytes 0)).

(** The count is refused where there is one, and read where there is none. *)
Definition AddVoteLv1or2ProposalDB (boardType constitutionIndex : Z) (lv3TxID : Hash) : M S unit :=
  let keySealer := GetKeyThreePhraseCryptoSealer boardType constitutionIndex (Some lv3TxID) in
  ok ← HasValue keySealer;
  _ ← fail_if ok "duplicate txid";
  valueInBytes ← Get keySealer;
  value ← lift (BytesToUint32 valueInBytes);
  ignoring (Put keySealer (Uint32ToBytes (u32 (value + 1)))).

Definition AddVoteNormalProposalFromSealerDB (boardType constitutionIndex : Z) (txID : Hash) (voteValue : bytes) : M S unit :=
  _ ← AddVoteLv1or2ProposalDB boardType constitutionIndex txID;
  ignoring (Put (GetKeyThreePhraseVoteValue boardType constitutionIndex (Some txID)) voteValue).

Definition AddVoteNormalProposalFromOwnerDB (boardType constitutionIndex : Z) (txID : Hash) (voteValue : bytes) : M S unit :=
  let keyOwner := GetKeyThreePhraseCryptoOwner boardType constitutionIndex (Some txID) in
  ok ← HasValue keyOwner;
  _ ← fail_if ok "duplicate txid";
  _ ← ignoring (Put keyOwner (Uint32ToBytes 1));
  ignoring (Put (GetKeyThreePhraseVoteValue boardType constitutionIndex (Some txID)) voteValue).

Definition GetVoteTokenAmount (boardType boardIndex : Z) (addr : PaymentAddress) : M S Z :=
  value ← Get (GetKeyVoteTokenAmount boardType boardIndex addr); lift (BytesToUint32 value).

Definition SetVoteTokenAmount (boardType boardIndex : Z) (addr : PaymentAddress) (newAmount : Z) : M S unit :=
  let key := GetKeyVoteTokenAmount boardType boardIndex addr in
  ok ← HasValue key;
  _ ← (if ok : bool then mret tt else ignoring (Put key (Uint32ToBytes 0)));
  Put key (Uint32ToBytes newAmount).

Definition SendInitVoteToken_db (boardType boardIndex : Z) (addr : PaymentAddress) (amount : Z) : M S unit :=
  oldAmount ← or_default 0 (GetVoteTokenAmount boardType boardIndex addr);
  or_err UnexpectedError (SetVoteTokenAmount boardType boardIndex addr (u32 (oldAmount + amount))).

Definition GetEncryptFlag (boardType : Z) : M S Z :=
  value ← Get (GetKeyEncryptFlag boardType);
  match value with [flag] => mret flag | _ => throw "wrong flag format" end.
Definition SetEncryptFlag (boardType flag : Z) : M S unit := ignoring (Put (GetKeyEncryptFlag boardType) [flag]).
Definition GetEncryptionLastBlockHeight (boardType : Z) : M S Z :=
  value ← Get (GetKeyEncryptionLastBlockHeight boardType); lift (BytesToUint64 value).
Definition SetEncryptionLastBlockHeight (boardType height : Z) : M S unit :=
  ignoring (Put (GetKeyEncryptionLastBlockHeight boardType) (Uint64ToBytes height)).

Definition TakeVoteTokenFromWinner (boardType boardIndex : Z) (voter : PaymentAddress) (amountOfVote : Z) : M S unit :=
  let key := GetKeyVoteTokenAmount boardType boardIndex voter in
  currentAmountInByte ← Get key;
  currentAmount ← lift (BytesToUint32 currentAmountInByte);
  ignoring (Put key (Uint32ToBytes (u32 (currentAmount - amountOfVote)))).

Definition SetNewProposalWinningVoter (boardType constitutionIndex : Z) (voter : PaymentAddress) : M S unit :=
  ignoring (Put (GetKeyWinningVoter boardType constitutionIndex) (PaymentAddress_Bytes voter)).

(** The keys from [start] on and below [limit], in order. *)
Definition iterate_range (start limit : bytes) : M S (list bytes) := fun s =>
  (s, Ok (foldr insert_key [] (List.filter (fun k => bytes_leb start k && negb (bytes_leb limit k)) (map_to_list (lv_content s)).*1))).

Fixpoint parse_voters (keys : list bytes) : outcome (list PaymentAddress) :=
  match keys with
  | [] => Ok []
  | key :: keys => r ← or_fail (ParseKeyVoteBoardList key); rest ← parse_voters keys; Ok (snd r :: rest)
  end.

Definition GetBoardVoterList (boardType : Z) (candidate : PaymentAddress) (boardIndex : Z) : M S (list PaymentAddress) :=
  let start := GetKeyVoteBoardList boardType boardIndex (Some candidate) None in
  keys ← iterate_range start (BytesPlusOne start);
  lift (parse_voters keys).
End Store.

(** ** The chain *)

(** What the chain finds of a transaction ([GetTransactionByHash]) and of its metadata: the
    sealers of a sealed vote, or a panic, and the submitter of a proposal, or an error. *)
Class VoteLookup (S : Type) : Type := {
  sealer_addresses : Z -> S -> option Hash -> outcome (list PaymentAddress);
  proposal_submitter : Z -> S -> Hash -> outcome PaymentAddress
}.

Definition ProposalVote : Type := Hash * Z * Z.
Definition ProposalVote_Greater (a b : ProposalVote) : bool :=
  let '(ha, aa, na) := a in let '(hb, ab, nb) := b in
  (ab <? aa) || ((aa =? ab) && (nb <? na)) || ((aa =? ab) && (na =? nb) && bytes_greater ha hb).

Definition board (boardType : Z) (i : Info) : GovernorInfo := by_board boardType (DCBGovernor i) (GOVGovernor i).
Definition constitution (boardType : Z) (i : Info) : ConstitutionInfo :=
  by_board boardType (dcb_Info (DCBConstitution_ i)) (gov_Info (GOVConstitution_ i)).
Definition GetCurrentBoardIndex (boardType : Z) (i : Info) : Z := BoardIndex (board boardType i).
Definition GetConstitutionIndex (boardType : Z) (i : Info) : Z := ConstitutionIndex (constitution boardType i).

Section Chain.
Context {json : StabilityJson} {vjson : VotingJson} {S : Type} {lvdb : LevelDB S} {lookup : VoteLookup S}.
(** The orders in which the maps are visited. *)
Context (visit_table : gmap Hash (gmap bytes Z) -> list (Hash * gmap bytes Z))
  (visit_amounts : gmap bytes Z -> list (bytes * Z)).
(** The best state: its [StabilityInfo] and the height of its block. *)
Context (i : Info) (height : Z).

(** ** A new board *)

Definition getAmountOfVoteToken (sumAmount voteAmount : Z) : Z := u64 (voteAmount * SumOfVoteDCBToken) / sumAmount.

Definition createListSendInitVoteTokenTxIns (boardType : Z) (newBoardList : list CandidateElement) (sum : Z) : list InstructionFromBeacon :=
  map (fun c => SendInitVoteToken boardType (mkSendInit (u32 (getAmountOfVoteToken sum (VoteAmount c))) (cand_PaymentAddress c))) newBoardList.

Fixpoint send_back (propertyID : Hash) (newBoard : list bytes) (currentBoardIndex : Z) (keys : list bytes) : M S (list InstructionFromBeacon) :=
  match keys with
  | [] => mret []
  | key :: keys =>
      v ← Get key;
      amount ← lift (BytesToUint64 v);
      let r := match ParseKeyVoteBoardList key with Ok (_, idx, c, voter) => Some (idx, c, voter) | _ => None end in
      let boardIndex := match r with Some (idx, _, _) => idx | None => 0 end in
      let candidate := match r with Some (_, c, _) => c | None => [] end in
      if (boardIndex <? currentBoardIndex) || negb (bool_decide (candidate ∈ newBoard)) then
        voter ← lift (match r with Some (_, _, voter) => Ok voter | None => Panic end);
        rest ← send_back propertyID newBoard currentBoardIndex keys;
        mret (SendBackTokenVoteFail (mkSendBack voter amount propertyID) :: rest)
      else send_back propertyID newBoard currentBoardIndex keys
  end.

(** The index is that of the DCB board, whichever board it is for. *)
Definition createSendBackTokenAfterVoteFailIns (boardType : Z) (newBoard : list PaymentAddress) : M S (list InstructionFromBeacon) :=
  let currentBoardIndex := GetCurrentBoardIndex DCBBoard i in
  keys ← iterate_range (GetKeyVoteBoardList boardType 0 None None) (GetKeyVoteBoardList boardType (u32 (currentBoardIndex + 1)) None None);
  send_back (by_board boardType DCBTokenID GOVTokenID) (map PaymentAddress_Bytes newBoard) currentBoardIndex keys.

(** The fund of either board is the bank's. *)
Definition GetCoinTermReward : Z := u64 (BankFund i * PercentageBoardSalary) / BasePercentage.

Fixpoint share_among (boardType boardIndex : Z) (chair : PaymentAddress) (coins tokens totalVoteAmount : Z) (voters : list PaymentAddress) :
    M S (list InstructionFromBeacon) :=
  match voters with
  | [] => mret []
  | voter :: voters =>
      v ← or_default [] (Get (GetKeyVoteBoardList boardType boardIndex (Some chair) (Some voter)));
      amountOfVote ← lift (BytesToUint64 v);
      if totalVoteAmount =? 0 then gopanic
      else
        rest ← share_among boardType boardIndex chair coins tokens totalVoteAmount voters;
        mret (ShareRewardOldBoard chair voter boardType (u64 (amountOfVote * coins) / totalVoteAmount)
                (u64 (amountOfVote * tokens) / totalVoteAmount) :: rest)
  end.

Definition CreateShareRewardOldBoardIns (boardType : Z) (chair : PaymentAddress) (coins tokens totalVoteAmount : Z) : M S (list InstructionFromBeacon) :=
  voterList ← GetBoardVoterList boardType chair (GetCurrentBoardIndex boardType i);
  share_among boardType (GetCurrentBoardIndex boardType i) chair coins tokens totalVoteAmount voterList.

Fixpoint board_amounts (boardType : Z) (addrs : list PaymentAddress) (amounts : gmap bytes Z) (sum : Z) : M S (gmap bytes Z * Z) :=
  match addrs with
  | [] => mret (amounts, sum)
  | a :: addrs =>
      amount ← or_default 0 (GetVoteTokenAmount boardType (GetCurrentBoardIndex boardType i) a);
      board_amounts boardType addrs (<[PaymentAddress_Bytes a := amount]> amounts) (u64 (sum + amount))
  end.

Fixpoint share_rewards (boardType sum : Z) (entries : list (bytes * Z)) : M S (list InstructionFromBeacon) :=
  match entries with
  | [] => mret []
  | (payment, voteAmount) :: entries =>
      let percentageReward := u64 (voteAmount * BasePercentage) / sum in
      let amountTokenReward := u64 (StartAmountToken (board boardType i) * percentageReward) / BasePercentage in
      let amountCoinReward := u64 (GetCoinTermReward * percentageReward) / BasePercentage in
      chair ← lift (NewPaymentAddressFromByte payment);
      here ← CreateShareRewardOldBoardIns boardType chair amountCoinReward amountTokenReward voteAmount;
      rest ← share_rewards boardType sum entries;
      mret (here ++ rest)
  end.

Definition createSendRewardOldBoardIns (boardType : Z) : M S (list InstructionFromBeacon) :=
  r ← board_amounts boardType (BoardPaymentAddress (board boardType i)) ∅ 0;
  share_rewards boardType (if snd r =? 0 then 1 else snd r) (visit_amounts (fst r)).

Definition CreateUpdateNewGovernorInstruction (boardType : Z) : M S (list InstructionFromBeacon) :=
  newBoardList ← GetTopMostVoteGovernor boardType (u32 (GetCurrentBoardIndex boardType i + 1));
  if bool_decide (newBoardList = []) then throw "not enough candidate"
  else
    let newBoardList := sort_candidates newBoardList in
    let addrs := map cand_PaymentAddress newBoardList in
    let sum := fold_left (fun s c => u64 (s + VoteAmount c)) newBoardList 0 in
    let sumOfVote := if sum =? 0 then 1 else sum in
    sendBack ← createSendBackTokenAfterVoteFailIns boardType addrs;
    rewards ← createSendRewardOldBoardIns boardType;
    mret (AcceptBoard boardType (mkAcceptBoard addrs sumOfVote) ::
            createListSendInitVoteTokenTxIns boardType newBoardList sumOfVote ++ sendBack ++ rewards).

Definition neededNewGovernor (boardType : Z) : bool := EndBlock (board boardType i) =? u64 (height + 1).

(** ** A new constitution *)

Definition welfare (boardType : Z) : Z :=
  by_board boardType (CurrentDCBNationalWelfare (DCBConstitution_ i)) (CurrentGOVNationalWelfare (GOVConstitution_ i)).

Definition NeedToEnterEncryptionPhrase (boardType : Z) : M S bool :=
  let threshold := Z.quot (i32 (welfare boardType * ThresholdRatioOfCrisis)) BasePercentage in
  let c := constitution boardType i in
  let endedOfConstitution := u64 (StartedBlockHeight c + const_ExecuteDuration c) in
  let pivotOfStart := u64 (endedOfConstitution - 3 * EncryptionOnePhraseDuration) in
  encryptFlag ← or_default 0 (GetEncryptFlag boardType);
  mret (((GetOracleDCBNationalWelfare <? threshold) || (pivotOfStart =? height)) && (encryptFlag =? Lv3EncryptionFlag)).

Definition phase_over (flag thisBlockHeight boardType : Z) : M S bool :=
  lastEncryptBlockHeight ← or_default 0 (GetEncryptionLastBlockHeight boardType);
  encryptFlag ← or_default 0 (GetEncryptFlag boardType);
  mret ((thisBlockHeight =? u64 (lastEncryptBlockHeight + EncryptionOnePhraseDuration)) && (encryptFlag =? flag)).
Definition NeedEnterEncryptLv1 : Z -> M S bool := phase_over Lv2EncryptionFlag height.
Definition NeedEnterEncryptNormal : Z -> M S bool := phase_over Lv1EncryptionFlag height.
Definition readyNewConstitution : Z -> M S bool := phase_over NormalEncryptionFlag (u64 (height + 1)).

Definition punish (boardType : Z) (sealers : list PaymentAddress) (n : Z) : outcome InstructionFromBeacon :=
  match sealers !! Z.to_nat n with Some a => Ok (PunishDecrypt boardType a) | None => Panic end.

(** One sealed vote: who is punished, and what is added to the table. *)
Definition count_sealed (boardType constitutionIndex : Z) (txID : option Hash) (table : gmap Hash (gmap bytes Z)) :
    M S (list InstructionFromBeacon * gmap Hash (gmap bytes Z)) :=
  valueOwnerInByte ← Get (GetKeyThreePhraseCryptoOwner boardType constitutionIndex txID);
  valueOwner ← lift (BytesToUint32 valueOwnerInByte);
  s ← get;
  sealers ← lift (or_fail (sealer_addresses boardType s txID));
  owner ← (if valueOwner =? 1 then mret [] else p ← lift (punish boardType sealers 0); mret [p]);
  valueSealerInByte ← Get (GetKeyThreePhraseCryptoSealer boardType constitutionIndex txID);
  valueSealer ← lift (BytesToUint32 valueSealerInByte);
  sealer ← (if valueSealer =? 3 then mret [] else p ← lift (punish boardType sealers valueSealer); mret [p]);
  voter ← lift (match sealers with a :: _ => Ok a | [] => Panic end);
  valueVote ← Get (GetKeyThreePhraseVoteValue boardType constitutionIndex txID);
  data ← lift (NewVoteProposalDataFromBytes valueVote);
  let row := default ∅ (table !! ProposalTxID data) in
  let b := PaymentAddress_Bytes voter in
  mret (owner ++ sealer, <[ProposalTxID data := <[b := i32 (default 0 (row !! b) + vp_AmountOfVote data)]> row]> table).

Fixpoint count_votes (boardType : Z) (keys : list bytes) (res : list InstructionFromBeacon) (table : gmap Hash (gmap bytes Z)) :
    M S (list InstructionFromBeacon * gmap Hash (gmap bytes Z)) :=
  match keys with
  | [] => mret (res, table)
  | key :: keys =>
      k ← lift (ParseKeyThreePhraseCryptoSealer key);
      let '(_, constitutionIndex, txID) := k in
      if negb (constitutionIndex =? u32 (GetConstitutionIndex boardType i + 1)) then
        _ ← ignoring (Delete key);
        count_votes boardType keys res table
      else
        r ← count_sealed boardType constitutionIndex txID table;
        count_votes boardType keys (res ++ fst r) (snd r)
  end.

(** The range ends at the index of the board, not at that of the constitution. *)
Definition BuildVoteTableAndPunishTransaction (boardType : Z) : M S (list InstructionFromBeacon * gmap Hash (gmap bytes Z)) :=
  keys ← iterate_range (GetKeyThreePhraseCryptoSealer boardType 0 None)
           (GetKeyThreePhraseCryptoSealer boardType (u32 (1 + GetCurrentBoardIndex boardType i)) None);
  count_votes boardType keys [] ∅.

Definition no_voter : Voter := mkVoter (mkPaymentAddress [] []) 0.

Fixpoint count_proposal (boardType : Z) (entries : list (bytes * Z)) (best : Voter) (amount count : Z) : M S (Voter * Z * Z) :=
  match entries with
  | [] => mret (best, amount, count)
  | (addr, n) :: entries =>
      voter ← lift (NewPaymentAddressFromByte addr);
      voterToken ← or_default 0 (GetVoteTokenAmount boardType (GetCurrentBoardIndex boardType i) voter);
      if (i32 voterToken <? n) || (n <? 0) then count_proposal boardType entries best amount count
      else
        let tVoter := mkVoter voter n in
        count_proposal boardType entries (if Params.Greater tVoter best then tVoter else best) (i64 (amount + n)) (u32 (count + 1))
  end.

Fixpoint best_proposal (boardType : Z) (table : list (Hash * gmap bytes Z)) (best : ProposalVote) (bestVoter : Voter) : M S (ProposalVote * Voter) :=
  match table with
  | [] => mret (best, bestVoter)
  | (txId, listVoter) :: table =>
      r ← count_proposal boardType (visit_amounts listVoter) no_voter 0 0;
      let '(voter, amount, count) := r in
      let t := (txId, i64 (amount - AmountOfVote voter), count) in
      if ProposalVote_Greater t best then best_proposal boardType table t voter else best_proposal boardType table best bestVoter
  end.

(** The error of the table is dropped, with the table.  The submitter, whose address is never
    nil, is not rewarded. *)
Definition createAcceptConstitutionAndPunishTxAndRewardSubmitter (boardType : Z) : M S (list InstructionFromBeacon) :=
  r ← or_default ([], ∅) (BuildVoteTableAndPunishTransaction boardType);
  b ← best_proposal boardType (visit_table (snd r)) (zero_hash, 0, 0) no_voter;
  let '((txId, _, _), voter) := b in
  s ← get;
  _ ← lift (proposal_submitter boardType s txId);
  mret (fst r ++ [AcceptProposal (mkAcceptProposal boardType txId voter 1)]).

Definition createRewardProposalWinnerIns (boardType : Z) : InstructionFromBeacon :=
  RewardProposalWinnerIns (voter_PaymentAddress (const_Voter (constitution boardType i))) (u32 (Z.max GetOracleDCBNationalWelfare 0)).

Definition CreateUpdateEncryptPhraseAndRewardConstitutionIns (boardType : Z) : M S (list InstructionFromBeacon) :=
  let set flag := [SetEncryptionLastBlockIns boardType height; SetEncryptionFlagIns boardType flag] in
  b ← NeedToEnterEncryptionPhrase boardType;
  if b : bool then mret (set Lv2EncryptionFlag) else
  b ← NeedEnterEncryptLv1 boardType;
  if b : bool then mret (set Lv1EncryptionFlag) else
  b ← NeedEnterEncryptNormal boardType;
  if b : bool then mret (set NormalEncryptionFlag) else
  b ← readyNewConstitution boardType;
  if b : bool then
    newIns ← createAcceptConstitutionAndPunishTxAndRewardSubmitter boardType;
    mret (newIns ++ createRewardProposalWinnerIns boardType :: set Lv3EncryptionFlag)
  else mret (set 0).

(** Nothing calls it. *)
Definition SetEncryptPhrase (boardType : Z) : M S unit :=
  let set flag := _ ← SetEncryptionLastBlockHeight boardType height; SetEncryptFlag boardType flag in
  b ← NeedToEnterEncryptionPhrase boardType;
  if b : bool then set Lv2EncryptionFlag else
  b ← NeedEnterEncryptLv1 boardType;
  if b : bool then set Lv1EncryptionFlag else
  b ← NeedEnterEncryptNormal boardType;
  if b : bool then set NormalEncryptionFlag else mret tt.

(** The instructions of the constitutions come after those that are returned were made. *)
Definition generateVotingInstructionWOIns : M S (list (list string)) :=
  dcb ← (if neededNewGovernor DCBBoard then CreateUpdateNewGovernorInstruction DCBBoard else mret []);
  gov ← (if neededNewGovernor GOVBoard then CreateUpdateNewGovernorInstruction GOVBoard else mret []);
  instructionsString ← lift (string_formats (dcb ++ gov));
  _ ← CreateUpdateEncryptPhraseAndRewardConstitutionIns DCBBoard;
  _ ← CreateUpdateEncryptPhraseAndRewardConstitutionIns GOVBoard;
  mret instructionsString.

(** ** The votes of the shards (stability.go) *)

Definition AddVoteDCBBoard (inst : string) : M S unit :=
  ins ← lift (Unmarshal (A := VoteBoardIns) inst);
  AddVoteBoard DCBBoard (u32 (GetCurrentBoardIndex DCBBoard i + 1)) (VoterPaymentAddress ins) (CandidatePaymentAddress ins) (vb_AmountOfVote ins).
Definition AddVoteGOVBoard (inst : string) : M S unit :=
  ins ← lift (Unmarshal (A := VoteBoardIns) inst);
  AddVoteBoard GOVBoard (u32 (GetCurrentBoardIndex GOVBoard i + 1)) (VoterPaymentAddress ins) (CandidatePaymentAddress ins) (vb_AmountOfVote ins).

(** The instruction is used before the error is looked at. *)
Definition next_constitution (boardType : Z) : Z := u32 (GetConstitutionIndex boardType i + 1).
Definition AddVoteLv1or2Proposal (inst : string) : M S unit :=
  ins ← lift (or_fail (Unmarshal (A := SealedVoteIns) inst));
  AddVoteLv1or2ProposalDB (sv_BoardType ins) (next_constitution (sv_BoardType ins)) (sv_Lv3TxID ins).
Definition AddVoteLv3Proposal (inst : string) : M S unit :=
  ins ← lift (or_fail (Unmarshal (A := SealedVoteIns) inst));
  AddVoteLv3ProposalDB (sv_BoardType ins) (next_constitution (sv_BoardType ins)) (sv_Lv3TxID ins).
Definition AddNormalVoteProposalFromSealer (inst : string) : M S unit :=
  ins ← lift (or_fail (Unmarshal (A := NormalVoteIns) inst));
  AddVoteNormalProposalFromSealerDB (nv_BoardType ins) (next_constitution (nv_BoardType ins)) (nv_Lv3TxID ins)
    (VoteProposalData_ToBytes (VoteProposal ins)).
Definition AddNormalVoteProposalFromOwner (inst : string) : M S unit :=
  ins ← lift (or_fail (Unmarshal (A := NormalVoteIns) inst));
  AddVoteNormalProposalFromOwnerDB (nv_BoardType ins) (next_constitution (nv_BoardType ins)) (nv_Lv3TxID ins)
    (VoteProposalData_ToBytes (VoteProposal ins)).
End Chain.

(** ** The update of a constitution (blockchain.go) *)

Section Update.
Context {json : StabilityJson} {D : Type} {lvdb : LevelDB D}.
#[local] Abbreviation Best := (BeaconState.BestStateBeacon Info).

Definition on_store {A} (m : M D A) : M (D * Best) A := fun s => let '(d, r) := m (fst s) in ((d, snd s), r).

(** [processUpdateDCBProposalInstruction] changes the best state; its error is dropped. *)
Definition on_stability (m : Z -> M (gmap string string * Info) unit) : M (D * Best) unit := fun s =>
  match BeaconState.BestBlock (BeaconState.chain (snd s)) with
  | None => (s, Panic)
  | Some b =>
      let '((p, i), r) := m (BeaconState.Height_ (BeaconState.Header b)) (BeaconState.Params (snd s), BeaconState.StabilityInfo (snd s)) in
      ((fst s, BeaconState.set_stability p i (snd s)), r)
  end.

Definition winner (boardType : Z) (v : Voter) : M (D * Best) unit :=
  s ← get;
  let nextConstitutionIndex := u32 (GetConstitutionIndex boardType (BeaconState.StabilityInfo (snd s)) + 1) in
  _ ← on_store (TakeVoteTokenFromWinner boardType nextConstitutionIndex (voter_PaymentAddress v) (AmountOfVote v));
  on_store (SetNewProposalWinningVoter boardType nextConstitutionIndex (voter_PaymentAddress v)).

Definition processUpdateDCBConstitutionIns (inst : list string) : M (D * Best) unit :=
  str ← lift (BeaconVerify.at_index inst 2);
  ins ← lift (Unmarshal (A := UpdateDCBIns) str);
  _ ← winner DCBBoard (upd_Voter ins);
  ignoring (on_stability (fun height => processUpdateDCBProposalInstruction height ins)).

Definition processUpdateGOVConstitutionIns (inst : list string) : M (D * Best) unit :=
  str ← lift (BeaconVerify.at_index inst 2);
  ins ← lift (Unmarshal (A := UpdateGOVIns) str);
  _ ← winner GOVBoard (upg_Voter ins);
  ignoring (on_stability (fun _ => processUpdateGOVProposalInstruction ins)).

(** The caller has looked at the type of the instruction. *)
Definition update_of (inst : list string) : M (D * Best) unit :=
  action ← lift (BeaconVerify.at_index inst 0);
  if String.eqb action (Itoa UpdateDCBConstitutionIns) then processUpdateDCBConstitutionIns inst
  else processUpdateGOVConstitutionIns inst.

#[export] Instance constitution_ops : ConstitutionOps D Info :=
  {| bank_fund := BankFund; set_bank_fund := set_bank; update_constitution := update_of; bank_fund_set := fun z i => eq_refl |}.
End Update.

(** ** The votes for a board *)

Lemma u64_idem_l a b : u64 (u64 a + b) = u64 (a + b).
Proof. unfold u64. by rewrite Zplus_mod_idemp_l. Qed.
Lemma u32_idem_l a b : u32 (u32 a + b) = u32 (a + b).
Proof. unfold u32. by rewrite Zplus_mod_idemp_l. Qed.
Lemma u64_idem a : u64 (u64 a) = u64 a.
Proof. unfold u64. by rewrite Zmod_mod. Qed.

Definition addr_ok (a : PaymentAddress) : Prop := length (Pk a) = 33%nat /\ length (Tk a) = 33%nat.
Definition in_u32 (z : Z) : Prop := 0 <= z < 2 ^ 32.

Lemma addr_ok_bytes a : addr_ok a -> length (PaymentAddress_Bytes a) = 66%nat.
Proof. intros [H1 H2]. unfold PaymentAddress_Bytes. by rewrite length_app, H1, H2. Qed.

Lemma addr_bytes_inj a b : addr_ok a -> addr_ok b -> PaymentAddress_Bytes a = PaymentAddress_Bytes b -> a = b.
Proof.
  intros [Ha _] [Hb _] E. apply app_inj_1 in E as [E1 E2]; [|congruence]. destruct a, b. cbn in *. by subst.
Qed.

Lemma le_bytes_u32_inj x y : in_u32 x -> in_u32 y -> le_bytes 4 x = le_bytes 4 y -> x = y.
Proof.
  intros Hx Hy E. apply (f_equal le_value) in E. rewrite !le_value_bytes in E.
  rewrite !Z.mod_small in E; unfold in_u32 in *; lia.
Qed.

Lemma board_key_inj p t idx r t' idx' r' : in_u32 idx -> in_u32 idx' ->
  board_key p t idx r = board_key p t' idx' r' -> t = t' /\ idx = idx' /\ concat r = concat r'.
Proof.
  intros Hi Hi' E. unfold board_key, GetKeyFromVariadic in E. cbn [concat] in E.
  apply app_inv_head in E. apply app_inj_1 in E as [[= ->] E]; [|done].
  apply app_inj_1 in E as [E ->]; [|unfold Uint32ToBytes; by rewrite !le_bytes_length].
  split; [done|]. split; [by apply le_bytes_u32_inj|done].
Qed.

Lemma sum_key_inj t idx c t' idx' c' : in_u32 idx -> in_u32 idx' -> addr_ok c -> addr_ok c' ->
  GetKeyVoteBoardSum t idx (Some c) = GetKeyVoteBoardSum t' idx' (Some c') -> t = t' /\ idx = idx' /\ c = c'.
Proof.
  intros Hi Hi' Hc Hc' E. apply board_key_inj in E as (-> & -> & E); [|done..]. cbn in E. rewrite !app_nil_r in E.
  repeat (split; [done|]). by apply addr_bytes_inj.
Qed.
Lemma count_key_inj t idx c t' idx' c' : in_u32 idx -> in_u32 idx' -> addr_ok c -> addr_ok c' ->
  GetKeyVoteBoardCount t idx c = GetKeyVoteBoardCount t' idx' c' -> t = t' /\ idx = idx' /\ c = c'.
Proof.
  intros Hi Hi' Hc Hc' E. apply board_key_inj in E as (-> & -> & E); [|done..]. cbn in E. rewrite !app_nil_r in E.
  repeat (split; [done|]). by apply addr_bytes_inj.
Qed.
Lemma list_key_inj t idx c v t' idx' c' v' : in_u32 idx -> in_u32 idx' -> addr_ok c -> addr_ok c' -> addr_ok v -> addr_ok v' ->
  GetKeyVoteBoardList t idx (Some c) (Some v) = GetKeyVoteBoardList t' idx' (Some c') (Some v') ->
  t = t' /\ idx = idx' /\ c = c' /\ v = v'.
Proof.
  intros Hi Hi' Hc Hc' Hv Hv' E. apply board_key_inj in E as (-> & -> & E); [|done..]. cbn in E. rewrite !app_nil_r in E.
  apply app_inj_1 in E as [E1 E2]; [|by rewrite !addr_ok_bytes].
  repeat (split; [done|]). split; by apply addr_bytes_inj.
Qed.

(** Keys of different families. *)
Lemma board_key_ne p p' t idx r t' idx' r' : take 5 p <> take 5 p' -> (5 <= length p)%nat -> (5 <= length p')%nat ->
  board_key p t idx r <> board_key p' t' idx' r'.
Proof.
  intros Hne Hp Hp' E. apply Hne. apply (f_equal (take 5)) in E. unfold board_key, GetKeyFromVariadic in E.
  cbn [concat] in E. by rewrite !take_app_le in E by lia.
Qed.

Definition read_number (n : nat) (m : gmap bytes bytes) (k : bytes) : Z :=
  match m !! k with Some v => le_value (take n v) | None => 0 end.

Lemma read_number_insert n z m k : read_number n (<[k := le_bytes n z]> m) k = z mod 256 ^ Z.of_nat n.
Proof. unfold read_number. rewrite lookup_insert_eq, take_ge by (by rewrite le_bytes_length). apply le_value_bytes. Qed.
Lemma read_number_ne n v m k k' : k <> k' -> read_number n (<[k := v]> m) k' = read_number n m k'.
Proof. intros H. unfold read_number. by rewrite lookup_insert_ne. Qed.

Record BoardVote := mkBoardVote {
  bv_board : Z; bv_index : Z; bv_voter : PaymentAddress; bv_candidate : PaymentAddress; bv_amount : Z
}.
Definition vote_ok (v : BoardVote) : Prop := in_u32 (bv_index v) /\ addr_ok (bv_voter v) /\ addr_ok (bv_candidate v).

(** What the votes add up to. *)
Definition is_for (t idx : Z) (c : PaymentAddress) (v : BoardVote) : bool :=
  bool_decide (bv_board v = t /\ bv_index v = idx /\ bv_candidate v = c).
Definition amounts (votes : list BoardVote) : Z := foldr Z.add 0 (map bv_amount votes).

Section Votes.
Context {S : Type} {lvdb : LevelDB S}.

Definition cast (v : BoardVote) : M S unit :=
  AddVoteBoard (bv_board v) (bv_index v) (bv_voter v) (bv_candidate v) (bv_amount v).

Definition sum_of (s : S) (t idx : Z) (c : PaymentAddress) : Z := read_number 8 (lv_content s) (GetKeyVoteBoardSum t idx (Some c)).
Definition count_of (s : S) (t idx : Z) (c : PaymentAddress) : Z := read_number 4 (lv_content s) (GetKeyVoteBoardCount t idx c).
Definition list_of (s : S) (t idx : Z) (c v : PaymentAddress) : Z :=
  read_number 8 (lv_content s) (GetKeyVoteBoardList t idx (Some c) (Some v)).

Lemma get_default (key d : bytes) (s s' : S) b : or_default d (Get key) s = (s', Ok b) -> s' = s /\ b = default d (lv_content s !! key).
Proof. unfold or_default, Get. by destruct (_ !! _) as [v|]; intros [= <- <-]. Qed.

Lemma read_ok8 (m : gmap bytes bytes) k z : BytesToUint64 (default (Uint64ToBytes 0) (m !! k)) = Ok z -> z = read_number 8 m k.
Proof. unfold BytesToUint64, read_number. destruct (m !! k); cbn [default]; case_match; intros [= <-]; done. Qed.
Lemma read_ok4 (m : gmap bytes bytes) k z : BytesToUint32 (default (Uint32ToBytes 0) (m !! k)) = Ok z -> z = read_number 4 m k.
Proof. unfold BytesToUint32, read_number. destruct (m !! k); cbn [default]; case_match; intros [= <-]; done. Qed.

Lemma put_plain k v (s s' : S) : Put k v s = (s', Ok tt) -> lv_content s' = <[k := v]> (lv_content s).
Proof. intros H. by apply (put_ok UnexpectedError), or_err_ok. Qed.

Lemma cast_content v (s s' : S) : cast v s = (s', Ok tt) ->
  let m := lv_content s in let t := bv_board v in let idx := bv_index v in let c := bv_candidate v in
  lv_content s' =
    <[GetKeyVoteBoardList t idx (Some c) (Some (bv_voter v)) := Uint64ToBytes (u64 (list_of s t idx c (bv_voter v) + bv_amount v))]>
    (<[GetKeyVoteBoardCount t idx c := Uint32ToBytes (u32 (count_of s t idx c + 1))]>
     (<[GetKeyVoteBoardSum t idx (Some c) := Uint64ToBytes (u64 (sum_of s t idx c + bv_amount v))]> m)).
Proof.
  intros H m t idx c. unfold cast, AddVoteBoard in H. fold t idx c in H.
  apply M_bind_ok in H as (s1 & b1 & [-> ->]%get_default & H).
  apply M_bind_ok in H as (s1 & z1 & [-> ->%read_ok8]%lift_ok & H).
  apply M_bind_ok in H as (s1 & [] & H1%put_ok & H).
  apply M_bind_ok in H as (s2 & b2 & [-> ->]%get_default & H).
  apply M_bind_ok in H as (s2 & z2 & [-> ->%read_ok4]%lift_ok & H).
  apply M_bind_ok in H as (s2 & [] & H2%put_ok & H).
  apply M_bind_ok in H as (s3 & b3 & [-> ->]%get_default & H).
  apply M_bind_ok in H as (s3 & z3 & [-> ->%read_ok8]%lift_ok & H).
  apply put_plain in H. rewrite H, H2, H1. unfold sum_of, count_of, list_of. fold m.
  assert (GetKeyVoteBoardSum t idx (Some c) <> GetKeyVoteBoardCount t idx c) as N1 by (apply board_key_ne; vm_compute; [discriminate|lia..]).
  assert (GetKeyVoteBoardSum t idx (Some c) <> GetKeyVoteBoardList t idx (Some c) (Some (bv_voter v))) as N2
    by (apply board_key_ne; vm_compute; [discriminate|lia..]).
  assert (GetKeyVoteBoardCount t idx c <> GetKeyVoteBoardList t idx (Some c) (Some (bv_voter v))) as N3
    by (apply board_key_ne; vm_compute; [discriminate|lia..]).
  by rewrite (read_number_ne 4 _ _ _ _ N1), (read_number_ne 8 _ _ _ _ N3), (read_number_ne 8 _ _ _ _ N2).
Qed.

Ltac other_family := rewrite read_number_ne; [|apply board_key_ne; vm_compute; [discriminate|lia..]].

Lemma cast_sum v (s s' : S) t idx c : cast v s = (s', Ok tt) -> vote_ok v -> in_u32 idx -> addr_ok c ->
  u64 (sum_of s' t idx c) = u64 (sum_of s t idx c + (if is_for t idx c v then bv_amount v else 0)).
Proof.
  intros H%cast_content (Hi & _ & Hc) Hidx Hcc. unfold sum_of. rewrite H. do 2 other_family. unfold is_for. case_bool_decide as Hf.
  - destruct Hf as (-> & -> & ->). unfold Uint64ToBytes. rewrite read_number_insert. change (256 ^ Z.of_nat 8) with (2 ^ 64).
    fold (u64 (u64 (sum_of s t idx c + bv_amount v))). by rewrite !u64_idem.
  - rewrite read_number_ne, Z.add_0_r; [done|]. intros E. apply Hf. by apply sum_key_inj in E.
Qed.

Lemma cast_count v (s s' : S) t idx c : cast v s = (s', Ok tt) -> vote_ok v -> in_u32 idx -> addr_ok c ->
  u32 (count_of s' t idx c) = u32 (count_of s t idx c + (if is_for t idx c v then 1 else 0)).
Proof.
  intros H%cast_content (Hi & _ & Hc) Hidx Hcc. unfold count_of. rewrite H. other_family. unfold is_for. case_bool_decide as Hf.
  - destruct Hf as (-> & -> & ->). unfold Uint32ToBytes. rewrite read_number_insert. change (256 ^ Z.of_nat 4) with (2 ^ 32).
    fold (u32 (u32 (count_of s t idx c + 1))). unfold u32. by rewrite !Zmod_mod.
  - rewrite read_number_ne; [|intros E; apply Hf; by apply count_key_inj in E]. other_family. by rewrite Z.add_0_r.
Qed.

Definition is_from (t idx : Z) (c a : PaymentAddress) (v : BoardVote) : bool := is_for t idx c v && bool_decide (bv_voter v = a).

Lemma cast_list v (s s' : S) t idx c a : cast v s = (s', Ok tt) -> vote_ok v -> in_u32 idx -> addr_ok c -> addr_ok a ->
  u64 (list_of s' t idx c a) = u64 (list_of s t idx c a + (if is_from t idx c a v then bv_amount v else 0)).
Proof.
  intros H%cast_content (Hi & Hv & Hc) Hidx Hcc Ha. unfold list_of. rewrite H. unfold is_from, is_for.
  destruct (decide ((bv_board v = t /\ bv_index v = idx /\ bv_candidate v = c) /\ bv_voter v = a)) as [[Hf Hg]|Hf].
  - rewrite !bool_decide_true by done. destruct Hf as (-> & -> & ->). subst a. cbn [andb]. unfold Uint64ToBytes.
    rewrite read_number_insert. change (256 ^ Z.of_nat 8) with (2 ^ 64).
    fold (u64 (u64 (list_of s t idx c (bv_voter v) + bv_amount v))). by rewrite !u64_idem.
  - replace (_ && _) with false by (symmetry; apply andb_false_iff; destruct (decide (bv_voter v = a)) as [e|e];
      [left; apply bool_decide_eq_false; tauto|right; by apply bool_decide_eq_false]).
    rewrite read_number_ne; [|intros E; apply Hf; apply list_key_inj in E as (-> & -> & -> & ->); tauto].
    do 2 other_family. by rewrite Z.add_0_r.
Qed.

(** What a number kept under a key becomes over a list of votes. *)
Lemma votes_sum (wrap : Z -> Z) (num : S -> Z) (add : BoardVote -> Z) votes : (forall a b, wrap (wrap a + b) = wrap (a + b)) ->
  (forall v s s', cast v s = (s', Ok tt) -> vote_ok v -> wrap (num s') = wrap (num s + add v)) ->
  forall s s', Forall vote_ok votes -> mfor cast votes s = (s', Ok tt) -> wrap (num s') = wrap (num s + foldr Z.add 0 (map add votes)).
Proof.
  intros Hw Hstep. induction votes as [|v votes IH]; intros s s' Hv H.
  - injection H as <-. cbn. by rewrite Z.add_0_r.
  - inversion Hv as [|? ? Hv1 Hv2]; subst. cbn [mfor] in H. apply M_bind_ok in H as (s1 & [] & H1 & H2).
    rewrite (IH _ _ Hv2 H2). rewrite <- Hw, (Hstep _ _ _ H1 Hv1), Hw. cbn [map foldr]. f_equal. lia.
Qed.

Lemma amounts_filter (P : BoardVote -> bool) (f : BoardVote -> Z) votes :
  foldr Z.add 0 (map (fun v => if P v then f v else 0) votes) = foldr Z.add 0 (map f (List.filter P votes)).
Proof. induction votes as [|v votes IH]; [done|]. cbn [map foldr List.filter]. rewrite IH. by destruct (P v). Qed.

Lemma ones_length (l : list BoardVote) : foldr Z.add 0 (map (fun _ => 1) l) = Z.of_nat (length l).
Proof. induction l as [|v l IH]; [done|]. cbn [map foldr length]. lia. Qed.

(** C35. Votes for a board add up.  After any votes, for whichever boards, terms, candidates
    and by whichever voters, the sum kept for a candidate of a term has grown by the amounts
    of the votes for it, modulo 2^64, the count by their number, modulo 2^32, and what is
    kept of a voter and a candidate by the amounts of the one for the other. *)
Theorem board_votes_add_up (votes : list BoardVote) (s s' : S) (t idx : Z) (c a : PaymentAddress) :
  Forall vote_ok votes -> mfor cast votes s = (s', Ok tt) -> in_u32 idx -> addr_ok c -> addr_ok a ->
  let mine := List.filter (is_for t idx c) votes in
  u64 (sum_of s' t idx c) = u64 (sum_of s t idx c + amounts mine) /\
  u32 (count_of s' t idx c) = u32 (count_of s t idx c + Z.of_nat (length mine)) /\
  u64 (list_of s' t idx c a) = u64 (list_of s t idx c a + amounts (List.filter (is_from t idx c a) votes)).
Proof using.
  intros Hv H Hi Hc Ha mine. split; [|split].
  - rewrite (votes_sum u64 (fun s => sum_of s t idx c) (fun v => if is_for t idx c v then bv_amount v else 0) votes u64_idem_l) with (s := s);
      [by rewrite amounts_filter| |done|done]. intros. by apply cast_sum.
  - rewrite (votes_sum u32 (fun s => count_of s t idx c) (fun v => if is_for t idx c v then 1 else 0) votes u32_idem_l) with (s := s);
      [by rewrite amounts_filter, ones_length| |done|done]. intros. by apply cast_count.
  - rewrite (votes_sum u64 (fun s => list_of s t idx c a) (fun v => if is_from t idx c a v then bv_amount v else 0) votes u64_idem_l) with (s := s);
      [by rewrite amounts_filter| |done|done]. intros. by apply cast_list.
Qed.

(** A sealed vote goes no further: the record of the opened layers is refused, without a
    change, both where the vote was recorded and where it was not. *)
Theorem sealed_vote_refused (boardType constitutionIndex : Z) (lv3TxID : Hash) (voteValue : bytes) (s : S) :
  exists e, AddVoteLv1or2ProposalDB boardType constitutionIndex lv3TxID s = (s, Err e) /\
    AddVoteNormalProposalFromSealerDB boardType constitutionIndex lv3TxID voteValue s = (s, Err e).
Proof using.
  unfold AddVoteNormalProposalFromSealerDB. unfold AddVoteLv1or2ProposalDB, HasValue, fail_if, Get. mrun.
  case_bool_decide as Hk; cbn [is_Some].
  - by exists "duplicate txid".
  - apply eq_None_not_Some in Hk. rewrite Hk. by exists LvDbNotFound.
Qed.
End Votes.

(** ** The change of a board and of a constitution *)

(** A key between two keys that share a prefix has it too. *)
Lemma range_prefix (p a b k : bytes) : bytes_leb (p ++ a) k = true -> bytes_leb (p ++ b) k = false -> take (length p) k = p.
Proof.
  revert k. induction p as [|x p IH]; intros k; [done|]. destruct k as [|y k]; cbn -[Z.ltb]; [done|].
  destruct (x <? y) eqn:E1; [done|]. destruct (y <? x) eqn:E2; [done|]. intros H1 H2. f_equal; [to_prop; lia|by apply IH].
Qed.

Lemma elem_of_insert_key k x l : k ∈ insert_key x l <-> k = x \/ k ∈ l.
Proof.
  induction l as [|y l IH]; cbn [insert_key]; [by rewrite list_elem_of_singleton, elem_of_nil; intuition|].
  destruct (bytes_leb x y); rewrite !elem_of_cons; [tauto|]. rewrite IH. tauto.
Qed.
Lemma elem_of_sorted_keys k l : k ∈ foldr insert_key [] l <-> k ∈ l.
Proof. induction l as [|x l IH]; cbn [foldr]; [done|]. by rewrite elem_of_insert_key, IH, elem_of_cons. Qed.

Section Change.
Context {json : StabilityJson} {vjson : VotingJson} {S : Type} {lvdb : LevelDB S} {lookup : VoteLookup S}.

Lemma iterate_range_read start limit (s : S) : exists keys, iterate_range start limit s = (s, Ok keys) /\
  forall k, k ∈ keys <-> is_Some (lv_content s !! k) /\ bytes_leb start k = true /\ bytes_leb limit k = false.
Proof.
  eexists. split; [done|]. intros k. rewrite elem_of_sorted_keys, list_elem_of_In, filter_In, <- list_elem_of_In, list_elem_of_fmap.
  rewrite andb_true_iff, negb_true_iff. split.
  - intros [([? v] & -> & Hk%elem_of_map_to_list) H]. split; [by eexists|done].
  - intros [[v Hv] H]. split; [|done]. exists (k, v). split; [done|]. by apply elem_of_map_to_list.
Qed.

(** The records of votes are as [AddVoteBoard] writes them: candidate and voter are addresses
    of 66 bytes, the amount has 8. *)
Definition list_records_ok (s : S) : Prop := forall k v, lv_content s !! k = Some v ->
  take (length voteBoardListPrefix) k = voteBoardListPrefix -> length k = 151%nat /\ (8 <= length v)%nat.

Lemma parse_list_fails k : length k = 151%nat -> exists e, ParseKeyVoteBoardList k = Err e.
Proof.
  intros Hk. unfold ParseKeyVoteBoardList, board_elements, ParseKeyToSlice. rewrite Hk. eexists. by cbn.
Qed.

(** The losers of an election are never given their tokens back: the key of a vote is
    parsed for keys of half the length, so that one record in the range is enough for the
    node to panic, and without one nothing is sent. *)
Theorem losers_never_repaid (i : Info) (boardType : Z) (newBoard : list PaymentAddress) (s : S) :
  list_records_ok s -> Forall addr_ok newBoard ->
  exists r, createSendBackTokenAfterVoteFailIns i boardType newBoard s = (s, r) /\ (r = Panic \/ r = Ok []) /\
    (forall k, is_Some (lv_content s !! k) ->
       bytes_leb (GetKeyVoteBoardList boardType 0 None None) k = true ->
       bytes_leb (GetKeyVoteBoardList boardType (u32 (GetCurrentBoardIndex DCBBoard i + 1)) None None) k = false -> r = Panic).
Proof using.
  intros Hok Hnew. unfold createSendBackTokenAfterVoteFailIns.
  destruct (iterate_range_read (GetKeyVoteBoardList boardType 0 None None)
    (GetKeyVoteBoardList boardType (u32 (GetCurrentBoardIndex DCBBoard i + 1)) None None) s) as (keys & Hit & Hkeys).
  unfold mbind, M_bind. rewrite Hit. destruct keys as [|k keys].
  - exists (Ok []). split; [done|]. split; [by right|]. intros k Hk H1 H2. by destruct (not_elem_of_nil k (proj2 (Hkeys k) (conj Hk (conj H1 H2)))).
  - destruct (proj1 (Hkeys k) ltac:(left)) as ([v Hv] & H1 & H2).
    assert (take (length voteBoardListPrefix) k = voteBoardListPrefix) as Hp by (by eapply range_prefix).
    destruct (Hok k v Hv Hp) as [Hlen Hval].
    destruct (parse_list_fails k Hlen) as [e He].
    exists Panic. split; [|split; [by left|done]]. cbn [send_back]. unfold Get. mrun. rewrite Hv, He.
    unfold BytesToUint64. replace (length v <? 8)%nat with false by (symmetry; apply Nat.ltb_ge; lia).
    cbv beta iota zeta. rewrite (bool_decide_false (([] : bytes) ∈ map PaymentAddress_Bytes newBoard)), orb_true_r; [done|].
    intros H%list_elem_of_fmap. destruct H as (a & Ha & Hin'). rewrite Forall_forall in Hnew.
    apply Hnew, addr_ok_bytes in Hin'. by rewrite <- Ha in Hin'.
Qed.

(** The records of sealed votes are as [AddVoteLv3ProposalDB] writes them: their keys end in a
    transaction's hash. *)
Definition sealed_records_ok (s : S) : Prop := forall k, is_Some (lv_content s !! k) ->
  take (length threePhraseCryptoSealerPrefix) k = threePhraseCryptoSealerPrefix -> length k = 67%nat.

Lemma parse_sealer_fails k : length k = 67%nat -> exists e, ParseKeyThreePhraseCryptoSealer k = Err e.
Proof.
  intros Hk. unfold ParseKeyThreePhraseCryptoSealer, CheckLength. rewrite Hk.
  unfold board_elements, ParseKeyToSlice. rewrite Hk. eexists. by cbn.
Qed.

Lemma vote_table_empty (i : Info) boardType (s : S) : sealed_records_ok s ->
  or_default ([], ∅) (BuildVoteTableAndPunishTransaction i boardType) s = (s, Ok ([], ∅)).
Proof.
  intros Hok. unfold BuildVoteTableAndPunishTransaction, or_default.
  destruct (iterate_range_read (GetKeyThreePhraseCryptoSealer boardType 0 None)
    (GetKeyThreePhraseCryptoSealer boardType (u32 (1 + GetCurrentBoardIndex boardType i)) None) s) as (keys & Hit & Hkeys).
  unfold mbind, M_bind. rewrite Hit. destruct keys as [|k keys]; [done|].
  destruct (proj1 (Hkeys k) ltac:(left)) as (Hk & H1 & H2).
  assert (take (length threePhraseCryptoSealerPrefix) k = threePhraseCryptoSealerPrefix) as Hp by (by eapply range_prefix).
  destruct (parse_sealer_fails k (Hok k Hk Hp)) as [e He]. cbn [count_votes]. mrun. by rewrite He.
Qed.

Lemma phase_over_ok flag height boardType (s : S) : phase_over flag height boardType s = (s, Ok true) ->
  or_default 0 (GetEncryptFlag boardType) s = (s, Ok flag) /\ exists h, or_default 0 (GetEncryptionLastBlockHeight boardType) s = (s, Ok h).
Proof.
  unfold phase_over. intros H. apply M_bind_ok in H as (s1 & h & H1 & H). apply M_bind_ok in H as (s2 & f & H2 & H).
  assert (forall (s s' : S) h, or_default 0 (GetEncryptionLastBlockHeight boardType) s = (s', Ok h) -> s' = s) as Hr1.
  { clear. intros s s' h. unfold or_default, GetEncryptionLastBlockHeight, Get. mrun. repeat case_match; simplify_eq; by intros [= <-]. }
  assert (forall (s s' : S) h, or_default 0 (GetEncryptFlag boardType) s = (s', Ok h) -> s' = s) as Hr2.
  { clear. intros s s' h. unfold or_default, GetEncryptFlag, Get. mrun. repeat case_match; simplify_eq; by intros [= <-]. }
  pose proof (Hr1 _ _ _ H1) as ->. pose proof (Hr2 _ _ _ H2) as ->. injection H as H. to_prop. subst f.
  split; [done|]. by exists h.
Qed.

(** C36. No new constitution is ever accepted.  The records of the sealed votes do not parse,
    the table of votes is empty, and the proposal that wins is the one of the zero hash: unless
    there is a transaction of that hash, the step of the vote that accepts a constitution is
    an error, and with it the making of the instructions of a block at that height. *)
Theorem new_constitution_never (visit_table : gmap Hash (gmap bytes Z) -> list (Hash * gmap bytes Z))
    (visit_amounts : gmap bytes Z -> list (bytes * Z)) (i : Info) (height boardType : Z) (s : S) (e : string) :
  (forall m, visit_table m ≡ₚ map_to_list m) -> sealed_records_ok s -> proposal_submitter boardType s zero_hash = Err e ->
  createAcceptConstitutionAndPunishTxAndRewardSubmitter visit_table visit_amounts i boardType s = (s, Err e) /\
  (readyNewConstitution height boardType s = (s, Ok true) ->
   CreateUpdateEncryptPhraseAndRewardConstitutionIns visit_table visit_amounts i height boardType s = (s, Err e)).
Proof using.
  intros Hv Hok He.
  assert (createAcceptConstitutionAndPunishTxAndRewardSubmitter visit_table visit_amounts i boardType s = (s, Err e)) as Hacc.
  { unfold createAcceptConstitutionAndPunishTxAndRewardSubmitter. unfold mbind at 1, M_bind at 1. rewrite vote_table_empty by done.
    cbn [snd]. replace (visit_table ∅) with (@nil (Hash * gmap bytes Z)); [|symmetry; apply Permutation_nil_r; by rewrite Hv, map_to_list_empty].
    mrun. cbn [best_proposal]. mrun. by rewrite He. }
  split; [done|]. intros Hr. pose proof (phase_over_ok _ _ _ _ Hr) as [Hf [h Hh]].
  unfold CreateUpdateEncryptPhraseAndRewardConstitutionIns, NeedToEnterEncryptionPhrase, NeedEnterEncryptLv1, NeedEnterEncryptNormal, phase_over.
  unfold mbind, M_bind, mret, M_ret. rewrite Hf. cbn -[or_default readyNewConstitution Z.eqb]. rewrite andb_false_r. cbn -[or_default readyNewConstitution Z.eqb].
  rewrite Hh, Hf. change (NormalEncryptionFlag =? Lv2EncryptionFlag) with false. rewrite andb_false_r. cbn -[or_default readyNewConstitution Z.eqb].
  rewrite Hh, Hf. change (NormalEncryptionFlag =? Lv1EncryptionFlag) with false. rewrite andb_false_r. rewrite Hr. by rewrite Hacc.
Qed.
End Change.

(** ** Concrete votes *)

Definition sample_addr (b : Z) : PaymentAddress := mkPaymentAddress (replicate 33 b) (replicate 33 (b + 1)).
Definition sample_votes : list BoardVote :=
  [mkBoardVote DCBBoard 1 (sample_addr 7) (sample_addr 1) 5; mkBoardVote DCBBoard 1 (sample_addr 8) (sample_addr 1) 6;
   mkBoardVote GOVBoard 1 (sample_addr 7) (sample_addr 1) 100; mkBoardVote DCBBoard 1 (sample_addr 7) (sample_addr 1) (2 ^ 64 - 1)].
Definition after_votes : gmap bytes bytes := fst (mfor cast sample_votes (∅ : gmap bytes bytes)).

Lemma board_votes_add_up_witness :
  u64 (sum_of after_votes DCBBoard 1 (sample_addr 1)) = 10 /\
  u32 (count_of after_votes DCBBoard 1 (sample_addr 1)) = 3 /\
  u64 (list_of after_votes DCBBoard 1 (sample_addr 1) (sample_addr 7)) = 4.
Proof.
  destruct (board_votes_add_up sample_votes ∅ after_votes DCBBoard 1 (sample_addr 1) (sample_addr 7)) as (H1 & H2 & H3).
  - repeat (apply Forall_cons; split; [by repeat split|]). apply Forall_nil_2.
  - assert (snd (mfor cast sample_votes (∅ : gmap bytes bytes)) = Ok tt) as <- by (vm_compute; reflexivity). apply surjective_pairing.
  - by split.
  - by split.
  - by split.
  - rewrite H1, H2, H3. vm_compute. repeat split.
Defined.

Definition sample_records : gmap bytes bytes :=
  {[GetKeyVoteBoardList DCBBoard 0 (Some (sample_addr 1)) (Some (sample_addr 7)) := Uint64ToBytes 5]}.

Lemma losers_never_repaid_witness :
  exists r, createSendBackTokenAfterVoteFailIns zero_info DCBBoard [sample_addr 2] sample_records = (sample_records, r) /\ (r = Panic \/ r = Ok []) /\
    r = Panic.
Proof.
  destruct (losers_never_repaid zero_info DCBBoard [sample_addr 2] sample_records) as (r & H1 & H2 & H3).
  - intros k v Hv _. change (sample_records !! k = Some v) in Hv. unfold sample_records in Hv. apply lookup_singleton_Some in Hv as [<- <-]. vm_compute. split; [reflexivity|repeat constructor].
  - repeat constructor.
  - exists r. split; [exact H1|]. split; [exact H2|].
    apply (H3 (GetKeyVoteBoardList DCBBoard 0 (Some (sample_addr 1)) (Some (sample_addr 7)))); [|vm_compute; reflexivity..].
    exists (Uint64ToBytes 5). change (sample_records !! GetKeyVoteBoardList DCBBoard 0 (Some (sample_addr 1)) (Some (sample_addr 7)) = Some (Uint64ToBytes 5)). unfold sample_records. apply lookup_singleton_eq.
Defined.

#[local] Instance no_lookup : VoteLookup (gmap bytes bytes) :=
  {| sealer_addresses := fun _ _ _ => Panic; proposal_submitter := fun _ _ _ => Err LvDbNotFound |}.

(** A store that is ready for a constitution, with a sealed vote. *)
Definition sample_sealed : gmap bytes bytes :=
  fst ((_ ← AddVoteLv3ProposalDB DCBBoard 1 DCBTokenID; _ ← SetEncryptFlag DCBBoard NormalEncryptionFlag;
        SetEncryptionLastBlockHeight DCBBoard 10) (∅ : gmap bytes bytes)).

Lemma sample_sealed_ok : sealed_records_ok sample_sealed.
Proof.
  assert (forallb (fun kv : bytes * bytes => negb (bool_decide (take (length threePhraseCryptoSealerPrefix) (fst kv) = threePhraseCryptoSealerPrefix)) ||
    (length (fst kv) =? 67)%nat) (map_to_list sample_sealed) = true) as H by (vm_compute; reflexivity).
  intros k [v Hv] Hp. change (sample_sealed !! k = Some v) in Hv. apply elem_of_map_to_list, list_elem_of_In in Hv.
  rewrite forallb_forall in H. apply H in Hv. cbn [fst] in Hv. rewrite bool_decide_true in Hv by done. by apply Nat.eqb_eq in Hv.
Qed.

Lemma new_constitution_never_witness :
  createAcceptConstitutionAndPunishTxAndRewardSubmitter map_to_list map_to_list zero_info DCBBoard sample_sealed = (sample_sealed, Err LvDbNotFound) /\
  CreateUpdateEncryptPhraseAndRewardConstitutionIns map_to_list map_to_list zero_info 14 DCBBoard sample_sealed = (sample_sealed, Err LvDbNotFound).
Proof.
  destruct (new_constitution_never map_to_list map_to_list zero_info 14 DCBBoard sample_sealed LvDbNotFound) as [H1 H2].
  - reflexivity.
  - exact sample_sealed_ok.
  - reflexivity.
  - split; [exact H1|]. apply H2. vm_compute. reflexivity.
Defined.
End Voting.
