(* ===== verification/StabilityProducer.v ===== *)
(** Making the instructions of a beacon block from those of the shard blocks, and those of a
    shard block from its transactions and from the beacon blocks it follows
    (src/blockchain: stability.go, bondsfromgov.go, govtokensfromgov.go, reserve.go,
    salary.go, dcbbeaconproducer.go, crowdsaleutils.go): the instance of the interface of
    BeaconProducer.v, on the [StabilityInfo] of Stability.v and the votes of Voting.v.  What
    the metadata of a transaction asks for is an interface.  A reserve to raise that is an empty
    map and not nil, which no JSON of the parameters yields, is taken for a nil one. *)

From Stdlib Require Import Ascii String.
From S2P Require Import Prelude GoStr Hash Sha256 Keys Json Params BeaconState BeaconVerify LevelDB BeaconProducer.
From S2P Require Import Wallet.
From S2P Require Import TxStore TxMeta Stability Voting.

#[local] Open Scope string_scope.
#[local] Open Scope list_scope.
#[local] Open Scope Z_scope.

Module StabilityProducer.
Import Hashes Keys Params BeaconVerify TxMeta BeaconState Stability Voting.

(** What a block's instructions have committed so far.  The entries of [saleDataMap] are
    pointers, nil where the stored sale does not parse. *)
Record accumulativeValues := mkValues {
  bondsSold : Z;
  govTokensSold : Z;
  incomeFromBonds : Z;
  incomeFromGOVTokens : Z;
  dcbTokensSoldByUSD : Z;
  dcbTokensSoldByETH : Z;
  constantsBurnedByETH : Z;
  buyBackCoins : Z;
  totalFee : Z;
  totalSalary : Z;
  totalRefundAmt : Z;
  totalOracleRewards : Z;
  saleDataMap : gmap string (option SaleData)
}.
Definition no_accumulated : accumulativeValues := mkValues 0 0 0 0 0 0 0 0 0 0 0 0 ∅.

Definition add_bonds (n income : Z) (a : accumulativeValues) : accumulativeValues :=
  mkValues (u64 (bondsSold a + n)) (govTokensSold a) (u64 (incomeFromBonds a + income)) (incomeFromGOVTokens a) (dcbTokensSoldByUSD a)
    (dcbTokensSoldByETH a) (constantsBurnedByETH a) (buyBackCoins a) (totalFee a) (totalSalary a) (totalRefundAmt a) (totalOracleRewards a) (saleDataMap a).
Definition add_gov_tokens (n income : Z) (a : accumulativeValues) : accumulativeValues :=
  mkValues (bondsSold a) (u64 (govTokensSold a + n)) (incomeFromBonds a) (u64 (incomeFromGOVTokens a + income)) (dcbTokensSoldByUSD a)
    (dcbTokensSoldByETH a) (constantsBurnedByETH a) (buyBackCoins a) (totalFee a) (totalSalary a) (totalRefundAmt a) (totalOracleRewards a) (saleDataMap a).
Definition add_dcb_tokens (usd eth : Z) (a : accumulativeValues) : accumulativeValues :=
  mkValues (bondsSold a) (govTokensSold a) (incomeFromBonds a) (incomeFromGOVTokens a) (u64 (dcbTokensSoldByUSD a + usd))
    (u64 (dcbTokensSoldByETH a + eth)) (constantsBurnedByETH a) (buyBackCoins a) (totalFee a) (totalSalary a) (totalRefundAmt a) (totalOracleRewards a)
    (saleDataMap a).
Definition add_burned (n : Z) (a : accumulativeValues) : accumulativeValues :=
  mkValues (bondsSold a) (govTokensSold a) (incomeFromBonds a) (incomeFromGOVTokens a) (dcbTokensSoldByUSD a) (dcbTokensSoldByETH a)
    (u64 (constantsBurnedByETH a + n)) (buyBackCoins a) (totalFee a) (totalSalary a) (totalRefundAmt a) (totalOracleRewards a) (saleDataMap a).
Definition add_spent (coins fee salary : Z) (a : accumulativeValues) : accumulativeValues :=
  mkValues (bondsSold a) (govTokensSold a) (incomeFromBonds a) (incomeFromGOVTokens a) (dcbTokensSoldByUSD a) (dcbTokensSoldByETH a)
    (constantsBurnedByETH a) (u64 (buyBackCoins a + coins)) (u64 (totalFee a + fee)) (u64 (totalSalary a + salary)) (totalRefundAmt a)
    (totalOracleRewards a) (saleDataMap a).
Definition set_sale (key : string) (d : option SaleData) (a : accumulativeValues) : accumulativeValues :=
  mkValues (bondsSold a) (govTokensSold a) (incomeFromBonds a) (incomeFromGOVTokens a) (dcbTokensSoldByUSD a) (dcbTokensSoldByETH a)
    (constantsBurnedByETH a) (buyBackCoins a) (totalFee a) (totalSalary a) (totalRefundAmt a) (totalOracleRewards a) (<[key := d]> (saleDataMap a)).

Definition DCBAddress : string :=
  "1Uv4CtusMLW1GZpMS2HwqJ5fp654J6VUxUPEm8CpgkqDmKRbKuSH2dvBrrq4P75GNZdbCW3QGXmMQDRqpLnpyHrESqKvawLX7Ju29HjaD".

(** [a / b] of Go. *)
Definition go_div (a b : Z) : outcome Z := if b =? 0 then Panic else Ok (a / b).

Section Build.
Context {sha : Sha256} {json : StabilityJson}.
#[local] Abbreviation A := accumulativeValues.
Context (best : BestStateBeacon Info).

Definition info_ : Info := StabilityInfo best.
Definition best_block_height : outcome Z :=
  match BestBlock (chain best) with Some b => Ok (Height_ (Header b)) | None => Panic end.

Definition fund_left (a : A) (expense : Z) : Z :=
  let income := u64 (incomeFromBonds a + incomeFromGOVTokens a + totalFee a) in
  let totalExpensed := u64 (buyBackCoins a + totalSalary a + totalRefundAmt a + totalOracleRewards a) in
  u64 (SalaryFund info_ + income - expense - totalExpensed).

(** The difference is unsigned. *)
Definition isGOVFundEnough (a : A) (expense : Z) : bool := 0 <? fund_left a expense.

Definition update_values (f : A -> A) : M A unit := modify f.
Definition decoded {T} (of_json : string -> outcome T) (contentStr : string) : outcome T :=
  b ← base64_decode contentStr; of_json (TxStore.text b).

(** ** Bonds and tokens (bondsfromgov.go, govtokensfromgov.go) *)

(** Is the block outside the time of the sale, or is too much asked for? *)
Definition sale_refused (height startSellingAt sellingWithin sold amount toSell : Z) : bool :=
  (u64 (height + 1) <? startSellingAt) || (u64 (startSellingAt + sellingWithin) <? u64 (height + 1)) || (toSell <? u64 (sold + amount)).

Definition buildInstructionsForBuyBondsFromGOVReq (shardID : Z) (contentStr : string) : M A (list (list string)) :=
  action ← lift (decoded (Unmarshal (A := BuySellReqAction)) contentStr);
  let md := bs_Meta action in
  height ← lift best_block_height;
  a ← get;
  let params := SellingBonds_ (gov_params info_) in
  let refused := match params with
    | None => true
    | Some p => sale_refused height (sb_StartSellingAt p) (sb_SellingWithin p) (bondsSold a) (bsr_Amount md) (BondsToSell p)
    end in
  _ ← (if refused : bool then mret tt else update_values (add_bonds (bsr_Amount md) (u64 (bsr_Amount md + BuyPrice md))));
  mret [[Itoa BuyFromGOVRequestMeta; Itoa shardID; if refused then "refund" else "accepted"; contentStr; Marshal params]].

Definition buildInstructionsForBuyGOVTokensReq (shardID : Z) (contentStr : string) : M A (list (list string)) :=
  action ← lift (decoded buygov_of_json contentStr);
  let md := bs_Meta action in
  height ← lift best_block_height;
  a ← get;
  let refused := match SellingGOVTokens_ (gov_params info_) with
    | None => true
    | Some p => sale_refused height (sg_StartSellingAt p) (sg_SellingWithin p) (govTokensSold a) (bsr_Amount md) (GOVTokensToSell p)
    end in
  _ ← (if refused : bool then mret tt else update_values (add_gov_tokens (bsr_Amount md) (u64 (bsr_Amount md + BuyPrice md))));
  mret [[Itoa BuyGOVTokenRequestMeta; Itoa shardID; if refused then "refund" else "accepted"; contentStr]].

Definition buildInstructionsForBuyBackBondsReq (shardID : Z) (contentStr : string) : M A (list (list string)) :=
  action ← lift (decoded (Unmarshal (A := BuyBackReqAction)) contentStr);
  height ← lift best_block_height;
  match BuyBacReqkMeta action, PrevMeta action with
  | Some req, Some prev =>
      a ← get;
      let price := TxMeta.BuyBackPrice prev in
      let coins := u64 (bbr_Amount req * price) in
      let refused := (u64 (height + 1) <? u64 (TxMeta.StartSellingAt prev + TxMeta.Maturity prev)) || negb (isGOVFundEnough a coins) in
      _ ← (if refused : bool then mret tt else update_values (add_spent coins 0 0));
      mret [[Itoa BuyBackRequestMeta; Itoa shardID; if refused then "refund" else "accepted";
             Marshal (mkBuyBackInfo (bbr_PaymentAddress req) price (bbr_Amount req) (bb_TxReqID action) (bbr_TokenID req))]]
  | _, _ => gopanic
  end.

(** ** Salaries (salary.go) *)

Definition getShardBlockFee (fees : list Z) : Z := fold_left (fun total fee => u64 (total + fee)) fees 0.
Definition getShardBlockSalary (txs : nat) : Z :=
  u64 (u64 (Z.of_nat txs * SalaryPerTx (gov_params info_)) + BasicSalary (gov_params info_)).
Definition createShardBlockSalaryUpdateAction (salary fee : Z) (payTo : option PaymentAddress) (height : Z) : list (list string) :=
  [[Itoa ShardBlockSalaryRequestMeta; Marshal (mkSalaryInfo salary fee payTo height)]].

Definition buildInstForShardBlockSalaryReq (shardID : Z) (contentStr : string) : M A (list (list string)) :=
  salary ← lift (Unmarshal (A := ShardBlockSalaryInfo) contentStr);
  _ ← update_values (add_spent 0 (ShardBlockFee salary) 0);
  a ← get;
  let enough := isGOVFundEnough a (ShardBlockSalary salary) in
  _ ← (if enough : bool then update_values (add_spent 0 0 (ShardBlockSalary salary)) else mret tt);
  mret [[Itoa ShardBlockSalaryRequestMeta; Itoa shardID; if enough then "accepted" else "fundNotEnough"; contentStr]].

(** ** The reserve (reserve.go) *)

(** A map without entries stands for a nil map. *)
Definition buildInstTypeAndAmountForContractingAction (md : ContractingRequest) : M A (string * Z) :=
  let currency := contracting_CurrencyType md in
  let burned := BurnedConstAmount md in
  let oracle := Oracle_ info_ in
  if bool_decide (currency = USDAssetID) then mret ("accepted", u64 (burned * Constant oracle))
  else
    height ← lift best_block_height;
    match SpendReserve (dcb_params info_) !! currency with
    | None => mret ("refund", 0)
    | Some None => gopanic
    | Some (Some r) =>
        a ← get;
        if (sr_EndBlock r <? u64 (height + 1)) || (sr_Amount r <? u64 (burned + constantsBurnedByETH a)) then mret ("refund", 0)
        else if bool_decide (currency = ETHAssetID) && (ETH oracle <? ReserveMinPrice r) then mret ("refund", 0)
        else
          redeemAmount ← lift (CentInMilliEther (u64 (burned * Constant oracle)) (ETH oracle));
          _ ← update_values (add_burned burned);
          mret ("accepted", redeemAmount)
    end.

Definition buildInstructionsForContractingReq (shardID : Z) (contentStr : string) : M A (list (list string)) :=
  action ← lift (decoded (Unmarshal (A := ContractingReqAction)) contentStr);
  let md := con_Meta action in
  r ← buildInstTypeAndAmountForContractingAction md;
  mret [[Itoa ContractingRequestMeta; Itoa shardID; fst r;
         Marshal (mkContractingInfo (TxMeta.BurnerAddress md) (BurnedConstAmount md) (snd r) (con_TxReqID action) (contracting_CurrencyType md))]].

(** The price is divided by before the reserve is looked at. *)
Definition buildInstTypeAndAmountForIssuingAction (md : IssuingRequest) : M A (string * Z) :=
  let oracle := Oracle_ info_ in
  if bool_decide (AssetType md = ConstantID) then amount ← lift (go_div (DepositedAmount md) (Constant oracle)); mret ("accepted", amount)
  else
    height ← lift best_block_height;
    let raise := RaiseReserve (dcb_params info_) in
    if bool_decide (raise = ∅) then mret ("refund", 0)
    else
      a ← get;
      let isOnUSD := bool_decide (issuing_CurrencyType md = USDAssetID) in
      let isOnETH := bool_decide (issuing_CurrencyType md = ETHAssetID) in
      reqAmt ← lift (if isOnUSD then go_div (DepositedAmount md) (DCBToken oracle)
                     else if isOnETH then go_div (MilliEtherValue (DepositedAmount md) (ETH oracle)) (DCBToken oracle) else Ok 0);
      let reserve := if isOnUSD then raise !! USDAssetID else if isOnETH then raise !! ETHAssetID else None in
      let dcbTokensNeeded := u64 (reqAmt + (if isOnUSD then dcbTokensSoldByUSD a else dcbTokensSoldByETH a)) in
      match reserve with
      | None => mret ("refund", 0)
      | Some None => gopanic
      | Some (Some r) =>
          if (rr_EndBlock r <? u64 (height + 1)) || (rr_Amount r =? 0) || (rr_Amount r <? dcbTokensNeeded) then mret ("refund", 0)
          else
            _ ← update_values (if isOnUSD then add_dcb_tokens reqAmt 0 else add_dcb_tokens 0 reqAmt);
            mret ("accepted", reqAmt)
      end.

(** The instruction is for the shard of the receiver. *)
Definition buildInstructionsForIssuingReq (contentStr : string) : M A (list (list string)) :=
  action ← lift (decoded (Unmarshal (A := IssuingReqAction)) contentStr);
  let md := iss_Meta action in
  r ← buildInstTypeAndAmountForIssuingAction md;
  mret [[Itoa IssuingRequestMeta; Itoa (ReceiverShardID action); fst r;
         Marshal (mkIssuingInfo (TxMeta.ReceiverAddress md) (snd r) (iss_TxReqID action) (AssetType md) (issuing_CurrencyType md))]].

(** ** Crowd sales (dcbbeaconproducer.go, crowdsaleutils.go) *)

Definition getAssetPrice (assetID : Hash) : Z :=
  let oracle := Oracle_ info_ in
  if IsBondAsset assetID then default 0 (Bonds oracle !! Hashes.String assetID)
  else if IsConstantAsset assetID then Constant oracle
  else if bool_decide (assetID = DCBTokenID) then DCBToken oracle
  else if bool_decide (assetID = GOVTokenID) then GOVToken oracle
  else if bool_decide (assetID = ETHAssetID) then ETH oracle
  else if bool_decide (assetID = BTCAssetID) then BTC oracle
  else 0.

(** The error of the deserialization is ignored and the key used. *)
Definition dcb_shard : outcome Z :=
  match Wallet.Base58CheckDeserialize DCBAddress [] with
  | Ok k => match last (Pk (KeySet_Address (Wallet.Wallet_KeySet k))) with Some b => Ok (GetShardIDFromLastByte b) | None => Panic end
  | _ => Panic
  end.
Definition generateCrowdsalePaymentInstruction (p : CrowdsalePaymentInstruction) : outcome (list (list string)) :=
  shard ← dcb_shard; Ok [[Itoa CrowdsalePaymentMeta; Itoa shard; Marshal p]].

(** What a request gets: a refund, or an amount and the sale that is left. *)
Inductive SaleResult : Type :=
  | Refunded
  | Sold (paymentAmount : Z) (rest : SaleData).

Definition or_price (price dflt : Z) : Z := if price =? 0 then dflt else price.
Definition sell (priceLimit : Z) (limitSell : bool) (sentAmount : Z) (d : SaleData) : SaleResult :=
  let buyPrice := or_price (getAssetPrice (BuyingAsset d)) (DefaultBuyPrice d) in
  let sellPrice := or_price (getAssetPrice (SellingAsset d)) (DefaultSellPrice d) in
  if (buyPrice =? 0) || (sellPrice =? 0) then Refunded
  else if limitSell && (priceLimit <? sellPrice) then Refunded
  else if negb limitSell && (buyPrice <? priceLimit) then Refunded
  else
    let sent := u64 (sentAmount * buyPrice) in
    let sentAssetValue := if IsConstantAsset (BuyingAsset d) then sent / 100 else sent in
    let amount := sentAssetValue / sellPrice in
    let paymentAmount := if IsConstantAsset (SellingAsset d) then u64 (amount * 100) else amount in
    if (BuyingAmount d <? sentAmount) || (SellingAmount d <? paymentAmount) then Refunded
    else Sold paymentAmount (sale_less sentAmount paymentAmount d).

Definition buildPaymentInstructionForCrowdsale (key : string) (r : CrowdsaleRequestAction) (d : SaleData) : M A (list (list string)) :=
  match sell (PriceLimit r) (LimitSell r) (cr_SentAmount r) d with
  | Refunded => lift (generateCrowdsalePaymentInstruction
      (mkCrowdsalePayment (cr_PaymentAddress r) (cr_SentAmount r) (BuyingAsset d) (SaleID d) 0 false))
  | Sold paymentAmount rest =>
      _ ← update_values (set_sale key (Some rest));
      lift (generateCrowdsalePaymentInstruction
        (mkCrowdsalePayment (cr_PaymentAddress r) paymentAmount (SellingAsset d) (SaleID d) (cr_SentAmount r) true))
  end.

Definition buildInstructionsForCrowdsaleRequest (contentStr : string) : M A (list (list string)) :=
  r ← lift (Unmarshal (A := CrowdsaleRequestAction) contentStr);
  let key := getSaleDataKeyBeacon (cr_SaleID r) in
  a ← get;
  saleData ← lift (match saleDataMap a !! key with
    | Some d => Ok d
    | None => match Params best !! key with
              | Some value => match Unmarshal (A := SaleData) value with Ok d => Ok (Some d) | Err _ => Ok None | Panic => Panic end
              | None => Err "SaleID not exist"
              end
    end);
  _ ← update_values (set_sale key saleData);
  match saleData with
  | None => gopanic
  | Some d =>
      if IsOffChainAsset (SellingAsset d) || IsOffChainAsset (BuyingAsset d) then mret []
      else buildPaymentInstructionForCrowdsale key r d
  end.

Definition buildPassThroughInstruction (receivedType : Z) (contentStr : string) : list (list string) :=
  [[Itoa receivedType; Itoa BeaconOnly; contentStr]].

(** The new constitutions of both kinds carry what their updates carry. *)
Definition buildUpdateConstitutionIns (inst : string) (boardType : Z) : outcome (list (list string)) :=
  if boardType =? DCBBoard then ins ← Unmarshal (A := UpdateDCBIns) inst; Ok [[Itoa UpdateDCBConstitutionIns; Itoa (-1); Marshal ins]]
  else ins ← Unmarshal (A := UpdateGOVIns) inst; Ok [[Itoa UpdateGOVConstitutionIns; Itoa (-1); Marshal ins]].
End Build.

(** ** The instructions of the beacon (stability.go) *)

Section Instructions.
Context {sha : Sha256} {json : StabilityJson} {vjson : VotingJson} {S : Type} {lvdb : LevelDB S} {lookup : VoteLookup S}.
Context (visit_table : gmap Hash (gmap bytes Z) -> list (Hash * gmap bytes Z))
  (visit_amounts : gmap bytes Z -> list (bytes * Z)).
(** The node's best state, which votes are counted against. *)
Context (chain_best : BestStateBeacon Info).
#[local] Abbreviation State := (accumulativeValues * S)%type.

Definition on_values {T} (m : M accumulativeValues T) : M State T := fun s => let '(a, r) := m (fst s) in ((a, snd s), r).
Definition on_votes {T} (m : M S T) : M State T := fun s => let '(d, r) := m (snd s) in ((fst s, d), r).
Definition vote (m : M S unit) : M State (list (list string)) := _ ← on_votes m; mret [].

Definition voting : M State (list (list string)) :=
  height ← lift (best_block_height chain_best);
  on_votes (generateVotingInstructionWOIns visit_table visit_amounts (StabilityInfo chain_best) height).

(** What a kind of instruction becomes; [None] is for the kinds that are skipped. *)
Definition build_one (best : BestStateBeacon Info) (shardID metaType : Z) (inst : list string) (contentStr : string) : option (M State (list (list string))) :=
  let i := StabilityInfo chain_best in
  let with2 (f : string -> M S unit) := v ← lift (at_index inst 2); vote (f v) in
  if bool_decide (metaType ∈ [LoanRequestMeta; LoanResponseMeta; LoanWithdrawMeta; LoanPaymentMeta; DividendSubmitMeta]) then
    Some (mret (buildPassThroughInstruction metaType contentStr))
  else if metaType =? BuyFromGOVRequestMeta then Some (on_values (buildInstructionsForBuyBondsFromGOVReq best shardID contentStr))
  else if metaType =? BuyGOVTokenRequestMeta then Some (on_values (buildInstructionsForBuyGOVTokensReq best shardID contentStr))
  else if metaType =? CrowdsaleRequestMeta then Some (on_values (buildInstructionsForCrowdsaleRequest best contentStr))
  else if metaType =? BuyBackRequestMeta then Some (on_values (buildInstructionsForBuyBackBondsReq best shardID contentStr))
  else if metaType =? IssuingRequestMeta then Some (on_values (buildInstructionsForIssuingReq best contentStr))
  else if metaType =? ContractingRequestMeta then Some (on_values (buildInstructionsForContractingReq best shardID contentStr))
  else if metaType =? ShardBlockSalaryRequestMeta then Some (on_values (buildInstForShardBlockSalaryReq best shardID contentStr))
  else if metaType =? NewDCBConstitutionIns then Some (v ← lift (at_index inst 2); lift (buildUpdateConstitutionIns v DCBBoard))
  else if metaType =? NewGOVConstitutionIns then Some (v ← lift (at_index inst 2); lift (buildUpdateConstitutionIns v GOVBoard))
  else if (metaType =? VoteDCBBoardIns) || (metaType =? VoteGOVBoardIns) then Some (with2 (AddVoteDCBBoard i))
  else if metaType =? SealedLv1Or2VoteProposalIns then Some (with2 (AddVoteLv1or2Proposal i))
  else if metaType =? SealedLv3VoteProposalIns then Some (with2 (AddVoteLv3Proposal i))
  else if metaType =? NormalVoteProposalFromSealerIns then Some (with2 (AddNormalVoteProposalFromSealer i))
  else if metaType =? NormalVoteProposalFromOwnerIns then Some (with2 (AddNormalVoteProposalFromOwner i))
  else if metaType =? PunishDecryptIns then Some (mret [])
  else None.

Definition build_step (best : BestStateBeacon Info) (shardID : Z) (inst : list string) : M State (list (list string)) :=
  action ← lift (at_index inst 0);
  if bool_decide (action ∈ ["stake"; "swap"; "random"]) then mret []
  else
    metaType ← lift (Atoi action);
    contentStr ← lift (at_index inst 1);
    match build_one best shardID metaType inst contentStr with Some m => m | None => mret [] end.

Fixpoint build_loop (best : BestStateBeacon Info) (shardID : Z) (insts : list (list string)) : M State (list (list string)) :=
  match insts with
  | [] => mret []
  | inst :: insts => here ← build_step best shardID inst; rest ← build_loop best shardID insts; mret (here ++ rest)
  end.

Definition buildStabilityInstructions (best : BestStateBeacon Info) (shardID : Z) (insts : list (list string)) : M State (list (list string)) :=
  votingInstruction ← voting;
  built ← build_loop best shardID insts;
  mret (votingInstruction ++ built).

(** The values of a block start from none, the store from what the node has. *)
#[export] Instance instruction_builder (store : S) : InstructionBuilder Info State := {|
  no_values := (no_accumulated, store);
  build_instructions := fun shardID insts best s =>
    match buildStabilityInstructions best shardID insts s with
    | (s', Ok l) => Ok (l, s') | (_, Err e) => Err e | (_, Panic) => Panic
    end |}.
End Instructions.

(** ** The instructions of a shard (stability.go) *)

Section Actions.
Context {json : StabilityJson} {vjson : VotingJson} {T : Type}.
(** What the metadata of a transaction asks for, if it has one, and the transaction's fee; the
    proposals that were accepted, whose instruction is not implemented, panic. *)
Context (BuildReqActions : T -> option (outcome (list (list string)))) (GetTxFee : T -> Z).

Fixpoint request_actions (txs : list T) : outcome (list (list string)) :=
  match txs with
  | [] => Ok []
  | tx :: txs =>
      match BuildReqActions tx with
      | Some Panic => Panic
      | Some (Ok actions) => rest ← request_actions txs; Ok (actions ++ rest)
      | _ => request_actions txs
      end
  end.

(** An instruction for the shard is answered with one that is empty. *)
Definition answer (shardID : Z) (l : list string) : outcome (list (list string)) :=
  l1 ← at_index l 1;
  shardToProcess ← or_fail (Atoi l1);
  if shardToProcess =? shardID then
    l0 ← at_index l 0;
    metaType ← or_fail (Atoi l0);
    if (metaType =? AcceptDCBProposalIns) || (metaType =? AcceptGOVProposalIns) then Panic else Ok [[]]
  else Ok [].

Fixpoint answers (shardID : Z) (insts : list (list string)) : outcome (list (list string)) :=
  match insts with
  | [] => Ok []
  | l :: insts => here ← answer shardID l; rest ← answers shardID insts; Ok (here ++ rest)
  end.

Definition buildStabilityActions (best : BestStateBeacon Info) (txs : list T) (shardID : Z) (producer : option PaymentAddress)
    (shardBlockHeight : Z) (beaconBlocks : list BeaconBlock) : outcome (list (list string)) :=
  actions ← request_actions txs;
  let totalFee := getShardBlockFee (map GetTxFee txs) in
  let totalSalary := getShardBlockSalary best (length txs) in
  let salary := if (totalFee =? 0) && (totalSalary =? 0) then []
                else createShardBlockSalaryUpdateAction totalSalary totalFee producer shardBlockHeight in
  responses ← answers shardID (concat (map (fun b => Instructions (Body b)) beaconBlocks));
  Ok (actions ++ salary ++ responses).
End Actions.

(** ** What a step returns, and what it leaves alone *)

Definition yields {S A} (Q : A -> Prop) (m : M S A) : Prop := forall s s' a, m s = (s', Ok a) -> Q a.

Lemma yields_bind {S A B} (Q : B -> Prop) (m : M S A) (k : A -> M S B) : (forall a, yields Q (k a)) -> yields Q (m ≫= k).
Proof. intros Hk s s' b H. apply M_bind_ok in H as (s1 & a & _ & H). by eapply Hk. Qed.
Lemma yields_then {S A B} (P : A -> Prop) (Q : B -> Prop) (m : M S A) (k : A -> M S B) :
  yields P m -> (forall a, P a -> yields Q (k a)) -> yields Q (m ≫= k).
Proof. intros Hm Hk s s' b H. apply M_bind_ok in H as (s1 & a & H1 & H). eapply Hk; [by eapply Hm|done]. Qed.
Lemma yields_ret {S A} (Q : A -> Prop) a : Q a -> yields (S := S) Q (mret a).
Proof. by intros Hq s s' b [= <- <-]. Qed.
Lemma yields_lift {S A} (Q : A -> Prop) o : (forall a, o = Ok a -> Q a) -> yields (S := S) Q (lift o).
Proof. intros Hq s s' b [= <- H]. by apply Hq. Qed.
Lemma yields_panic {S A} (Q : A -> Prop) : yields (S := S) Q gopanic.
Proof. by intros s s' b H. Qed.

Ltac yielding :=
  repeat lazymatch goal with
  | |- yields _ (mret _) => apply yields_ret
  | |- yields _ gopanic => apply yields_panic
  | |- yields _ (_ ≫= _) => apply yields_bind; intros ?; cbv beta
  | |- yields _ (let '(_, _) := ?x in _) => destruct x
  | |- yields _ (match ?x with _ => _ end) => destruct x
  end.

(** The first string of an instruction. *)
Definition head_in (types : list Z) (inst : list string) : Prop := exists t, t ∈ types /\ inst !! 0%nat = Some (Itoa t).

Lemma head_single (types : list Z) t l : t ∈ types -> Forall (head_in types) [Itoa t :: l].
Proof. intros Ht. repeat constructor. by exists t. Qed.

Lemma head_in_not types t inst : head_in types inst -> t ∉ types -> inst !! 0%nat <> Some (Itoa t).
Proof. intros (t' & Ht & ->) Hn [= E]. apply Itoa_inj in E. by subst. Qed.

Section Heads.
Context {sha : Sha256} {json : StabilityJson} {vjson : VotingJson}.

(** The types that shard instructions become, those of purchases of bonds apart. *)
Definition other_types : list Z :=
  [LoanRequestMeta; LoanResponseMeta; LoanWithdrawMeta; LoanPaymentMeta; DividendSubmitMeta; BuyGOVTokenRequestMeta; CrowdsalePaymentMeta;
   BuyBackRequestMeta; IssuingRequestMeta; ContractingRequestMeta; ShardBlockSalaryRequestMeta; UpdateDCBConstitutionIns; UpdateGOVConstitutionIns].

Ltac member := repeat first [left; reflexivity | right].
Ltac heads := yielding; try (apply head_single; member).

Lemma gov_tokens_heads best shardID c : yields (Forall (head_in other_types)) (buildInstructionsForBuyGOVTokensReq best shardID c).
Proof. unfold buildInstructionsForBuyGOVTokensReq. heads. Qed.
Lemma buyback_heads best shardID c : yields (Forall (head_in other_types)) (buildInstructionsForBuyBackBondsReq best shardID c).
Proof. unfold buildInstructionsForBuyBackBondsReq. heads. Qed.
Lemma salary_heads best shardID c : yields (Forall (head_in other_types)) (buildInstForShardBlockSalaryReq best shardID c).
Proof. unfold buildInstForShardBlockSalaryReq. heads. Qed.
Lemma contracting_heads best shardID c : yields (Forall (head_in other_types)) (buildInstructionsForContractingReq best shardID c).
Proof. unfold buildInstructionsForContractingReq. heads. Qed.
Lemma issuing_heads best c : yields (Forall (head_in other_types)) (buildInstructionsForIssuingReq best c).
Proof. unfold buildInstructionsForIssuingReq. heads. Qed.
Lemma payment_heads p l : generateCrowdsalePaymentInstruction p = Ok l -> Forall (head_in other_types) l.
Proof. unfold generateCrowdsalePaymentInstruction. destruct dcb_shard; [|done..]. intros [= <-]. apply head_single. member. Qed.
Lemma crowdsale_heads best c : yields (Forall (head_in other_types)) (buildInstructionsForCrowdsaleRequest best c).
Proof.
  unfold buildInstructionsForCrowdsaleRequest, buildPaymentInstructionForCrowdsale. yielding; try apply Forall_nil_2.
  all: apply yields_lift; intros l Hl; by apply payment_heads in Hl.
Qed.
Lemma constitution_heads inst b l : buildUpdateConstitutionIns inst b = Ok l -> Forall (head_in other_types) l.
Proof.
  unfold buildUpdateConstitutionIns. destruct (_ =? _); destruct (Unmarshal inst); try done; intros [= <-]; apply head_single; member.
Qed.
End Heads.

(** ** Instructions that leave something of the best state alone *)

Section Frames.
Context {json : StabilityJson}.
#[local] Abbreviation PState := (gmap string string * Info)%type.

Lemma preserves_ret {S A} (P : S -> Prop) (a : A) : preserves P (mret (M := M S) a).
Proof. by intros s Hs. Qed.
Lemma preserves_gopanic {S A} (P : S -> Prop) : preserves P (gopanic (S := S) (A := A)).
Proof. by intros s Hs. Qed.
Lemma preserves_throw {S A} (P : S -> Prop) e : preserves P (throw (S := S) (A := A) e).
Proof. by intros s Hs. Qed.
Lemma preserves_lift {S A} (P : S -> Prop) (o : outcome A) : preserves P (lift (S := S) o).
Proof. by intros s Hs. Qed.
Lemma preserves_look {S} (P : S -> Prop) : preserves P (get (S := S)).
Proof. by intros s Hs. Qed.
Lemma preserves_info {V} (f : Info -> V) v g : (forall i, f (g i) = f i) ->
  preserves (fun s : PState => f (snd s) = v) (update_info g).
Proof. intros Hg s Hs. cbn. by rewrite Hg. Qed.
Lemma preserves_param {V} (f : Info -> V) v k x : preserves (fun s : PState => f (snd s) = v) (put_param k x).
Proof. by intros s Hs. Qed.

Ltac keeping :=
  repeat lazymatch goal with
  | |- preserves _ (mret _) => apply preserves_ret
  | |- preserves _ gopanic => apply preserves_gopanic
  | |- preserves _ (throw _) => apply preserves_throw
  | |- preserves _ (lift _) => apply preserves_lift
  | |- preserves _ (field _ _) => apply preserves_lift
  | |- preserves _ get => apply preserves_look
  | |- preserves _ (update_info _) => apply preserves_info; intros []; try reflexivity
  | |- preserves _ (put_param _ _) => apply preserves_param
  | |- preserves _ (_ ≫= _) => apply preserves_bind; [|intros ?; cbv beta]
  | |- preserves _ (match ?x with _ => _ end) => destruct x
  end.

(** The boards change with the instructions that accept a board, and with no others. *)
Definition boards (i : Info) : GovernorInfo * GovernorInfo := (DCBGovernor i, GOVGovernor i).

Lemma action_ne (action : string) (inst : list string) (t : Z) : at_index inst 0 = Ok action -> inst !! 0%nat <> Some (Itoa t) ->
  String.eqb action (Itoa t) = false.
Proof.
  unfold at_index. change (0 <? 0) with false. change (Z.to_nat 0) with 0%nat. destruct (inst !! 0%nat) as [x|]; [|done].
  intros [= ->] H. apply String.eqb_neq. congruence.
Qed.

Ltac handler := unfold process_init, processLoanRequestInstruction, processLoanResponseInstruction, processDividendSubmitInstruction,
  aggregate_dividend, processCrowdsalePaymentInstruction, processBuyFromGOVReqInstruction, processBuyBackReqInstruction,
  processBuyGOVTokenReqInstruction, processIssuingReqInstruction, processContractingReqInstruction, processSalaryUpdateInstruction,
  accept_board, UpdateDCBBoard, UpdateGOVBoard; keeping.

Lemma process_keeps_boards height inst v : inst !! 0%nat <> Some (Itoa AcceptDCBBoardIns) -> inst !! 0%nat <> Some (Itoa AcceptGOVBoardIns) ->
  preserves (fun s => boards (snd s) = v) (processStabilityInstruction height inst).
Proof.
  intros H1 H2 s Hs. unfold processStabilityInstruction, field. unfold mbind, M_bind, lift. destruct (at_index inst 0) as [action|e|] eqn:E; [|exact Hs..].
  rewrite (action_ne action inst AcceptDCBBoardIns E H1), (action_ne action inst AcceptGOVBoardIns E H2). revert s Hs.
  change (preserves (fun s => boards (snd s) = v) (if String.eqb action "init" then process_init inst
    else if (length inst <? 2)%nat then mret tt
    else if String.eqb action (Itoa LoanRequestMeta) then processLoanRequestInstruction inst
    else if String.eqb action (Itoa LoanResponseMeta) then processLoanResponseInstruction inst
    else if String.eqb action (Itoa DividendSubmitMeta) then processDividendSubmitInstruction inst
    else if String.eqb action (Itoa CrowdsalePaymentMeta) then processCrowdsalePaymentInstruction inst
    else if String.eqb action (Itoa BuyFromGOVRequestMeta) then processBuyFromGOVReqInstruction inst
    else if String.eqb action (Itoa BuyBackRequestMeta) then processBuyBackReqInstruction inst
    else if String.eqb action (Itoa BuyGOVTokenRequestMeta) then processBuyGOVTokenReqInstruction inst
    else if String.eqb action (Itoa IssuingRequestMeta) then processIssuingReqInstruction inst
    else if String.eqb action (Itoa ContractingRequestMeta) then processContractingReqInstruction inst
    else if String.eqb action (Itoa ShardBlockSalaryRequestMeta) then processSalaryUpdateInstruction inst
    else mret tt)).
  handler; by case_match.
Qed.

(** The bonds on sale change with the accepted purchases, and with no other instruction that
    is made from those of a shard. *)
Definition bonds_on_sale (i : Info) : option SellingBonds := SellingBonds_ (gov_params i).

Lemma bonds_set_gov p i : bonds_on_sale (set_gov p i) = SellingBonds_ p.
Proof. done. Qed.
Lemma gov_number_bonds name z p : SellingBonds_ (set_gov_number name z p) = SellingBonds_ p.
Proof. unfold set_gov_number. by repeat case_match. Qed.

Lemma process_keeps_bonds height inst v : inst !! 0%nat <> Some (Itoa BuyFromGOVRequestMeta) ->
  preserves (fun s => bonds_on_sale (snd s) = v) (processStabilityInstruction height inst).
Proof.
  intros H1 s Hs. unfold processStabilityInstruction, field. unfold mbind, M_bind, lift. destruct (at_index inst 0) as [action|e|] eqn:E; [|exact Hs..].
  rewrite (action_ne action inst BuyFromGOVRequestMeta E H1). revert s Hs.
  change (preserves (fun s => bonds_on_sale (snd s) = v) (if String.eqb action "init" then process_init inst
    else if (length inst <? 2)%nat then mret tt
    else if String.eqb action (Itoa LoanRequestMeta) then processLoanRequestInstruction inst
    else if String.eqb action (Itoa LoanResponseMeta) then processLoanResponseInstruction inst
    else if String.eqb action (Itoa AcceptDCBBoardIns) then accept_board (UpdateDCBBoard height) inst
    else if String.eqb action (Itoa AcceptGOVBoardIns) then accept_board (UpdateGOVBoard height) inst
    else if String.eqb action (Itoa DividendSubmitMeta) then processDividendSubmitInstruction inst
    else if String.eqb action (Itoa CrowdsalePaymentMeta) then processCrowdsalePaymentInstruction inst
    else if String.eqb action (Itoa BuyBackRequestMeta) then processBuyBackReqInstruction inst
    else if String.eqb action (Itoa BuyGOVTokenRequestMeta) then processBuyGOVTokenReqInstruction inst
    else if String.eqb action (Itoa IssuingRequestMeta) then processIssuingReqInstruction inst
    else if String.eqb action (Itoa ContractingRequestMeta) then processContractingReqInstruction inst
    else if String.eqb action (Itoa ShardBlockSalaryRequestMeta) then processSalaryUpdateInstruction inst
    else mret tt)).
  handler; first [by rewrite bonds_set_gov, gov_number_bonds | by case_match].
Qed.
End Frames.

Section Built.
Context {sha : Sha256} {json : StabilityJson} {vjson : VotingJson} {S : Type} {lvdb : LevelDB S} {lookup : VoteLookup S}.
Context (visit_table : gmap Hash (gmap bytes Z) -> list (Hash * gmap bytes Z))
  (visit_amounts : gmap bytes Z -> list (bytes * Z)).
#[local] Abbreviation PState := (gmap string string * Info)%type.

Definition built_types : list Z := BuyFromGOVRequestMeta :: other_types.

Lemma heads_weaken l : Forall (head_in other_types) l -> Forall (head_in built_types) l.
Proof. intros Hl. eapply Forall_impl; [exact Hl|]. intros inst (t & Ht & H). exists t. split; [by right|done]. Qed.

Lemma on_values_yields {T} (Q : T -> Prop) (m : M accumulativeValues T) : yields Q m -> yields (S := accumulativeValues * S) Q (on_values m).
Proof. intros Hm s s' t. unfold on_values. destruct (m (fst s)) as [a r] eqn:E. intros [= _ ->]. by eapply Hm. Qed.

Lemma bonds_heads best shardID c : yields (Forall (head_in built_types)) (buildInstructionsForBuyBondsFromGOVReq best shardID c).
Proof. unfold buildInstructionsForBuyBondsFromGOVReq. yielding. all: apply head_single; left. Qed.

Lemma yields_vote (m : M S unit) : yields (Forall (head_in built_types)) (vote m).
Proof. unfold vote. yielding. apply Forall_nil_2. Qed.

Lemma built_heads chain_best best shardID inst :
  yields (Forall (head_in built_types)) (build_step (lvdb := lvdb) chain_best best shardID inst).
Proof.
  unfold build_step. apply yields_bind. intros action. destruct (bool_decide _); [apply yields_ret, Forall_nil_2|].
  apply yields_bind. intros metaType. apply yields_bind. intros c. unfold build_one.
  case_bool_decide as Hp.
  { apply yields_ret, head_single. rewrite !elem_of_cons in Hp. right. unfold other_types. rewrite !elem_of_cons. tauto. }
  assert (forall f : string -> M S unit, yields (Forall (head_in built_types)) (v ← lift (at_index inst 2); vote (f v))) as Hv.
  { intros f. apply yields_bind. intros v. apply yields_vote. }
  assert (forall b, yields (S := accumulativeValues * S) (Forall (head_in built_types)) (v ← lift (at_index inst 2); lift (buildUpdateConstitutionIns v b))) as Hc.
  { intros b. apply yields_bind. intros v. apply yields_lift. intros l Hl. apply heads_weaken. by eapply constitution_heads. }
  assert (forall m : M accumulativeValues (list (list string)), yields (Forall (head_in other_types)) m -> yields (S := accumulativeValues * S) (Forall (head_in built_types)) (on_values m)) as Ho.
  { intros m Hm s s' l H. apply heads_weaken. by eapply on_values_yields. }
  destruct (_ =? BuyFromGOVRequestMeta); [apply on_values_yields, bonds_heads|].
  destruct (_ =? BuyGOVTokenRequestMeta); [apply Ho, gov_tokens_heads|].
  destruct (_ =? CrowdsaleRequestMeta); [apply Ho, crowdsale_heads|].
  destruct (_ =? BuyBackRequestMeta); [apply Ho, buyback_heads|].
  destruct (_ =? IssuingRequestMeta); [apply Ho, issuing_heads|].
  destruct (_ =? ContractingRequestMeta); [apply Ho, contracting_heads|].
  destruct (_ =? ShardBlockSalaryRequestMeta); [apply Ho, salary_heads|].
  repeat match goal with |- yields _ (match (if ?b then _ else _) with _ => _ end) => destruct b; [first [apply Hc | apply Hv | apply yields_ret, Forall_nil_2]|] end.
  apply yields_ret, Forall_nil_2.
Qed.

Lemma loop_heads chain_best best shardID insts :
  yields (Forall (head_in built_types)) (build_loop (lvdb := lvdb) chain_best best shardID insts).
Proof.
  induction insts as [|inst insts IH]; cbn [build_loop]; [apply yields_ret, Forall_nil_2|].
  eapply yields_then; [apply built_heads|]. intros here Hh. eapply yields_then; [apply IH|]. intros rest Hr.
  apply yields_ret. by apply Forall_app.
Qed.

(** ** The boards *)

(** The end of neither board is the next block. *)
Definition no_term_ends (i : Info) (height : Z) : Prop :=
  neededNewGovernor i height DCBBoard = false /\ neededNewGovernor i height GOVBoard = false.

Lemma voting_silent chain_best b : BestBlock (chain chain_best) = Some b -> no_term_ends (StabilityInfo chain_best) (Height_ (Header b)) ->
  yields (eq []) (voting (S := S) visit_table visit_amounts chain_best).
Proof.
  intros Hb [H1 H2] s s' l H. unfold voting, best_block_height in H. rewrite Hb in H. unfold mbind, M_bind, lift, on_votes in H.
  destruct (generateVotingInstructionWOIns _ _ _ _ _) as [d r] eqn:E. injection H as _ ->.
  unfold generateVotingInstructionWOIns in E. rewrite H1, H2 in E.
  apply M_bind_ok in E as (s1 & x1 & [= <- <-] & E). apply M_bind_ok in E as (s2 & x2 & [= <- <-] & E).
  apply M_bind_ok in E as (s3 & x3 & [= <- Hx] & E). cbn in Hx. subst x3.
  apply M_bind_ok in E as (s4 & x4 & _ & E). apply M_bind_ok in E as (s5 & x5 & _ & E). by injection E as _ <-.
Qed.

(** The instructions of a block are applied one by one; an error skips one. *)
Definition process_all (height : Z) (insts : list (list string)) : M PState unit :=
  mfor (fun inst => ignoring (processStabilityInstruction height inst)) insts.

(** One block: instructions made by a node whose boards are those of the state, and applied. *)
Definition block_of (i i' : Info) : Prop :=
  exists chain_best b best shardID insts s s' l height p p' r,
    boards (StabilityInfo chain_best) = boards i /\ BestBlock (chain chain_best) = Some b /\ 0 <= Height_ (Header b) < 2 ^ 64 - 1 /\
    buildStabilityInstructions (lvdb := lvdb) visit_table visit_amounts chain_best best shardID insts s = (s', Ok l) /\
    process_all height l (p, i) = ((p', i'), r).

Lemma preserves_ignoring {A} (P : PState -> Prop) (m : M PState A) : preserves P m -> preserves P (ignoring m).
Proof. intros Hm s Hs. specialize (Hm s Hs). unfold ignoring. by destruct (m s) as [? [| |]]. Qed.

Lemma process_all_boards height l v : Forall (head_in built_types) l -> preserves (fun s => boards (snd s) = v) (process_all height l).
Proof.
  intros Hl. induction Hl as [|inst l Hi _ IH]; [apply preserves_ret|]. apply preserves_bind; [|intros []; apply IH].
  apply preserves_ignoring, process_keeps_boards; eapply head_in_not; try exact Hi; apply (bool_decide_unpack _); vm_compute; exact I.
Qed.

(** C16. The boards never change.  The terms of both boards end at block 0, which is never the
    next one; the instruction that accepts a board is only made at the end of a term, and a
    shard cannot ask for it: whatever the shards send, block after block, the boards stay
    those of the start. *)
Theorem boards_never_change (i i' : Info) :
  EndBlock (DCBGovernor i) = 0 -> EndBlock (GOVGovernor i) = 0 -> rtc block_of i i' ->
  DCBGovernor i' = DCBGovernor i /\ GOVGovernor i' = GOVGovernor i.
Proof using.
  intros H1 H2 Hr. enough (boards i' = boards i) as [= -> ->] by done.
  apply (rtc_invariant block_of (fun j => boards j = boards i) i i' eq_refl); [|done]. clear i' Hr.
  intros j j' Hj (chain_best & b & best & shardID & insts & s & s' & l & height & p & p' & r & Hc & Hb & Hh & Hbuild & Hp).
  assert (Forall (head_in built_types) l) as Hl.
  { unfold buildStabilityInstructions in Hbuild. apply M_bind_ok in Hbuild as (s1 & v & Hv & Hbuild).
    apply M_bind_ok in Hbuild as (s2 & built & Hloop & Hbuild). injection Hbuild as _ <-.
    rewrite Hj in Hc. injection Hc as Hc1 Hc2.
    eapply voting_silent in Hv as <-; [|exact Hb|].
    - by eapply loop_heads.
    - unfold no_term_ends, neededNewGovernor, board, by_board. cbn. rewrite Hc1, Hc2, H1, H2. unfold u64. rewrite Z.mod_small by lia.
      split; apply Z.eqb_neq; lia. }
  rewrite <- Hj. change j' with (snd (p', j')). replace (p', j') with (fst (process_all height l (p, j))) by (by rewrite Hp).
  by apply process_all_boards.
Qed.

(** ** The bonds *)

Definition with_bonds (n : Z) (b : SellingBonds) : SellingBonds :=
  mkSellingBonds (BondName b) (BondSymbol b) (sb_TotalIssue b) n (BondPrice b) (sb_Maturity b) (Params.BuyBackPrice b)
    (sb_StartSellingAt b) (sb_SellingWithin b).

Definition purchase_of (c : string) : outcome BuySellReqAction := decoded (Unmarshal (A := BuySellReqAction)) c.

(** What a purchase becomes; [None] is a refund. *)
Inductive bond_inst : list string -> option Z -> Prop :=
  | bond_refund sh c m : bond_inst [Itoa BuyFromGOVRequestMeta; sh; "refund"; c; m] None
  | bond_accepted sh c m action : purchase_of c = Ok action ->
      bond_inst [Itoa BuyFromGOVRequestMeta; sh; "accepted"; c; m] (Some (bsr_Amount (bs_Meta action))).

(** A list of instructions that sells so many bonds. *)
Inductive sells : list (list string) -> Z -> Prop :=
  | sells_nil : sells [] 0
  | sells_other inst l n : head_in other_types inst -> sells l n -> sells (inst :: l) n
  | sells_bonds inst l o n : bond_inst inst o -> sells l n -> sells (inst :: l) (default 0 o + n).

Lemma sells_app l l' n n' : sells l n -> sells l' n' -> sells (l ++ l') (n + n').
Proof.
  intros H Hl'. induction H as [|inst l n Hi _ IH|inst l o n Hi _ IH]; cbn [app]; [done|by constructor|].
  rewrite <- Z.add_assoc. by constructor.
Qed.
Lemma sells_others l : Forall (head_in other_types) l -> sells l 0.
Proof. induction 1; by constructor. Qed.

Lemma mfor_app {St A} (f : A -> M St unit) l l' s s' :
  mfor f (l ++ l') s = (s', Ok tt) -> exists s1, mfor f l s = (s1, Ok tt) /\ mfor f l' s1 = (s', Ok tt).
Proof.
  revert s. induction l as [|x l IH]; intros s H; [by exists s|]. cbn [app mfor] in *.
  apply M_bind_ok in H as (s1 & [] & H1 & H). apply IH in H as (s2 & H2 & H). exists s2. split; [|done].
  unfold mbind, M_bind. by rewrite H1.
Qed.

(** What is applied of an instruction. *)
Lemma process_purchase height sh t c m :
  processStabilityInstruction height [Itoa BuyFromGOVRequestMeta; sh; t; c; m] = processBuyFromGOVReqInstruction [Itoa BuyFromGOVRequestMeta; sh; t; c; m].
Proof. reflexivity. Qed.

Lemma accept_purchase t sh c m action (s : PState) : purchase_of c = Ok action ->
  processBuyFromGOVReqInstruction [t; sh; "accepted"; c; m] s =
    ((fst s, set_gov (sell_bonds (bsr_Amount (bs_Meta action)) (gov_params (snd s))) (snd s)), Ok tt).
Proof.
  unfold purchase_of, decoded. destruct (base64_decode c) as [bs| |] eqn:Hc; [|done..]. intros Hd.
  unfold processBuyFromGOVReqInstruction, field, mbind, M_bind, lift. change (at_index [t; sh; "accepted"; c; m] 2) with (Ok "accepted").
  change (at_index [t; sh; "accepted"; c; m] 3) with (Ok c). change (String.eqb "accepted" "refund") with false. cbv iota beta. rewrite Hc. cbv iota beta.
  unfold mbind in Hd. cbn [outcome_bind] in Hd. by rewrite Hd.
Qed.

Lemma process_bond height inst o (s s' : PState) b : bond_inst inst o -> bonds_on_sale (snd s) = Some b ->
  ignoring (processStabilityInstruction height inst) s = (s', Ok tt) ->
  bonds_on_sale (snd s') = Some (match o with Some n => with_bonds (u64 (BondsToSell b - n)) b | None => b end).
Proof.
  intros Hi Hb H. unfold ignoring in H. destruct Hi as [sh c m|sh c m action Hd]; rewrite process_purchase in H.
  - by injection H as <-.
  - rewrite (accept_purchase _ _ _ _ _ _ Hd) in H. injection H as <-. unfold bonds_on_sale, gov_params in *. cbn. by rewrite Hb.
Qed.

Lemma u64_sub_sub x y z : u64 (u64 (x - y) - z) = u64 (x - (y + z)).
Proof. unfold u64. rewrite Zminus_mod_idemp_l. f_equal. lia. Qed.

Lemma process_sells height l n : sells l n -> forall (s s' : PState) b, in_u64 (BondsToSell b) ->
  bonds_on_sale (snd s) = Some b -> process_all height l s = (s', Ok tt) ->
  bonds_on_sale (snd s') = Some (with_bonds (u64 (BondsToSell b - n)) b).
Proof.
  induction 1 as [|inst l n Hi _ IH|inst l o n Hi _ IH]; intros s s' b Hb Hs H.
  - injection H as <-. rewrite Z.sub_0_r, u64_id by done. rewrite Hs. by destruct b.
  - apply M_bind_ok in H as (s1 & [] & H1 & H). eapply IH; [done| |done].
    replace s1 with (fst (ignoring (processStabilityInstruction height inst) s)) by (by rewrite H1).
    apply (preserves_ignoring (fun s => bonds_on_sale (snd s) = Some b)), Hs. apply process_keeps_bonds.
    eapply head_in_not; [exact Hi|]. apply (bool_decide_unpack _). vm_compute. exact I.
  - apply M_bind_ok in H as (s1 & [] & H1 & H). pose proof (process_bond height inst o s s1 b Hi Hs H1) as Hs1.
    destruct o as [k|]; cbn [default].
    + rewrite (IH s1 s' (with_bonds (u64 (BondsToSell b - k)) b)); [|apply u64_range|done|done].
      unfold with_bonds. cbn [BondName BondSymbol sb_TotalIssue BondsToSell BondPrice sb_Maturity Params.BuyBackPrice sb_StartSellingAt sb_SellingWithin].
      by rewrite u64_sub_sub.
    + rewrite Z.add_0_l. by apply (IH s1).
Qed.

(** The purchases that the instructions of a shard ask for, and how many bonds are sold after
    them, each served in full or refused, while the sale runs. *)
Definition purchased (inst : list string) : option Z :=
  match inst with
  | action :: c :: _ => match Atoi action, purchase_of c with
                        | Ok t, Ok req => if t =? BuyFromGOVRequestMeta then Some (bsr_Amount (bs_Meta req)) else None
                        | _, _ => None
                        end
  | _ => None
  end.
Definition sale_runs (best : BestStateBeacon Info) (b : SellingBonds) : bool :=
  match best_block_height best with
  | Ok h => (sb_StartSellingAt b <=? h + 1) && (h + 1 <=? sb_StartSellingAt b + sb_SellingWithin b)
  | _ => false
  end.
Definition serve (runs : bool) (toSell sold amount : Z) : Z := if runs && (sold + amount <=? toSell) then sold + amount else sold.
Definition served (best : BestStateBeacon Info) (b : SellingBonds) (sold : Z) (amounts : list Z) : Z :=
  foldl (serve (sale_runs best b) (BondsToSell b)) sold amounts.

(** The heights of the sale do not leave the machine's width. *)
Definition sale_fits (best : BestStateBeacon Info) (b : SellingBonds) : Prop :=
  in_u64 (sb_StartSellingAt b + sb_SellingWithin b) /\ forall h, best_block_height best = Ok h -> in_u64 (h + 1).

Lemma refused_serve best b h sold amount : sale_fits best b -> best_block_height best = Ok h ->
  0 <= sold <= BondsToSell b -> 0 <= amount < 2 ^ 64 - BondsToSell b ->
  serve (sale_runs best b) (BondsToSell b) sold amount =
    if sale_refused h (sb_StartSellingAt b) (sb_SellingWithin b) sold amount (BondsToSell b) then sold else sold + amount.
Proof.
  intros [H1 H2] Hh Hs Ha. unfold serve, sale_runs, sale_refused. rewrite Hh. specialize (H2 h Hh).
  rewrite !u64_id by (unfold in_u64 in *; lia).
  destruct (Z.leb_spec (sb_StartSellingAt b) (h + 1)), (Z.ltb_spec (h + 1) (sb_StartSellingAt b)); try lia;
    destruct (Z.leb_spec (h + 1) (sb_StartSellingAt b + sb_SellingWithin b)),
      (Z.ltb_spec (sb_StartSellingAt b + sb_SellingWithin b) (h + 1)); try lia;
    destruct (Z.leb_spec (sold + amount) (BondsToSell b)), (Z.ltb_spec (BondsToSell b) (sold + amount)); try lia; done.
Qed.

(** What is made of a purchase. *)
Lemma build_bond best shardID c (a a' : accumulativeValues) l b : bonds_on_sale (StabilityInfo best) = Some b ->
  0 <= bondsSold a <= BondsToSell b ->
  (forall action, purchase_of c = Ok action -> 0 <= bsr_Amount (bs_Meta action) < 2 ^ 64 - BondsToSell b) ->
  sale_fits best b -> buildInstructionsForBuyBondsFromGOVReq best shardID c a = (a', Ok l) ->
  sells l (bondsSold a' - bondsSold a) /\ 0 <= bondsSold a' <= BondsToSell b /\
  exists action, purchase_of c = Ok action /\
    bondsSold a' = serve (sale_runs best b) (BondsToSell b) (bondsSold a) (bsr_Amount (bs_Meta action)).
Proof.
  intros Hb Ha Hfit Hsale H. unfold buildInstructionsForBuyBondsFromGOVReq in H. apply M_bind_ok in H as (s1 & action & [-> Hd]%lift_ok & H).
  specialize (Hfit action Hd). apply M_bind_ok in H as (s1 & height & [-> Hh]%lift_ok & H). apply M_bind_ok in H as (s1 & x & [= <- <-] & H).
  change (SellingBonds_ (gov_params (info_ best))) with (bonds_on_sale (StabilityInfo best)) in H. rewrite Hb in H.
  pose proof (refused_serve best b height (bondsSold a) _ Hsale Hh Ha Hfit) as Hserve.
  destruct (sale_refused _ _ _ _ _ _) eqn:Hr.
  - injection H as <- <-. rewrite Z.sub_diag. split; [|split; [done|by exists action]]. apply (sells_bonds _ _ None 0); [constructor|constructor].
  - injection H as <- <-. unfold sale_refused in Hr. apply orb_false_elim in Hr as [_ Hr%Z.ltb_ge]. cbn [bondsSold add_bonds].
    rewrite u64_id in * by (unfold in_u64; lia). split; [|split; [lia|by exists action]].
    replace (bondsSold a + bsr_Amount (bs_Meta action) - bondsSold a) with (default 0 (Some (bsr_Amount (bs_Meta action))) + 0) by (cbn; lia).
    constructor; [by constructor|constructor].
Qed.

Ltac keeping_values :=
  repeat lazymatch goal with
  | |- preserves _ (mret _) => apply preserves_ret
  | |- preserves _ gopanic => apply preserves_gopanic
  | |- preserves _ (throw _) => apply preserves_throw
  | |- preserves _ (lift _) => apply preserves_lift
  | |- preserves _ get => apply preserves_look
  | |- preserves _ (update_values _) => intros ? ?; cbn; repeat case_match; assumption
  | |- preserves _ (_ ≫= _) => apply preserves_bind; [|intros ?; cbv beta]
  | |- preserves _ (match ?x with _ => _ end) => destruct x
  end.

Definition same_sold (n : Z) (a : accumulativeValues) : Prop := bondsSold a = n.

Lemma others_keep best shardID c n :
  preserves (same_sold n) (buildInstructionsForBuyGOVTokensReq best shardID c) /\
  preserves (same_sold n) (buildInstructionsForBuyBackBondsReq best shardID c) /\
  preserves (same_sold n) (buildInstForShardBlockSalaryReq best shardID c) /\
  preserves (same_sold n) (buildInstructionsForContractingReq best shardID c) /\
  preserves (same_sold n) (buildInstructionsForIssuingReq best c) /\
  preserves (same_sold n) (buildInstructionsForCrowdsaleRequest best c).
Proof.
  repeat split.
  all: unfold buildInstructionsForBuyGOVTokensReq, buildInstructionsForBuyBackBondsReq, buildInstForShardBlockSalaryReq,
    buildInstructionsForContractingReq, buildInstTypeAndAmountForContractingAction, buildInstructionsForIssuingReq,
    buildInstTypeAndAmountForIssuingAction, buildInstructionsForCrowdsaleRequest, buildPaymentInstructionForCrowdsale; keeping_values.
Qed.

(** A step whose instructions sell the bonds that it counts as sold, and not more than [N]:
    as many as [f] says. *)
Definition sells_well (N : Z) (f : Z -> Z) (m : M (accumulativeValues * S) (list (list string))) : Prop := forall s s' l,
  0 <= bondsSold (fst s) <= N -> m s = (s', Ok l) ->
  sells l (bondsSold (fst s') - bondsSold (fst s)) /\ 0 <= bondsSold (fst s') <= N /\ bondsSold (fst s') = f (bondsSold (fst s)).

Lemma sells_well_same N (m : M (accumulativeValues * S) (list (list string))) :
  (forall s s' l, m s = (s', Ok l) -> bondsSold (fst s') = bondsSold (fst s) /\ Forall (head_in other_types) l) -> sells_well N id m.
Proof. intros Hm s s' l Hn H. apply Hm in H as [-> Hl]. rewrite Z.sub_diag. split; [by apply sells_others|done]. Qed.

Lemma sells_well_lift {T} N f (o : outcome T) k : (forall x, o = Ok x -> sells_well N f (k x)) -> sells_well N f (x ← lift o; k x).
Proof. intros Hk s s' l Hn H. apply M_bind_ok in H as (s1 & x & [-> Hx]%lift_ok & H). by eapply Hk. Qed.

Lemma sells_well_ext N f g (m : M (accumulativeValues * S) (list (list string))) :
  (forall sold, g sold = f sold) -> sells_well N f m -> sells_well N g m.
Proof. intros Hfg Hm s s' l Hn H. rewrite Hfg. by apply Hm. Qed.

Lemma sells_well_none N : sells_well N id (mret []).
Proof. apply sells_well_same. intros s s' l [= <- <-]. by split. Qed.

Lemma sells_well_values N (m : M accumulativeValues (list (list string))) :
  (forall n, preserves (same_sold n) m) -> yields (Forall (head_in other_types)) m -> sells_well N id (on_values m).
Proof.
  intros Hk Hy. apply sells_well_same. intros s s' l H. unfold on_values in H. destruct (m (fst s)) as [a r] eqn:E.
  injection H as <- ->. split; [|by eapply Hy]. pose proof (Hk (bondsSold (fst s)) (fst s) eq_refl) as Ha. by rewrite E in Ha.
Qed.

Lemma sells_well_vote N (m : M S unit) : sells_well N id (vote m).
Proof.
  apply sells_well_same. unfold vote. intros s s' l H. apply M_bind_ok in H as (s1 & [] & H & [= <- <-]). unfold on_votes in H.
  destruct (m (snd s)) as [d r]. by injection H as <- _.
Qed.

(** The amounts asked for in the instructions of a shard. *)
Definition amounts_fit (N : Z) (insts : list (list string)) : Prop := forall inst c action, inst ∈ insts ->
  inst !! 1%nat = Some c -> purchase_of c = Ok action -> 0 <= bsr_Amount (bs_Meta action) < 2 ^ 64 - N.

Lemma build_one_sells chain_best best shardID metaType inst c b : bonds_on_sale (StabilityInfo best) = Some b ->
  (forall action, purchase_of c = Ok action -> 0 <= bsr_Amount (bs_Meta action) < 2 ^ 64 - BondsToSell b) ->
  sale_fits best b -> sells_well (BondsToSell b)
    (if metaType =? BuyFromGOVRequestMeta then fun sold => match purchase_of c with
       | Ok req => served best b sold [bsr_Amount (bs_Meta req)] | _ => sold end else id)
    (match build_one (lvdb := lvdb) chain_best best shardID metaType inst c with Some m => m | None => mret [] end).
Proof.
  intros Hb Hfit Hsale. pose proof (others_keep best shardID c) as Hk. unfold build_one. case_bool_decide as Hp.
  { rewrite (proj2 (Z.eqb_neq metaType BuyFromGOVRequestMeta)) by (intros ->; revert Hp; apply (bool_decide_unpack _); vm_compute; exact Logic.I).
    apply sells_well_same. intros s s' l [= <- <-]. split; [done|]. apply head_single. unfold other_types. rewrite !elem_of_cons in *. tauto. }
  assert (forall f : string -> M S unit, sells_well (BondsToSell b) id (v ← lift (at_index inst 2); vote (f v))) as Hv.
  { intros f. apply sells_well_lift. intros v _. apply sells_well_vote. }
  assert (forall k, sells_well (BondsToSell b) id (v ← lift (at_index inst 2); lift (buildUpdateConstitutionIns v k))) as Hc.
  { intros k. apply sells_well_lift. intros v _. apply sells_well_same. intros s s' l [-> Hl]%lift_ok. split; [done|].
    by eapply constitution_heads. }
  destruct (_ =? BuyFromGOVRequestMeta).
  { intros s s' l Hn H. unfold on_values in H. destruct (buildInstructionsForBuyBondsFromGOVReq _ _ _ _) as [a r] eqn:E.
    injection H as <- ->. eapply build_bond in E as (E1 & E2 & action & Ha & E3); [|eassumption..]. split; [done|]. split; [done|].
    cbn [fst]. by rewrite Ha. }
  destruct (_ =? BuyGOVTokenRequestMeta); [apply sells_well_values; [apply Hk|apply gov_tokens_heads]|].
  destruct (_ =? CrowdsaleRequestMeta); [apply sells_well_values; [apply Hk|apply crowdsale_heads]|].
  destruct (_ =? BuyBackRequestMeta); [apply sells_well_values; [apply Hk|apply buyback_heads]|].
  destruct (_ =? IssuingRequestMeta); [apply sells_well_values; [apply Hk|apply issuing_heads]|].
  destruct (_ =? ContractingRequestMeta); [apply sells_well_values; [apply Hk|apply contracting_heads]|].
  destruct (_ =? ShardBlockSalaryRequestMeta); [apply sells_well_values; [apply Hk|apply salary_heads]|].
  repeat match goal with |- sells_well _ _ (match (if ?b then _ else _) with _ => _ end) => destruct b; [first [apply Hc | apply Hv | apply sells_well_none]|] end.
  apply sells_well_none.
Qed.

Lemma build_step_sells chain_best best shardID inst b : bonds_on_sale (StabilityInfo best) = Some b ->
  amounts_fit (BondsToSell b) [inst] -> sale_fits best b ->
  sells_well (BondsToSell b) (fun sold => served best b sold (omap purchased [inst])) (build_step (lvdb := lvdb) chain_best best shardID inst).
Proof.
  intros Hb Hfit Hsale. unfold build_step. apply sells_well_lift. intros action Hact. destruct inst as [|x inst]; [done|].
  injection Hact as ->. case_bool_decide as Hw.
  { eapply sells_well_ext; [|apply sells_well_none]. intros sold. destruct inst as [|c inst]; [done|]. cbn [omap list_omap purchased].
    rewrite !elem_of_cons, elem_of_nil in Hw. by destruct Hw as [->|[->|[->|[]]]]. }
  apply sells_well_lift. intros metaType Ht. apply sells_well_lift. intros c Hc. destruct inst as [|y inst]; [done|].
  injection Hc as ->. eapply sells_well_ext; [|apply build_one_sells; [done|intros a; apply (Hfit (action :: c :: inst) c a); [by left|done]|done]].
  intros sold. cbn [omap list_omap purchased]. rewrite Ht. destruct (_ =? _), (purchase_of c); done.
Qed.

Lemma build_loop_sells chain_best best shardID insts b : bonds_on_sale (StabilityInfo best) = Some b ->
  amounts_fit (BondsToSell b) insts -> sale_fits best b ->
  sells_well (BondsToSell b) (fun sold => served best b sold (omap purchased insts)) (build_loop (lvdb := lvdb) chain_best best shardID insts).
Proof.
  intros Hb Hfit Hsale. induction insts as [|inst insts IH]; cbn [build_loop]; [apply sells_well_none|].
  intros s s' l Hn H. apply M_bind_ok in H as (s1 & here & H1 & H). apply M_bind_ok in H as (s2 & rest & H2 & [= <- <-]).
  apply build_step_sells with (b := b) in H1 as (Hh & Hn1 & He1); [|done| |done..].
  - apply IH in H2 as (Hr & Hn2 & He2); [|intros x c a Hx; apply (Hfit x c a); by right|done]. split; [|split; [done|]].
    2:{ rewrite He2, He1. unfold served. change (inst :: insts) with ([inst] ++ insts). by rewrite omap_app, foldl_app. }
    replace (bondsSold (fst s2) - bondsSold (fst s)) with ((bondsSold (fst s1) - bondsSold (fst s)) + (bondsSold (fst s2) - bondsSold (fst s1))) by lia.
    by apply sells_app.
  - intros x c a ->%list_elem_of_singleton. apply (Hfit inst c a). by left.
Qed.

(** C3. The bonds of a block are settled.  The purchases of the instructions of a shard are
    served in turn, those of the shards before counted: while the sale runs, a purchase is
    accepted exactly when all that it asks for is left, and refused otherwise.  The instructions
    that come out, applied by every node to its best state, leave exactly the bonds on sale
    that were not sold, never fewer than none -- as long as the sums of amounts and of heights
    do not leave the machine's width. *)
Theorem bonds_settled (chain_best best : BestStateBeacon Info) (shardID height : Z) (insts : list (list string)) (b : SellingBonds)
    (s s' : accumulativeValues * S) (l : list (list string)) (p p' : gmap string string) (i i' : Info) :
  bonds_on_sale (StabilityInfo best) = Some b -> in_u64 (BondsToSell b) -> amounts_fit (BondsToSell b) insts -> sale_fits best b ->
  0 <= bondsSold (fst s) <= BondsToSell b ->
  build_loop (lvdb := lvdb) chain_best best shardID insts s = (s', Ok l) ->
  bonds_on_sale i = Some (with_bonds (BondsToSell b - bondsSold (fst s)) b) ->
  process_all height l (p, i) = ((p', i'), Ok tt) ->
  bondsSold (fst s') = served best b (bondsSold (fst s)) (omap purchased insts) /\
  0 <= bondsSold (fst s') <= BondsToSell b /\
  bonds_on_sale i' = Some (with_bonds (BondsToSell b - bondsSold (fst s')) b).
Proof using.
  intros Hb Hu Hfit Hsale Hn Hbuild Hi Hp. eapply build_loop_sells in Hbuild as (Hl & Hn' & He); [|done..]. split; [done|]. split; [done|].
  pose proof (process_sells height l _ Hl (p, i) (p', i') (with_bonds (BondsToSell b - bondsSold (fst s)) b)) as Hs. cbn [snd] in Hs.
  rewrite Hs; [|cbn; unfold in_u64 in *; lia|done..].
  unfold with_bonds. cbn [BondName BondSymbol sb_TotalIssue BondsToSell BondPrice sb_Maturity Params.BuyBackPrice sb_StartSellingAt sb_SellingWithin].
  rewrite u64_id by (unfold in_u64 in *; lia). do 2 f_equal. lia.
Qed.
End Built.

(** ** Answers *)

Section Halts.
Context {sha : Sha256} {json : StabilityJson} {vjson : VotingJson} {S : Type} {lvdb : LevelDB S} {lookup : VoteLookup S} {T : Type}.
Context (visit_table : gmap Hash (gmap bytes Z) -> list (Hash * gmap bytes Z))
  (visit_amounts : gmap bytes Z -> list (bytes * Z)).
Context (BuildReqActions : T -> option (outcome (list (list string)))) (GetTxFee : T -> Z).

Lemma request_actions_no_error txs e : request_actions BuildReqActions txs <> Err e.
Proof.
  induction txs as [|tx txs IH]; cbn [request_actions]; [done|].
  destruct (BuildReqActions tx) as [[actions| |]|]; [|done..]. by destruct (request_actions _ txs).
Qed.

Lemma answer_no_error shardID l e : answer shardID l <> Err e.
Proof.
  unfold answer, at_index. change (1 <? 0) with false. change (0 <? 0) with false. cbv iota.
  destruct (l !! Z.to_nat 1) as [l1|]; [|done]. cbn [mbind outcome_bind]. destruct (Atoi l1) as [z| |]; [|done..]. cbn [or_fail mbind outcome_bind].
  destruct (z =? shardID); [|done]. destruct (l !! Z.to_nat 0) as [l0|]; [|done]. cbn [mbind outcome_bind].
  destruct (Atoi l0); [|done..]. cbn [or_fail mbind outcome_bind]. by destruct (_ || _).
Qed.

Lemma answers_panic shardID insts l : l ∈ insts -> answer shardID l = Panic -> answers shardID insts = Panic.
Proof.
  intros Hl Hp. induction Hl as [l insts|l l' insts Hl IH]; cbn [answers]; [by rewrite Hp|]. pose proof (answer_no_error shardID l') as He.
  destruct (answer shardID l') as [here|e|]; [|by destruct (He e)|done]. cbn [mbind outcome_bind]. by rewrite (IH Hp).
Qed.

Lemma answers_in shardID insts l r : l ∈ insts -> l !! 1%nat = Some (Itoa shardID) -> in_i64 shardID ->
  answers shardID insts = Ok r -> [] ∈ r.
Proof.
  intros Hl H1 Hs. revert r. induction Hl as [l insts|l l' insts Hl IH]; intros r H; cbn [answers] in H.
  - unfold answer, at_index in H. change (1 <? 0) with false in H. change (Z.to_nat 1) with 1%nat in H. rewrite H1 in H.
    cbn [mbind outcome_bind] in H. rewrite Atoi_Itoa in H by done. cbn [or_fail mbind outcome_bind] in H. rewrite Z.eqb_refl in H.
    destruct (if 0 <? 0 then _ else _) as [l0| |]; [|done..]. cbn [mbind outcome_bind] in H. destruct (Atoi l0); [|done..].
    cbn [or_fail mbind outcome_bind] in H. destruct (_ || _); [done|]. cbn [mbind outcome_bind] in H.
    destruct (answers shardID insts); [|done..]. injection H as <-. by left.
  - destruct (answer shardID l'); [|done..]. cbn [mbind outcome_bind] in H. destruct (answers shardID insts) as [rest| |]; [|done..].
    injection H as <-. apply elem_of_app. right. by apply IH.
Qed.

(** An empty instruction stops the beacon: its first string is looked at. *)
Lemma empty_stops chain_best best shardID insts : [] ∈ insts ->
  yields (fun _ => False) (build_loop (lvdb := lvdb) chain_best best shardID insts).
Proof.
  intros Hi. remember [] as inst eqn:E in Hi. induction Hi as [x insts|x y insts Hi IH]; cbn [build_loop]; intros s s' l H.
  - subst. apply M_bind_ok in H as (s1 & here & H & _). apply M_bind_ok in H as (s2 & a & [_ H]%lift_ok & _). done.
  - apply M_bind_ok in H as (s1 & here & _ & H). apply M_bind_ok in H as (s2 & rest & H & _). by apply (IH E) in H.
Qed.

Lemma built_actions best txs shardID producer height beaconBlocks actions :
  buildStabilityActions BuildReqActions GetTxFee best txs shardID producer height beaconBlocks = Ok actions ->
  exists r, answers shardID (concat (map (fun b => Instructions (Body b)) beaconBlocks)) = Ok r /\ forall x, x ∈ r -> x ∈ actions.
Proof.
  unfold buildStabilityActions. destruct (request_actions _ txs); [|done..]. cbn [mbind outcome_bind].
  destruct (answers _ _) as [r| |]; [|done..]. intros [= <-]. exists r. split; [done|]. intros x Hx. rewrite !elem_of_app. tauto.
Qed.

Lemma of_block (blocks : list BeaconBlock) b inst : b ∈ blocks -> inst ∈ Instructions (Body b) ->
  inst ∈ concat (map (fun b => Instructions (Body b)) blocks).
Proof.
  intros Hb Hi. apply list_elem_of_In, in_concat. exists (Instructions (Body b)). split; [|by apply list_elem_of_In].
  by apply (in_map (fun b : BeaconBlock => Instructions (Body b))), list_elem_of_In.
Qed.

(** C4. A purchase stops the chain.  When a shard asks for a purchase of bonds, the beacon
    answers, accepting or refusing, with an instruction that names the shard; the shard, in its
    next block, answers that with an empty instruction; and no beacon block is made from
    instructions one of which is empty. *)
Theorem purchase_halts_beacon (chain_best best : BestStateBeacon Info) (shardID : Z) (c : string) (a a' : accumulativeValues)
    (l : list (list string)) (beaconBlocks : list BeaconBlock) (b : BeaconBlock) (txs : list T) (producer : option PaymentAddress)
    (height : Z) (actions before more : list (list string)) (best' : BestStateBeacon Info) :
  in_i64 shardID ->
  buildInstructionsForBuyBondsFromGOVReq best shardID c a = (a', Ok l) ->
  b ∈ beaconBlocks -> (forall inst, inst ∈ l -> inst ∈ Instructions (Body b)) ->
  buildStabilityActions BuildReqActions GetTxFee best txs shardID producer height beaconBlocks = Ok actions ->
  forall s s' r, buildStabilityInstructions (lvdb := lvdb) visit_table visit_amounts chain_best best' shardID (before ++ actions ++ more) s <> (s', Ok r).
Proof using.
  intros Hs Hbuild Hb Hl Hact s s' r H. apply built_actions in Hact as (r' & Hr & Hin). unfold buildInstructionsForBuyBondsFromGOVReq in Hbuild.
  apply M_bind_ok in Hbuild as (s1 & action & _ & Hbuild). apply M_bind_ok in Hbuild as (s2 & h & _ & Hbuild).
  apply M_bind_ok in Hbuild as (s3 & av & _ & Hbuild). apply M_bind_ok in Hbuild as (s4 & u & _ & [= _ <-]).
  assert ([] ∈ r') as He.
  { eapply answers_in; [eapply of_block; [exact Hb|apply Hl; left]| |exact Hs|exact Hr]. reflexivity. }
  apply M_bind_ok in H as (t1 & v & _ & H). apply M_bind_ok in H as (t2 & built & H & _).
  apply empty_stops in H; [done|]. rewrite !elem_of_app. right. left. by apply Hin.
Qed.

(** C34. Staking stops the shards.  The second string of each instruction of the beacon is read
    as the number of a shard, and anything else is a panic; the instructions that stake, swap
    and assign have keys there, so that no shard that sees one makes its next block. *)
Theorem staking_halts_shards (best : BestStateBeacon Info) (txs : list T) (shardID : Z) (producer : option PaymentAddress) (height : Z)
    (beaconBlocks : list BeaconBlock) (b : BeaconBlock) (inst : list string) (keys : string) :
  b ∈ beaconBlocks -> inst ∈ Instructions (Body b) -> inst !! 1%nat = Some keys -> (forall z, Atoi keys <> Ok z) ->
  buildStabilityActions BuildReqActions GetTxFee best txs shardID producer height beaconBlocks = Panic.
Proof using.
  intros Hb Hi Hk Hn. unfold buildStabilityActions. pose proof (request_actions_no_error txs) as He.
  destruct (request_actions _ txs) as [actions|e|]; [|by destruct (He e)|done]. cbn [mbind outcome_bind].
  rewrite (answers_panic shardID _ inst); [done|by eapply of_block|]. unfold answer, at_index. change (1 <? 0) with false.
  change (Z.to_nat 1) with 1%nat. rewrite Hk. cbn [mbind outcome_bind]. destruct (Atoi keys) as [z| |]; [|done..]. by destruct (Hn z).
Qed.
End Halts.

(** ** A small chain *)

Section Sample.
Import Codec.
#[local] Existing Instance QuickHash.quick_hash.
#[local] Instance no_lookup : VoteLookup (gmap bytes bytes) :=
  {| sealer_addresses := fun _ _ _ => Panic; proposal_submitter := fun _ _ _ => Err LevelDB.LvDbNotFound |}.
#[local] Instance no_votes : VotingJson := Build_VotingJson no_codec no_codec no_codec no_codec no_codec no_codec.

Definition sample_purchase (amount : Z) : BuySellReqAction :=
  mkBuySellAction [1; 2; 3] (mkBuySellRequest (mkPaymentAddress [7] [8]) [2; 2] amount 5 1).
Definition content (amount : Z) : string :=
  let b := bytes_of (Marshal (sample_purchase amount)) in base64_encode (length b) b.

Definition sample_bonds : SellingBonds := mkSellingBonds "bond" "BND" 100 10 1 5 1 0 100.
Definition sample_info : Info :=
  mkInfo 0 0 (mkGOVConstitution zero_constitution 0 (mkGOVParams 0 0 0 (Some sample_bonds) None None None))
    (mkDCBConstitution zero_constitution 0 (mkDCBParams [] 0 0 0 ∅ ∅ 0 [])) zero_governor zero_governor (mkOracle ∅ 0 0 0 0 0).
Definition sample_beacon_block (ls : list (list string)) : BeaconBlock :=
  mkBlock "" "" [] "" (mkBody ∅ ls)
    (mkHeader "b1" 1 14 2 1 1000 zero_hash zero_hash zero_hash zero_hash zero_hash zero_hash zero_hash).
Definition sample_best : BestStateBeacon Info :=
  mkBestState (mkChain zero_hash zero_hash (Some (sample_beacon_block [])) ∅ ∅ 1 14 0) (mkCommittees [] [] ∅ ∅) (mkCandidates [] [] [] [])
    (mkRandoms 7 0 false) (mkSizes 2 2 2) ∅ sample_info ∅ ∅.

#[local] Abbreviation Store := (gmap bytes bytes) (only parsing).
Definition sample_insts : list (list string) := map (fun n => [Itoa BuyFromGOVRequestMeta; content n]) [3; 8; 4].
Definition sample_built : list (list string) :=
  match snd (build_loop (lvdb := memory_store) sample_best sample_best 1 sample_insts (no_accumulated, (∅ : Store))) with Ok l => l | _ => [] end.

Definition sample_values : accumulativeValues * Store :=
  fst (build_loop (lvdb := memory_store) sample_best sample_best 1 sample_insts (no_accumulated, ∅)).
Definition sample_bought : gmap string string * Info := fst (process_all 14 sample_built (∅, sample_info)).

(** Three purchases of 10 bonds: of 3, of 8, which is refunded, and of 4. *)
Lemma bonds_settled_witness : omap purchased sample_insts = [3; 8; 4] /\
  served sample_best sample_bonds 0 (omap purchased sample_insts) = 7 /\ bonds_on_sale (snd sample_bought) = Some (with_bonds 3 sample_bonds).
Proof.
  assert (bondsSold (fst sample_values) = 7) as Hn by (vm_compute; reflexivity). split; [vm_compute; reflexivity|].
  destruct (bonds_settled sample_best sample_best 1 14 sample_insts sample_bonds (no_accumulated, (∅ : Store)) sample_values sample_built
    ∅ (fst sample_bought) sample_info (snd sample_bought)) as (Hsold & _ & H).
  - reflexivity.
  - by split.
  - assert (forall n, purchase_of (content n) = Ok (sample_purchase n) -> 0 <= n < 100 -> forall c action,
      [Itoa BuyFromGOVRequestMeta; content n] !! 1%nat = Some c -> purchase_of c = Ok action -> 0 <= bsr_Amount (bs_Meta action) < 2 ^ 64 - 10) as Hc.
    { intros n Hn1 Hn2 c action [= <-] Ha. rewrite Hn1 in Ha. injection Ha as <-. cbn. lia. }
    intros inst c action Hi. unfold sample_insts in Hi. cbn [map] in Hi.
    repeat (apply elem_of_cons in Hi as [->|Hi]; [apply Hc; [vm_compute; reflexivity|lia]|]). by apply elem_of_nil in Hi.
  - split; [by split|]. intros h [= <-]. by split.
  - by split.
  - vm_compute. reflexivity.
  - reflexivity.
  - vm_compute. reflexivity.
  - split; [by rewrite <- Hn, Hsold|]. rewrite Hn in H. exact H.
Defined.

(** A purchase is answered and settled; the boards are those of before. *)
Lemma boards_never_change_witness :
  DCBGovernor (snd sample_bought) = zero_governor /\ GOVGovernor (snd sample_bought) = zero_governor /\
  bonds_on_sale (snd sample_bought) <> bonds_on_sale sample_info.
Proof.
  assert (block_of (lvdb := memory_store) map_to_list map_to_list sample_info (snd sample_bought)) as Hb.
  { exists sample_best, (sample_beacon_block []), sample_best, 1, sample_insts, (no_accumulated, ∅), sample_values, sample_built, 14, ∅, (fst sample_bought), (Ok tt).
    split; [reflexivity|]. split; [reflexivity|]. split; [by split|]. split; vm_compute; reflexivity. }
  destruct (boards_never_change (lvdb := memory_store) map_to_list map_to_list sample_info (snd sample_bought) eq_refl eq_refl (rtc_once _ _ Hb)) as [H1 H2].
  split; [exact H1|]. split; [exact H2|]. vm_compute. discriminate.
Defined.

Definition no_tx (tx : unit) : option (outcome (list (list string))) := None.

(** The answer to a purchase of 3 bonds, in a beacon block that shard 1 follows. *)
Lemma purchase_halts_beacon_witness :
  buildStabilityActions no_tx (fun _ => 0) sample_best [] 1 None 3 [sample_beacon_block sample_built] = Ok [[]; []; []] /\
  forall s s' r, buildStabilityInstructions (lvdb := memory_store) map_to_list map_to_list sample_best sample_best 1 [[]; []; []] s <> (s', Ok r).
Proof.
  split; [vm_compute; reflexivity|]. intros s s' r.
  refine (purchase_halts_beacon (lvdb := memory_store) map_to_list map_to_list no_tx (fun _ => 0) sample_best sample_best 1 (content 3) no_accumulated _ _
    [sample_beacon_block sample_built] (sample_beacon_block sample_built) [] None 3 [[]; []; []] [] [] sample_best _ _ _ _ _ s s' r).
  - by split.
  - vm_compute. reflexivity.
  - by left.
  - intros inst Hi. apply list_elem_of_singleton in Hi as ->. vm_compute. left.
  - vm_compute. reflexivity.
Defined.

Lemma staking_halts_shards_witness :
  buildStabilityActions no_tx (fun _ => 0) sample_best [] 1 None 3 [sample_beacon_block [["stake"; "16HnkRhxTi"; "shard"]]] = Panic.
Proof.
  refine (staking_halts_shards no_tx (fun _ => 0) sample_best [] 1 None 3 [sample_beacon_block [["stake"; "16HnkRhxTi"; "shard"]]]
    (sample_beacon_block [["stake"; "16HnkRhxTi"; "shard"]]) ["stake"; "16HnkRhxTi"; "shard"] "16HnkRhxTi" _ _ _ _).
  - by left.
  - by left.
  - reflexivity.
  - intros z. vm_compute. discriminate.
Defined.
End Sample.
End StabilityProducer.
