(* ===== verification/BftBeacon.v ===== *)
(** Consensus on beacon blocks: the beacon node of BeaconInsert.v as the node of a round of
    Bft.v, and what becomes of the blocks that the rounds of several nodes agree on. *)

From Stdlib Require Import Ascii String.
From S2P Require Import Prelude GoStr Hash Sha256 EC MultiSig Merkle Keys BftSig BftMessages Bft ShardTx Committee LevelDB Loan HeightPool.
From S2P Require Import BeaconPool ShardToBeaconPool CrossShardPool BeaconState BeaconVerify.
From S2P Require Import BeaconProducer BeaconInsert.

#[local] Open Scope string_scope.
#[local] Open Scope list_scope.
#[local] Open Scope Z_scope.

Module BftBeacon.
Import Hashes Merkle Keys BeaconState BeaconVerify BeaconProducer BeaconInsert.

Section Layer.
Context {curve : Curve} {sha : Sha256} {sigs : Signatures} {I : Type} {stab : StabilityOps I} {eqI : EqDecision I}
  {json : BeaconJson I} {D : Type} {lvdb : LevelDB D} {loans : LoanJson} {const : ConstitutionOps D I}
  {A : Type} {builder : InstructionBuilder I A}.
Context {CB : Type} `{!BlockHeight CB} `{!BlockShard CB} `{!CrossShardBlk CB}
  {CH : Type} `{!BlockHash CB CH}.
#[local] Abbreviation Node := (Node (I := I) (D := D) (CB := CB)).

(** The orders in which the maps of the node are visited, its clock and its keys. *)
Context (orders : Orders) (visit : gmap Z (list string) -> list (Z * list string)) (keys_order : list string -> list string)
  (Hkeys : forall l, keys_order l ≡ₚ l) (time : Node -> Z) (pk privateKey : bytes).

(** [block.R], [block.AggregatedSig] and [block.ValidatorsIdx] of the pending block. *)
Definition sign_with (R : string) (idx : list (list Z)) (agg : string) (b : BeaconBlock) : BeaconBlock :=
  mkBlock agg R idx (ProducerSig b) (Body b) (Header b).

Definition bft_beacon : BftChain Node BeaconBlock.
Proof.
  refine {|
    best_hash := fun n => match State_Hash (Beacon n) with Ok h => Some h | _ => None end;
    pool_heights := fun n => ShardToBeaconPool.GetLatestValidPendingBlockHeight (ShardToBeaconPool_ n);
    proposer_key := fun n key offset => String.eqb (fst (GetPubkeyRole visit key offset (Beacon n))) "proposer";
    new_block := fun n offset closest =>
      NewBlockBeacon orders (Beacon n) (ShardToBeaconPool_ n) pk privateKey offset closest (time n);
    verify_pre_sign := fun b => VerifyPreSignBeaconBlock (order_shuffle orders) b true;
    marshal_block := fun b => match block_json b with Ok text => text | _ => [] end;
    unmarshal_block := fun text => fst (block_of_json text);
    header_hash := fun b => Header_Hash (Header b);
    with_signature := sign_with;
    clock := time;
    visit_heights := fun _ => map_to_list;
    visit_keys := fun _ => keys_order
  |}; done.
Defined.

#[local] Existing Instance bft_beacon.

(** What a round of several nodes returns after the events, started by the node [w]. *)
Definition round_result (rd : Bft.RoundData) (w : Node) (rand : Z) (evs : list (Bft.Event Node)) : option (outcome BeaconBlock) :=
  Bft.result (Bft.run false rd evs (Bft.Start false rd w privateKey pk rand)).

(** A block that carries the two lists of a round is refused by a committee of more than
    three. *)
Lemma two_lists_refused (s : BestStateBeacon I) (b : BeaconBlock) idxR idxAgg :
  ValidatorsIdx b = [idxR; idxAgg] -> (3 < length (BeaconCommittee (committees s)))%nat ->
  VerifyBestStateWithBeaconBlock s b true = Err "Signature Error".
Proof.
  intros Hidx Hn. unfold VerifyBestStateWithBeaconBlock, require. rewrite Hidx. cbn [length].
  assert (2 <= length (BeaconCommittee (committees s)) / 2)%nat as Hhalf.
  { change 2%nat with (4 / 2)%nat at 1. apply Nat.Div0.div_le_mono. lia. }
  rewrite (proj2 (Nat.leb_le _ _) Hhalf), (proj2 (Nat.ltb_lt _ _) Hn). done.
Qed.

Lemma verify_keeps_beacon block isCommittee (n n' : Node) o :
  VerifyPreProcessing block isCommittee n = (n', o) -> Beacon n' = Beacon n.
Proof.
  unfold VerifyPreProcessing. destruct (VerifyPreProcessingBeaconBlock _ _ _ _ _) as [p r]. by intros [= <- _].
Qed.

(** C15. What the rounds of several nodes agree on is never inserted where the committee has
    more than three members: the size of the committee is compared with the number of index
    lists of the block, of which a round makes two, instead of the number of signers. *)
Theorem round_block_refused (rd : Bft.RoundData) (w n : Node) (rand : Z) (evs : list (Bft.Event Node)) (b : BeaconBlock)
    (order : list string -> list string) (visit_states : gmap Z (list ShardState) -> list (Z * list ShardState))
    (isCommittee : bool)
    (Hres : round_result rd w rand evs = Some (Ok b))
    (Hn : (3 < length (BeaconCommittee (committees (Beacon n))))%nat) :
  snd (InsertBeaconBlock order visit_states b isCommittee n) <> Ok tt /\
  Beacon (fst (InsertBeaconBlock order visit_states b isCommittee n)) = Beacon n.
Proof.
  destruct (Bft.round_returned _ _ _ _ _ _ _ _ Hres) as [[? _]|Ha]; [done|].
  destruct Ha as (b0 & s & s' & R & of_R & commits & agg & _ & _ & _ & _ & _ & _ & _ & ->).
  cbn [with_signature bft_beacon]. set (b := sign_with _ _ _ _).
  unfold InsertBeaconBlock, on_db. mrun.
  destruct (LevelDB.HasBeaconBlock _ _) as [d [[|]|e|]]; [done| |done..]. cbn [set_db].
  destruct (VerifyPreProcessing _ _ _) as [n1 o] eqn:E. apply verify_keeps_beacon in E.
  change (Beacon (set_db d n)) with (Beacon n) in E. destruct o as [[]|e|]; [|done..].
  unfold insert_state. mrun. destruct (decide _); [|done]. rewrite E.
  by rewrite (two_lists_refused (Beacon n) b _ _ eq_refl Hn).
Qed.
End Layer.

(** ** Concrete inputs *)

Section Samples.
Import EC MultiSig BftSig BftMessages Bft.
Import QuickHash SmallCurve.
#[local] Existing Instance echo_signatures.
#[local] Existing Instance fund_stability.
#[local] Existing Instance fund_constitution.
#[local] Existing Instance no_loans.
#[local] Existing Instance sample_json.
#[local] Existing Instance BeaconInsert.unit_height.

#[local] Instance no_instructions : InstructionBuilder Z unit :=
  {| no_values := tt; build_instructions := fun _ _ _ v => Ok ([], v) |}.

Definition sample_orders : Orders := mkOrders map_to_list map_to_list map_to_list id_order.

(** The node of the first member of the sample committee of MultiSig.v. *)
#[local] Instance sample_layer : BftChain (Node (I := Z) (D := gmap bytes bytes) (CB := Z)) BeaconBlock :=
  bft_beacon sample_orders map_to_list id_order (fun _ => reflexivity _) (fun _ => 1000) (signer_key [2]) [2].

Definition sample_round : RoundData := mkRoundData zero_hash 1 true "beacon" 0 sample_texts.

Definition proposed : BeaconBlock :=
  Eval vm_compute in
  match NewBlockBeacon sample_orders sample_best ShardToBeaconPool.newPool (signer_key [2]) [2] 1 (Some ∅) 1000 with
  | Ok b => b
  | _ => sample_parent
  end.

Definition member (m : bytes * Z) : multiSigScheme :=
  set_data (Header_Hash (Header proposed)) (Prepare m.2 (Init m.1 (signer_key m.1) sample_texts)).

Definition member_commit (m : bytes * Z) : Message :=
  let s := fst (SignData sample_Ri (member m)) in
  MsgCommit (mkCommit (CommitSig (combine s)) (combine_R (combine s)) (ValidatorsIdxR (combine s))
               (base58_encode (signer_key m.1)) "" 0).

Definition sample_events : list (Event (Node (I := Z) (D := gmap bytes bytes) (CB := Z))) :=
  [EvMsg (MsgReady (mkReady ∅ zero_hash 1 (base58_encode (signer_key [3])) "" 0)); EvTimeout] ++
  map (fun m => EvMsg (MsgPrepare (mkPrepare (Header_Hash (Header proposed)) (Ri (member m)) (base58_encode (signer_key m.1)) "" 0)))
    (tail sample_committee) ++ [EvTimeout] ++
  map (fun m => EvMsg (member_commit m)) (tail sample_committee) ++ [EvTimeout].

Definition agreed_block : BeaconBlock :=
  Eval vm_compute in
  match result (run false sample_round sample_events (Start false sample_round sample_node [2] (signer_key [2]) 3)) with
  | Some (Ok b) => b
  | _ => sample_parent
  end.

(** A node whose beacon committee has four members. *)
Definition four_node : Node (I := Z) (D := gmap bytes bytes) (CB := Z) :=
  set_beacon (set_committees (mkCommittees ["v1"; "v2"; "v3"; "v4"] [] ∅ ∅) sample_best) sample_node.

Lemma round_block_refused_witness :
  ValidatorsIdx agreed_block = [[0; 1; 2]; [0; 1; 2]] /\
  snd (InsertBeaconBlock id_order map_to_list agreed_block true four_node) <> Ok tt.
Proof.
  split; [vm_compute; reflexivity|].
  apply (round_block_refused sample_orders map_to_list id_order (fun _ => reflexivity _) (fun _ => 1000) (signer_key [2]) [2]
           sample_round sample_node four_node 3 sample_events).
  - vm_compute. reflexivity.
  - cbn. lia.
Defined.
End Samples.
End BftBeacon.
