(* ===== verification/BeaconAgreement.v ===== *)
(** The producer and the verifiers of a beacon block agree: a block made by the node whose
    turn it is gets from [VerifyPreSignBeaconBlock], at every node that has the same best
    state, the same shard-to-beacon pool and the same order of the shuffle, the answer of its
    own update and no other.  The lemmas follow the block from the pool (BeaconProducer.v)
    through the checks (BeaconVerify.v); the builder of StabilityProducer.v meets what is
    asked of the stability instructions. *)

From Stdlib Require Import Ascii String.
From S2P Require Import Prelude GoStr Hash Sha256 Base58 Merkle Keys ShardTx Committee LevelDB Loan HeightPool.
From S2P Require Import BeaconPool ShardToBeaconPool CrossShardPool BeaconState BeaconVerify.
From S2P Require Import BeaconProducer BeaconInsert.
From S2P Require Import Stability Voting StabilityProducer.

#[local] Open Scope string_scope.
#[local] Open Scope list_scope.
#[local] Open Scope Z_scope.

Module BeaconAgreement.
Import Hashes Merkle Keys Committee BeaconState BeaconVerify BeaconProducer BeaconInsert.

(** ** Stakers *)

Section Stakers.
Context {I : Type}.

(** The lists a staker must not be in. *)
Definition member_lists (s : BestStateBeacon I) : list (list string) :=
  let cs := committees s in let c := candidates s in
  (map_to_list (ShardCommittee cs)).*2 ++ (map_to_list (ShardPendingValidator cs)).*2 ++
  [BeaconCommittee cs; BeaconPendingValidator cs; CandidateBeaconWaitingForCurrentRandom c;
   CandidateBeaconWaitingForNextRandom c; CandidateShardWaitingForCurrentRandom c;
   CandidateShardWaitingForNextRandom c; CandidateShardWaitingForNextRandom c].

Definition free (s : BestStateBeacon I) (x : string) : Prop := Forall (fun l => x ∉ l) (member_lists s).

Lemma valid_staker_id l t : Forall (fun x => x ∉ l) t -> GetValidStaker l t = t.
Proof.
  unfold GetValidStaker. induction 1 as [|x t Hx _ IH]; [done|]. by rewrite filter_cons_True, IH.
Qed.

Lemma valid_staker_in x l t : x ∈ GetValidStaker l t -> x ∈ t /\ x ∉ l.
Proof. unfold GetValidStaker. rewrite list_elem_of_filter. by intros [? ?]. Qed.

Lemma valid_fold_id ls t :
  Forall (fun x => Forall (fun l => x ∉ l) ls) t -> foldl (fun st l => GetValidStaker l st) t ls = t.
Proof.
  revert t. induction ls as [|l ls IH]; intros t Ht; [done|]. cbn [foldl].
  rewrite valid_staker_id; [apply IH|]; (eapply Forall_impl; [exact Ht|]); by intros x []%Forall_cons.
Qed.

Lemma valid_fold_in x ls t :
  x ∈ foldl (fun st l => GetValidStaker l st) t ls -> x ∈ t /\ Forall (fun l => x ∉ l) ls.
Proof.
  revert t. induction ls as [|l ls IH]; intros t Ht; [by split|]. cbn [foldl] in Ht.
  apply IH in Ht as [Ht Hls]. apply valid_staker_in in Ht as [Ht Hl]. split; [done|by constructor].
Qed.

Lemma GetValidStakers_fold t s :
  GetValidStakers t s = foldl (fun st l => GetValidStaker l st) t (member_lists s).
Proof. unfold GetValidStakers, member_lists. by rewrite !foldl_app. Qed.

Lemma free_stakers t s : Forall (free s) t -> GetValidStakers t s = t.
Proof. rewrite GetValidStakers_fold. apply valid_fold_id. Qed.

(** A list of stakers as the producer puts it in an instruction. *)
Definition stakers_ok (s : BestStateBeacon I) (l : list string) : Prop :=
  Forall (fun x => no_comma x = true /\ free s x) l.

Lemma valid_stakers_ok s t : Forall (fun x => no_comma x = true) t -> stakers_ok s (GetValidStakers t s).
Proof.
  intros Ht. apply Forall_forall. intros x Hx. rewrite GetValidStakers_fold in Hx.
  apply valid_fold_in in Hx as [Hx Hfree]. rewrite Forall_forall in Ht. split; [by apply Ht|done].
Qed.

Lemma stakers_filter s l t : stakers_ok s t -> stakers_ok s (GetValidStaker l t).
Proof.
  unfold stakers_ok. rewrite !Forall_forall. intros Ht x Hx. apply Ht. by apply valid_staker_in in Hx as [].
Qed.

Lemma stake_array_ok v beacon shard :
  getStakeValidatorArrayString v = Ok (beacon, shard) ->
  Forall (fun x => no_comma x = true) beacon /\ Forall (fun x => no_comma x = true) shard.
Proof.
  unfold getStakeValidatorArrayString. destruct (v !! 0%nat) as [v0|]; [|done].
  destruct (decide _); [|by intros [= <- <-]]. destruct (v !! 1%nat), (v !! 2%nat); try done.
  intros [= <- <-]. split; destruct (decide _); try constructor; apply split_no_comma.
Qed.

Lemma valid_stakers_step s acc staker acc' :
  stakers_ok s (fst acc) -> stakers_ok s (snd acc) -> valid_stakers s acc staker = Ok acc' ->
  stakers_ok s (fst acc') /\ stakers_ok s (snd acc').
Proof.
  destruct acc as [stakeShard stakeBeacon]. cbn [fst snd]. intros H1 H2. unfold valid_stakers.
  destruct (getStakeValidatorArrayString staker) as [[beacon shard]| |] eqn:E; [|done..].
  apply stake_array_ok in E as [Hb Hs]. cbn. intros [= <-].
  destruct (bool_decide _); cbn; split; try done; apply Forall_app; (split; [done|]);
    do 2 apply stakers_filter; by apply valid_stakers_ok.
Qed.

Lemma all_stakers_ok s acc stakers acc' :
  stakers_ok s (fst acc) -> stakers_ok s (snd acc) -> all_stakers s acc stakers = Ok acc' ->
  stakers_ok s (fst acc') /\ stakers_ok s (snd acc').
Proof.
  revert acc. induction stakers as [|staker stakers IH]; intros acc H1 H2; cbn [all_stakers].
  - by intros [= <-].
  - destruct (valid_stakers s acc staker) as [acc1| |] eqn:E; [|done..]. cbn.
    apply valid_stakers_step in E as [H1' H2']; [|done..]. by apply IH.
Qed.

(** ** Instructions *)

(** A stake instruction whose stakers are free, and an instruction of another kind. *)
Definition good_stake (s : BestStateBeacon I) (inst : list string) : Prop :=
  exists l role, inst = ["stake"; Join l; role] /\ l <> [] /\ stakers_ok s l.
Definition no_stake (inst : list string) : Prop := exists a rest, inst = a :: rest /\ a <> "stake".
Definition plain (s : BestStateBeacon I) (inst : list string) : Prop := no_stake inst \/ good_stake s inst.

Lemma stake_instructions_ok s l1 l2 :
  stakers_ok s l1 -> stakers_ok s l2 -> Forall (good_stake s) (stake_instructions l1 l2).
Proof.
  intros H1 H2. unfold stake_instructions. apply Forall_app. split; destruct (decide _); repeat constructor;
    do 2 eexists; by repeat split.
Qed.

Lemma staking_loop_ok s ls beacon shard :
  Forall (plain s) ls -> Forall (free s) beacon -> Forall (free s) shard ->
  exists beacon' shard', staking_loop ls beacon shard = Ok (beacon', shard') /\
    Forall (free s) beacon' /\ Forall (free s) shard'.
Proof.
  intros Hls. revert beacon shard. induction Hls as [|inst ls Hinst _ IH]; intros beacon shard Hb Hs.
  { by exists beacon, shard. }
  cbn [staking_loop]. destruct Hinst as [(a & rest & -> & Ha)|(l & role & -> & Hne & Hl)]; cbn [lookup list_lookup].
  - rewrite decide_False by done. by apply IH.
  - rewrite decide_True by done.
    assert (Split (Join l) = l) as -> by (apply split_join; [done|]; eapply Forall_impl; [exact Hl|]; by intros ? []).
    assert (Forall (free s) l) by (eapply Forall_impl; [exact Hl|]; by intros ? []).
    apply IH; by destruct (decide _).
Qed.

Lemma check_candidates_ok s l : Forall (free s) l -> check_candidates s l = Ok tt.
Proof.
  intros Hl. unfold check_candidates. destruct (decide _); [done|].
  rewrite free_stakers by done. by rewrite bool_decide_true.
Qed.
End Stakers.
(** ** What the producer collects from the shards *)

Section Collect.
Context {sha : Sha256} {sigs : Signatures} {I : Type} {stab : StabilityOps I} {eqI : EqDecision I}
  {json : BeaconJson I} {A : Type} {builder : InstructionBuilder I A}.

Definition info_ok (s : BestStateBeacon I) (info : ShardInfo) : Prop :=
  Forall (good_stake s) (si_stakers info) /\
  (forall k l, si_swaps info !! k = Some l -> Forall no_stake l) /\
  Forall no_stake (si_stability info).

Lemma with_action_ok action ls ls' :
  with_action action ls = Ok ls' -> Forall (fun l => l !! 0%nat = Some action) ls'.
Proof.
  unfold with_action. destruct (decide _); [done|]. intros [= <-]. apply Forall_forall. intros l Hl.
  apply list_elem_of_In, filter_In in Hl as [_ Hl]. by apply bool_decide_eq_true in Hl.
Qed.

Lemma keep_swaps_sub k ls ls' : keep_swaps k ls = Ok ls' -> forall l, l ∈ ls' -> l ∈ ls.
Proof.
  revert ls'. induction ls as [|l ls IH]; intros ls'; cbn [keep_swaps]; [by intros [= <-]|].
  destruct (keep_swap k l) as [b| |]; [|done..]. cbn. destruct (keep_swaps k ls) as [l1| |]; [|done..].
  intros [= <-] x Hx. specialize (IH _ eq_refl x). destruct b; [|right; by apply IH].
  apply elem_of_cons in Hx as [->|Hx]; [left|right; by apply IH].
Qed.

Lemma append_at_lookup {B} k (l : list B) m k' :
  map_get_list (append_at k l m) k' = map_get_list m k' ++ (if decide (k' = k) then l else []).
Proof.
  unfold append_at, map_get_list. destruct l as [|x l].
  - destruct (decide _); by rewrite app_nil_r.
  - destruct (decide (k' = k)) as [->|Hne]; [by rewrite lookup_insert_eq|].
    by rewrite lookup_insert_ne, app_nil_r.
Qed.

Lemma swap_no_stake l : l !! 0%nat = Some "swap" -> no_stake l.
Proof. destruct l as [|a rest]; [done|]. intros [= ->]. by exists "swap", rest. Qed.

Lemma map_get_list_elem {B} (m : gmap Z (list B)) k l : m !! k = Some l -> map_get_list m k = l.
Proof. unfold map_get_list. by intros ->. Qed.

Lemma add_block_ok s k blk info info' :
  info_ok s info -> add_block s k blk info = Ok info' ->
  info_ok s info' /\ si_states info' = append_at k [shard_state blk] (si_states info).
Proof.
  intros (H1 & H2 & H3). unfold add_block.
  destruct (with_action "stake" _) as [stakers| |] eqn:Est; [|done..].
  destruct (with_action "swap" _) as [swaps| |] eqn:Esw; [|done..]. cbn [mbind outcome_bind].
  destruct (all_stakers s ([], []) stakers) as [[s1 s2]| |] eqn:E; [|done..].
  destruct (keep_swaps k swaps) as [kept| |] eqn:Ek; [|done..]. cbn [mbind outcome_bind].
  intros [= <-]. split; [|done].
  apply all_stakers_ok in E as [E1 E2]; [|by constructor..]. split; [|split]; cbn; [|intros k' l Hl|done].
  - apply Forall_app. split; [done|]. by apply stake_instructions_ok.
  - apply map_get_list_elem in Hl. rewrite append_at_lookup in Hl. subst l. apply Forall_app. split.
    + unfold map_get_list. destruct (si_swaps info !! k') eqn:E'; [by eapply H2|constructor].
    + destruct (decide _); [|constructor]. apply Forall_forall. intros l Hl.
      apply swap_no_stake. apply (keep_swaps_sub _ _ _ Ek) in Hl.
      apply with_action_ok in Esw. rewrite Forall_forall in Esw. by apply Esw.
Qed.

Lemma add_blocks_ok s k blks info info' :
  info_ok s info -> add_blocks s k blks info = Ok info' ->
  info_ok s info' /\ si_states info' = append_at k (map shard_state blks) (si_states info).
Proof.
  revert info. induction blks as [|blk blks IH]; intros info Hok; cbn [add_blocks].
  - by intros [= <-].
  - destruct (add_block s k blk info) as [info1| |] eqn:E; [|done..]. cbn.
    apply add_block_ok in E as [Hok1 E1]; [|done]. intros H. apply IH in H as [H1 H2]; [|done].
    split; [done|]. rewrite H2, E1. apply map_eq. intros k'.
    unfold append_at at 1. cbn [map]. unfold append_at, map_get_list.
    destruct (map shard_state blks) as [|x l]; [done|].
    rewrite lookup_insert_eq. cbn. rewrite insert_insert_eq. by rewrite <- app_assoc.
Qed.

Context (Hbuilt : forall k ls (best : BestStateBeacon I) (acc : A) built acc',
  build_instructions k ls best acc = Ok (built, acc') -> Forall no_stake built).

Lemma take_blocks_ok (best : BestStateBeacon I) k i t blks (acc : list (list string) * A) t' ls values :
  Forall no_stake (fst acc) -> take_blocks best k i t blks acc = Ok (t', (ls, values)) ->
  Forall no_stake ls.
Proof.
  revert i t acc. induction blks as [|blk blks IH]; intros i t acc Hacc; cbn [take_blocks].
  - by intros [= <- ->].
  - destruct (check_sig _ _) as [[]| |]; [|by intros [= <- ->]|done].
    destruct (build_instructions _ _ _ _) as [[built v]| |] eqn:Eb; [|done..].
    destruct (swaps_ok _ _) as [[]| |]; [|done..]. cbn. apply IH. apply Forall_app. eauto.
Qed.

Lemma shard_loop_ok (best s : BestStateBeacon I) entries info (values : A) info' :
  info_ok s info -> NoDup entries.*1 -> shard_loop best s entries info values = Ok info' ->
  info_ok s info' /\
  forall k, match List.find (fun e => bool_decide (fst e = k)) entries with
            | Some (_, blks) => exists n, map_get_list (si_states info') k =
                                  map_get_list (si_states info) k ++ map shard_state (take n blks)
            | None => map_get_list (si_states info') k = map_get_list (si_states info) k
            end.
Proof.
  revert info values. induction entries as [|[k0 blks] entries IH]; intros info values Hok Hnd; cbn [shard_loop].
  { intros [= <-]. split; [done|]. intros k. done. }
  apply NoDup_cons in Hnd as [Hk0 Hnd]. cbn [fst fmap list_fmap] in Hk0.
  destruct (take_blocks _ _ _ _ _ _) as [[t [ls v]]| |] eqn:Et; [|done..]. cbn [mbind outcome_bind].
  assert (Forall no_stake ls) as Hls by (eapply take_blocks_ok; [|exact Et]; apply Hok).
  destruct (_ <? _)%nat; [done|]. set (n := (t + 1)%nat).
  destruct (add_blocks _ _ _ _) as [info1| |] eqn:Ea; [|done..]. cbn [mbind outcome_bind].
  apply add_blocks_ok in Ea as [Hok1 Hs1]; [|by destruct Hok as (? & ? & ?)]. cbn [si_states] in Hs1.
  intros H. apply IH in H as [Hok' Hst]; [|done..]. split; [done|]. intros k. cbn [List.find fst].
  specialize (Hst k). rewrite Hs1, append_at_lookup in Hst. case_bool_decide as Hk.
  - subst k0. rewrite decide_True in Hst by done. exists n.
    destruct (List.find _ entries) as [[k' b']|] eqn:Ef; [|done]. exfalso. apply Hk0.
    apply find_some in Ef as [Hin Hb]. apply bool_decide_eq_true in Hb. cbn in Hb. subst k'.
    apply list_elem_of_In in Hin. by apply (list_elem_of_fmap_2 fst) in Hin.
  - by rewrite decide_False, app_nil_r in Hst by congruence.
Qed.
End Collect.
(** ** What the pool offers *)

Section Offered.
Context {sha : Sha256} {sigs : Signatures} {I : Type} {stab : StabilityOps I}.

Lemma find_entries {B} (m : gmap Z B) entries k :
  entries ≡ₚ map_to_list m ->
  List.find (fun e => bool_decide (fst e = k)) entries = (fun b => (k, b)) <$> m !! k.
Proof.
  intros Hp. assert (NoDup entries.*1) as Hnd by (rewrite Hp; apply NoDup_fst_map_to_list).
  destruct (List.find _ entries) as [[k' b]|] eqn:Ef.
  - apply find_some in Ef as [Hin Hb]. apply bool_decide_eq_true in Hb. cbn in Hb. subst k'.
    apply list_elem_of_In in Hin. rewrite Hp in Hin. apply elem_of_map_to_list in Hin. by rewrite Hin.
  - destruct (m !! k) as [b|] eqn:E; [|done]. exfalso. apply elem_of_map_to_list in E. rewrite <- Hp in E.
    apply list_elem_of_In in E. pose proof (find_none _ _ Ef _ E) as Hx. cbn in Hx.
    by rewrite bool_decide_true in Hx.
Qed.

(** The heights ascend by one. *)
Lemma ascending_run (blks : list ShardToBeaconBlock) a n :
  map block_height blks = seqZ a n -> ascending (map shard_state blks) = true.
Proof.
  revert a n. induction blks as [|b1 blks IH]; intros a n H; [done|].
  destruct (decide (0 < n)) as [Hn|Hn]; [|by rewrite seqZ_nil in H by lia].
  rewrite seqZ_cons in H by lia. injection H as H1 H. specialize (IH _ _ H).
  destruct blks as [|b2 blks]; [done|]. destruct blks as [|b3 blks]; [done|].
  destruct (decide (0 < Z.pred n)) as [Hn1|Hn1]; [|by rewrite seqZ_nil in H by lia].
  rewrite seqZ_cons in H by lia. injection H as H2 _. cbn [map ascending shard_state Height].
  apply andb_true_intro. split; [|exact IH].
  change (block_height b2 = Z.succ a) in H2. change (block_height b1 = a) in H1.
  change ((u64 (block_height b2 - block_height b1) =? 1) = true). rewrite H1, H2.
  replace (Z.succ a - a) with 1 by lia. done.
Qed.

(** What a limited call returns is the beginning of what an unlimited one does. *)
Lemma limited_prefix limit (pool : StbPool) k :
  (map_get_list (snd (ShardToBeaconPool.GetValidPendingBlock limit pool)) k) `prefix_of`
  (map_get_list (snd (ShardToBeaconPool.GetValidPendingBlock None pool)) k).
Proof.
  unfold map_get_list. cbn [snd ShardToBeaconPool.GetValidPendingBlock]. rewrite !map_lookup_imap.
  cbn [ShardToBeaconPool.pool]. destruct (ShardToBeaconPool.pool pool !! k) as [blks|]; [|done]. cbn [mbind option_bind].
  set (lat := map_get _ k). set (lim := match limit with None => 0 | Some l => map_get l k end).
  assert ((ShardToBeaconPool.pending_loop lat lim blks) `prefix_of` (ShardToBeaconPool.pending_loop lat 0 blks)) as Hp.
  { clearbody lat lim. induction blks as [|b blks IH]; cbn [ShardToBeaconPool.pending_loop]; [done|].
    destruct (lat <? block_height b); [done|]. rewrite Z.eqb_refl. cbn [negb andb].
    destruct (negb _ && _); [by apply prefix_nil|by apply prefix_cons]. }
  destruct (ShardToBeaconPool.pending_loop lat lim blks); [apply prefix_nil|].
  destruct (ShardToBeaconPool.pending_loop lat 0 blks); [|exact Hp].
  destruct Hp as [x Hx]. done.
Qed.

Lemma take_prefix {B} n (l l' : list B) : l `prefix_of` l' -> (take n l) `prefix_of` l'.
Proof. intros [x ->]. rewrite <- (take_drop n l) at 2. rewrite <- app_assoc. by apply prefix_app_r. Qed.

Lemma same_block_state blk : same_block blk (shard_state blk) = true.
Proof.
  unfold same_block, shard_state. cbn. rewrite Z.eqb_refl, !bool_decide_true by done. done.
Qed.

Lemma check_sigs_ok committee blks : check_sigs committee blks = Ok tt.
Proof. induction blks as [|blk blks IH]; [done|]. cbn. exact IH. Qed.

(** States that a pool's blocks begin with pass. *)
Lemma check_shard_ok (s : BestStateBeacon I) k blks n blks0 :
  (take n blks0) `prefix_of` blks -> check_shard s k blks (map shard_state (take n blks0)) = Ok tt.
Proof.
  set (l := take n blks0). intros [rest ->]. unfold check_shard. rewrite length_map, length_app.
  rewrite (proj2 (Nat.ltb_ge _ _)) by lia. rewrite take_app_length.
  assert (forallb (fun p => same_block (fst p) (snd p)) (zip l (map shard_state l)) = true) as ->.
  { induction l as [|b l IH]; [done|]. cbn. by rewrite same_block_state. }
  cbn. destruct l as [|b l]; [done|]. cbn. apply check_sigs_ok.
Qed.

Lemma check_shards_ok (s : BestStateBeacon I) body l :
  (forall k blks, (k, blks) ∈ l -> check_shard s k blks (map_get_list body k) = Ok tt) ->
  check_shards s body l = Ok tt.
Proof.
  induction l as [|[k blks] l IH]; intros H; [done|]. cbn [check_shards]. rewrite H by left. cbn.
  apply IH. intros k' blks' Hin. apply H. by right.
Qed.

(** The states of a body taken from the pool. *)
Definition from_pool (limit : option (gmap Z Z)) (pool : StbPool) (body : gmap Z (list ShardState)) : Prop :=
  forall k, exists n, map_get_list body k =
    map shard_state (take n (map_get_list (snd (ShardToBeaconPool.GetValidPendingBlock limit pool)) k)).

Lemma from_pool_checks (s : BestStateBeacon I) limit pool body :
  from_pool limit pool body ->
  check_shards s body (map_to_list (snd (ShardToBeaconPool.GetValidPendingBlock None pool))) = Ok tt.
Proof.
  intros Hbody. apply check_shards_ok. intros k blks Hin%elem_of_map_to_list.
  destruct (Hbody k) as [n ->]. apply check_shard_ok. apply take_prefix.
  pose proof (limited_prefix limit pool k) as Hp. by rewrite (map_get_list_elem _ _ blks Hin) in Hp.
Qed.

Lemma seqZ_take m n a : take m (seqZ a n) = seqZ a (Z.min (Z.of_nat m) n).
Proof.
  apply list_eq. intros i. destruct (decide (i < m)%nat) as [Hi|Hi].
  - rewrite lookup_take_lt by done. destruct (decide (Z.of_nat i < n)) as [Hn|Hn].
    + by rewrite !lookup_seqZ_lt by lia.
    + rewrite !lookup_seqZ_ge by lia. done.
  - rewrite lookup_take_ge by lia. by rewrite lookup_seqZ_ge by lia.
Qed.

Lemma from_pool_ascending limit (pool : StbPool) body :
  ShardToBeaconPool.reachable pool -> from_pool limit pool body ->
  forallb (fun p => ascending (snd p)) (map_to_list body) = true.
Proof.
  intros Hr Hbody. apply forallb_forall. intros [k states] Hin. cbn.
  apply list_elem_of_In, elem_of_map_to_list in Hin. destruct (Hbody k) as [n E].
  rewrite (map_get_list_elem _ _ states Hin) in E. rewrite E.
  pose proof (ShardToBeaconPool.valid_run pool limit k (ShardToBeaconPool.s2b_reachable_wf _ Hr)) as Hrun.
  destruct (ShardToBeaconPool.GetValidPendingBlock limit pool) as [p blocks]. cbn [snd] in *.
  destruct Hrun as (_ & _ & Hrun). unfold map_get_list. destruct (blocks !! k) as [valid|]; cbn; [|by rewrite take_nil].
  destruct Hrun as (_ & _ & (a & Ha) & _). eapply (ascending_run _ a). rewrite <- firstn_map, Ha.
  apply seqZ_take.
Qed.
End Offered.
(** ** The block *)

Section Block.
Context {sha : Sha256} {sigs : Signatures} {I : Type} {stab : StabilityOps I} {eqI : EqDecision I}
  {json : BeaconJson I} {A : Type} {builder : InstructionBuilder I A}.

Lemma same_hash_ok res h : res = Ok h -> same_hash res h = true.
Proof. intros ->. cbn. by rewrite bool_decide_true. Qed.

(** The header carries the roots of the state it was sealed with. *)
Record sealed_with (s : BestStateBeacon I) (b : BeaconBlock) : Prop := {
  root_validators : VerifyHashFromStringArray
    (BeaconCommittee (committees s) ++ BeaconPendingValidator (committees s)) (ValidatorsRoot (Header b)) = true;
  root_beacon : VerifyHashFromStringArray (CandidateBeaconWaitingForCurrentRandom (candidates s) ++
    CandidateBeaconWaitingForNextRandom (candidates s)) (BeaconCandidateRoot (Header b)) = true;
  root_shard : VerifyHashFromStringArray (CandidateShardWaitingForCurrentRandom (candidates s) ++
    CandidateShardWaitingForNextRandom (candidates s)) (ShardCandidateRoot (Header b)) = true;
  root_shards : VerifyHashFromMapByteString (ShardPendingValidator (committees s))
    (ShardCommittee (committees s)) (ShardValidatorsRoot (Header b)) = true;
  root_states : VerifyHashFromShardState (ShardState_ (Body b)) (ShardStateHash (Header b)) = true;
  root_instructions :
    VerifyHashFromStringArray (concat (Instructions (Body b))) (InstructionHash (Header b)) = true
}.

(** What sealing and signing keep of a draft. *)
Record same_draft (d b : BeaconBlock) : Prop := {
  draft_update : same_update d b;
  draft_version : Version (Header b) = Version (Header d);
  draft_round : Round (Header b) = Round (Header d);
  draft_prev : PrevBlockHash (Header b) = PrevBlockHash (Header d)
}.

Lemma seal_ok s d b : seal s d = Ok b -> sealed_with s b /\ same_draft d b.
Proof.
  unfold seal. cbv zeta.
  destruct (GenerateHashFromStringArray (BeaconCommittee _ ++ _)) as [vr| |] eqn:E1; [|done..]. cbn [mbind outcome_bind].
  destruct (GenerateHashFromStringArray (CandidateBeaconWaitingForCurrentRandom _ ++ _)) as [bcr| |] eqn:E2; [|done..]. cbn [mbind outcome_bind].
  destruct (GenerateHashFromStringArray (CandidateShardWaitingForCurrentRandom _ ++ _)) as [scr| |] eqn:E3; [|done..]. cbn [mbind outcome_bind].
  destruct (GenerateHashFromMapByteString _ _) as [svr| |] eqn:E4; [|done..]. cbn [mbind outcome_bind].
  destruct (GenerateHashFromShardState _) as [ssh| |] eqn:E5; [|done..]. cbn [mbind outcome_bind].
  destruct (GenerateHashFromStringArray (concat _)) as [ih| |] eqn:E6; [|done..]. cbn [mbind outcome_bind].
  intros [= <-]. split; [split; cbn; by apply same_hash_ok|]. by repeat split.
Qed.

Lemma sign_ok s d sk b0 b :
  sig_key sk -> sign_block sk b0 = Ok b -> sealed_with s b0 -> same_draft d b0 ->
  sealed_with s b /\ same_draft d b /\
  ValidateDataB58 (base58_encode (sig_public sk)) (ProducerSig b) (Header_Hash (Header b)) = Ok tt.
Proof.
  intros Hk. unfold sign_block. destruct (sig_sign sk _) as [sg| |] eqn:E; [|done..]. cbn [mbind outcome_bind].
  intros [= <-] [] [[] ? ? ?]. split; [by split|]. split; [by repeat split|]. cbn [ProducerSig Header].
  by apply validate_signed.
Qed.

Lemma random_no_stake timestamp : no_stake (fst (generateRandomInstruction timestamp)).
Proof. by do 2 eexists. Qed.

Lemma generated_plain visit visit' (s best : BestStateBeacon I) height info cs ls :
  (forall m, visit m ≡ₚ map_to_list m) -> info_ok s info ->
  GenerateInstruction visit visit' best height info cs = Ok ls -> Forall (plain s) ls.
Proof.
  intros Hv (H1 & H2 & H3). unfold GenerateInstruction.
  destruct (if _ =? _ then _ else _) as [swapBeacon| |] eqn:Es; [|done..]. cbn [mbind outcome_bind].
  assert (Forall no_stake swapBeacon) as Hsb.
  { destruct (_ =? _); [|by injection Es as <-]. unfold beacon_swap in Es.
    destruct (SwapValidator _ _ _ _); [|done..]. cbn in Es. injection Es as <-.
    destruct (decide _); repeat constructor. by do 2 eexists. }
  assert (Forall no_stake (concat (visit (si_swaps info)).*2)) as Hsw.
  { apply Forall_concat, Forall_fmap, Forall_forall. intros [k l] Hin. rewrite Hv in Hin.
    apply elem_of_map_to_list in Hin. by eapply H2. }
  assert (forall l, Forall no_stake l -> Forall (plain s) l) as Hn.
  { intros l Hl. eapply Forall_impl; [exact Hl|]. intros x Hx. by left. }
  assert (Forall (plain s) (si_stability info ++ concat (visit (si_swaps info)).*2 ++ swapBeacon ++ si_stakers info)) as Hall.
  { rewrite !Forall_app. split_and!; [by apply Hn..|]. eapply Forall_impl; [exact H1|]. intros x Hx. by right. }
  destruct (_ && _); [|by intros [= <-]]. cbn [generateRandomInstruction].
  destruct (AssignValidator _ _ _) as [assigned| |]; [|done..]. cbn [mbind outcome_bind]. intros [= <-].
  apply Forall_app. split; [exact Hall|]. apply Hn. constructor; [by do 2 eexists|].
  apply Forall_forall. intros x Hx. apply list_elem_of_In, in_map_iff in Hx as ([k l] & <- & _). by do 2 eexists.
Qed.

(** A key of the committee is found where [IndexOfStr] says. *)
Lemma at_index_of key (l : list string) : key ∈ l -> at_index l (IndexOfStr key l) = Ok key.
Proof.
  intros Hin. unfold IndexOfStr, at_index. destruct (index_of_spec key l 0) as [[_ Hn]|(i & -> & Hi & _)]; [done|].
  rewrite (proj2 (Z.ltb_ge _ _)) by lia. by rewrite Z.add_0_l, Nat2Z.id, Hi.
Qed.

Lemma at_index_in {X} (l : list X) i x : at_index l i = Ok x -> x ∈ l.
Proof.
  unfold at_index. destruct (_ <? _); [done|]. destruct (l !! _) eqn:E; [|done]. intros [= <-].
  by eapply list_elem_of_lookup_2.
Qed.

(** The checks after the update pass for the state the block was sealed with, whatever
    its chain says but for the producer. *)
Lemma post_ok (s s' : BestStateBeacon I) b snapshot key :
  sealed_with s b -> committees s' = committees s -> candidates s' = candidates s ->
  at_index snapshot (BeaconProposerIdx (chain s')) = Ok key ->
  ValidateDataB58 key (ProducerSig b) (Header_Hash (Header b)) = Ok tt ->
  VerifyPostProcessingBeaconBlock s' b snapshot = Ok tt.
Proof.
  intros [R1 R2 R3 R4 _ _] Hcm Hcd Hidx Hsig. unfold VerifyPostProcessingBeaconBlock. rewrite Hidx.
  cbn [mbind outcome_bind]. rewrite Hsig, Hcm, Hcd. cbn [or_fail mbind outcome_bind].
  by rewrite R1, R2, R3, R4.
Qed.
End Block.
(** ** Agreement *)

Section Agreement.
Context {sha : Sha256} {sigs : Signatures} {I : Type} {stab : StabilityOps I} {eqI : EqDecision I}
  {json : BeaconJson I} {A : Type} {builder : InstructionBuilder I A}
  {D : Type} {lvdb : LevelDB D} {CB : Type}.
#[local] Abbreviation Node := (Node (I := I) (D := D) (CB := CB)).

(** Loops over Go maps visit every entry once. *)
Definition fair (o : Orders) : Prop :=
  (forall m, order_pool o m ≡ₚ map_to_list m) /\ (forall m, order_swaps o m ≡ₚ map_to_list m).

(** The instructions built from those of the shards are of numbered types. *)
Definition builds_no_stake : Prop :=
  forall k ls (best : BestStateBeacon I) (acc : A) built acc',
    build_instructions k ls best acc = Ok (built, acc') -> Forall no_stake built.

(** The best state survives its JSON. *)
Definition json_faithful (s : BestStateBeacon I) : Prop :=
  exists text, best_json s = Ok text /\ best_of_json text = (s, Ok tt).

(** The parent in the store is the block of the best state. *)
Definition parent_known (n : Node) (now : Z) : Prop :=
  let c := chain (Beacon n) in
  exists parent, stored_block (BestBlockHash c) (DataBase n) = Ok parent /\
    Height_ (Header parent) = BeaconHeight c /\ Epoch_ (Header parent) = Epoch c /\
    Timestamp (Header parent) < now.

(** It is the turn of the key in the round. *)
Definition has_turn (s : BestStateBeacon I) (key : string) (round : Z) : Prop :=
  let committee := BeaconCommittee (committees s) in
  at_index committee (Z.rem (BeaconProposerIdx (chain s) + round) (Z.of_nat (length committee))) = Ok key.

(** How a block came about. *)
Record made (o : Orders) (best : BestStateBeacon I) (pool : StbPool) (sk : bytes) (offset : Z)
    (limit : option (gmap Z Z)) (now : Z) (b : BeaconBlock) : Prop := {
  made_body : from_pool limit pool (ShardState_ (Body b));
  made_plain : Forall (plain best) (Instructions (Body b));
  made_draft : exists d, same_draft d b /\
    d = draft best (base58_encode (sig_public sk)) offset now (Instructions (Body b)) (ShardState_ (Body b)) /\
    sealed_with (fst (Update (order_shuffle o) d best)) b /\
    snd (Update (order_shuffle o) d best) <> Panic;
  made_signed : ValidateDataB58 (base58_encode (sig_public sk)) (ProducerSig b) (Header_Hash (Header b)) = Ok tt;
  made_nonzero : best <> zero_state
}.

Lemma set_candidates_self (s : BestStateBeacon I) : set_candidates (candidates s) s = s.
Proof. by destruct s. Qed.

Lemma new_block_made o best pool sk offset limit now b :
  sig_key sk -> fair o -> builds_no_stake -> json_faithful best ->
  NewBlockBeacon o best pool (sig_public sk) sk offset limit now = Ok b ->
  made o best pool sk offset limit now b.
Proof.
  intros Hk [Hpool Hswaps] Hbuilt (text & Ht & Htb). unfold NewBlockBeacon, make_block, working_copy.
  rewrite Ht. cbn [mbind outcome_bind]. rewrite Htb. cbn [mbind outcome_bind]. rewrite set_candidates_self.
  case_decide as Hz; [done|]. cbn [mbind outcome_bind].
  set (offered := snd (ShardToBeaconPool.GetValidPendingBlock limit pool)).
  destruct (GetShardState best best (order_pool o offered)) as [info| |] eqn:Ei; [|done..]. cbn [mbind outcome_bind].
  assert (NoDup (order_pool o offered).*1) as Hnd by (rewrite Hpool; apply NoDup_fst_map_to_list).
  assert (info_ok best (mkShardInfo ∅ [] ∅ [])) as Hempty.
  { split; [constructor|]. split; [intros k l; cbn [si_swaps]; by rewrite lookup_empty|constructor]. }
  apply (shard_loop_ok Hbuilt best best) in Ei as [Hinfo Hst]; [|done..].
  destruct (GenerateInstruction _ _ _ _ _ _) as [ls| |] eqn:Eg; [|done..]. cbn [mbind outcome_bind].
  apply (generated_plain _ _ best) in Eg; [|done..].
  set (d := draft best _ offset now ls (si_states info)).
  destruct (Update (order_shuffle o) d best) as [updated r] eqn:Eu.
  intros H. assert (exists b0, seal updated d = Ok b0 /\ sign_block sk b0 = Ok b) as (b0 & E0 & E1).
  { destruct r; [|destruct (seal updated d) as [b0| |]; [by exists b0|done..]|done];
      destruct (seal updated d) as [b0| |]; [by exists b0|done..]. }
  apply seal_ok in E0 as [Hs0 Hd0]. destruct (sign_ok _ _ _ _ _ Hk E1 Hs0 Hd0) as (Hs & Hd & Hsig).
  assert (Body b = Body d) as Hbody by apply Hd.
  split; rewrite ?Hbody; [|exact Eg| |exact Hsig|exact Hz].
  - intros k. cbn [Body d draft ShardState_]. specialize (Hst k). rewrite (find_entries offered) in Hst by done.
    unfold map_get_list at 2. fold offered. destruct (offered !! k) as [blks|]; cbn in Hst |- *.
    + destruct Hst as [m Hm]. by exists m.
    + by exists 0%nat.
  - exists d. split; [exact Hd|]. split; [done|]. rewrite Eu. split; [done|]. by destruct r.
Qed.

(** The checks before the update. *)
Lemma pre_processing_ok o (n : Node) sk offset limit now b isCommittee :
  made o (Beacon n) (ShardToBeaconPool_ n) sk offset limit now b ->
  ShardToBeaconPool.reachable (ShardToBeaconPool_ n) -> in_u64 (Epoch (chain (Beacon n))) ->
  parent_known n now -> has_turn (Beacon n) (base58_encode (sig_public sk)) (i64 (offset + 1)) ->
  exists n', VerifyPreProcessing b isCommittee n = (n', Ok tt) /\ Beacon n' = Beacon n.
Proof.
  intros [Hbody _ (d & [[Eb Eh Ee Ep Et] Ev Er Epv] & Ed & Hsealed & _) Hsig _] Hreach Hepoch
    (parent & Hparent & Hph & Hpe & Hpt) Hturn.
  unfold VerifyPreProcessing, VerifyPreProcessingBeaconBlock. cbv zeta.
  assert (Producer (Header b) = base58_encode (sig_public sk)) as Hprod by (rewrite Ep, Ed; done).
  assert (PrevBlockHash (Header b) = BestBlockHash (chain (Beacon n))) as Hprev by (rewrite Epv, Ed; done).
  assert (Round (Header b) = i64 (offset + 1)) as Hround by (rewrite Er, Ed; done).
  rewrite Hprod, Hsig, Hround, Hprev, Hparent. cbn [or_fail mbind outcome_bind].
  rewrite (proj2 (Nat.eqb_neq (length (BeaconCommittee (committees (Beacon n)))) 0)).
  2:{ intros Hlen. unfold has_turn in Hturn. apply at_index_in in Hturn.
      destruct (BeaconCommittee _); [by apply elem_of_nil in Hturn|done]. }
  cbn [mbind outcome_bind]. rewrite Hturn. cbn [mbind outcome_bind require].
  rewrite bool_decide_true by done. cbn [require mbind outcome_bind].
  assert (Version (Header b) = VERSION) as -> by (rewrite Ev, Ed; done).
  rewrite Z.eqb_refl. cbn [require mbind outcome_bind]. rewrite Hph.
  assert (Height_ (Header b) = u64 (BeaconHeight (chain (Beacon n)) + 1)) as Hheight by (rewrite Eh, Ed; done).
  rewrite Hheight, Z.eqb_refl. cbn [require mbind outcome_bind].
  assert (Epoch_ (Header b) = if u64 (BeaconHeight (chain (Beacon n)) + 1) mod EPOCH =? 1
    then u64 (Epoch (chain (Beacon n)) + 1) else Epoch (chain (Beacon n))) as -> by (rewrite Ee, Ed; done).
  assert (u64 (u64 (Epoch (chain (Beacon n)) + 1) - 1) = Epoch (chain (Beacon n))) as Hwrap.
  { unfold u64. rewrite Zminus_mod_idemp_l, Z.mod_small; unfold in_u64 in Hepoch; lia. }
  rewrite Hpe. destruct (_ mod EPOCH =? 1) eqn:Hm; cbn [andb negb];
    rewrite ?andb_true_r, ?andb_false_r; cbn [negb require mbind outcome_bind];
    rewrite ?Hwrap, ?Z.eqb_refl; cbn [andb negb]; rewrite ?andb_false_r; cbn [negb require mbind outcome_bind];
    (assert (Timestamp (Header b) = now) as -> by (rewrite Et, Ed; done));
    rewrite (proj2 (Z.ltb_lt _ _) Hpt); cbn [require mbind outcome_bind];
    rewrite (root_states _ _ Hsealed), (root_instructions _ _ Hsealed); cbn [require mbind outcome_bind];
    rewrite (from_pool_ascending _ _ _ Hreach Hbody); cbn [require];
    (destruct isCommittee; [rewrite (from_pool_checks _ _ _ _ Hbody)|]; by eexists).
Qed.

(** C1. A block made by the node whose turn it is, is judged by every node with the same best
    state and the same pool, of the committee or not, by what its own update leads to: where
    the update by the block succeeds, with the shuffle in the producer's order, the checks that
    precede the signing accept it, and where it fails they give its error -- the producer, which
    ignores that error, makes such a block all the same.  The update does not panic, and the
    best state stays. *)
Theorem new_block_accepted (o : Orders) (n : Node) (sk : bytes) (offset : Z) (limit : option (gmap Z Z))
    (now : Z) (b : BeaconBlock) (isCommittee : bool) :
  sig_key sk -> fair o -> builds_no_stake -> json_faithful (Beacon n) ->
  ShardToBeaconPool.reachable (ShardToBeaconPool_ n) -> in_u64 (Epoch (chain (Beacon n))) ->
  u64 (BeaconHeight (chain (Beacon n)) + 1) <> 1 -> parent_known n now ->
  has_turn (Beacon n) (base58_encode (sig_public sk)) (i64 (offset + 1)) ->
  NewBlockBeacon o (Beacon n) (ShardToBeaconPool_ n) (sig_public sk) sk offset limit now = Ok b ->
  exists n', VerifyPreSignBeaconBlock (order_shuffle o) b isCommittee n =
    (n', snd (Update (order_shuffle o) b (Beacon n))) /\
    Beacon n' = Beacon n /\ snd (Update (order_shuffle o) b (Beacon n)) <> Panic.
Proof.
  intros Hkey Hfair Hbuilt Hjson Hreach Hepoch Hh1 Hparent Hturn Hnew.
  pose proof (new_block_made _ _ _ _ _ _ _ _ Hkey Hfair Hbuilt Hjson Hnew) as Hmade.
  destruct (pre_processing_ok _ _ _ _ _ _ _ isCommittee Hmade Hreach Hepoch Hparent Hturn) as (n1 & E1 & Hn1).
  destruct Hmade as [_ Hplain (d & Hd & Ed & Hsealed & Hnp) Hsig Hz].
  pose proof (draft_update _ _ Hd) as Hsame.
  pose proof (Update_reseat (order_shuffle o) d b (Beacon n) Hsame) as Hre. rewrite Hre. cbn [snd].
  exists n1. split; [|done]. unfold VerifyPreSignBeaconBlock. unfold mbind at 1, M_bind at 1. rewrite E1.
  destruct Hjson as (text & Ht & Htb).
  assert (PrevBlockHash (Header b) = BestBlockHash (chain (Beacon n))) as Hprev by (rewrite (draft_prev _ _ Hd), Ed; done).
  mrun. unfold matching_state. rewrite Hn1, Hprev, decide_True by done. rewrite Ht, Htb. cbn [mbind outcome_bind fst].
  rewrite decide_False by done. unfold verify_copy.
  destruct (staking_loop_ok (Beacon n) _ [] [] Hplain) as (l1 & l2 & Eg & Hl1 & Hl2); [constructor..|].
  assert (VerifyBestStateWithBeaconBlock (Beacon n) b false = Ok tt) as ->.
  { unfold VerifyBestStateWithBeaconBlock, GetStakingCandidate. cbv zeta. cbn [mbind outcome_bind].
    rewrite Eg, (same_height _ _ Hsame), (same_epoch _ _ Hsame), Ed, Hprev. cbn [draft Header Height_ Epoch_].
    rewrite Z.eqb_refl, bool_decide_true by done. cbn [require mbind outcome_bind].
    destruct (_ mod EPOCH =? 1); cbn [andb negb]; rewrite Z.eqb_refl; cbn [negb require mbind outcome_bind fst snd];
      by rewrite !check_candidates_ok. }
  cbn [mbind outcome_bind].
  pose proof (Update_seat (order_shuffle o) b (Beacon n)) as Hseat. injection Hseat as _ _ _ _ Hidx.
  rewrite Hre in Hidx |- *. cbn [fst] in Hidx.
  destruct (snd (Update (order_shuffle o) d (Beacon n))) as [[]|e|]; [|done..]. cbn [mbind outcome_bind]. f_equal.
  apply (post_ok (fst (Update (order_shuffle o) d (Beacon n))) _ _ _ (base58_encode (sig_public sk)));
    [done|done|done| |done].
  rewrite Hidx, (same_height _ _ Hsame), (same_producer _ _ Hsame), Ed. cbn [draft Header Height_ Producer].
  rewrite (proj2 (Z.eqb_neq _ 1) Hh1). apply at_index_of. by apply at_index_in in Hturn.
Qed.
End Agreement.

(** ** The instruction builder of the node

    The builder of StabilityProducer.v makes instructions of numbered types only. *)

Section NodeBuilder.
Context {sha : Sha256} {json : Stability.StabilityJson} {vjson : Voting.VotingJson} {S : Type} {lvdb : LevelDB S}
  {lookup : Voting.VoteLookup S}.
Context (visit_table : gmap Hash (gmap bytes Z) -> list (Hash * gmap bytes Z))
  (visit_amounts : gmap bytes Z -> list (bytes * Z)).
Context (chain_best : BestStateBeacon Stability.Info) (store : S).

Lemma built_no_stake inst : StabilityProducer.head_in StabilityProducer.built_types inst -> no_stake inst.
Proof.
  intros (t & Ht & H). destruct inst as [|a rest]; [done|]. injection H as ->. exists (Itoa t), rest. split; [done|].
  assert (Forall (fun t => Itoa t <> "stake") StabilityProducer.built_types) as Hall.
  { apply (bool_decide_unpack _). vm_compute. exact Logic.I. }
  rewrite Forall_forall in Hall. by apply Hall.
Qed.

Lemma format_no_stake ins s : Voting.GetStringFormat ins = Ok s -> no_stake s.
Proof.
  destruct ins as [b ?|b ?|?|? ? b ? ?|ins| | | | |]; cbn [Voting.GetStringFormat]; try done;
    try (destruct (Voting.GetShardIDFromPaymentAddressBytes _); [|done..]; cbn [mbind outcome_bind]);
    intros [= <-]; (eexists _, _; split; [reflexivity|]); unfold Voting.by_board; try case_match; by vm_compute.
Qed.

Lemma formats_no_stake l r : Voting.string_formats l = Ok r -> Forall no_stake r.
Proof.
  revert r. induction l as [|ins l IH]; intros r; cbn [Voting.string_formats]; [by intros [= <-]|].
  destruct (Voting.GetStringFormat ins) as [x| |] eqn:Ex; [|done..]. cbn [mbind outcome_bind].
  destruct (Voting.string_formats l) as [xs| |]; [|done..]. intros [= <-]. constructor; [by eapply format_no_stake|by apply IH].
Qed.

Lemma voting_no_stake : StabilityProducer.yields (Forall no_stake)
  (StabilityProducer.voting visit_table visit_amounts chain_best).
Proof.
  unfold StabilityProducer.voting. apply StabilityProducer.yields_bind. intros height s s' l. unfold StabilityProducer.on_votes.
  destruct (Voting.generateVotingInstructionWOIns _ _ _ _ _) as [d r] eqn:E. intros [= _ ->]. revert E.
  unfold Voting.generateVotingInstructionWOIns. intros E.
  apply M_bind_ok in E as (s1 & x1 & _ & E). apply M_bind_ok in E as (s2 & x2 & _ & E).
  apply M_bind_ok in E as (s3 & x3 & Hf & E). apply M_bind_ok in E as (s4 & x4 & _ & E).
  apply M_bind_ok in E as (s5 & x5 & _ & E). injection E as _ <-. injection Hf as _ Hf. by eapply formats_no_stake.
Qed.

Lemma node_builds_no_stake :
  builds_no_stake (builder := StabilityProducer.instruction_builder visit_table visit_amounts chain_best store).
Proof.
  intros k ls best acc built acc'. unfold build_instructions, StabilityProducer.instruction_builder.
  destruct (StabilityProducer.buildStabilityInstructions _ _ _ _ _ _ _) as [s' [l| |]] eqn:E; [|done..]. intros [= <- _].
  unfold StabilityProducer.buildStabilityInstructions in E. apply M_bind_ok in E as (s1 & v & Hv & E).
  apply M_bind_ok in E as (s2 & b & Hb & E). injection E as _ <-. apply Forall_app. split.
  - by eapply voting_no_stake.
  - apply StabilityProducer.loop_heads in Hb. eapply Forall_impl; [exact Hb|]. apply built_no_stake.
Qed.
End NodeBuilder.

(** ** A small chain

    The node of BeaconInsert.v with a shard block in its pool. *)

#[local] Existing Instance QuickHash.quick_hash.
#[local] Existing Instance echo_signatures.
#[local] Existing Instance fund_stability.
#[local] Existing Instance sample_json.

#[local] Instance no_instructions : InstructionBuilder Z unit :=
  {| no_values := tt; build_instructions := fun _ _ _ v => Ok ([], v) |}.

Definition sample_shard_block : ShardToBeaconBlock :=
  mkShardToBeacon "" "" [] "" [["stake"; "n1,n2"; "shard"]]
    (mkShardHeader (mkPaymentAddress [1] [2]) "a" 1 1 zero_hash 2 1 1 500 zero_hash zero_hash zero_hash
       zero_hash zero_hash zero_hash [2] 3 zero_hash).

Definition pool_node : Node (I := Z) (D := gmap bytes bytes) (CB := Z) :=
  set_s2b (fst (ShardToBeaconPool.AddShardToBeaconBlock sample_shard_block ShardToBeaconPool.newPool))
    sample_node.

Lemma pool_reachable : ShardToBeaconPool.reachable (ShardToBeaconPool_ pool_node).
Proof. apply rtc_once. apply ShardToBeaconPool.step_add. by_compute. Qed.

Definition sample_orders : Orders := mkOrders map_to_list map_to_list map_to_list id_order.

Definition made_block : BeaconBlock :=
  Eval vm_compute in
  match NewBlockBeacon sample_orders sample_best (ShardToBeaconPool_ pool_node) sample_key sample_key 1 None 1000 with
  | Ok b => b
  | _ => sample_parent
  end.

(** A shard block that swaps two validators at once, and the beacon block made of it. *)
Definition swapping_node : Node (I := Z) (D := gmap bytes bytes) (CB := Z) :=
  set_s2b (fst (ShardToBeaconPool.AddShardToBeaconBlock
    (mkShardToBeacon "" "" [] "" [["swap"; "n1,n2"; "o1,o2"; "shard"; "1"]] (stb_Header sample_shard_block))
    ShardToBeaconPool.newPool)) sample_node.

Definition refused_block : BeaconBlock :=
  Eval vm_compute in
  match NewBlockBeacon sample_orders sample_best (ShardToBeaconPool_ swapping_node) sample_key sample_key 1 None 1000 with
  | Ok b => b
  | _ => sample_parent
  end.
Lemma swapping_reachable : ShardToBeaconPool.reachable (ShardToBeaconPool_ swapping_node).
Proof. apply rtc_once. apply ShardToBeaconPool.step_add. by_compute. Qed.

Lemma sample_parent_known (n : Node (I := Z) (D := gmap bytes bytes) (CB := Z)) : Beacon n = sample_best -> DataBase n = DataBase sample_node -> parent_known n 1000.
Proof. intros E1 E2. unfold parent_known. rewrite E1, E2. exists sample_parent. split; [vm_compute; reflexivity|]. by_compute. Qed.

(** A block that every node accepts, and one that its producer makes and every node refuses. *)
Lemma new_block_accepted_witness :
  (Instructions (Body made_block) = [["stake"; "n1,n2"; "shard"]] /\
   exists n', VerifyPreSignBeaconBlock id_order made_block true pool_node = (n', Ok tt)) /\
  Instructions (Body refused_block) = [["swap"; "n1,n2"; "o1,o2"; "shard"; "1"]] /\
  exists n' e, VerifyPreSignBeaconBlock id_order refused_block true swapping_node = (n', Err e).
Proof.
  assert (fair sample_orders) as Hfair by (by split).
  assert (builds_no_stake (builder := no_instructions)) as Hb by (intros k ls best acc built acc' [= <- _]; constructor).
  assert (json_faithful sample_best) as Hj by (by exists [4]).
  destruct (new_block_accepted sample_orders pool_node sample_key 1 None 1000 made_block true) as (n1 & H1 & _);
    [exact Logic.I|exact Hfair|exact Hb|exact Hj|exact pool_reachable|by_compute|discriminate|by apply sample_parent_known|
     vm_compute; reflexivity|vm_compute; reflexivity|].
  destruct (new_block_accepted sample_orders swapping_node sample_key 1 None 1000 refused_block true) as (n2 & H2 & _);
    [exact Logic.I|exact Hfair|exact Hb|exact Hj|exact swapping_reachable|by_compute|discriminate|by apply sample_parent_known|
     vm_compute; reflexivity|vm_compute; reflexivity|].
  change (order_shuffle sample_orders) with id_order in *.
  assert (snd (Update id_order made_block sample_best) = Ok tt) as E1 by (vm_compute; reflexivity).
  assert (snd (Update id_order refused_block sample_best) = Err "Unexpected error") as E2 by (vm_compute; reflexivity).
  change (Beacon pool_node) with sample_best in H1. change (Beacon swapping_node) with sample_best in H2.
  rewrite E1 in H1. rewrite E2 in H2. repeat split; [by exists n1|]. by exists n2, "Unexpected error".
Defined.
End BeaconAgreement.
